(** * Course catalog front end: a shallow embedding of the page scripts

    The scripts under [src/js] drive a static course catalog: [index.js]
    (home page with single-select filters and a load-more list),
    [listing.js] (catalog page with multi-select filters and numbered
    pages), [domain.js] and [track.js] (browsing pages), [home.js] and
    [theme.js].  Each script is embedded below in a module of its own,
    named after the file, on top of a small model of the JavaScript
    values and DOM elements the scripts touch. *)

From Stdlib Require Import String Ascii DecimalString.
From Stdlib Require Import List ZArith QArith Qround Qpower Bool Lia Lqa Sorted Permutation.
Import ListNotations.

Close Scope Q_scope.
Open Scope list_scope.

(** ** JavaScript strings

    A string is its sequence of UTF-16 code units; [===] on strings is
    equality of these sequences. *)

Definition jsstr := list N.

Definition lit (s : string) : jsstr :=
  List.map N_of_ascii (list_ascii_of_string s).

Fixpoint str_eqb (a b : jsstr) : bool :=
  match a, b with
  | [], [] => true
  | x :: a', y :: b' => N.eqb x y && str_eqb a' b'
  | _, _ => false
  end.

(** ToBoolean of a string: the empty string is the only falsy one. *)
Definition truthy (s : jsstr) : bool :=
  match s with [] => false | _ :: _ => true end.

(** [String.prototype.startsWith] and [String.prototype.includes]. *)
Fixpoint startsWith (s p : jsstr) : bool :=
  match p, s with
  | [], _ => true
  | _ :: _, [] => false
  | y :: p', x :: s' => N.eqb x y && startsWith s' p'
  end.

Fixpoint includes (s t : jsstr) : bool :=
  startsWith s t ||
  match s with
  | [] => false
  | _ :: s' => includes s' t
  end.

(** WhiteSpace and LineTerminator code units, the ones [trim] strips. *)
Definition isWhiteSpace (c : N) : bool :=
  existsb (N.eqb c)
    [9; 10; 11; 12; 13; 32; 160; 5760; 8192; 8193; 8194; 8195; 8196; 8197;
     8198; 8199; 8200; 8201; 8202; 8232; 8233; 8239; 8287; 12288; 65279]%N.

Fixpoint trimStart (s : jsstr) : jsstr :=
  match s with
  | c :: s' => if isWhiteSpace c then trimStart s' else s
  | [] => []
  end.

Definition trimEnd (s : jsstr) : jsstr := rev (trimStart (rev s)).

Definition trim (s : jsstr) : jsstr := trimEnd (trimStart s).

(** Template literal [`${n}`] for a non-negative integer. *)
Definition showNat (n : nat) : jsstr :=
  lit (NilEmpty.string_of_uint (Nat.to_uint n)).

(** Array.prototype.includes on an array of strings. *)
Definition arr_includes (l : list jsstr) (v : jsstr) : bool :=
  existsb (fun x => str_eqb x v) l.

(** The built-ins whose result depends on Unicode tables or on the
    locale are taken as an interface: [toLowerCase], [localeCompare]
    (only its sign is used) and [parseFloat] ([None] stands for NaN). *)
Class JsBuiltins := {
  toLowerCase : jsstr -> jsstr;
  localeCompare : jsstr -> jsstr -> Z;
  parseFloat : jsstr -> option Q
}.


(** Default comparison of [Array.prototype.sort()] on strings: code
    units compared lexicographically; the result is -1, 0 or 1. *)
Fixpoint codeUnitCompare (a b : jsstr) : Z :=
  match a, b with
  | [], [] => 0%Z
  | [], _ :: _ => (-1)%Z
  | _ :: _, [] => 1%Z
  | x :: a', y :: b' =>
      match N.compare x y with
      | Lt => (-1)%Z
      | Gt => 1%Z
      | Eq => codeUnitCompare a' b'
      end
  end.

(** ** Numbers

    A (finite) JavaScript number is modelled by the rational it stands
    for; products and quotients are rounded as the double arithmetic
    rounds them (see [mulNumber] and [divNumber] below). *)

Definition Qltb (a b : Q) : bool := negb (Qle_bool b a).


(** [Math.ceil (n / d)] on lengths. *)
Definition ceilDiv (n : nat) (d : Z) : Z :=
  Qceiling (inject_Z (Z.of_nat n) / inject_Z d)%Q.

(** ** Arrays

    [Array.prototype.slice (start, end)] with its relative indices. *)
Definition jsslice {A : Type} (start fin : Z) (l : list A) : list A :=
  let len := Z.of_nat (length l) in
  let k := if (start <? 0)%Z then Z.max (len + start) 0 else Z.min start len in
  let final := if (fin <? 0)%Z then Z.max (len + fin) 0 else Z.min fin len in
  firstn (Z.to_nat (final - k)) (skipn (Z.to_nat k) l).

(** [Array.prototype.sort (cmp)].  ECMAScript requires the sort to be
    stable, and for a consistent comparator the stable sorted
    permutation is unique; it is computed here by insertion, an element
    staying in front of a later one unless the comparator is positive. *)
Section Sort.
Context {A : Type} (cmp : A -> A -> Q).

Definition before (a b : A) : bool := Qle_bool (cmp a b) 0%Q.

Fixpoint insert (x : A) (l : list A) : list A :=
  match l with
  | [] => [x]
  | y :: l' => if before x y then x :: l else y :: insert x l'
  end.

Fixpoint sortWith (l : list A) : list A :=
  match l with
  | [] => []
  | x :: l' => insert x (sortWith l')
  end.
End Sort.

(** [Array.from (new Set (l))]: first occurrences, in insertion order. *)
Fixpoint uniq (seen l : list jsstr) : list jsstr :=
  match l with
  | [] => []
  | x :: l' =>
      if arr_includes seen x then uniq seen l' else x :: uniq (x :: seen) l'
  end.

(** An object used as a counter table ([counts[k] = (counts[k] || 0) + 1]):
    keys in insertion order, as [Object.keys] lists names that are not
    array indices. *)
Fixpoint tally (counts : list (jsstr * nat)) (k : jsstr) : list (jsstr * nat) :=
  match counts with
  | [] => [(k, 1)]
  | (k', n) :: rest =>
      if str_eqb k' k then (k', S n) :: rest else (k', n) :: tally rest k
  end.

Definition counts_get (counts : list (jsstr * nat)) (k : jsstr) : nat :=
  match find (fun p => str_eqb (fst p) k) counts with
  | Some p => snd p
  | None => 0
  end.

Definition sortDefault (l : list jsstr) : list jsstr :=
  sortWith (fun a b => inject_Z (codeUnitCompare a b)) l.

(** ** Course records

    The fields of an entry of [coursesData] that the scripts compute
    with, and the three prices, which a card prints with
    [toLocaleString] and which a record may lack; the remaining fields
    (the urls) are only printed on cards. *)
Record Course := {
  title : jsstr;
  track : jsstr;
  level : jsstr;
  domains : list jsstr;
  tools : list jsstr;
  rating : Q;
  students : Q;
  weeks : Q;
  lmsPriceInr : option Q;
  videoPriceInr : option Q;
  livePriceInr : option Q
}.

(** Whether [course.lmsPriceInr.toLocaleString ()],
    [course.videoPriceInr.toLocaleString ()] and
    [course.livePriceInr.toLocaleString ()] can be evaluated: on a
    price that is missing the property read throws a TypeError. *)
Definition priced (course : Course) : bool :=
  match lmsPriceInr course, videoPriceInr course, livePriceInr course with
  | Some _, Some _, Some _ => true
  | _, _, _ => false
  end.

(** ** The store of course arrays

    Arrays of courses are objects: [filter], [slice] and the spread
    [[...a]] allocate a new array, [sort] rearranges the array it is
    called on.  A location is an index in the store. *)
Definition loc := nat.
Definition Heap := list (list Course).

Definition deref (h : Heap) (l : loc) : list Course := nth l h [].

Definition alloc (h : Heap) (a : list Course) : loc * Heap :=
  (length h, h ++ [a]).

Fixpoint store (h : Heap) (l : loc) (a : list Course) : Heap :=
  match h, l with
  | [], _ => []
  | _ :: h', O => a :: h'
  | x :: h', S l' => x :: store h' l' a
  end.

Definition arr_filter (p : Course -> bool) (l : loc) (h : Heap) : loc * Heap :=
  alloc h (filter p (deref h l)).

Definition arr_spread (l : loc) (h : Heap) : loc * Heap :=
  alloc h (deref h l).

Definition arr_sort (cmp : Course -> Course -> Q) (l : loc) (h : Heap) : Heap :=
  store h l (sortWith cmp (deref h l)).

(** ** DOM elements *)

(** An [<option>]: its value attribute, its label, and its flags. *)
Record OptionEl := {
  value : jsstr;
  textContent : jsstr;
  disabled : bool;
  selected : bool
}.

(** A [<select>] is the list of its options in tree order. *)
Definition SelectEl := list OptionEl.

Definition selectedOptions (sel : SelectEl) : list OptionEl :=
  filter selected sel.

(** Getter of [select.value]: the value of the first selected option,
    the empty string when none is selected. *)
Definition select_value (sel : SelectEl) : jsstr :=
  match selectedOptions sel with
  | o :: _ => value o
  | [] => []
  end.

Definition set_selected (b : bool) (o : OptionEl) : OptionEl :=
  {| value := value o; textContent := textContent o;
     disabled := disabled o; selected := b |}.

(** Setter of [select.value]: every option is deselected, then the
    first option whose value is the new one, if any, is selected. *)
Fixpoint set_select_value (v : jsstr) (sel : SelectEl) : SelectEl :=
  match sel with
  | [] => []
  | o :: sel' =>
      if str_eqb (value o) v
      then set_selected true o :: List.map (set_selected false) sel'
      else set_selected false o :: set_select_value v sel'
  end.

(** [Array.from (sel.selectedOptions).map (o => o.value).filter (Boolean)] *)
Definition selectedValues (sel : SelectEl) : list jsstr :=
  filter truthy (List.map value (selectedOptions sel)).

(** [Array.from (sel.options).forEach (opt => { if (opt.value === v)
    opt.selected = false; })] on a multiple select. *)
Definition deselectValue (v : jsstr) (sel : SelectEl) : SelectEl :=
  List.map (fun opt => if str_eqb (value opt) v then set_selected false opt else opt) sel.

(** The body shared by the four [forEach] loops of [updateFilterCounts]:
    the empty option gets its fixed label and is enabled, any other
    option gets [`${val} (${count})`] and is disabled at count zero. *)
Definition relabel (allLabel : jsstr) (count : jsstr -> nat) (opt : OptionEl) : OptionEl :=
  let val := value opt in
  if negb (truthy val) then
    {| value := val; textContent := allLabel;
       disabled := false; selected := selected opt |}
  else
    let n := count val in
    {| value := val;
       textContent := val ++ lit " (" ++ showNat n ++ lit ")";
       disabled := Nat.eqb n 0; selected := selected opt |}.

Inductive View := GridView | ListView.

(** Children of a course container: a card built by [createCourseCard]
    or the "No courses match" paragraph.  The card is that of a record
    with its prices; where a script is followed from its start to its
    end ([IndexUi.init], [DomainPage.init], [TrackPage.init]) the
    TypeError of a record without them is part of the model. *)
Inductive Node :=
| CourseCard (course : Course)
| NoResults.

Definition createCourseCard (course : Course) : Node := CourseCard course.

Inductive Button := LoadMoreBtn | ShowMoreBtn | ShowLessBtn.

(** The [data-filter-type] of an active-filter chip. *)
Inductive FilterType :=
| FSearch | FTrack | FDomain | FTool | FLevel | FRating | FDuration.

(** Children of [#activeFilters]: a chip carries its label and the two
    arguments its click handler passes to [removeFilter]. *)
Inductive ChipEl :=
| Chip (label : jsstr) (type : FilterType) (val : jsstr)
| ClearAll.

Definition createChip (label : jsstr) (type : FilterType) (val : jsstr) : ChipEl :=
  Chip label type val.

(** [if (chips.length > 1) chips.push (clearBtn)] *)
Definition withClearAll (chips : list ChipEl) : list ChipEl :=
  if (1 <? length chips)%nat then chips ++ [ClearAll] else chips.

(** The comparator both [applyFilters] functions hand to [sort]. *)
Definition sortComparator `{JsBuiltins} (sortBy : jsstr) (a b : Course) : Q :=
  if str_eqb sortBy (lit "rating") then (rating b - rating a)%Q
  else if str_eqb sortBy (lit "students") then (students b - students a)%Q
  else if str_eqb sortBy (lit "duration") then (weeks a - weeks b)%Q
  else inject_Z (localeCompare (title a) (title b)).

(** [course.title.toLowerCase ().includes (term)] *)
Definition titleHas `{JsBuiltins} (course : Course) (term : jsstr) : bool :=
  includes (toLowerCase (title course)) term.

(** [course.domains.some (d => selected.includes (d))] *)
Definition overlaps (l selectedL : list jsstr) : bool :=
  existsb (fun d => arr_includes selectedL d) l.

(** ** Products and quotients of numbers

    A number of the scripts is a double.  The model writes it as a
    rational; comparisons, [Math.floor] and [Math.round] are taken on
    the rational as it is written, and so is the sign of a difference,
    which the double arithmetic keeps.  A product or a quotient is
    rounded: each operand stands for the double nearest to it, and the
    result is the double nearest to the exact result, an even
    significand winning a tie.  Beyond the largest double the result is
    an infinity, for which the power 2^1024 stands: this keeps the
    sign of every difference that a comparator returns, the difference
    of two equal infinities, which is not a number, counting as zero
    there. *)

Definition pow2 (e : Z) : Q := (2 ^ e)%Q.

(** The nearest integer, the even one of two that are equally near. *)
Definition roundHalfEven (q : Q) : Z :=
  let f := Qfloor q in
  match Qcompare (q - inject_Z f) (1 # 2) with
  | Lt => f
  | Gt => (f + 1)%Z
  | Eq => if Z.even f then f else (f + 1)%Z
  end.

(** The exponent e with 2^e <= q < 2^(e+1), for a positive q. *)
Definition binade (q : Q) : Z :=
  let e0 := (Z.log2 (Qnum q) - Z.log2 (Zpos (Qden q)))%Z in
  if Qltb q (pow2 e0) then (e0 - 1)%Z else e0.

(** The double nearest to a positive rational: 53 significant bits,
    and no bit below 2^-1074. *)
Definition roundPositive (q : Q) : Q :=
  let u := Z.max (binade q - 52) (-1074) in
  let v := (inject_Z (roundHalfEven (q / pow2 u)) * pow2 u)%Q in
  if Qle_bool (pow2 1024) v then pow2 1024 else v.

Definition roundDouble (q : Q) : Q :=
  match Qcompare q 0 with
  | Eq => 0%Q
  | Gt => roundPositive q
  | Lt => (- roundPositive (- q))%Q
  end.

(** [a * b] and [a / b] on numbers. *)
Definition mulNumber (a b : Q) : Q :=
  roundDouble (roundDouble a * roundDouble b).

Definition divNumber (a b : Q) : Q :=
  roundDouble (roundDouble a / roundDouble b).

(** ** [encodeURIComponent]

    Letters, digits and the nine marks (hyphen, underscore, full stop,
    exclamation mark, tilde, asterisk, apostrophe and the two
    parentheses) are kept; every other code point is written as the
    percent-escapes of the bytes of its UTF-8 encoding.  A
    surrogate that is not half of a pair makes the function throw a
    URIError, here [None]. *)

Definition isUnreserved (c : N) : bool :=
  ((65 <=? c) && (c <=? 90) || (97 <=? c) && (c <=? 122)
   || (48 <=? c) && (c <=? 57)
   || existsb (N.eqb c) [45; 95; 46; 33; 126; 42; 39; 40; 41])%N.

Definition isLeadSurrogate (c : N) : bool := ((55296 <=? c) && (c <=? 56319))%N.

Definition isTrailSurrogate (c : N) : bool := ((56320 <=? c) && (c <=? 57343))%N.

(** An upper-case hexadecimal digit. *)
Definition hexDigit (n : N) : N := (if n <? 10 then 48 + n else 55 + n)%N.

Definition percentByte (b : N) : jsstr :=
  [37%N; hexDigit ((b / 16) mod 16); hexDigit (b mod 16)].

Definition utf8 (cp : N) : list N :=
  (if cp <? 128 then [cp]
   else if cp <? 2048 then [192 + cp / 64; 128 + cp mod 64]
   else if cp <? 65536 then
     [224 + cp / 4096; 128 + (cp / 64) mod 64; 128 + cp mod 64]
   else
     [240 + cp / 262144; 128 + (cp / 4096) mod 64;
      128 + (cp / 64) mod 64; 128 + cp mod 64])%N.

Definition percentEncode (cp : N) : jsstr := flat_map percentByte (utf8 cp).

(** The code point of a surrogate pair. *)
Definition pairCodePoint (lead trail : N) : N :=
  ((lead - 55296) * 1024 + (trail - 56320) + 65536)%N.

Fixpoint encodeURIComponent (s : jsstr) : option jsstr :=
  match s with
  | [] => Some []
  | c :: s' =>
      if isUnreserved c then option_map (cons c) (encodeURIComponent s')
      else if isTrailSurrogate c then None
      else if isLeadSurrogate c then
        match s' with
        | d :: s'' =>
            if isTrailSurrogate d
            then option_map (app (percentEncode (pairCodePoint c d)))
                            (encodeURIComponent s'')
            else None
        | [] => None
        end
      else option_map (app (percentEncode c)) (encodeURIComponent s')
  end.

(** [names.forEach (name => ... encodeURIComponent (name) ...)]: the
    encoded names, or [None] at the first name on which
    [encodeURIComponent] throws. *)
Fixpoint encodeAll (names : list jsstr) : option (list jsstr) :=
  match names with
  | [] => Some []
  | name :: rest =>
      match encodeURIComponent name with
      | Some enc => option_map (cons enc) (encodeAll rest)
      | None => None
      end
  end.

(** What an encoded string is made of: unreserved characters and the
    percent sign. *)
Definition isUriChar (c : N) : bool := isUnreserved c || N.eqb c 37.

(** [String.prototype.isWellFormed]: no surrogate stands alone. *)
Fixpoint isWellFormed (s : jsstr) : bool :=
  match s with
  | [] => true
  | c :: s' =>
      if isTrailSurrogate c then false
      else if isLeadSurrogate c then
        match s' with
        | d :: s'' => isTrailSurrogate d && isWellFormed s''
        | [] => false
        end
      else isWellFormed s'
  end.

(** ** Sanitised names

    The chain of two [replace] and a [trim] that
    [generateDomainDescription], [generateTrackDescription] and the
    three [updateMetaTags] apply to a name: the first [replace] drops
    every parenthesised group (an opening parenthesis, as few
    characters as possible, a closing parenthesis), the second drops
    the two quotes and the two angle brackets. *)

(** The characters that [.] does not match. *)
Definition isLineTerminator (c : N) : bool :=
  existsb (N.eqb c) [10; 13; 8232; 8233]%N.

(** After an opening parenthesis: how many code units the lazy
    quantifier takes before the first closing parenthesis; there is no
    match when a line terminator or the end of the string comes
    first. *)
Fixpoint groupLength (s : jsstr) : option nat :=
  match s with
  | [] => None
  | c :: s' =>
      if N.eqb c 41 then Some 0
      else if isLineTerminator c then None
      else option_map S (groupLength s')
  end.

(** The first [replace], scanning from the left: [skip] code units of
    the current match are still to be dropped. *)
Fixpoint dropGroups (skip : nat) (s : jsstr) : jsstr :=
  match s with
  | [] => []
  | c :: s' =>
      match skip with
      | S k => dropGroups k s'
      | O =>
          if N.eqb c 40 then
            match groupLength s' with
            | Some n => dropGroups (S n) s'
            | None => c :: dropGroups 0 s'
            end
          else c :: dropGroups 0 s'
      end
  end.

Definition stripParens (s : jsstr) : jsstr := dropGroups 0 s.

(** The character class of the second [replace]: double quote,
    apostrophe, less-than and greater-than. *)
Definition isMarkupChar (c : N) : bool := existsb (N.eqb c) [34; 39; 60; 62]%N.

Definition stripQuotes (s : jsstr) : jsstr :=
  filter (fun c => negb (isMarkupChar c)) s.

Definition cleanName (name : jsstr) : jsstr :=
  trim (stripQuotes (stripParens name)).

(** How many times a code unit occurs in a string. *)
Definition occurrences (c : N) (s : jsstr) : nat := length (filter (N.eqb c) s).

(** ** [Object.keys]

    The keys that are array indices come first, in numeric order; the
    other keys follow in the order of their creation. *)

Definition isDigit (c : N) : bool := ((48 <=? c) && (c <=? 57))%N.

Definition digitsValue (k : jsstr) : N :=
  fold_left (fun acc c => (acc * 10 + (c - 48))%N) k 0%N.

(** The array index that a key is the canonical numeric string of. *)
Definition arrayIndexOf (k : jsstr) : option N :=
  match k with
  | [] => None
  | c :: rest =>
      if forallb isDigit k
         && (negb (N.eqb c 48) || Nat.eqb (length rest) 0)
         && (digitsValue k <? 4294967295)%N
      then Some (digitsValue k) else None
  end.

Definition isArrayIndex (k : jsstr) : bool :=
  match arrayIndexOf k with Some _ => true | None => false end.

Definition indexOrZero (k : jsstr) : Z :=
  match arrayIndexOf k with Some n => Z.of_N n | None => 0%Z end.

Definition objectKeys (counts : list (jsstr * nat)) : list jsstr :=
  let keys := List.map fst counts in
  sortWith (fun a b => inject_Z (indexOrZero a - indexOrZero b))
           (filter isArrayIndex keys)
    ++ filter (fun k => negb (isArrayIndex k)) keys.

(** ** Counter objects

    Names counted in an object literal, as by
    [counts[k] = (counts[k] || 0) + 1].  The key [__proto__] is the
    accessor that every object inherits, and its setter ignores a value
    that is no object: this key is never created.  Every other name
    becomes a key of the object.  The table records how many times a
    key was counted. *)
Definition inheritedAccessor (k : jsstr) : bool := str_eqb k (lit "__proto__").

Definition tallyOwn (counts : list (jsstr * nat)) (k : jsstr) : list (jsstr * nat) :=
  if inheritedAccessor k then counts else tally counts k.

(** The names of the functions that every object inherits from
    [Object.prototype].  The first time such a name is counted,
    [counts[k] || 0] is the inherited function, and adding 1 to it
    gives the source text of the function followed by the digit 1;
    every further count appends another 1. *)
Definition inheritedMethods : list jsstr :=
  [lit "constructor"; lit "__defineGetter__"; lit "__defineSetter__";
   lit "hasOwnProperty"; lit "__lookupGetter__"; lit "__lookupSetter__";
   lit "isPrototypeOf"; lit "propertyIsEnumerable"; lit "toString";
   lit "valueOf"; lit "toLocaleString"].

(** The value that a counter object holds for a key: a number, or the
    source text of the inherited function of that name followed by so
    many digits 1. *)
Inductive CountVal :=
| Num (n : nat)
| NativeText (name : jsstr) (ones : nat).

(** The value of a key that was counted [n] times. *)
Definition counterValue (k : jsstr) (n : nat) : CountVal :=
  if arr_includes inheritedMethods k then NativeText k n else Num n.

Definition counts_value (counts : list (jsstr * nat)) (k : jsstr) : CountVal :=
  counterValue k (counts_get counts k).


(** [domain.charCodeAt (i)]; [None] is the NaN of an index out of range,
    which the sum then propagates. *)
Definition charCodeAt (s : jsstr) (i : nat) : option N := nth_error s i.

Definition addCode (sum : option N) (code : option N) : option N :=
  match sum, code with
  | Some a, Some c => Some (a + c)%N
  | _, _ => None
  end.

(** ** index.js: the home page *)
Module Index.

Definition categoriesPerPage : Z := 8.
Definition itemsPerPage : Z := 12.

Definition domainIcons : list jsstr :=
  [lit "fa-brain"; lit "fa-robot"; lit "fa-atom"; lit "fa-chart-line";
   lit "fa-cubes"; lit "fa-microscope"; lit "fa-dna"; lit "fa-laptop-code";
   lit "fa-layer-group"; lit "fa-flask"; lit "fa-rocket";
   lit "fa-satellite-dish"; lit "fa-shield-alt"; lit "fa-vr-cardboard";
   lit "fa-magnet"].

(** The [for] loop runs over the indices [0 .. domain.length - 1];
    an element of [domainIcons] out of range would be [undefined],
    here [None]. *)
Definition getIconForDomain (domain : jsstr) : option jsstr :=
  let sum :=
    fold_left (fun sum i => addCode sum (charCodeAt domain i))
              (seq 0 (length domain)) (Some 0%N) in
  match sum with
  | Some n => nth_error domainIcons (N.to_nat (n mod N.of_nat (length domainIcons)))
  | None => None
  end.

(** Script variables. *)
Record Vars := {
  heap : Heap;
  courses : loc;
  filteredCourses : loc;
  currentView : View;
  currentPage : Z;
  categoriesPage : Z
}.

(** Form controls: the value of the search box and of the sort select,
    and the options of the four single-select filters. *)
Record Controls := {
  searchInput : jsstr;
  trackFilter : SelectEl;
  domainFilter : SelectEl;
  toolFilter : SelectEl;
  levelFilter : SelectEl;
  sortBySelect : jsstr
}.

Inductive CategoryCard :=
| CategoryCardEl (domain : jsstr) (iconClass : option jsstr).

(** What the script renders.  A container that [getElementById] may
    not find, and that the script tests for, is an [option]. *)
Record Document := {
  resultsCount : jsstr;
  coursesContainer : list Node;
  loadMoreContainer : option (list Button);
  activeFiltersDiv : option (list ChipEl);
  categoriesContainer : option (list CategoryCard);
  categoriesLoadMoreContainer : option (list Button);
  featuredCoursesContainer : option (list Node)
}.

Record State := { vars : Vars; ctl : Controls; doc : Document }.

Section Script.
Context `{JsBuiltins}.

(** The callback of [courses.filter] in [applyFilters]. *)
Definition keepCourse
    (searchTerm selectedTrack selectedDomain selectedTool selectedLevel : jsstr)
    (course : Course) : bool :=
  if truthy searchTerm && negb (titleHas course searchTerm) then false
  else if truthy selectedTrack && negb (str_eqb (track course) selectedTrack) then false
  else if truthy selectedDomain && negb (arr_includes (domains course) selectedDomain) then false
  else if truthy selectedTool && negb (arr_includes (tools course) selectedTool) then false
  else if truthy selectedLevel && negb (str_eqb (level course) selectedLevel) then false
  else true.

Definition renderCourses (s : State) : State :=
  let v := vars s in
  let d := doc s in
  let fc := deref (heap v) (filteredCourses v) in
  let n := length fc in
  let totalToShow := (currentPage v * itemsPerPage)%Z in
  let coursesToShow := jsslice 0 totalToShow fc in
  {| vars := v; ctl := ctl s;
     doc :=
       {| resultsCount :=
            showNat n ++ lit " course"
              ++ (if Nat.eqb n 1 then [] else lit "s") ++ lit " found";
          coursesContainer :=
            if Nat.eqb n 0 then [NoResults]
            else List.map createCourseCard coursesToShow;
          loadMoreContainer :=
            match loadMoreContainer d with
            | None => None
            | Some _ =>
                if Nat.eqb n 0 then Some []
                else if (length coursesToShow <? n)%nat
                     then Some [LoadMoreBtn] else Some []
            end;
          activeFiltersDiv := activeFiltersDiv d;
          categoriesContainer := categoriesContainer d;
          categoriesLoadMoreContainer := categoriesLoadMoreContainer d;
          featuredCoursesContainer := featuredCoursesContainer d |} |}.

(** [x || null] *)
Definition orNull (x : jsstr) : option jsstr :=
  if truthy x then Some x else None.

(** [arg && field !== arg] and [arg && !arr.includes (arg)] for an
    argument that may be [null]. *)
Definition differs (field : jsstr) (arg : option jsstr) : bool :=
  match arg with
  | Some a => truthy a && negb (str_eqb field a)
  | None => false
  end.

Definition lacks (arr : list jsstr) (arg : option jsstr) : bool :=
  match arg with
  | Some a => truthy a && negb (arr_includes arr a)
  | None => false
  end.

Definition countFor (cs : list Course) (searchTerm : jsstr)
    (track_ domain_ tool_ level_ : option jsstr) : nat :=
  fold_left (fun acc course =>
    if truthy searchTerm && negb (titleHas course searchTerm) then acc
    else if differs (track course) track_ then acc
    else if lacks (domains course) domain_ then acc
    else if lacks (tools course) tool_ then acc
    else if differs (level course) level_ then acc
    else acc + 1) cs 0.

Definition updateFilterCounts (s : State) : State :=
  let cs := deref (heap (vars s)) (courses (vars s)) in
  if Nat.eqb (length cs) 0 then s else
  let c := ctl s in
  let searchTerm := toLowerCase (trim (searchInput c)) in
  let currentTrack := select_value (trackFilter c) in
  let currentDomain := select_value (domainFilter c) in
  let currentTool := select_value (toolFilter c) in
  let currentLevel := select_value (levelFilter c) in
  {| vars := vars s;
     ctl :=
       {| searchInput := searchInput c;
          trackFilter :=
            List.map (relabel (lit "All Tracks") (fun val =>
              countFor cs searchTerm (Some val) (orNull currentDomain)
                       (orNull currentTool) (orNull currentLevel)))
              (trackFilter c);
          domainFilter :=
            List.map (relabel (lit "All Domains") (fun val =>
              fold_left (fun acc course =>
                if truthy searchTerm && negb (titleHas course searchTerm) then acc
                else if truthy currentTrack && negb (str_eqb (track course) currentTrack) then acc
                else if negb (arr_includes (domains course) val) then acc
                else if truthy currentTool && negb (arr_includes (tools course) currentTool) then acc
                else if truthy currentLevel && negb (str_eqb (level course) currentLevel) then acc
                else acc + 1) cs 0))
              (domainFilter c);
          toolFilter :=
            List.map (relabel (lit "All Tools") (fun val =>
              fold_left (fun acc course =>
                if truthy searchTerm && negb (titleHas course searchTerm) then acc
                else if truthy currentTrack && negb (str_eqb (track course) currentTrack) then acc
                else if truthy currentDomain && negb (arr_includes (domains course) currentDomain) then acc
                else if negb (arr_includes (tools course) val) then acc
                else if truthy currentLevel && negb (str_eqb (level course) currentLevel) then acc
                else acc + 1) cs 0))
              (toolFilter c);
          levelFilter :=
            List.map (relabel (lit "All Levels") (fun val =>
              fold_left (fun acc course =>
                if truthy searchTerm && negb (titleHas course searchTerm) then acc
                else if truthy currentTrack && negb (str_eqb (track course) currentTrack) then acc
                else if truthy currentDomain && negb (arr_includes (domains course) currentDomain) then acc
                else if truthy currentTool && negb (arr_includes (tools course) currentTool) then acc
                else if negb (str_eqb (level course) val) then acc
                else acc + 1) cs 0))
              (levelFilter c);
          sortBySelect := sortBySelect c |};
     doc := doc s |}.

Definition chipIf (type : FilterType) (val : jsstr) : list ChipEl :=
  if truthy val then [createChip val type val] else [].

Definition updateActiveFilters (s : State) : State :=
  let d := doc s in
  match activeFiltersDiv d with
  | None => s
  | Some _ =>
      let c := ctl s in
      let searchTerm := trim (searchInput c) in
      let trackVal := select_value (trackFilter c) in
      let domainVal := select_value (domainFilter c) in
      let toolVal := select_value (toolFilter c) in
      let levelVal := select_value (levelFilter c) in
      let chips :=
        chipIf FSearch searchTerm ++ chipIf FTrack trackVal
          ++ chipIf FDomain domainVal ++ chipIf FTool toolVal
          ++ chipIf FLevel levelVal in
      {| vars := vars s; ctl := c;
         doc :=
           {| resultsCount := resultsCount d;
              coursesContainer := coursesContainer d;
              loadMoreContainer := loadMoreContainer d;
              activeFiltersDiv := Some (withClearAll chips);
              categoriesContainer := categoriesContainer d;
              categoriesLoadMoreContainer := categoriesLoadMoreContainer d;
              featuredCoursesContainer := featuredCoursesContainer d |} |}
  end.

Definition applyFilters (s : State) : State :=
  let c := ctl s in
  let v := vars s in
  let searchTerm := toLowerCase (trim (searchInput c)) in
  let selectedTrack := select_value (trackFilter c) in
  let selectedDomain := select_value (domainFilter c) in
  let selectedTool := select_value (toolFilter c) in
  let selectedLevel := select_value (levelFilter c) in
  let sortBy := sortBySelect c in
  let '(fc, h1) :=
    arr_filter (keepCourse searchTerm selectedTrack selectedDomain
                           selectedTool selectedLevel)
               (courses v) (heap v) in
  let h2 := arr_sort (sortComparator sortBy) fc h1 in
  let s1 :=
    {| vars :=
         {| heap := h2; courses := courses v; filteredCourses := fc;
            currentView := currentView v; currentPage := 1;
            categoriesPage := categoriesPage v |};
       ctl := c; doc := doc s |} in
  updateActiveFilters (updateFilterCounts (renderCourses s1)).

Definition setControls (c : Controls) (s : State) : State :=
  {| vars := vars s; ctl := c; doc := doc s |}.

(** The handler of a chip: [removeFilter (type, value)].  The types
    that only the catalog page knows fall to [default]. *)
Definition removeFilter (type : FilterType) (val : jsstr) (s : State) : State :=
  let c := ctl s in
  let c' :=
    match type with
    | FSearch =>
        {| searchInput := []; trackFilter := trackFilter c;
           domainFilter := domainFilter c; toolFilter := toolFilter c;
           levelFilter := levelFilter c; sortBySelect := sortBySelect c |}
    | FTrack =>
        {| searchInput := searchInput c;
           trackFilter := set_select_value [] (trackFilter c);
           domainFilter := domainFilter c; toolFilter := toolFilter c;
           levelFilter := levelFilter c; sortBySelect := sortBySelect c |}
    | FDomain =>
        {| searchInput := searchInput c; trackFilter := trackFilter c;
           domainFilter := set_select_value [] (domainFilter c);
           toolFilter := toolFilter c;
           levelFilter := levelFilter c; sortBySelect := sortBySelect c |}
    | FTool =>
        {| searchInput := searchInput c; trackFilter := trackFilter c;
           domainFilter := domainFilter c;
           toolFilter := set_select_value [] (toolFilter c);
           levelFilter := levelFilter c; sortBySelect := sortBySelect c |}
    | FLevel =>
        {| searchInput := searchInput c; trackFilter := trackFilter c;
           domainFilter := domainFilter c; toolFilter := toolFilter c;
           levelFilter := set_select_value [] (levelFilter c);
           sortBySelect := sortBySelect c |}
    | FRating | FDuration => c
    end in
  applyFilters (setControls c' s).

Definition clearAllFilters (s : State) : State :=
  let c := ctl s in
  applyFilters (setControls
    {| searchInput := [];
       trackFilter := set_select_value [] (trackFilter c);
       domainFilter := set_select_value [] (domainFilter c);
       toolFilter := set_select_value [] (toolFilter c);
       levelFilter := set_select_value [] (levelFilter c);
       sortBySelect := sortBySelect c |} s).

(** The click listener that [init] puts on [#loadMoreContainer],
    for a click that hits [#loadMoreBtn]. *)
Definition clickLoadMore (s : State) : State :=
  let v := vars s in
  renderCourses
    {| vars :=
         {| heap := heap v; courses := courses v;
            filteredCourses := filteredCourses v;
            currentView := currentView v;
            currentPage := (currentPage v + 1)%Z;
            categoriesPage := categoriesPage v |};
       ctl := ctl s; doc := doc s |}.

Definition renderCategories (s : State) : State :=
  let d := doc s in
  let v := vars s in
  match categoriesContainer d with
  | None => s
  | Some _ =>
      let domainCounts :=
        fold_left (fun counts course => fold_left tallyOwn (domains course) counts)
                  (deref (heap v) (courses v)) [] in
      let sorted :=
        sortWith (fun a b => inject_Z (localeCompare a b))
                 (objectKeys domainCounts) in
      let len := Z.of_nat (length sorted) in
      let visibleCount := Z.min (categoriesPerPage * categoriesPage v) len in
      let categoriesToShow := jsslice 0 visibleCount sorted in
      {| vars := v; ctl := ctl s;
         doc :=
           {| resultsCount := resultsCount d;
              coursesContainer := coursesContainer d;
              loadMoreContainer := loadMoreContainer d;
              activeFiltersDiv := activeFiltersDiv d;
              categoriesContainer :=
                Some (List.map (fun domain =>
                        CategoryCardEl domain (getIconForDomain domain))
                      categoriesToShow);
              categoriesLoadMoreContainer :=
                match categoriesLoadMoreContainer d with
                | None => None
                | Some _ =>
                    if (categoriesPerPage <? len)%Z then
                      if (len <=? categoriesPerPage * categoriesPage v)%Z
                      then Some [ShowLessBtn] else Some [ShowMoreBtn]
                    else Some []
                end;
              featuredCoursesContainer := featuredCoursesContainer d |} |}
  end.

Definition renderFeaturedCourses (s : State) : State :=
  let d := doc s in
  let v := vars s in
  match featuredCoursesContainer d with
  | None => s
  | Some _ =>
      let '(sortedCourses, h1) := arr_spread (courses v) (heap v) in
      let h2 :=
        arr_sort (fun a b => (mulNumber (rating b) (students b)
                              - mulNumber (rating a) (students a))%Q)
                 sortedCourses h1 in
      let topCourses := jsslice 0 6 (deref h2 sortedCourses) in
      {| vars :=
           {| heap := h2; courses := courses v;
              filteredCourses := filteredCourses v;
              currentView := currentView v;
              currentPage := currentPage v;
              categoriesPage := categoriesPage v |};
         ctl := ctl s;
         doc :=
           {| resultsCount := resultsCount d;
              coursesContainer := coursesContainer d;
              loadMoreContainer := loadMoreContainer d;
              activeFiltersDiv := activeFiltersDiv d;
              categoriesContainer := categoriesContainer d;
              categoriesLoadMoreContainer := categoriesLoadMoreContainer d;
              featuredCoursesContainer :=
                Some (List.map createCourseCard topCourses) |} |}
  end.

End Script.
End Index.

(** ** listing.js: the catalog page

    The four facet filters are [<select multiple>] elements; the rating
    and duration selects may be absent from the page. *)
Module Listing.

Definition coursesPerPage : Z := 6.

Record Vars := {
  heap : Heap;
  courses : loc;
  filteredCourses : loc;
  currentView : View;
  currentPage : Z
}.

Record Controls := {
  searchInput : jsstr;
  trackFilter : SelectEl;
  domainFilter : SelectEl;
  toolFilter : SelectEl;
  levelFilter : SelectEl;
  ratingFilter : option SelectEl;
  durationFilter : option SelectEl;
  sortBySelect : jsstr
}.

(** Entries of [pagesToShow]. *)
Inductive PageItem :=
| PageNumber (i : Z)
| EllipsisStart
| EllipsisEnd.

(** Children of [#paginationControls].  The Next button keeps the
    [totalPages] its handler closed over. *)
Inductive PageEl :=
| PrevBtn (isDisabled : bool)
| PageBtn (i : Z) (isDisabled : bool)
| EllipsisSpan
| NextBtn (isDisabled : bool) (totalPages : Z).

Record Document := {
  resultsCount : jsstr;
  coursesContainer : list Node;
  paginationControls : option (list PageEl);
  activeFiltersDiv : option (list ChipEl)
}.

Record State := { vars : Vars; ctl : Controls; doc : Document }.

(** [for (let i = a; i <= b; i++)] *)
Definition fromTo (a b : Z) : list Z :=
  List.map (fun k => (a + Z.of_nat k)%Z) (seq 0 (Z.to_nat (b - a + 1))).

Section Script.
Context `{JsBuiltins}.

(** [x || dflt] *)
Definition orElse (x dflt : jsstr) : jsstr := if truthy x then x else dflt.

(** [ratingFilter ? parseFloat (ratingFilter.value || '0') : 0] *)
Definition ratingThresholdOf (c : Controls) : option Q :=
  match ratingFilter c with
  | Some sel => parseFloat (orElse (select_value sel) (lit "0"))
  | None => Some 0%Q
  end.

(** [durationFilter ? durationFilter.value : 'all'] *)
Definition durationCategoryOf (c : Controls) : jsstr :=
  match durationFilter c with
  | Some sel => select_value sel
  | None => lit "all"
  end.

(** [!isNaN (t) && t > 0 && course.rating < t] *)
Definition belowThreshold (ratingThreshold : option Q) (course : Course) : bool :=
  match ratingThreshold with
  | Some t => Qltb 0%Q t && Qltb (rating course) t
  | None => false
  end.

Definition passesRatingDuration (ratingThreshold : option Q)
    (durationCategory : jsstr) (course : Course) : bool :=
  if belowThreshold ratingThreshold course then false
  else if truthy durationCategory && negb (str_eqb durationCategory (lit "all")) then
    let w := weeks course in
    if str_eqb durationCategory (lit "short") && negb (Qltb w 4%Q) then false
    else if str_eqb durationCategory (lit "medium")
            && negb (Qle_bool 4%Q w && Qle_bool w 8%Q) then false
    else if str_eqb durationCategory (lit "long") && negb (Qltb 8%Q w) then false
    else true
  else true.

Definition countByTrack (baseFiltered : list Course)
    (selectedTracks selectedDomains selectedTools selectedLevels : list jsstr)
    (track_ : jsstr) : nat :=
  fold_left (fun acc course =>
    if (0 <? length selectedDomains)%nat && negb (overlaps (domains course) selectedDomains) then acc
    else if (0 <? length selectedTools)%nat && negb (overlaps (tools course) selectedTools) then acc
    else if (0 <? length selectedLevels)%nat && negb (arr_includes selectedLevels (level course)) then acc
    else if str_eqb (track course) track_ || arr_includes selectedTracks (track course) then acc + 1
    else acc) baseFiltered 0.

Definition countByDomain (baseFiltered : list Course)
    (selectedTracks selectedDomains selectedTools selectedLevels : list jsstr)
    (domain_ : jsstr) : nat :=
  fold_left (fun acc course =>
    if (0 <? length selectedTracks)%nat && negb (arr_includes selectedTracks (track course)) then acc
    else if (0 <? length selectedTools)%nat && negb (overlaps (tools course) selectedTools) then acc
    else if (0 <? length selectedLevels)%nat && negb (arr_includes selectedLevels (level course)) then acc
    else if arr_includes (domains course) domain_ || overlaps (domains course) selectedDomains then acc + 1
    else acc) baseFiltered 0.

Definition countByTool (baseFiltered : list Course)
    (selectedTracks selectedDomains selectedTools selectedLevels : list jsstr)
    (tool_ : jsstr) : nat :=
  fold_left (fun acc course =>
    if (0 <? length selectedTracks)%nat && negb (arr_includes selectedTracks (track course)) then acc
    else if (0 <? length selectedDomains)%nat && negb (overlaps (domains course) selectedDomains) then acc
    else if (0 <? length selectedLevels)%nat && negb (arr_includes selectedLevels (level course)) then acc
    else if arr_includes (tools course) tool_ || overlaps (tools course) selectedTools then acc + 1
    else acc) baseFiltered 0.

Definition countByLevel (baseFiltered : list Course)
    (selectedTracks selectedDomains selectedTools selectedLevels : list jsstr)
    (level_ : jsstr) : nat :=
  fold_left (fun acc course =>
    if (0 <? length selectedTracks)%nat && negb (arr_includes selectedTracks (track course)) then acc
    else if (0 <? length selectedDomains)%nat && negb (overlaps (domains course) selectedDomains) then acc
    else if (0 <? length selectedTools)%nat && negb (overlaps (tools course) selectedTools) then acc
    else if str_eqb (level course) level_ || arr_includes selectedLevels (level course) then acc + 1
    else acc) baseFiltered 0.

(** [baseFiltered]: the courses that pass the search term, the
    rating threshold and the duration category.  The array is only
    read, so it is kept as a plain list. *)
Definition baseFilteredOf (term : jsstr) (ratingThreshold : option Q)
    (durationCategory : jsstr) (cs : list Course) : list Course :=
  filter (fun course =>
    if truthy term && negb (titleHas course term) then false
    else passesRatingDuration ratingThreshold durationCategory course) cs.

Definition updateFilterCounts (s : State) : State :=
  let cs := deref (heap (vars s)) (courses (vars s)) in
  if Nat.eqb (length cs) 0 then s else
  let c := ctl s in
  let term := toLowerCase (trim (searchInput c)) in
  let selectedTracks := selectedValues (trackFilter c) in
  let selectedDomains := selectedValues (domainFilter c) in
  let selectedTools := selectedValues (toolFilter c) in
  let selectedLevels := selectedValues (levelFilter c) in
  let ratingThreshold := ratingThresholdOf c in
  let durationCategory := durationCategoryOf c in
  let baseFiltered := baseFilteredOf term ratingThreshold durationCategory cs in
  {| vars := vars s;
     ctl :=
       {| searchInput := searchInput c;
          trackFilter :=
            List.map (relabel (lit "All Tracks")
              (countByTrack baseFiltered selectedTracks selectedDomains
                            selectedTools selectedLevels)) (trackFilter c);
          domainFilter :=
            List.map (relabel (lit "All Domains")
              (countByDomain baseFiltered selectedTracks selectedDomains
                             selectedTools selectedLevels)) (domainFilter c);
          toolFilter :=
            List.map (relabel (lit "All Tools")
              (countByTool baseFiltered selectedTracks selectedDomains
                           selectedTools selectedLevels)) (toolFilter c);
          levelFilter :=
            List.map (relabel (lit "All Levels")
              (countByLevel baseFiltered selectedTracks selectedDomains
                            selectedTools selectedLevels)) (levelFilter c);
          ratingFilter := ratingFilter c;
          durationFilter := durationFilter c;
          sortBySelect := sortBySelect c |};
     doc := doc s |}.

(** The callback of [courses.filter] in [applyFilters]. *)
Definition keepCourse (searchTerm : jsstr)
    (selectedTracks selectedDomains selectedTools selectedLevels : list jsstr)
    (ratingThreshold : option Q) (durationCategory : jsstr)
    (course : Course) : bool :=
  if truthy searchTerm && negb (titleHas course searchTerm) then false
  else if (0 <? length selectedTracks)%nat && negb (arr_includes selectedTracks (track course)) then false
  else if (0 <? length selectedDomains)%nat && negb (overlaps (domains course) selectedDomains) then false
  else if (0 <? length selectedTools)%nat && negb (overlaps (tools course) selectedTools) then false
  else if (0 <? length selectedLevels)%nat && negb (arr_includes selectedLevels (level course)) then false
  else if belowThreshold ratingThreshold course then false
  else if truthy durationCategory && negb (str_eqb durationCategory (lit "all")) then
    let w := weeks course in
    if str_eqb durationCategory (lit "short") && negb (Qltb w 4%Q) then false
    else if str_eqb durationCategory (lit "medium")
            && negb (Qle_bool 4%Q w && Qle_bool w 8%Q) then false
    else if str_eqb durationCategory (lit "long") && negb (Qltb 8%Q w) then false
    else true
  else true.

Definition pagesToShow (totalPages currentPage_ : Z) : list PageItem :=
  if (totalPages <=? 7)%Z then List.map PageNumber (fromTo 1 totalPages)
  else
    [PageNumber 1]
      ++ (if (3 <? currentPage_)%Z then [EllipsisStart] else [])
      ++ List.map PageNumber
           (fromTo (Z.max 2 (currentPage_ - 1))
                   (Z.min (totalPages - 1) (currentPage_ + 1)))
      ++ (if (currentPage_ <? totalPages - 2)%Z then [EllipsisEnd] else [])
      ++ [PageNumber totalPages].

(** The children that [renderPagination] leaves in
    [#paginationControls], when that element exists. *)
Definition paginationChildren (n : nat) (currentPage_ : Z) : list PageEl :=
  let totalPages := ceilDiv n coursesPerPage in
  if (totalPages <=? 1)%Z then []
  else
    [PrevBtn (currentPage_ =? 1)%Z]
      ++ List.map (fun item =>
           match item with
           | PageNumber i => PageBtn i (i =? currentPage_)%Z
           | EllipsisStart | EllipsisEnd => EllipsisSpan
           end) (pagesToShow totalPages currentPage_)
      ++ [NextBtn (currentPage_ =? totalPages)%Z totalPages].

Definition renderPagination (s : State) : State :=
  let d := doc s in
  let v := vars s in
  match paginationControls d with
  | None => s
  | Some _ =>
      {| vars := v; ctl := ctl s;
         doc :=
           {| resultsCount := resultsCount d;
              coursesContainer := coursesContainer d;
              paginationControls :=
                Some (paginationChildren
                        (length (deref (heap v) (filteredCourses v)))
                        (currentPage v));
              activeFiltersDiv := activeFiltersDiv d |} |}
  end.

Definition renderCourses (s : State) : State :=
  let v := vars s in
  let d := doc s in
  let fc := deref (heap v) (filteredCourses v) in
  let n := length fc in
  let startIndex := ((currentPage v - 1) * coursesPerPage)%Z in
  let endIndex := (startIndex + coursesPerPage)%Z in
  let coursesToShow := jsslice startIndex endIndex fc in
  let count := showNat n ++ lit " course"
                 ++ (if Nat.eqb n 1 then [] else lit "s") ++ lit " found" in
  if Nat.eqb n 0 then
    {| vars := v; ctl := ctl s;
       doc :=
         {| resultsCount := count;
            coursesContainer := [NoResults];
            paginationControls :=
              match paginationControls d with
              | None => None
              | Some _ => Some []
              end;
            activeFiltersDiv := activeFiltersDiv d |} |}
  else
    renderPagination
      {| vars := v; ctl := ctl s;
         doc :=
           {| resultsCount := count;
              coursesContainer := List.map createCourseCard coursesToShow;
              paginationControls := paginationControls d;
              activeFiltersDiv := activeFiltersDiv d |} |}.

Definition setPage (p : Z) (s : State) : State :=
  let v := vars s in
  {| vars :=
       {| heap := heap v; courses := courses v;
          filteredCourses := filteredCourses v;
          currentView := currentView v; currentPage := p |};
     ctl := ctl s; doc := doc s |}.

(** Click handlers of the Prev, page-number and Next buttons. *)
Definition clickPrev (s : State) : State :=
  if (1 <? currentPage (vars s))%Z
  then renderCourses (setPage (currentPage (vars s) - 1) s) else s.

Definition clickPage (i : Z) (s : State) : State :=
  renderCourses (setPage i s).

Definition clickNext (totalPages : Z) (s : State) : State :=
  if (currentPage (vars s) <? totalPages)%Z
  then renderCourses (setPage (currentPage (vars s) + 1) s) else s.

Definition chipsOf (type : FilterType) (vals : list jsstr) : list ChipEl :=
  List.map (fun v => createChip v type v) vals.

(** The label of the rating chip is [`Rating ≥ ${ratingVal}`]. *)
Definition ratingLabel (ratingVal : jsstr) : jsstr :=
  lit "Rating " ++ [8805%N] ++ lit " " ++ ratingVal.

Definition durationLabel (durationVal : jsstr) : jsstr :=
  if str_eqb durationVal (lit "short") then lit "< 4 weeks"
  else if str_eqb durationVal (lit "medium") then lit "4" ++ [8211%N] ++ lit "8 weeks"
  else if str_eqb durationVal (lit "long") then lit "> 8 weeks"
  else durationVal.

Definition updateActiveFilters (s : State) : State :=
  let d := doc s in
  match activeFiltersDiv d with
  | None => s
  | Some _ =>
      let c := ctl s in
      let searchTerm := trim (searchInput c) in
      let selectedTracks := selectedValues (trackFilter c) in
      let selectedDomains := selectedValues (domainFilter c) in
      let selectedTools := selectedValues (toolFilter c) in
      let selectedLevels := selectedValues (levelFilter c) in
      let ratingVal :=
        match ratingFilter c with
        | Some sel => select_value sel
        | None => lit "0"
        end in
      let durationVal := durationCategoryOf c in
      let chips :=
        (if truthy searchTerm then [createChip searchTerm FSearch searchTerm] else [])
          ++ chipsOf FTrack selectedTracks
          ++ chipsOf FDomain selectedDomains
          ++ chipsOf FTool selectedTools
          ++ chipsOf FLevel selectedLevels
          ++ (if truthy ratingVal && negb (str_eqb ratingVal (lit "0"))
              then [createChip (ratingLabel ratingVal) FRating ratingVal] else [])
          ++ (if truthy durationVal && negb (str_eqb durationVal (lit "all"))
              then [createChip (durationLabel durationVal) FDuration durationVal] else []) in
      {| vars := vars s; ctl := c;
         doc :=
           {| resultsCount := resultsCount d;
              coursesContainer := coursesContainer d;
              paginationControls := paginationControls d;
              activeFiltersDiv := Some (withClearAll chips) |} |}
  end.

(** [updateMetaTags], which [applyFilters] calls before rendering,
    only rewrites the document head and is left out. *)
Definition applyFilters (s : State) : State :=
  let c := ctl s in
  let v := vars s in
  let searchTerm := toLowerCase (trim (searchInput c)) in
  let selectedTracks := selectedValues (trackFilter c) in
  let selectedDomains := selectedValues (domainFilter c) in
  let selectedTools := selectedValues (toolFilter c) in
  let selectedLevels := selectedValues (levelFilter c) in
  let ratingThreshold := ratingThresholdOf c in
  let durationCategory := durationCategoryOf c in
  let sortBy := sortBySelect c in
  let '(fc, h1) :=
    arr_filter (keepCourse searchTerm selectedTracks selectedDomains
                           selectedTools selectedLevels
                           ratingThreshold durationCategory)
               (courses v) (heap v) in
  let h2 := arr_sort (sortComparator sortBy) fc h1 in
  let s1 :=
    {| vars :=
         {| heap := h2; courses := courses v; filteredCourses := fc;
            currentView := currentView v; currentPage := 1 |};
       ctl := c; doc := doc s |} in
  updateActiveFilters (updateFilterCounts (renderCourses s1)).

Definition setControls (c : Controls) (s : State) : State :=
  {| vars := vars s; ctl := c; doc := doc s |}.

Definition removeFilter (type : FilterType) (val : jsstr) (s : State) : State :=
  let c := ctl s in
  let c' :=
    match type with
    | FTrack =>
        {| searchInput := searchInput c;
           trackFilter := deselectValue val (trackFilter c);
           domainFilter := domainFilter c; toolFilter := toolFilter c;
           levelFilter := levelFilter c; ratingFilter := ratingFilter c;
           durationFilter := durationFilter c; sortBySelect := sortBySelect c |}
    | FDomain =>
        {| searchInput := searchInput c; trackFilter := trackFilter c;
           domainFilter := deselectValue val (domainFilter c);
           toolFilter := toolFilter c;
           levelFilter := levelFilter c; ratingFilter := ratingFilter c;
           durationFilter := durationFilter c; sortBySelect := sortBySelect c |}
    | FTool =>
        {| searchInput := searchInput c; trackFilter := trackFilter c;
           domainFilter := domainFilter c;
           toolFilter := deselectValue val (toolFilter c);
           levelFilter := levelFilter c; ratingFilter := ratingFilter c;
           durationFilter := durationFilter c; sortBySelect := sortBySelect c |}
    | FLevel =>
        {| searchInput := searchInput c; trackFilter := trackFilter c;
           domainFilter := domainFilter c; toolFilter := toolFilter c;
           levelFilter := deselectValue val (levelFilter c);
           ratingFilter := ratingFilter c;
           durationFilter := durationFilter c; sortBySelect := sortBySelect c |}
    | FRating =>
        {| searchInput := searchInput c; trackFilter := trackFilter c;
           domainFilter := domainFilter c; toolFilter := toolFilter c;
           levelFilter := levelFilter c;
           ratingFilter := option_map (set_select_value (lit "0")) (ratingFilter c);
           durationFilter := durationFilter c; sortBySelect := sortBySelect c |}
    | FDuration =>
        {| searchInput := searchInput c; trackFilter := trackFilter c;
           domainFilter := domainFilter c; toolFilter := toolFilter c;
           levelFilter := levelFilter c; ratingFilter := ratingFilter c;
           durationFilter := option_map (set_select_value (lit "all")) (durationFilter c);
           sortBySelect := sortBySelect c |}
    | FSearch =>
        {| searchInput := []; trackFilter := trackFilter c;
           domainFilter := domainFilter c; toolFilter := toolFilter c;
           levelFilter := levelFilter c; ratingFilter := ratingFilter c;
           durationFilter := durationFilter c; sortBySelect := sortBySelect c |}
    end in
  applyFilters (setControls c' s).

Definition clearAllFilters (s : State) : State :=
  let c := ctl s in
  applyFilters (setControls
    {| searchInput := [];
       trackFilter := List.map (set_selected false) (trackFilter c);
       domainFilter := List.map (set_selected false) (domainFilter c);
       toolFilter := List.map (set_selected false) (toolFilter c);
       levelFilter := List.map (set_selected false) (levelFilter c);
       ratingFilter := option_map (set_select_value (lit "0")) (ratingFilter c);
       durationFilter := option_map (set_select_value (lit "all")) (durationFilter c);
       sortBySelect := sortBySelect c |} s).

End Script.
End Listing.

(** ** domain.js and track.js: the generated descriptions

    The markup that [init] assigns to [innerHTML] of the description
    element.  The double quote is written by its code unit. *)
Module Seo.

Definition dq : jsstr := [34%N].

(** [generateDomainDescription]; [None] when [encodeURIComponent]
    throws. *)
Definition generateDomainDescription (domainName : jsstr) : option jsstr :=
  let cleanName_ := cleanName domainName in
  match encodeURIComponent domainName with
  | None => None
  | Some enc =>
      let url := lit "listing.html?domain=" ++ enc in
      Some (lit "Courses in the " ++ cleanName_
              ++ lit " domain teach you key skills and concepts. Explore tools and courses below to find your perfect match. <a href="
              ++ dq ++ url ++ dq
              ++ lit " class=" ++ dq ++ lit "text-blue-600 underline" ++ dq
              ++ lit " rel=" ++ dq ++ lit "noopener noreferrer" ++ dq
              ++ lit ">View all " ++ cleanName_ ++ lit " courses</a>.")
  end.

Definition generateTrackDescription (track_ : jsstr) : option jsstr :=
  let cleanName_ := cleanName track_ in
  match encodeURIComponent track_ with
  | None => None
  | Some enc =>
      let url := lit "listing.html?track=" ++ enc in
      Some (lit "The " ++ cleanName_
              ++ lit " track covers a curated set of courses designed to help you master key concepts and skills. Browse domains, tools and courses below to dive deeper. <a href="
              ++ dq ++ url ++ dq
              ++ lit " class=" ++ dq ++ lit "text-blue-600 underline" ++ dq
              ++ lit " rel=" ++ dq ++ lit "noopener noreferrer" ++ dq
              ++ lit ">See all " ++ cleanName_ ++ lit " courses</a>.")
  end.

End Seo.

(** ** Exceptions

    A property read on [null] or [undefined], or a call of something
    that is not a function, throws a TypeError; [encodeURIComponent]
    throws a URIError on a string with a lone surrogate. *)
Inductive JsError := TypeError | URIError.

Inductive Result (A : Type) :=
| Ok (a : A)
| Throw (e : JsError).

Arguments Ok {A} a.
Arguments Throw {A} e.

Definition bind {A B : Type} (r : Result A) (k : A -> Result B) : Result B :=
  match r with
  | Ok a => k a
  | Throw e => Throw e
  end.

Notation "x <- r ;; k" := (bind r (fun x => k))
  (at level 61, r at next level, right associativity).

(** [encodeURIComponent] as a step of a script. *)
Definition encoded (s : jsstr) : Result jsstr :=
  match encodeURIComponent s with
  | Some enc => Ok enc
  | None => Throw URIError
  end.

(** Cards of the tool list of the domain page and of the domain list
    of the track page: the heading, the count that the paragraph
    prints before ' course' or ' courses', and the target of the
    link. *)
Record ListCard := {
  cardTitle : jsstr;
  cardCount : CountVal;
  cardHref : jsstr
}.

(** [forEach] over the names of a card list, up to the first
    exception. *)
Fixpoint cardsOf (card : jsstr -> Result ListCard) (names : list jsstr)
  : Result (list ListCard) :=
  match names with
  | [] => Ok []
  | name :: rest =>
      c <- card name ;;
      cs <- cardsOf card rest ;;
      Ok (c :: cs)
  end.

(** [forEach (course => list.appendChild (createCourseCard (course)))] *)
Definition courseCards (courses : list Course) : Result (list Node) :=
  if forallb priced courses then Ok (List.map createCourseCard courses)
  else Throw TypeError.

(** Content of a description element: a text assigned to
    [textContent], or markup assigned to [innerHTML]. *)
Inductive Description :=
| PlainText (s : jsstr)
| Markup (html : jsstr).

(** ** domain.js: the domain page

    The page state is the part of the document that [init] writes to,
    but for the meta tags and the year of the footer, which
    [updateMetaTags] and the last lines of [init] set without a
    step that can throw. *)
Module DomainPage.

(** [#domainDescription] is looked up with a test in two of the three
    branches, so it may be missing; the other elements are taken to
    exist. *)
Record Document := {
  domainName : jsstr;
  domainDescription : option Description;
  hidden : list jsstr;
  toolsHeading : jsstr;
  toolList : list ListCard;
  courseList : list Node
}.

Definition notFoundMessage : jsstr := lit "No courses found for this domain.".

(** The card of a domain in the list of all domains. *)
Definition domainCard (domainCounts : list (jsstr * nat)) (d : jsstr)
  : Result ListCard :=
  enc <- encoded d ;;
  Ok {| cardTitle := d;
        cardCount := counts_value domainCounts d;
        cardHref := lit "domain.html?domain=" ++ enc |}.

(** The card of a tool of a domain. *)
Definition toolCard (domainName_ : jsstr) (toolCounts : list (jsstr * nat))
    (tool : jsstr) : Result ListCard :=
  encDomain <- encoded domainName_ ;;
  encTool <- encoded tool ;;
  Ok {| cardTitle := tool;
        cardCount := counts_value toolCounts tool;
        cardHref := lit "listing.html?domain=" ++ encDomain
                      ++ lit "&tool=" ++ encTool |}.

Section Script.
Context `{JsBuiltins}.

(** The branch of [init] for a missing or empty [domain] parameter:
    the list of all domains. *)
Definition renderAllDomains (courses : list Course) (d : Document)
  : Result Document :=
  let domainCounts :=
    fold_left (fun counts course => fold_left tallyOwn (domains course) counts)
              courses [] in
  let domainNames := sortDefault (objectKeys domainCounts) in
  cards <- cardsOf (domainCard domainCounts) domainNames ;;
  Ok {| domainName := lit "All Domains";
        domainDescription :=
          option_map (fun _ => PlainText (lit
            "Browse all available domains at NanoSchool. Select a domain to view tools and courses associated with that field."))
            (domainDescription d);
        hidden := lit "aboutDomain" :: lit "coursesSection" :: lit "toc" :: hidden d;
        toolsHeading := lit "Domains";
        toolList := cards;
        courseList := courseList d |}.

(** [courses.filter (course => Array.isArray (course.domains) &&
    course.domains.includes (name))] *)
Definition coursesOf (courses : list Course) (name : jsstr) : list Course :=
  filter (fun course => arr_includes (domains course) name) courses.

(** The two attempts of [init]: the resolved name and its courses. *)
Definition resolve (courses : list Course) (domainParam : jsstr)
  : jsstr * list Course :=
  let domainName := domainParam in
  let filtered := coursesOf courses domainName in
  if Nat.eqb (length filtered) 0 then
    let lowerParam := toLowerCase domainName in
    let allDomains := uniq [] (flat_map domains courses) in
    match find (fun d => includes (toLowerCase d) lowerParam) allDomains with
    | Some match_ =>
        if truthy match_ then (match_, coursesOf courses match_)
        else (domainName, filtered)
    | None => (domainName, filtered)
    end
  else (domainName, filtered).

(** The branch of [init] for a name with courses.  The markup of
    the description is built before it is assigned. *)
Definition renderDomain (domainName_ : jsstr) (filtered : list Course)
    (d : Document) : Result Document :=
  match Seo.generateDomainDescription domainName_ with
  | None => Throw URIError
  | Some html =>
      match domainDescription d with
      | None => Throw TypeError
      | Some _ =>
          let toolCounts :=
            fold_left (fun counts course => fold_left tallyOwn (tools course) counts)
                      filtered [] in
          let toolNames := sortDefault (objectKeys toolCounts) in
          cards <- cardsOf (toolCard domainName_ toolCounts) toolNames ;;
          courseNodes <-
            courseCards (sortWith (fun a b =>
                           inject_Z (localeCompare (title a) (title b)))
                           filtered) ;;
          Ok {| domainName := domainName_;
                domainDescription := Some (Markup html);
                hidden := hidden d;
                toolsHeading := toolsHeading d;
                toolList := cards;
                courseList := courseNodes |}
      end
  end.

Definition init (domainParam : option jsstr) (courses : list Course)
    (d : Document) : Result Document :=
  match domainParam with
  | None => renderAllDomains courses d
  | Some param =>
      if negb (truthy param) then renderAllDomains courses d
      else
        let '(domainName_, filtered) := resolve courses param in
        if Nat.eqb (length filtered) 0 then
          Ok {| domainName := domainName_;
                domainDescription :=
                  option_map (fun _ => PlainText notFoundMessage)
                             (domainDescription d);
                hidden := hidden d;
                toolsHeading := toolsHeading d;
                toolList := toolList d;
                courseList := courseList d |}
        else renderDomain domainName_ filtered d
  end.

End Script.
End DomainPage.

(** ** track.js: the track page *)
Module TrackPage.

Record Document := {
  trackName : jsstr;
  trackDescription : option Description;
  hidden : list jsstr;
  domainHeading : jsstr;
  domainList : list ListCard;
  courseList : list Node
}.

Definition notFoundMessage : jsstr := lit "No courses found for this track.".

(** The card of a track in the list of all tracks. *)
Definition trackCard (trackCounts : list (jsstr * nat)) (t : jsstr)
  : Result ListCard :=
  enc <- encoded t ;;
  Ok {| cardTitle := t;
        cardCount := counts_value trackCounts t;
        cardHref := lit "track.html?track=" ++ enc |}.

(** The card of a domain of a track. *)
Definition domainCard (track_ : jsstr) (domainCounts : list (jsstr * nat))
    (domain : jsstr) : Result ListCard :=
  encTrack <- encoded track_ ;;
  encDomain <- encoded domain ;;
  Ok {| cardTitle := domain;
        cardCount := counts_value domainCounts domain;
        cardHref := lit "listing.html?track=" ++ encTrack
                      ++ lit "&domain=" ++ encDomain |}.

Section Script.
Context `{JsBuiltins}.

(** The branch of [init] for a missing or empty [track] parameter:
    the list of all tracks. *)
Definition renderAllTracks (courses : list Course) (d : Document)
  : Result Document :=
  let trackCounts :=
    fold_left (fun counts course =>
                 if truthy (track course) then tallyOwn counts (track course)
                 else counts) courses [] in
  let trackNames := sortDefault (objectKeys trackCounts) in
  cards <- cardsOf (trackCard trackCounts) trackNames ;;
  Ok {| trackName := lit "All Tracks";
        trackDescription :=
          option_map (fun _ => PlainText (lit
            "Browse all available tracks at NanoSchool. Select a track to view its domains and courses."))
            (trackDescription d);
        hidden := lit "aboutTrack" :: lit "courseTypesSection"
                    :: lit "coursesSection" :: lit "toc" :: hidden d;
        domainHeading := lit "Tracks";
        domainList := cards;
        courseList := courseList d |}.

(** [courses.filter (c => c.track === name)] *)
Definition coursesOf (courses : list Course) (name : jsstr) : list Course :=
  filter (fun c => str_eqb (track c) name) courses.

Definition resolve (courses : list Course) (trackParam : jsstr)
  : jsstr * list Course :=
  let track_ := trackParam in
  let filtered := coursesOf courses track_ in
  if Nat.eqb (length filtered) 0 then
    let lowerParam := toLowerCase track_ in
    let allTracks := uniq [] (List.map track courses) in
    match find (fun t => includes (toLowerCase t) lowerParam) allTracks with
    | Some match_ =>
        if truthy match_ then (match_, coursesOf courses match_)
        else (track_, filtered)
    | None => (track_, filtered)
    end
  else (track_, filtered).

(** The branch of [init] for a name with courses. *)
Definition renderTrack (track_ : jsstr) (filtered : list Course)
    (d : Document) : Result Document :=
  match Seo.generateTrackDescription track_ with
  | None => Throw URIError
  | Some html =>
      match trackDescription d with
      | None => Throw TypeError
      | Some _ =>
          let domainCounts :=
            fold_left (fun counts course => fold_left tallyOwn (domains course) counts)
                      filtered [] in
          let domainNames := sortDefault (objectKeys domainCounts) in
          cards <- cardsOf (domainCard track_ domainCounts) domainNames ;;
          courseNodes <-
            courseCards (sortWith (fun a b =>
                           inject_Z (localeCompare (title a) (title b)))
                           filtered) ;;
          Ok {| trackName := track_;
                trackDescription := Some (Markup html);
                hidden := hidden d;
                domainHeading := domainHeading d;
                domainList := cards;
                courseList := courseNodes |}
      end
  end.

Definition init (trackParam : option jsstr) (courses : list Course)
    (d : Document) : Result Document :=
  match trackParam with
  | None => renderAllTracks courses d
  | Some param =>
      if negb (truthy param) then renderAllTracks courses d
      else
        let '(track_, filtered) := resolve courses param in
        if Nat.eqb (length filtered) 0 then
          Ok {| trackName := track_;
                trackDescription :=
                  option_map (fun _ => PlainText notFoundMessage)
                             (trackDescription d);
                hidden := hidden d;
                domainHeading := domainHeading d;
                domainList := domainList d;
                courseList := courseList d |}
        else renderTrack track_ filtered d
  end.

End Script.
End TrackPage.

(** ** home.js: the landing page *)
Module HomeJs.

Definition domainIcons : list jsstr :=
  [lit "fa-brain"; lit "fa-robot"; lit "fa-atom"; lit "fa-chart-line";
   lit "fa-cubes"; lit "fa-microscope"; lit "fa-dna"; lit "fa-laptop-code";
   lit "fa-layer-group"; lit "fa-flask"; lit "fa-rocket";
   lit "fa-satellite-dish"; lit "fa-shield-alt"; lit "fa-vr-cardboard";
   lit "fa-magnet"].

Definition getIconForDomain (domain : jsstr) : option jsstr :=
  let sum :=
    fold_left (fun sum i => addCode sum (charCodeAt domain i))
              (seq 0 (length domain)) (Some 0%N) in
  match sum with
  | Some n => nth_error domainIcons (N.to_nat (n mod N.of_nat (length domainIcons)))
  | None => None
  end.

End HomeJs.

(** ** theme.js: the dark mode toggle *)
Module Theme.

(** [localStorage] as the list of its key/value pairs, and the class
    list of the root element as the list of its tokens. *)
Record State := {
  localStorage : list (jsstr * jsstr);
  classList : list jsstr
}.

Definition getItem (k : jsstr) (ls : list (jsstr * jsstr)) : option jsstr :=
  option_map snd (find (fun p => str_eqb (fst p) k) ls).

Fixpoint setItem (k v : jsstr) (ls : list (jsstr * jsstr)) : list (jsstr * jsstr) :=
  match ls with
  | [] => [(k, v)]
  | (k', v') :: rest =>
      if str_eqb k' k then (k', v) :: rest else (k', v') :: setItem k v rest
  end.

(** DOMTokenList: [contains], [add], [remove] and [toggle], which
    returns whether the token is present afterwards. *)
Definition contains (tokens : list jsstr) (t : jsstr) : bool :=
  arr_includes tokens t.

Definition add (t : jsstr) (tokens : list jsstr) : list jsstr :=
  if contains tokens t then tokens else tokens ++ [t].

Definition remove (t : jsstr) (tokens : list jsstr) : list jsstr :=
  filter (fun x => negb (str_eqb x t)) tokens.

Definition toggle (t : jsstr) (tokens : list jsstr) : bool * list jsstr :=
  if contains tokens t then (false, remove t tokens) else (true, tokens ++ [t]).

Definition applySavedTheme (s : State) : State :=
  let saved := getItem (lit "theme") (localStorage s) in
  match saved with
  | Some v =>
      if str_eqb v (lit "dark")
      then {| localStorage := localStorage s; classList := add (lit "dark") (classList s) |}
      else {| localStorage := localStorage s; classList := remove (lit "dark") (classList s) |}
  | None =>
      {| localStorage := localStorage s; classList := remove (lit "dark") (classList s) |}
  end.

Definition toggleDarkMode (s : State) : State :=
  let '(isDark, tokens) := toggle (lit "dark") (classList s) in
  {| localStorage :=
       setItem (lit "theme") (if isDark then lit "dark" else lit "light")
               (localStorage s);
     classList := tokens |}.

End Theme.

(** ** Untyped course data

    [coursesData] comes from another script and is not checked: a
    property of a record may hold any value.  The two
    [updateFilterCounts] functions are embedded a second time over
    such records, with the exceptions that property reads and method
    calls can throw. *)
Module Raw.

#[warnings="-register-all"]
Inductive JsVal :=
| VUndefined
| VNull
| VBool (b : bool)
| VNum (q : Q)
| VStr (s : jsstr)
| VArr (elems : list JsVal).

Record RawCourse := {
  r_title : JsVal;
  r_track : JsVal;
  r_level : JsVal;
  r_domains : JsVal;
  r_tools : JsVal;
  r_rating : JsVal;
  r_weeks : JsVal
}.

Definition isStr (v : JsVal) : Prop := exists s, v = VStr s.
Definition isArr (v : JsVal) : Prop := exists l, v = VArr l.
Definition isNum (v : JsVal) : Prop := exists q, v = VNum q.

(** A well-formed record: string title, track and level, array-valued
    domains and tools, numeric rating and weeks. *)
Definition wellFormed (r : RawCourse) : Prop :=
  isStr (r_title r) /\ isStr (r_track r) /\ isStr (r_level r) /\
  isArr (r_domains r) /\ isArr (r_tools r) /\
  isNum (r_rating r) /\ isNum (r_weeks r).

(** A typed record seen as an untyped one. *)
Definition raw_of (c : Course) : RawCourse :=
  {| r_title := VStr (title c);
     r_track := VStr (track c);
     r_level := VStr (level c);
     r_domains := VArr (List.map VStr (domains c));
     r_tools := VArr (List.map VStr (tools c));
     r_rating := VNum (rating c);
     r_weeks := VNum (weeks c) |}.

(** [v === s] for a string [s]. *)
Definition strictEq (v : JsVal) (s : jsstr) : bool :=
  match v with
  | VStr t => str_eqb t s
  | _ => false
  end.

(** [selected.includes (v)] for an array of strings. *)
Definition listHas (selectedL : list jsstr) (v : JsVal) : bool :=
  existsb (fun s => strictEq v s) selectedL.

Fixpoint reduceM {A B : Type} (f : B -> A -> Result B) (l : list A) (acc : B)
  : Result B :=
  match l with
  | [] => Ok acc
  | x :: l' => acc' <- f acc x ;; reduceM f l' acc'
  end.

Fixpoint mapM {A B : Type} (f : A -> Result B) (l : list A) : Result (list B) :=
  match l with
  | [] => Ok []
  | x :: l' => y <- f x ;; ys <- mapM f l' ;; Ok (y :: ys)
  end.

Fixpoint filterM {A : Type} (f : A -> Result bool) (l : list A) : Result (list A) :=
  match l with
  | [] => Ok []
  | x :: l' =>
      b <- f x ;; ys <- filterM f l' ;; Ok (if b then x :: ys else ys)
  end.

Definition relabelM (allLabel : jsstr) (count : jsstr -> Result nat)
    (opt : OptionEl) : Result OptionEl :=
  let val := value opt in
  if negb (truthy val) then
    Ok {| value := val; textContent := allLabel;
          disabled := false; selected := selected opt |}
  else
    n <- count val ;;
    Ok {| value := val;
          textContent := val ++ lit " (" ++ showNat n ++ lit ")";
          disabled := Nat.eqb n 0; selected := selected opt |}.

Section Script.
Context `{JsBuiltins}.

(** ToNumber on the values that are neither strings nor arrays;
    for those two the conversion goes through a parse of their
    text, which is left to [toNumberOfText]. *)
Variable toNumberOfText : JsVal -> option Q.

Definition ToNumber (v : JsVal) : option Q :=
  match v with
  | VUndefined => None
  | VNull => Some 0%Q
  | VBool b => Some (if b then 1%Q else 0%Q)
  | VNum q => Some q
  | VStr _ | VArr _ => toNumberOfText v
  end.

(** Comparison of a value with a number: false on NaN. *)
Definition numTest (v : JsVal) (test : Q -> bool) : bool :=
  match ToNumber v with
  | Some q => test q
  | None => false
  end.

(** [v.toLowerCase ()] *)
Definition toLowerCaseOf (v : JsVal) : Result jsstr :=
  match v with
  | VStr s => Ok (toLowerCase s)
  | _ => Throw TypeError
  end.

(** [v.includes (x)]: the array method, or the string method. *)
Definition includesOf (v : JsVal) (x : jsstr) : Result bool :=
  match v with
  | VArr l => Ok (existsb (fun e => strictEq e x) l)
  | VStr s => Ok (includes s x)
  | _ => Throw TypeError
  end.

(** [v.some (d => selected.includes (d))] *)
Definition overlapsOf (v : JsVal) (selectedL : list jsstr) : Result bool :=
  match v with
  | VArr l => Ok (existsb (listHas selectedL) l)
  | _ => Throw TypeError
  end.

(** [term && !course.title.toLowerCase ().includes (term)] *)
Definition missesTerm (term : jsstr) (course : RawCourse) : Result bool :=
  if truthy term then
    t <- toLowerCaseOf (r_title course) ;; Ok (negb (includes t term))
  else Ok false.

(** [arg && field !== arg] and [arg && !arr.includes (arg)] *)
Definition differs (field : JsVal) (arg : option jsstr) : bool :=
  match arg with
  | Some a => truthy a && negb (strictEq field a)
  | None => false
  end.

Definition lacks (arr : JsVal) (arg : option jsstr) : Result bool :=
  match arg with
  | Some a =>
      if truthy a then b <- includesOf arr a ;; Ok (negb b) else Ok false
  | None => Ok false
  end.

(** [sel.length > 0 && !course.xs.some (x => sel.includes (x))] *)
Definition missesAll (arr : JsVal) (selectedL : list jsstr) : Result bool :=
  if (0 <? length selectedL)%nat then
    b <- overlapsOf arr selectedL ;; Ok (negb b)
  else Ok false.

(** *** index.js *)

Definition index_countFor (cs : list RawCourse) (searchTerm : jsstr)
    (track_ domain_ tool_ level_ : option jsstr) : Result nat :=
  reduceM (fun acc course =>
    b <- missesTerm searchTerm course ;;
    if b then Ok acc
    else if differs (r_track course) track_ then Ok acc
    else
      b <- lacks (r_domains course) domain_ ;;
      if b then Ok acc
      else
        b <- lacks (r_tools course) tool_ ;;
        if b then Ok acc
        else if differs (r_level course) level_ then Ok acc
        else Ok (acc + 1)) cs 0.

Definition index_updateFilterCounts (courses : option (list RawCourse))
    (c : Index.Controls) : Result Index.Controls :=
  match courses with
  | None => Ok c
  | Some cs =>
      if Nat.eqb (length cs) 0 then Ok c else
      let searchTerm := toLowerCase (trim (Index.searchInput c)) in
      let currentTrack := select_value (Index.trackFilter c) in
      let currentDomain := select_value (Index.domainFilter c) in
      let currentTool := select_value (Index.toolFilter c) in
      let currentLevel := select_value (Index.levelFilter c) in
      tracks <- mapM (relabelM (lit "All Tracks") (fun val =>
                  index_countFor cs searchTerm (Some val)
                    (Index.orNull currentDomain) (Index.orNull currentTool)
                    (Index.orNull currentLevel))) (Index.trackFilter c) ;;
      doms <- mapM (relabelM (lit "All Domains") (fun val =>
                reduceM (fun acc course =>
                  b <- missesTerm searchTerm course ;;
                  if b then Ok acc
                  else if truthy currentTrack && negb (strictEq (r_track course) currentTrack) then Ok acc
                  else
                    b <- includesOf (r_domains course) val ;;
                    if negb b then Ok acc
                    else
                      b <- lacks (r_tools course) (Some currentTool) ;;
                      if b then Ok acc
                      else if truthy currentLevel && negb (strictEq (r_level course) currentLevel) then Ok acc
                      else Ok (acc + 1)) cs 0)) (Index.domainFilter c) ;;
      tls <- mapM (relabelM (lit "All Tools") (fun val =>
               reduceM (fun acc course =>
                 b <- missesTerm searchTerm course ;;
                 if b then Ok acc
                 else if truthy currentTrack && negb (strictEq (r_track course) currentTrack) then Ok acc
                 else
                   b <- lacks (r_domains course) (Some currentDomain) ;;
                   if b then Ok acc
                   else
                     b <- includesOf (r_tools course) val ;;
                     if negb b then Ok acc
                     else if truthy currentLevel && negb (strictEq (r_level course) currentLevel) then Ok acc
                     else Ok (acc + 1)) cs 0)) (Index.toolFilter c) ;;
      lvls <- mapM (relabelM (lit "All Levels") (fun val =>
                reduceM (fun acc course =>
                  b <- missesTerm searchTerm course ;;
                  if b then Ok acc
                  else if truthy currentTrack && negb (strictEq (r_track course) currentTrack) then Ok acc
                  else
                    b <- lacks (r_domains course) (Some currentDomain) ;;
                    if b then Ok acc
                    else
                      b <- lacks (r_tools course) (Some currentTool) ;;
                      if b then Ok acc
                      else if negb (strictEq (r_level course) val) then Ok acc
                      else Ok (acc + 1)) cs 0)) (Index.levelFilter c) ;;
      Ok {| Index.searchInput := Index.searchInput c;
            Index.trackFilter := tracks;
            Index.domainFilter := doms;
            Index.toolFilter := tls;
            Index.levelFilter := lvls;
            Index.sortBySelect := Index.sortBySelect c |}
  end.

(** *** listing.js *)

Definition passesRatingDuration (ratingThreshold : option Q)
    (durationCategory : jsstr) (course : RawCourse) : bool :=
  if (match ratingThreshold with
      | Some t => Qltb 0%Q t && numTest (r_rating course) (fun r => Qltb r t)
      | None => false
      end) then false
  else if truthy durationCategory && negb (str_eqb durationCategory (lit "all")) then
    let w := r_weeks course in
    if str_eqb durationCategory (lit "short")
       && negb (numTest w (fun w => Qltb w 4%Q)) then false
    else if str_eqb durationCategory (lit "medium")
            && negb (numTest w (fun w => Qle_bool 4%Q w)
                     && numTest w (fun w => Qle_bool w 8%Q)) then false
    else if str_eqb durationCategory (lit "long")
            && negb (numTest w (fun w => Qltb 8%Q w)) then false
    else true
  else true.

Definition notAmong (selectedL : list jsstr) (v : JsVal) : bool :=
  (0 <? length selectedL)%nat && negb (listHas selectedL v).

Definition countByTrack (baseFiltered : list RawCourse)
    (selectedTracks selectedDomains selectedTools selectedLevels : list jsstr)
    (track_ : jsstr) : Result nat :=
  reduceM (fun acc course =>
    b <- missesAll (r_domains course) selectedDomains ;;
    if b then Ok acc
    else
      b <- missesAll (r_tools course) selectedTools ;;
      if b then Ok acc
      else if notAmong selectedLevels (r_level course) then Ok acc
      else if strictEq (r_track course) track_ || listHas selectedTracks (r_track course)
           then Ok (acc + 1)
      else Ok acc) baseFiltered 0.

Definition countByDomain (baseFiltered : list RawCourse)
    (selectedTracks selectedDomains selectedTools selectedLevels : list jsstr)
    (domain_ : jsstr) : Result nat :=
  reduceM (fun acc course =>
    if notAmong selectedTracks (r_track course) then Ok acc
    else
      b <- missesAll (r_tools course) selectedTools ;;
      if b then Ok acc
      else if notAmong selectedLevels (r_level course) then Ok acc
      else
        b1 <- includesOf (r_domains course) domain_ ;;
        b2 <- (if b1 then Ok true else overlapsOf (r_domains course) selectedDomains) ;;
        if b2 then Ok (acc + 1) else Ok acc) baseFiltered 0.

Definition countByTool (baseFiltered : list RawCourse)
    (selectedTracks selectedDomains selectedTools selectedLevels : list jsstr)
    (tool_ : jsstr) : Result nat :=
  reduceM (fun acc course =>
    if notAmong selectedTracks (r_track course) then Ok acc
    else
      b <- missesAll (r_domains course) selectedDomains ;;
      if b then Ok acc
      else if notAmong selectedLevels (r_level course) then Ok acc
      else
        b1 <- includesOf (r_tools course) tool_ ;;
        b2 <- (if b1 then Ok true else overlapsOf (r_tools course) selectedTools) ;;
        if b2 then Ok (acc + 1) else Ok acc) baseFiltered 0.

Definition countByLevel (baseFiltered : list RawCourse)
    (selectedTracks selectedDomains selectedTools selectedLevels : list jsstr)
    (level_ : jsstr) : Result nat :=
  reduceM (fun acc course =>
    if notAmong selectedTracks (r_track course) then Ok acc
    else
      b <- missesAll (r_domains course) selectedDomains ;;
      if b then Ok acc
      else
        b <- missesAll (r_tools course) selectedTools ;;
        if b then Ok acc
        else if strictEq (r_level course) level_ || listHas selectedLevels (r_level course)
             then Ok (acc + 1)
        else Ok acc) baseFiltered 0.

Definition listing_updateFilterCounts (courses : option (list RawCourse))
    (c : Listing.Controls) : Result Listing.Controls :=
  match courses with
  | None => Ok c
  | Some cs =>
      if Nat.eqb (length cs) 0 then Ok c else
      let term := toLowerCase (trim (Listing.searchInput c)) in
      let selectedTracks := selectedValues (Listing.trackFilter c) in
      let selectedDomains := selectedValues (Listing.domainFilter c) in
      let selectedTools := selectedValues (Listing.toolFilter c) in
      let selectedLevels := selectedValues (Listing.levelFilter c) in
      let ratingThreshold := Listing.ratingThresholdOf c in
      let durationCategory := Listing.durationCategoryOf c in
      baseFiltered <- filterM (fun course =>
                        b <- missesTerm term course ;;
                        if b then Ok false
                        else Ok (passesRatingDuration ratingThreshold
                                   durationCategory course)) cs ;;
      tracks <- mapM (relabelM (lit "All Tracks")
                  (countByTrack baseFiltered selectedTracks selectedDomains
                                selectedTools selectedLevels))
                  (Listing.trackFilter c) ;;
      doms <- mapM (relabelM (lit "All Domains")
                (countByDomain baseFiltered selectedTracks selectedDomains
                               selectedTools selectedLevels))
                (Listing.domainFilter c) ;;
      tls <- mapM (relabelM (lit "All Tools")
               (countByTool baseFiltered selectedTracks selectedDomains
                            selectedTools selectedLevels))
               (Listing.toolFilter c) ;;
      lvls <- mapM (relabelM (lit "All Levels")
                (countByLevel baseFiltered selectedTracks selectedDomains
                              selectedTools selectedLevels))
                (Listing.levelFilter c) ;;
      Ok {| Listing.searchInput := Listing.searchInput c;
            Listing.trackFilter := tracks;
            Listing.domainFilter := doms;
            Listing.toolFilter := tls;
            Listing.levelFilter := lvls;
            Listing.ratingFilter := Listing.ratingFilter c;
            Listing.durationFilter := Listing.durationFilter c;
            Listing.sortBySelect := Listing.sortBySelect c |}
  end.

End Script.
End Raw.

(** ** An instance of the built-ins for ASCII text

    Lower-casing of the letters A-Z, comparison by code units, and a
    parser for unsigned decimals: enough to run the scripts on
    examples. *)
Definition asciiLower (c : N) : N :=
  if (65 <=? c)%N && (c <=? 90)%N then (c + 32)%N else c.

Definition digitOf (c : N) : option Z :=
  if (48 <=? c)%N && (c <=? 57)%N then Some (Z.of_N (c - 48)) else None.

Fixpoint parseDigits (s : jsstr) (num : Z) (den : positive) : Z * positive * jsstr :=
  match s with
  | c :: s' =>
      match digitOf c with
      | Some d => parseDigits s' (10 * num + d)%Z (10 * den)%positive
      | None => (num, den, s)
      end
  | [] => (num, den, [])
  end.

Definition parseDecimal (s : jsstr) : option Q :=
  match s with
  | [] => None
  | c :: _ =>
      match digitOf c with
      | None => None
      | Some _ =>
          let '(i, _, rest) := parseDigits s 0 1 in
          match rest with
          | 46%N :: frac =>
              let '(f, den, _) := parseDigits frac 0 1 in
              Some (inject_Z i + (f # den))%Q
          | _ => Some (inject_Z i)
          end
      end
  end.

Definition asciiBuiltins : JsBuiltins :=
  {| toLowerCase := List.map asciiLower;
     localeCompare := codeUnitCompare;
     parseFloat := parseDecimal |}.

(** ** Notions used to state the properties *)

(** The sum of the code units of a string. *)
Definition codeUnitSum (s : jsstr) : N := fold_right N.add 0%N s.

(** The course list and the filtered list of a page state: the arrays
    that the variables [courses] and [filteredCourses] point to. *)
Definition index_courses (s : Index.State) : list Course :=
  deref (Index.heap (Index.vars s)) (Index.courses (Index.vars s)).

Definition index_filtered (s : Index.State) : list Course :=
  deref (Index.heap (Index.vars s)) (Index.filteredCourses (Index.vars s)).

Definition listing_courses (s : Listing.State) : list Course :=
  deref (Listing.heap (Listing.vars s)) (Listing.courses (Listing.vars s)).

Definition listing_filtered (s : Listing.State) : list Course :=
  deref (Listing.heap (Listing.vars s)) (Listing.filteredCourses (Listing.vars s)).

(** The variable [courses] points into the store. *)
Definition index_allocated (s : Index.State) : Prop :=
  Index.courses (Index.vars s) < length (Index.heap (Index.vars s)).

Definition listing_allocated (s : Listing.State) : Prop :=
  Listing.courses (Listing.vars s) < length (Listing.heap (Listing.vars s)).

(** An operation keeps the course list when the variable [courses]
    still points to the same, still allocated, array with the same
    content. *)
Definition index_keeps (f : Index.State -> Index.State) : Prop :=
  forall s, index_allocated s ->
    index_allocated (f s)
    /\ Index.courses (Index.vars (f s)) = Index.courses (Index.vars s)
    /\ index_courses (f s) = index_courses s.

Definition listing_keeps (f : Listing.State -> Listing.State) : Prop :=
  forall s, listing_allocated s ->
    listing_allocated (f s)
    /\ Listing.courses (Listing.vars (f s)) = Listing.courses (Listing.vars s)
    /\ listing_courses (f s) = listing_courses s.

(** The courses whose cards a container shows. *)
Definition coursesShown (nodes : list Node) : list Course :=
  flat_map (fun n => match n with CourseCard c => [c] | NoResults => [] end) nodes.

(** The operations of the two pages, as events that may follow one
    another in any order. *)
Inductive IndexOp :=
| IApplyFilters
| IUpdateFilterCounts
| IUpdateActiveFilters
| IRenderCourses
| IRenderCategories
| IRenderFeaturedCourses
| IRemoveFilter (type : FilterType) (val : jsstr)
| IClearAllFilters
| IClickLoadMore.

Inductive ListingOp :=
| LApplyFilters
| LUpdateFilterCounts
| LUpdateActiveFilters
| LRenderCourses
| LRemoveFilter (type : FilterType) (val : jsstr)
| LClearAllFilters
| LClickPrev
| LClickPage (i : Z)
| LClickNext (totalPages : Z).

(** A click on a page button carries the number printed on it, which
    is at least 1. *)
Definition listing_op_ok (op : ListingOp) : Prop :=
  match op with
  | LClickPage i => (1 <= i)%Z
  | _ => True
  end.

(** The filter of a chip and the value it removes; the 'Clear all'
    button is not a chip. *)
Definition chipKeys (kids : list ChipEl) : list (FilterType * jsstr) :=
  flat_map (fun k => match k with Chip _ t v => [(t, v)] | ClearAll => [] end) kids.

Definition allFilterTypes : list FilterType :=
  [FSearch; FTrack; FDomain; FTool; FLevel; FRating; FDuration].

(** One chip per active selection, filter by filter. *)
Definition expectedChips (selection : FilterType -> list jsstr)
  : list (FilterType * jsstr) :=
  flat_map (fun t => List.map (pair t) (selection t)) allFilterTypes.

(** The value of each filter control of the home page: the text of the
    search box and the value of each select. *)
Definition index_raw (c : Index.Controls) (t : FilterType) : list jsstr :=
  match t with
  | FSearch => [Index.searchInput c]
  | FTrack => [select_value (Index.trackFilter c)]
  | FDomain => [select_value (Index.domainFilter c)]
  | FTool => [select_value (Index.toolFilter c)]
  | FLevel => [select_value (Index.levelFilter c)]
  | FRating | FDuration => []
  end.


(** The values of the filter controls of the catalog page: the text of
    the search box, the values of the selected options of each facet,
    and the values of the rating and duration selects if they exist. *)
Definition listing_raw (c : Listing.Controls) (t : FilterType) : list jsstr :=
  match t with
  | FSearch => [Listing.searchInput c]
  | FTrack => List.map value (selectedOptions (Listing.trackFilter c))
  | FDomain => List.map value (selectedOptions (Listing.domainFilter c))
  | FTool => List.map value (selectedOptions (Listing.toolFilter c))
  | FLevel => List.map value (selectedOptions (Listing.levelFilter c))
  | FRating =>
      match Listing.ratingFilter c with
      | Some sel => [select_value sel]
      | None => []
      end
  | FDuration =>
      match Listing.durationFilter c with
      | Some sel => [select_value sel]
      | None => []
      end
  end.



(** The same with the rating and duration chips as C9 words them: a
    rating chip when the value is not '0', a duration chip when the
    value is not 'all'. *)
Definition listing_active_stated (t : FilterType) (v : jsstr) : bool :=
  match t with
  | FRating => negb (str_eqb v (lit "0"))
  | FDuration => negb (str_eqb v (lit "all"))
  | _ => truthy v
  end.

Definition listing_selection_stated (c : Listing.Controls) (t : FilterType)
  : list jsstr :=
  filter (listing_active_stated t)
    match t with
    | FSearch => List.map trim (listing_raw c t)
    | _ => listing_raw c t
    end.


(** The chips of the catalog page are those of the selections so
    worded. *)
Definition listing_chips_as_stated (s : Listing.State) : Prop :=
  forall kids,
    Listing.activeFiltersDiv (Listing.doc (Listing.updateActiveFilters s)) = Some kids ->
    chipKeys kids = expectedChips (listing_selection_stated (Listing.ctl s)).

(** The duration buckets: short is under 4 weeks, medium is 4 to 8,
    long is over 8; any other category selects no bucket. *)
Definition inBucket (category : jsstr) (w : Q) : Prop :=
  (category = lit "short" -> (w < 4)%Q)
  /\ (category = lit "medium" -> (4 <= w)%Q /\ (w <= 8)%Q)
  /\ (category = lit "long" -> (8 < w)%Q).

(** An option list is labelled by a count when every option with a
    value shows [`${value} (${count})`] and is disabled exactly at
    count zero, and the option with the empty value is enabled. *)
Definition labelled (opts : SelectEl) (count : jsstr -> nat) : Prop :=
  forall o, In o opts ->
    (value o <> [] ->
     textContent o = value o ++ lit " (" ++ showNat (count (value o)) ++ lit ")"
     /\ disabled o = Nat.eqb (count (value o)) 0)
    /\ (value o = [] -> disabled o = false).

(** The user picks the option of value [v] in a single select: the
    effect of the value setter. *)
Definition index_pick (facet : FilterType) (v : jsstr) (s : Index.State)
  : Index.State :=
  let c := Index.ctl s in
  Index.setControls
    {| Index.searchInput := Index.searchInput c;
       Index.trackFilter :=
         match facet with FTrack => set_select_value v | _ => fun x => x end
           (Index.trackFilter c);
       Index.domainFilter :=
         match facet with FDomain => set_select_value v | _ => fun x => x end
           (Index.domainFilter c);
       Index.toolFilter :=
         match facet with FTool => set_select_value v | _ => fun x => x end
           (Index.toolFilter c);
       Index.levelFilter :=
         match facet with FLevel => set_select_value v | _ => fun x => x end
           (Index.levelFilter c);
       Index.sortBySelect := Index.sortBySelect c |} s.

(** The user selects the options of value [v] of a multiple select, in
    addition to those already selected. *)
Definition alsoSelect (v : jsstr) (sel : SelectEl) : SelectEl :=
  List.map (fun o => if str_eqb (value o) v then set_selected true o else o) sel.

Definition listing_pick (facet : FilterType) (v : jsstr) (s : Listing.State)
  : Listing.State :=
  let c := Listing.ctl s in
  Listing.setControls
    {| Listing.searchInput := Listing.searchInput c;
       Listing.trackFilter :=
         match facet with FTrack => alsoSelect v | _ => fun x => x end
           (Listing.trackFilter c);
       Listing.domainFilter :=
         match facet with FDomain => alsoSelect v | _ => fun x => x end
           (Listing.domainFilter c);
       Listing.toolFilter :=
         match facet with FTool => alsoSelect v | _ => fun x => x end
           (Listing.toolFilter c);
       Listing.levelFilter :=
         match facet with FLevel => alsoSelect v | _ => fun x => x end
           (Listing.levelFilter c);
       Listing.ratingFilter := Listing.ratingFilter c;
       Listing.durationFilter := Listing.durationFilter c;
       Listing.sortBySelect := Listing.sortBySelect c |} s.

(** The courses that a browsing page selects for a name: those of the
    catalog that have the property, in the order of the catalog, a
    course that the catalog lists twice being selected twice. *)
Inductive Selected (P : Course -> Prop) : list Course -> list Course -> Prop :=
| selected_nil : Selected P [] []
| selected_keep (c : Course) (cs sel : list Course) :
    P c -> Selected P cs sel -> Selected P (c :: cs) (c :: sel)
| selected_drop (c : Course) (cs sel : list Course) :
    ~ P c -> Selected P cs sel -> Selected P (c :: cs) sel.

Definition hasDomain (name : jsstr) (c : Course) : Prop := In name (domains c).
Definition hasTrack (name : jsstr) (c : Course) : Prop := track c = name.

Definition noneOf (P : Course -> Prop) (cs : list Course) : Prop :=
  forall c, In c cs -> ~ P c.

Definition someOf (P : Course -> Prop) (cs : list Course) : Prop :=
  exists c, In c cs /\ P c.

(** In the order of the default [sort], no two alike. *)
Definition ascending (l : list jsstr) : Prop :=
  StronglySorted (fun a b => (codeUnitCompare a b < 0)%Z) l.

(** How many times a name stands in a list of names. *)
Definition timesListed (name : jsstr) (names : list jsstr) : nat :=
  count_occ (list_eq_dec N.eq_dec) names name.

(** The names of a catalog are well formed when none of its tracks,
    domains and tools has a lone surrogate. *)
Definition namesWellFormed (cs : list Course) : Prop :=
  forall c, In c cs ->
    isWellFormed (track c) = true
    /\ (forall d, In d (domains c) -> isWellFormed d = true)
    /\ (forall t, In t (tools c) -> isWellFormed t = true).

(** The list of all names that a browsing page shows without a
    parameter: one card per name but [__proto__], in the order of the
    default sort; the card of a name that no object inherits prints
    how many times the catalog lists the name, and its link carries
    the name, encoded, to the page [target]. *)
Definition overviewCards (target : jsstr) (names : list jsstr)
    (cards : list ListCard) : Prop :=
  ascending (List.map cardTitle cards)
  /\ (forall n, In n (List.map cardTitle cards)
                <-> In n names /\ n <> lit "__proto__")
  /\ (forall card, In card cards ->
        (~ In (cardTitle card) inheritedMethods ->
         cardCount card = Num (timesListed (cardTitle card) names))
        /\ exists enc, encodeURIComponent (cardTitle card) = Some enc
                       /\ cardHref card = target ++ enc).

(** The count of a card is the number of the courses that are
    selected for its name. *)
Definition countsCourses (has : jsstr -> Course -> Prop) (cs : list Course)
    (cards : list ListCard) : Prop :=
  forall card sel,
    In card cards -> ~ In (cardTitle card) inheritedMethods ->
    Selected (has (cardTitle card)) cs sel ->
    cardCount card = Num (length sel).

(** The tracks that the track page counts: those that are not
    empty. *)
Definition namedTracks (cs : list Course) : list jsstr :=
  filter truthy (List.map track cs).

(** What the domain page shows without a parameter: the heading 'All
    Domains', no message, the section of the courses hidden and its
    list as it was, and the list of all domains, each with the number
    of its courses when no course names a domain twice. *)
Definition domain_overview (cs : list Course) (d d' : DomainPage.Document) : Prop :=
  DomainPage.domainName d' = lit "All Domains"
  /\ DomainPage.domainDescription d'
     <> Some (PlainText DomainPage.notFoundMessage)
  /\ In (lit "coursesSection") (DomainPage.hidden d')
  /\ DomainPage.courseList d' = DomainPage.courseList d
  /\ DomainPage.toolsHeading d' = lit "Domains"
  /\ overviewCards (lit "domain.html?domain=") (flat_map domains cs)
                   (DomainPage.toolList d')
  /\ ((forall c, In c cs -> NoDup (domains c)) ->
      countsCourses hasDomain cs (DomainPage.toolList d')).

Definition track_overview (cs : list Course) (d d' : TrackPage.Document) : Prop :=
  TrackPage.trackName d' = lit "All Tracks"
  /\ TrackPage.trackDescription d'
     <> Some (PlainText TrackPage.notFoundMessage)
  /\ In (lit "coursesSection") (TrackPage.hidden d')
  /\ TrackPage.courseList d' = TrackPage.courseList d
  /\ TrackPage.domainHeading d' = lit "Tracks"
  /\ overviewCards (lit "track.html?track=") (namedTracks cs)
                   (TrackPage.domainList d')
  /\ countsCourses hasTrack cs (TrackPage.domainList d').

Section Notions.
Context `{JsBuiltins}.

(** The number of courses that would match if the option of value
    [v] of a facet were selected as well: the length of the list
    that [applyFilters] produces once the user has picked it. *)
Definition index_wouldMatch (facet : FilterType) (s : Index.State) (v : jsstr)
  : nat :=
  length (index_filtered (Index.applyFilters (index_pick facet v s))).

Definition listing_wouldMatch (facet : FilterType) (s : Listing.State) (v : jsstr)
  : nat :=
  length (listing_filtered (Listing.applyFilters (listing_pick facet v s))).

(** The labels of the four facets agree with these numbers. *)
Definition index_counts_correct (s : Index.State) : Prop :=
  labelled (Index.trackFilter (Index.ctl s)) (index_wouldMatch FTrack s)
  /\ labelled (Index.domainFilter (Index.ctl s)) (index_wouldMatch FDomain s)
  /\ labelled (Index.toolFilter (Index.ctl s)) (index_wouldMatch FTool s)
  /\ labelled (Index.levelFilter (Index.ctl s)) (index_wouldMatch FLevel s).

Definition listing_counts_correct (s : Listing.State) : Prop :=
  labelled (Listing.trackFilter (Listing.ctl s)) (listing_wouldMatch FTrack s)
  /\ labelled (Listing.domainFilter (Listing.ctl s)) (listing_wouldMatch FDomain s)
  /\ labelled (Listing.toolFilter (Listing.ctl s)) (listing_wouldMatch FTool s)
  /\ labelled (Listing.levelFilter (Listing.ctl s)) (listing_wouldMatch FLevel s).

(** The callback that [applyFilters] hands to [filter], as the
    controls determine it. *)
Definition index_keep (c : Index.Controls) : Course -> bool :=
  Index.keepCourse (toLowerCase (trim (Index.searchInput c)))
    (select_value (Index.trackFilter c))
    (select_value (Index.domainFilter c))
    (select_value (Index.toolFilter c))
    (select_value (Index.levelFilter c)).

Definition listing_keep (c : Listing.Controls) : Course -> bool :=
  Listing.keepCourse (toLowerCase (trim (Listing.searchInput c)))
    (selectedValues (Listing.trackFilter c))
    (selectedValues (Listing.domainFilter c))
    (selectedValues (Listing.toolFilter c))
    (selectedValues (Listing.levelFilter c))
    (Listing.ratingThresholdOf c) (Listing.durationCategoryOf c).

Definition index_run (op : IndexOp) : Index.State -> Index.State :=
  match op with
  | IApplyFilters => Index.applyFilters
  | IUpdateFilterCounts => Index.updateFilterCounts
  | IUpdateActiveFilters => Index.updateActiveFilters
  | IRenderCourses => Index.renderCourses
  | IRenderCategories => Index.renderCategories
  | IRenderFeaturedCourses => Index.renderFeaturedCourses
  | IRemoveFilter type val => Index.removeFilter type val
  | IClearAllFilters => Index.clearAllFilters
  | IClickLoadMore => Index.clickLoadMore
  end.

Definition listing_run (op : ListingOp) : Listing.State -> Listing.State :=
  match op with
  | LApplyFilters => Listing.applyFilters
  | LUpdateFilterCounts => Listing.updateFilterCounts
  | LUpdateActiveFilters => Listing.updateActiveFilters
  | LRenderCourses => Listing.renderCourses
  | LRemoveFilter type val => Listing.removeFilter type val
  | LClearAllFilters => Listing.clearAllFilters
  | LClickPrev => Listing.clickPrev
  | LClickPage i => Listing.clickPage i
  | LClickNext totalPages => Listing.clickNext totalPages
  end.

(** A run of operations, the first of the list first. *)
Definition index_runs (ops : list IndexOp) (s : Index.State) : Index.State :=
  fold_left (fun st op => index_run op st) ops s.

Definition listing_runs (ops : list ListingOp) (s : Listing.State) : Listing.State :=
  fold_left (fun st op => listing_run op st) ops s.

(** The search term of a page: the text of the search box, trimmed
    and in lower case. *)
Definition searchTermOf (input : jsstr) : jsstr := toLowerCase (trim input).

(** The title contains the term, case ignored. *)
Definition titleContains (course : Course) (term : jsstr) : Prop :=
  includes (toLowerCase (title course)) term = true.

(** What the home page asks of a course, in the words of the
    specification. *)
Definition index_matches (c : Index.Controls) (course : Course) : Prop :=
  let term := searchTermOf (Index.searchInput c) in
  let selectedTrack := select_value (Index.trackFilter c) in
  let selectedDomain := select_value (Index.domainFilter c) in
  let selectedTool := select_value (Index.toolFilter c) in
  let selectedLevel := select_value (Index.levelFilter c) in
  (term = [] \/ titleContains course term)
  /\ (selectedTrack <> [] -> track course = selectedTrack)
  /\ (selectedDomain <> [] -> In selectedDomain (domains course))
  /\ (selectedTool <> [] -> In selectedTool (tools course))
  /\ (selectedLevel <> [] -> level course = selectedLevel).

(** What the catalog page asks of a course.  The rating threshold
    is the number that the value of the rating drop-down reads as,
    and the duration bucket is the value of the duration drop-down;
    a drop-down that the page does not have asks nothing. *)
Definition listing_matches (c : Listing.Controls) (course : Course) : Prop :=
  let term := searchTermOf (Listing.searchInput c) in
  let selectedTracks := selectedValues (Listing.trackFilter c) in
  let selectedDomains := selectedValues (Listing.domainFilter c) in
  let selectedTools := selectedValues (Listing.toolFilter c) in
  let selectedLevels := selectedValues (Listing.levelFilter c) in
  (term = [] \/ titleContains course term)
  /\ (selectedTracks <> [] -> In (track course) selectedTracks)
  /\ (selectedDomains <> [] ->
      exists d, In d (domains course) /\ In d selectedDomains)
  /\ (selectedTools <> [] ->
      exists t, In t (tools course) /\ In t selectedTools)
  /\ (selectedLevels <> [] -> In (level course) selectedLevels)
  /\ (forall sel t,
        Listing.ratingFilter c = Some sel -> select_value sel <> [] ->
        parseFloat (select_value sel) = Some t -> (0 < t)%Q ->
        (t <= rating course)%Q)
  /\ (forall sel,
        Listing.durationFilter c = Some sel ->
        inBucket (select_value sel) (weeks course)).

(** The first known name that contains the parameter, case ignored. *)
Definition firstKnown (names : list jsstr) (param : jsstr) : option jsstr :=
  find (fun n => includes (toLowerCase n) (toLowerCase param)) names.

(** The domain page shows its message, and the track page its own. *)
Definition domain_message_shown (d : DomainPage.Document) : Prop :=
  DomainPage.domainDescription d = Some (PlainText DomainPage.notFoundMessage).

Definition track_message_shown (d : TrackPage.Document) : Prop :=
  TrackPage.trackDescription d = Some (PlainText TrackPage.notFoundMessage).

(** What the domain page shows for a parameter, in the words of C6:
    the message exactly when no course has the parameter among its
    domains and no course has the first known name that contains
    it, and then the card lists as they were; otherwise the name
    whose courses are selected, and the cards of these courses. *)
Definition domain_page_correct (param : jsstr) (cs : list Course)
    (d d' : DomainPage.Document) : Prop :=
  let known := firstKnown (flat_map domains cs) param in
  (domain_message_shown d'
   <-> noneOf (hasDomain param) cs
       /\ (forall m, known = Some m -> noneOf (hasDomain m) cs))
  /\ (domain_message_shown d' ->
      DomainPage.toolList d' = DomainPage.toolList d
      /\ DomainPage.courseList d' = DomainPage.courseList d)
  /\ (someOf (hasDomain param) cs ->
      DomainPage.domainName d' = param
      /\ exists sel, Selected (hasDomain param) cs sel
                     /\ Permutation (coursesShown (DomainPage.courseList d')) sel)
  /\ (noneOf (hasDomain param) cs ->
      forall m, known = Some m ->
        DomainPage.domainName d' = m
        /\ exists sel, Selected (hasDomain m) cs sel
                       /\ Permutation (coursesShown (DomainPage.courseList d')) sel).

(** C6 as stated, on the domain page, for one value of the
    parameter. *)
Definition domain_page_as_stated (param : jsstr) (cs : list Course)
    (d : DomainPage.Document) : Prop :=
  exists d',
    DomainPage.init (Some param) cs d = Ok d'
    /\ domain_page_correct param cs d d'.

Definition track_page_correct (param : jsstr) (cs : list Course)
    (d d' : TrackPage.Document) : Prop :=
  let known := firstKnown (List.map track cs) param in
  (track_message_shown d'
   <-> noneOf (hasTrack param) cs
       /\ (forall m, known = Some m -> noneOf (hasTrack m) cs))
  /\ (track_message_shown d' ->
      TrackPage.domainList d' = TrackPage.domainList d
      /\ TrackPage.courseList d' = TrackPage.courseList d)
  /\ (someOf (hasTrack param) cs ->
      TrackPage.trackName d' = param
      /\ exists sel, Selected (hasTrack param) cs sel
                     /\ Permutation (coursesShown (TrackPage.courseList d')) sel)
  /\ (noneOf (hasTrack param) cs ->
      forall m, known = Some m ->
        TrackPage.trackName d' = m
        /\ exists sel, Selected (hasTrack m) cs sel
                       /\ Permutation (coursesShown (TrackPage.courseList d')) sel).

(** The order that a sort key asks for between an earlier and a
    later course of the list. *)
Definition inOrder (sortBy : jsstr) (a b : Course) : Prop :=
  if str_eqb sortBy (lit "rating") then (rating b <= rating a)%Q
  else if str_eqb sortBy (lit "students") then (students b <= students a)%Q
  else if str_eqb sortBy (lit "duration") then (weeks a <= weeks b)%Q
  else (localeCompare (title a) (title b) <= 0)%Z.

End Notions.

(** ** A small catalog to run the scripts on *)
Module Sample.

Definition introAI : Course :=
  {| title := lit "Intro to AI"; track := lit "AI"; level := lit "Beginner";
     domains := [lit "ML"; lit "Vision"]; tools := [lit "Python"];
     rating := 4.5%Q; students := 1200%Q; weeks := 6%Q;
     lmsPriceInr := Some 4999%Q; videoPriceInr := Some 9999%Q;
     livePriceInr := Some 14999%Q |}.

Definition quantum : Course :=
  {| title := lit "Quantum Basics"; track := lit "Quantum"; level := lit "Advanced";
     domains := [lit "Physics"]; tools := [lit "Qiskit"];
     rating := 4.8%Q; students := 300%Q; weeks := 10%Q;
     lmsPriceInr := Some 4999%Q; videoPriceInr := Some 9999%Q;
     livePriceInr := Some 14999%Q |}.

Definition deepLearning : Course :=
  {| title := lit "Deep Learning"; track := lit "AI"; level := lit "Advanced";
     domains := [lit "ML"]; tools := [lit "Python"; lit "PyTorch"];
     rating := 4.2%Q; students := 5000%Q; weeks := 3%Q;
     lmsPriceInr := Some 4999%Q; videoPriceInr := Some 9999%Q;
     livePriceInr := Some 14999%Q |}.

Definition catalog : list Course := [introAI; quantum; deepLearning].

Definition opt (v : string) (isSelected : bool) : OptionEl :=
  {| value := lit v; textContent := lit v; disabled := false;
     selected := isSelected |}.

Definition allOpt (label : string) (isSelected : bool) : OptionEl :=
  {| value := []; textContent := lit label; disabled := false;
     selected := isSelected |}.

Definition levels (picked : string) : SelectEl :=
  [allOpt "All Levels" (String.eqb picked "");
   opt "Beginner" (String.eqb picked "Beginner");
   opt "Intermediate" (String.eqb picked "Intermediate");
   opt "Advanced" (String.eqb picked "Advanced")].

Definition tracks (picked : string) : SelectEl :=
  [allOpt "All Tracks" (String.eqb picked "");
   opt "AI" (String.eqb picked "AI");
   opt "Quantum" (String.eqb picked "Quantum")].

Definition domainOpts (picked : string) : SelectEl :=
  [allOpt "All Domains" (String.eqb picked "");
   opt "ML" (String.eqb picked "ML");
   opt "Physics" (String.eqb picked "Physics");
   opt "Vision" (String.eqb picked "Vision")].

Definition toolOpts (picked : string) : SelectEl :=
  [allOpt "All Tools" (String.eqb picked "");
   opt "PyTorch" (String.eqb picked "PyTorch");
   opt "Python" (String.eqb picked "Python");
   opt "Qiskit" (String.eqb picked "Qiskit")].

Definition ratingOpts (picked : string) : SelectEl :=
  [opt "0" (String.eqb picked "0"); opt "4" (String.eqb picked "4");
   opt "4.5" (String.eqb picked "4.5")].

Definition durationOpts (picked : string) : SelectEl :=
  [opt "all" (String.eqb picked "all"); opt "short" (String.eqb picked "short");
   opt "medium" (String.eqb picked "medium"); opt "long" (String.eqb picked "long")].

(** The home page over a catalog, with a search text and one pick
    per filter. *)
Definition indexState (cs : list Course) (search track_ level_ sortBy : string)
  : Index.State :=
  {| Index.vars :=
       {| Index.heap := [cs; []]; Index.courses := 0;
          Index.filteredCourses := 1; Index.currentView := GridView;
          Index.currentPage := 1; Index.categoriesPage := 1 |};
     Index.ctl :=
       {| Index.searchInput := lit search;
          Index.trackFilter := tracks track_;
          Index.domainFilter := domainOpts "";
          Index.toolFilter := toolOpts "";
          Index.levelFilter := levels level_;
          Index.sortBySelect := lit sortBy |};
     Index.doc :=
       {| Index.resultsCount := [];
          Index.coursesContainer := [];
          Index.loadMoreContainer := Some [];
          Index.activeFiltersDiv := Some [];
          Index.categoriesContainer := Some [];
          Index.categoriesLoadMoreContainer := Some [];
          Index.featuredCoursesContainer := Some [] |} |}.

(** The catalog page, with a search text, a picked track, and the
    picked rating and duration. *)
Definition listingState (cs : list Course)
    (search track_ rating_ duration_ sortBy : string) : Listing.State :=
  {| Listing.vars :=
       {| Listing.heap := [cs; []]; Listing.courses := 0;
          Listing.filteredCourses := 1; Listing.currentView := GridView;
          Listing.currentPage := 1 |};
     Listing.ctl :=
       {| Listing.searchInput := lit search;
          Listing.trackFilter := tracks track_;
          Listing.domainFilter := domainOpts "";
          Listing.toolFilter := toolOpts "";
          Listing.levelFilter := levels "";
          Listing.ratingFilter := Some (ratingOpts rating_);
          Listing.durationFilter := Some (durationOpts duration_);
          Listing.sortBySelect := lit sortBy |};
     Listing.doc :=
       {| Listing.resultsCount := [];
          Listing.coursesContainer := [];
          Listing.paginationControls := Some [];
          Listing.activeFiltersDiv := Some [] |} |}.

Definition domainDoc : DomainPage.Document :=
  {| DomainPage.domainName := []; DomainPage.domainDescription := Some (PlainText []);
     DomainPage.hidden := []; DomainPage.toolsHeading := lit "Tools";
     DomainPage.toolList := []; DomainPage.courseList := [] |}.

Definition trackDoc : TrackPage.Document :=
  {| TrackPage.trackName := []; TrackPage.trackDescription := Some (PlainText []);
     TrackPage.hidden := []; TrackPage.domainHeading := lit "Domains";
     TrackPage.domainList := []; TrackPage.courseList := [] |}.

End Sample.

(** * The rest of the scripts

    What follows embeds functions of the five files that the
    definitions above leave out: the parts of a course card that are
    computed, the
    set-up of the home page and of the catalog page with the population
    of the filters and the query parameters, the search suggestions,
    the sidebar and the showcase of the home page, the page buttons of
    the catalog, and the categories and featured courses of the
    landing page. *)

(** [Math.max] and [Math.min] on two numbers. *)
Definition mathMax (a b : Q) : Q := if Qle_bool a b then b else a.
Definition mathMin (a b : Q) : Q := if Qle_bool a b then a else b.

(** [course.rating * course.students], the key by which the featured
    courses are chosen. *)
Definition score (c : Course) : Q := mulNumber (rating c) (students c).

(** ** The computed parts of a course card

    [createCourseCard] is the same function in [index.js], [listing.js],
    [domain.js] and [track.js].  Besides fixed markup and the fields it
    prints, it computes a row of five star icons and the width of the
    rating bar. *)
Module Card.

Inductive StarIcon := FullStar | EmptyStar.

(** [Math.floor (course.rating)] *)
Definition fullStars (course : Course) : Z := Qfloor (rating course).

(** [for (let i = 0; i < 5; i++)]: the icon is full when
    [i < fullStars]. *)
Definition stars (course : Course) : list StarIcon :=
  List.map (fun i => if (Z.of_nat i <? fullStars course)%Z
                     then FullStar else EmptyStar)
           (seq 0 5).

(** [Math.max (0, Math.min (5, course.rating)) / 5 * 100], the width
    of the bar in percent. *)
Definition ratingPercent (course : Course) : Q :=
  mulNumber (divNumber (mathMax 0 (mathMin 5 (roundDouble (rating course)))) 5) 100.

End Card.

(** ** home.js: categories and featured courses of the landing page *)
Module HomePage.

Definition categoriesPerPageHome : Z := 8.

(** A category card: the link, the class of its icon, its heading and
    its line of text. *)
Record CategoryCard := {
  href : jsstr;
  iconClassName : jsstr;
  heading : jsstr;
  description : jsstr
}.

(** A featured card: the course it prints and how many of its five
    stars are yellow. *)
Record FeaturedCard := {
  course : Course;
  yellowStars : nat
}.

Record State := {
  categoriesPageHome : Z;
  categoriesContainer : option (list CategoryCard);
  categoriesLoadMoreContainerHome : option (list Button);
  featuredCoursesContainer : option (list FeaturedCard)
}.

(** [`fas ${iconClass}`], where an [undefined] prints as such. *)
Definition iconClassNameOf (iconClass : option jsstr) : jsstr :=
  lit "fas " ++ match iconClass with
                | Some cls => cls
                | None => lit "undefined"
                end.

(** The card of one domain; [None] when [encodeURIComponent]
    throws. *)
Definition categoryCard (domain : jsstr) : option CategoryCard :=
  match encodeURIComponent domain with
  | Some enc =>
      Some {| href := lit "listing.html?domain=" ++ enc;
              iconClassName := iconClassNameOf (HomeJs.getIconForDomain domain);
              heading := domain;
              description := lit "Explore " ++ domain ++ lit " courses" |}
  | None => None
  end.

(** [forEach] over the visible domains, stopping at the first
    exception. *)
Fixpoint categoryCards (visibleDomains : list jsstr) : option (list CategoryCard) :=
  match visibleDomains with
  | [] => Some []
  | domain :: rest =>
      match categoryCard domain with
      | Some card => option_map (cons card) (categoryCards rest)
      | None => None
      end
  end.

Section Script.
Context `{JsBuiltins}.

(** The sorted names of the domains of a catalog. *)
Definition sortedDomains (courses : list Course) : list jsstr :=
  let domainCounts :=
    fold_left (fun counts course => fold_left tallyOwn (domains course) counts)
              courses [] in
  sortWith (fun a b => inject_Z (localeCompare a b)) (objectKeys domainCounts).

(** [renderCategoriesHome]; [None] when it ends with an exception. *)
Definition renderCategoriesHome (courses : list Course) (s : State)
  : option State :=
  match categoriesContainer s with
  | None => Some s
  | Some _ =>
      let domains_ := sortedDomains courses in
      let len := Z.of_nat (length domains_) in
      let visibleCount :=
        Z.min (categoriesPerPageHome * categoriesPageHome s) len in
      let visibleDomains := jsslice 0 visibleCount domains_ in
      match categoryCards visibleDomains with
      | None => None
      | Some cards =>
          Some {| categoriesPageHome := categoriesPageHome s;
                  categoriesContainer := Some cards;
                  categoriesLoadMoreContainerHome :=
                    match categoriesLoadMoreContainerHome s with
                    | None => None
                    | Some _ =>
                        if (categoriesPerPageHome <? len)%Z then
                          if (len <=? categoriesPerPageHome * categoriesPageHome s)%Z
                          then Some [ShowLessBtn] else Some [ShowMoreBtn]
                        else Some []
                    end;
                  featuredCoursesContainer := featuredCoursesContainer s |}
      end
  end.

Definition setCategoriesPage (p : Z) (s : State) : State :=
  {| categoriesPageHome := p;
     categoriesContainer := categoriesContainer s;
     categoriesLoadMoreContainerHome := categoriesLoadMoreContainerHome s;
     featuredCoursesContainer := featuredCoursesContainer s |}.

(** The click handlers of the two buttons. *)
Definition clickShowLess (courses : list Course) (s : State) : option State :=
  renderCategoriesHome courses (setCategoriesPage 1 s).

Definition clickShowMore (courses : list Course) (s : State) : option State :=
  renderCategoriesHome courses (setCategoriesPage (categoriesPageHome s + 1) s).

End Script.



End HomePage.

(** ** Options added by script

    [document.createElement ('option')] with its value and label set:
    the new option is enabled and not selected. *)
Definition newOption (v : jsstr) : OptionEl :=
  {| value := v; textContent := v; disabled := false; selected := false |}.

(** What a drop-down (a [<select>] without [multiple], of display size
    1) does to the selection when an option is inserted: with no option
    selected it selects the first enabled one, with several selected it
    keeps the last. *)
Fixpoint selectFirstEnabled (sel : SelectEl) : SelectEl :=
  match sel with
  | [] => []
  | o :: rest =>
      if disabled o then o :: selectFirstEnabled rest
      else set_selected true o :: rest
  end.

Fixpoint deselectButLast (sel : SelectEl) : SelectEl :=
  match sel with
  | [] => []
  | o :: rest =>
      (if selected o && existsb selected rest then set_selected false o else o)
        :: deselectButLast rest
  end.

Definition selectednessSetting (sel : SelectEl) : SelectEl :=
  if existsb selected sel then deselectButLast sel else selectFirstEnabled sel.

(** [sel.appendChild (opt)] on a drop-down, and on a [<select multiple>],
    which leaves the selection alone. *)
Definition appendOption (sel : SelectEl) (opt : OptionEl) : SelectEl :=
  selectednessSetting (sel ++ [opt]).

Definition appendOptionMultiple (sel : SelectEl) (opt : OptionEl) : SelectEl :=
  sel ++ [opt].

(** The three sets that [populateFilters] collects, as
    [Array.from (set)] lists them: the non-empty tracks, the domains and
    the tools of the courses, each once, in the order they first
    occur. *)
Definition trackSet (courses : list Course) : list jsstr :=
  uniq [] (filter truthy (List.map track courses)).

Definition domainSet (courses : list Course) : list jsstr :=
  uniq [] (flat_map domains courses).

Definition toolSet (courses : list Course) : list jsstr :=
  uniq [] (flat_map tools courses).

(** The search box is a single-line text [<input>]: a value set by
    script loses its line feeds and carriage returns. *)
Definition stripNewlines (s : jsstr) : jsstr :=
  filter (fun c => negb (N.eqb c 10 || N.eqb c 13)) s.

(** The class list of an element: its tokens, as a DOMTokenList
    keeps them ([Theme.contains], [Theme.add] and [Theme.remove]). *)
Definition ClassList := list jsstr.

(** ** index.js: set-up, search suggestions, sidebar and showcase *)
Module IndexUi.

(** The suggestions dropdown: the titles it lists and its classes. *)
Record Suggestions := {
  items : list jsstr;
  classList : ClassList
}.

(** The sidebar and its overlay, either of which may be missing. *)
Record Sidebar := {
  sidebar : option ClassList;
  sidebarOverlay : option ClassList
}.

(** An entry of [filterShowcaseExamples]: a label and the fields of
    its [filters] object that are present. *)
Record Example := {
  label : jsstr;
  exTrack : option jsstr;
  exDomain : option jsstr;
  exTool : option jsstr;
  exLevel : option jsstr
}.

Definition filterShowcaseExamples : list Example :=
  [ {| label := lit "Beginner & Python";
       exTrack := None; exDomain := None;
       exTool := Some (lit "Python"); exLevel := Some (lit "Beginner") |};
    {| label := lit "Intermediate Research";
       exTrack := None;
       exDomain := Some (lit "AI Research & Scientific Discovery");
       exTool := None; exLevel := Some (lit "Intermediate") |};
    {| label := lit "Advanced Space AI";
       exTrack := Some (lit "AI for Space, Geospatial & Planetary Science");
       exDomain := None; exTool := None; exLevel := Some (lit "Advanced") |};
    {| label := lit "Expert Quantum";
       exTrack := Some (lit "SCIENTIFIC AI, QUANTUM COMPUTING & NEUROMORPHIC RESEARCH");
       exDomain := None; exTool := None; exLevel := Some (lit "Expert") |} ].

(** [if (example.filters.f) sel.value = example.filters.f] *)
Definition setIfPresent (field : option jsstr) (sel : SelectEl) : SelectEl :=
  match field with
  | Some v => if truthy v then set_select_value v sel else sel
  | None => sel
  end.

Definition toggleSidebar (d : Sidebar) : Sidebar :=
  match sidebar d, sidebarOverlay d with
  | Some sb, Some overlay =>
      let isOpen := negb (Theme.contains sb (lit "-translate-x-full")) in
      if isOpen then
        {| sidebar := Some (Theme.add (lit "-translate-x-full") sb);
           sidebarOverlay := Some (Theme.add (lit "hidden") overlay) |}
      else
        {| sidebar := Some (Theme.remove (lit "-translate-x-full") sb);
           sidebarOverlay := Some (Theme.remove (lit "hidden") overlay) |}
  | _, _ => d
  end.

Section Script.
Context `{JsBuiltins}.

Definition populateFilters (s : Index.State) : Index.State :=
  let c := Index.ctl s in
  let courses := deref (Index.heap (Index.vars s)) (Index.courses (Index.vars s)) in
  Index.setControls
    {| Index.searchInput := Index.searchInput c;
       Index.trackFilter :=
         fold_left appendOption (List.map newOption (trackSet courses))
                   (Index.trackFilter c);
       Index.domainFilter :=
         fold_left appendOption
                   (List.map newOption (sortDefault (domainSet courses)))
                   (Index.domainFilter c);
       Index.toolFilter :=
         fold_left appendOption
                   (List.map newOption (sortDefault (toolSet courses)))
                   (Index.toolFilter c);
       Index.levelFilter := Index.levelFilter c;
       Index.sortBySelect := Index.sortBySelect c |} s.

(** The click handler of a showcase button. *)
Definition clickShowcase (example : Example) (s : Index.State) : Index.State :=
  let c := Index.ctl s in
  Index.applyFilters
    (Index.setControls
       {| Index.searchInput := [];
          Index.trackFilter :=
            setIfPresent (exTrack example) (set_select_value [] (Index.trackFilter c));
          Index.domainFilter :=
            setIfPresent (exDomain example) (set_select_value [] (Index.domainFilter c));
          Index.toolFilter :=
            setIfPresent (exTool example) (set_select_value [] (Index.toolFilter c));
          Index.levelFilter :=
            setIfPresent (exLevel example) (set_select_value [] (Index.levelFilter c));
          Index.sortBySelect := Index.sortBySelect c |} s).

(** The page state and the dropdown after [handleSearchInput]. *)
Definition handleSearchInput (s : Index.State) (suggestionsDiv : option Suggestions)
  : Index.State * option Suggestions :=
  let s1 := Index.applyFilters s in
  match suggestionsDiv with
  | None => (s1, None)
  | Some d =>
      let term := toLowerCase (trim (Index.searchInput (Index.ctl s1))) in
      let courses :=
        deref (Index.heap (Index.vars s1)) (Index.courses (Index.vars s1)) in
      if negb (truthy term) then
        (s1, Some {| items := [];
                     classList := Theme.add (lit "hidden") (classList d) |})
      else
        let matches := jsslice 0 5 (filter (fun c => titleHas c term) courses) in
        if Nat.eqb (length matches) 0 then
          (s1, Some {| items := [];
                       classList := Theme.add (lit "hidden") (classList d) |})
        else
          (s1, Some {| items := List.map title matches;
                       classList := Theme.remove (lit "hidden") (classList d) |})
  end.

(** The links of the category cards that [renderCategories]
    builds: it tallies and sorts the domains as
    [renderCategoriesHome] does and encodes the names of those it
    shows.  [None] when [encodeURIComponent] throws. *)
Definition categoryLinks (s : Index.State) : option (list jsstr) :=
  match Index.categoriesContainer (Index.doc s) with
  | None => Some []
  | Some _ =>
      let v := Index.vars s in
      let sorted := HomePage.sortedDomains (deref (Index.heap v) (Index.courses v)) in
      let len := Z.of_nat (length sorted) in
      let visibleCount :=
        Z.min (Index.categoriesPerPage * Index.categoriesPage v) len in
      encodeAll (jsslice 0 visibleCount sorted)
  end.

(** The page state that [init] leaves when nothing throws: the
    showcase buttons, the footer year and the listeners it
    installs are not part of it.  The page is taken to have the
    elements that the script uses without a check. *)
Definition initSteps (s : Index.State) : Index.State :=
  Index.applyFilters
    (Index.renderFeaturedCourses
       (Index.renderCategories
          (Index.updateFilterCounts (populateFilters s)))).

(** Whether the cards of a container could be built: a record
    without a price ends [createCourseCard] with a TypeError. *)
Definition cardsBuilt (nodes : list Node) : bool :=
  forallb priced (coursesShown nodes).

(** [init]; [None] when an exception ends it: the URIError of a
    link of [renderCategories], or the TypeError of a card of
    [renderFeaturedCourses] or of [renderCourses], which
    [applyFilters] calls. *)
Definition init (s : Index.State) : option Index.State :=
  let counted_ := Index.updateFilterCounts (populateFilters s) in
  match categoryLinks counted_ with
  | None => None
  | Some _ =>
      let featured := Index.renderFeaturedCourses (Index.renderCategories counted_) in
      let featuredBuilt :=
        match Index.featuredCoursesContainer (Index.doc featured) with
        | Some nodes => cardsBuilt nodes
        | None => true
        end in
      if featuredBuilt then
        let applied := Index.applyFilters featured in
        if cardsBuilt (Index.coursesContainer (Index.doc applied))
        then Some applied else None
      else None
  end.

End Script.
End IndexUi.

(** ** listing.js: set-up, query parameters and search suggestions *)
Module ListingUi.

(** What [URLSearchParams.get] returns for the five parameters the
    page reads; [None] is the [null] of a missing parameter. *)
Record Query := {
  qTrack : option jsstr;
  qDomain : option jsstr;
  qTool : option jsstr;
  qLevel : option jsstr;
  qQuery : option jsstr
}.

(** [if (param) sel.value = param] *)
Definition setIfGiven (param : option jsstr) (sel : SelectEl) : SelectEl :=
  match param with
  | Some v => if truthy v then set_select_value v sel else sel
  | None => sel
  end.

Section Script.
Context `{JsBuiltins}.

(** The four filters are [<select multiple>]: every option ends up
    deselected. *)
Definition populateFilters (s : Listing.State) : Listing.State :=
  let c := Listing.ctl s in
  let courses :=
    deref (Listing.heap (Listing.vars s)) (Listing.courses (Listing.vars s)) in
  Listing.setControls
    {| Listing.searchInput := Listing.searchInput c;
       Listing.trackFilter :=
         List.map (set_selected false)
           (fold_left appendOptionMultiple (List.map newOption (trackSet courses))
                      (Listing.trackFilter c));
       Listing.domainFilter :=
         List.map (set_selected false)
           (fold_left appendOptionMultiple
                      (List.map newOption (sortDefault (domainSet courses)))
                      (Listing.domainFilter c));
       Listing.toolFilter :=
         List.map (set_selected false)
           (fold_left appendOptionMultiple
                      (List.map newOption (sortDefault (toolSet courses)))
                      (Listing.toolFilter c));
       Listing.levelFilter :=
         List.map (set_selected false) (Listing.levelFilter c);
       Listing.ratingFilter := Listing.ratingFilter c;
       Listing.durationFilter := Listing.durationFilter c;
       Listing.sortBySelect := Listing.sortBySelect c |} s.

Definition applyQueryParams (q : Query) (s : Listing.State) : Listing.State :=
  let c := Listing.ctl s in
  Listing.setControls
    {| Listing.searchInput :=
         match qQuery q with
         | Some v => if truthy v then stripNewlines v else Listing.searchInput c
         | None => Listing.searchInput c
         end;
       Listing.trackFilter := setIfGiven (qTrack q) (Listing.trackFilter c);
       Listing.domainFilter := setIfGiven (qDomain q) (Listing.domainFilter c);
       Listing.toolFilter := setIfGiven (qTool q) (Listing.toolFilter c);
       Listing.levelFilter := setIfGiven (qLevel q) (Listing.levelFilter c);
       Listing.ratingFilter := Listing.ratingFilter c;
       Listing.durationFilter := Listing.durationFilter c;
       Listing.sortBySelect := Listing.sortBySelect c |} s.

(** [init], as far as the page state goes: the listeners and the
    footer year are not part of it.  The page is taken to have the
    elements that the script uses without a check. *)
Definition init (q : Query) (s : Listing.State) : Listing.State :=
  Listing.updateFilterCounts
    (Listing.applyFilters (applyQueryParams q (populateFilters s))).

Definition handleSearchInput (s : Listing.State)
    (suggestionsDiv : option IndexUi.Suggestions)
  : Listing.State * option IndexUi.Suggestions :=
  let s1 := Listing.applyFilters s in
  match suggestionsDiv with
  | None => (s1, None)
  | Some d =>
      let term := toLowerCase (trim (Listing.searchInput (Listing.ctl s1))) in
      let courses :=
        deref (Listing.heap (Listing.vars s1)) (Listing.courses (Listing.vars s1)) in
      if negb (truthy term) then
        (s1, Some {| IndexUi.items := [];
                     IndexUi.classList :=
                       Theme.add (lit "hidden") (IndexUi.classList d) |})
      else
        let matches := jsslice 0 5 (filter (fun c => titleHas c term) courses) in
        if Nat.eqb (length matches) 0 then
          (s1, Some {| IndexUi.items := [];
                       IndexUi.classList :=
                         Theme.add (lit "hidden") (IndexUi.classList d) |})
        else
          (s1, Some {| IndexUi.items := List.map title matches;
                       IndexUi.classList :=
                         Theme.remove (lit "hidden") (IndexUi.classList d) |})
  end.


End Script.
End ListingUi.

(** ** Notions used to state the properties of the rest of the scripts *)

(** The three lists of values that a catalog gives to the filters: its
    non-empty tracks, each once; its domains and its tools, each once
    and in order. *)
Definition populated (courses : list Course) (ts ds tls : list jsstr) : Prop :=
  NoDup ts
  /\ (forall x, In x ts <-> x <> [] /\ exists c, In c courses /\ track c = x)
  /\ ascending ds
  /\ (forall x, In x ds <-> exists c, In c courses /\ In x (domains c))
  /\ ascending tls
  /\ (forall x, In x tls <-> exists c, In c courses /\ In x (tools c)).

(** A drop-down as the page has it before any choice: an option is
    selected, and what is selected has the empty value. *)
Definition unset (sel : SelectEl) : Prop :=
  selectedOptions sel <> []
  /\ forall o, In o (selectedOptions sel) -> value o = [].

(** The page numbers that the pagination shows, in the order shown. *)
Definition pageNumbers (items : list Listing.PageItem) : list Z :=
  flat_map (fun item => match item with
                        | Listing.PageNumber i => [i]
                        | _ => []
                        end) items.



(** What a select shows after a showcase button has set it: the value
    of the example when the example has one and an option carries it,
    no value otherwise. *)
Definition chosen (field : option jsstr) (sel : SelectEl) : jsstr :=
  match field with
  | Some v => if arr_includes (List.map value sel) v then v else []
  | None => []
  end.

(** The domains that get a category card: the names of the domains of
    the catalog, each once, but for the name [__proto__]. *)
Definition cardDomains (courses : list Course) : list jsstr :=
  uniq [] (filter (fun d => negb (inheritedAccessor d)) (flat_map domains courses)).

(** The filters of the home page show, for a catalog, how many courses
    have each value, and offer every value of the catalog. *)
Definition counted (cs : list Course) (c : Index.Controls) : Prop :=
  labelled (Index.trackFilter c)
           (fun v => length (filter (fun x => str_eqb (track x) v) cs))
  /\ labelled (Index.domainFilter c)
              (fun v => length (filter (fun x => arr_includes (domains x) v) cs))
  /\ labelled (Index.toolFilter c)
              (fun v => length (filter (fun x => arr_includes (tools x) v) cs))
  /\ labelled (Index.levelFilter c)
              (fun v => length (filter (fun x => str_eqb (level x) v) cs))
  /\ (forall x, In x cs ->
        (track x <> [] ->
         exists o, In o (Index.trackFilter c) /\ value o = track x
                   /\ disabled o = false)
        /\ (forall d, In d (domains x) -> d <> [] ->
              exists o, In o (Index.domainFilter c) /\ value o = d
                        /\ disabled o = false)
        /\ (forall t, In t (tools x) -> t <> [] ->
              exists o, In o (Index.toolFilter c) /\ value o = t
                        /\ disabled o = false)).

(** ** States to run the rest of the scripts on *)
Module Demo.

(** The landing page before its categories and featured courses are
    rendered. *)
Definition home : HomePage.State :=
  {| HomePage.categoriesPageHome := 1;
     HomePage.categoriesContainer := Some [];
     HomePage.categoriesLoadMoreContainerHome := Some [];
     HomePage.featuredCoursesContainer := Some [] |}.

(** A course that spans ten domains. *)
Definition survey : Course :=
  {| title := lit "Survey of AI"; track := lit "AI"; level := lit "Beginner";
     domains := List.map (fun i => lit "Domain " ++ showNat i) (seq 0 10);
     tools := []; rating := 4%Q; students := 100%Q; weeks := 2%Q;
     lmsPriceInr := Some 4999%Q; videoPriceInr := Some 9999%Q;
     livePriceInr := Some 14999%Q |}.


(** A course with a given rating and number of students. *)
Definition rated (r n : Q) : Course :=
  {| title := lit "Course"; track := lit "AI"; level := lit "Beginner";
     domains := [lit "ML"]; tools := []; rating := r; students := n;
     weeks := 2%Q;
     lmsPriceInr := Some 4999%Q; videoPriceInr := Some 9999%Q;
     livePriceInr := Some 14999%Q |}.

(** A record that lacks the price of the live course. *)
Definition unpriced : Course :=
  {| title := lit "Draft"; track := lit "AI"; level := lit "Beginner";
     domains := [lit "ML"]; tools := [lit "Python"]; rating := 4%Q;
     students := 10%Q; weeks := 2%Q;
     lmsPriceInr := Some 4999%Q; videoPriceInr := Some 9999%Q;
     livePriceInr := None |}.

(** A course of given domains. *)
Definition named (ds : list jsstr) : Course :=
  {| title := lit "Course"; track := lit "AI"; level := lit "Beginner";
     domains := ds; tools := []; rating := 4%Q; students := 100%Q;
     weeks := 2%Q;
     lmsPriceInr := Some 4999%Q; videoPriceInr := Some 9999%Q;
     livePriceInr := Some 14999%Q |}.


(** The first example of the showcase. *)
Definition firstExample : IndexUi.Example :=
  nth 0 IndexUi.filterShowcaseExamples
      {| IndexUi.label := []; IndexUi.exTrack := None; IndexUi.exDomain := None;
         IndexUi.exTool := None; IndexUi.exLevel := None |}.

End Demo.
(** ** Basic facts on strings *)

Lemma str_eqb_eq (a b : jsstr) : str_eqb a b = true <-> a = b.
Proof.
  revert b; induction a as [|x a IH]; intros [|y b]; simpl;
    try (split; [discriminate | discriminate]); try tauto.
  rewrite andb_true_iff, N.eqb_eq, IH.
  split; [intros [-> ->]; reflexivity | intros H; inversion H; auto].
Qed.

Lemma str_eqb_refl (a : jsstr) : str_eqb a a = true.
Proof. apply str_eqb_eq; reflexivity. Qed.

Lemma str_eqb_neq (a b : jsstr) : str_eqb a b = false <-> a <> b.
Proof.
  rewrite <- str_eqb_eq. destruct (str_eqb a b); split; congruence.
Qed.

Lemma str_eqb_sym (a b : jsstr) : str_eqb a b = str_eqb b a.
Proof.
  destruct (str_eqb a b) eqn:E.
  - apply str_eqb_eq in E; subst; symmetry; apply str_eqb_refl.
  - apply str_eqb_neq in E. symmetry; apply str_eqb_neq; congruence.
Qed.

Lemma truthy_true (s : jsstr) : truthy s = true <-> s <> [].
Proof. destruct s; simpl; split; congruence. Qed.

Lemma truthy_false (s : jsstr) : truthy s = false <-> s = [].
Proof. destruct s; simpl; split; congruence. Qed.

Lemma arr_includes_In (l : list jsstr) (v : jsstr) :
  arr_includes l v = true <-> In v l.
Proof.
  unfold arr_includes. rewrite existsb_exists. split.
  - intros [x [Hin Heq]]. apply str_eqb_eq in Heq; subst; exact Hin.
  - intros Hin. exists v. split; [exact Hin | apply str_eqb_refl].
Qed.

Lemma startsWith_app (s p : jsstr) :
  startsWith s p = true <-> exists post, s = p ++ post.
Proof.
  revert s; induction p as [|y p IH]; intros s.
  - split; [intros _; exists s; reflexivity | destruct s; reflexivity].
  - destruct s as [|x s]; simpl.
    + split; [discriminate | intros [post H]; discriminate].
    + rewrite andb_true_iff, N.eqb_eq, IH. split.
      * intros [-> [post ->]]. exists post; reflexivity.
      * intros [post H]. inversion H; subst. split; [reflexivity | eauto].
Qed.

(** [includes] finds its argument exactly when it occurs as a
    contiguous run of code units. *)
Lemma includes_app (s t : jsstr) :
  includes s t = true <-> exists pre post, s = pre ++ t ++ post.
Proof.
  induction s as [|x s IH].
  - change (includes [] t) with (startsWith [] t || false).
    rewrite orb_false_r, startsWith_app. split.
    + intros [post H]. exists [], post. exact H.
    + intros [pre [post H]]. destruct pre; simpl in H.
      * exists post; exact H.
      * discriminate.
  - change (includes (x :: s) t) with (startsWith (x :: s) t || includes s t).
    rewrite orb_true_iff, IH, startsWith_app. split.
    + intros [[post H] | [pre [post H]]].
      * exists [], post. exact H.
      * exists (x :: pre), post. simpl. rewrite H. reflexivity.
    + intros [pre [post H]]. destruct pre as [|y pre]; simpl in H.
      * left. exists post. exact H.
      * right. inversion H; subst. exists pre, post. reflexivity.
Qed.

Lemma includes_empty (s : jsstr) : includes s [] = true.
Proof. apply includes_app. exists [], s. reflexivity. Qed.

(** ** Facts on [sort] *)

Section SortFacts.
Context {A : Type} (cmp : A -> A -> Q).

Lemma insert_perm (x : A) (l : list A) : Permutation (x :: l) (insert cmp x l).
Proof.
  induction l as [|y l IH]; simpl.
  - apply Permutation_refl.
  - destruct (before cmp x y).
    + apply Permutation_refl.
    + eapply perm_trans; [apply perm_swap | apply perm_skip, IH].
Qed.

Lemma sortWith_perm (l : list A) : Permutation l (sortWith cmp l).
Proof.
  induction l as [|x l IH]; simpl.
  - apply perm_nil.
  - eapply perm_trans; [apply perm_skip, IH | apply insert_perm].
Qed.

Lemma sortWith_In (l : list A) (x : A) : In x (sortWith cmp l) <-> In x l.
Proof.
  split; apply Permutation_in;
    [apply Permutation_sym |]; apply sortWith_perm.
Qed.

Lemma sortWith_length (l : list A) : length (sortWith cmp l) = length l.
Proof. symmetry. apply Permutation_length, sortWith_perm. Qed.

(** When the comparator is consistent ([before] is total and
    transitive), the result is in order. *)
Hypothesis before_total : forall a b, before cmp a b = false -> before cmp b a = true.
Hypothesis before_trans :
  forall a b c, before cmp a b = true -> before cmp b c = true -> before cmp a c = true.

Lemma insert_sorted (x : A) (l : list A) :
  StronglySorted (fun a b => before cmp a b = true) l ->
  StronglySorted (fun a b => before cmp a b = true) (insert cmp x l).
Proof.
  induction 1 as [|y l Hs IH Hy]; simpl.
  - constructor; [constructor | constructor].
  - destruct (before cmp x y) eqn:E.
    + constructor; [constructor; assumption |].
      constructor; [exact E |].
      rewrite Forall_forall in *. intros z Hz. eauto.
    + constructor; [exact IH |].
      rewrite Forall_forall in *. intros z Hz.
      apply (Permutation_in _ (Permutation_sym (insert_perm x l))) in Hz.
      destruct Hz as [<- | Hz]; auto.
Qed.

Lemma sortWith_sorted (l : list A) :
  StronglySorted (fun a b => before cmp a b = true) (sortWith cmp l).
Proof.
  induction l as [|x l IH]; simpl; [constructor | apply insert_sorted, IH].
Qed.
End SortFacts.

Lemma StronglySorted_impl {A : Type} (R S : A -> A -> Prop) (l : list A) :
  (forall a b, R a b -> S a b) -> StronglySorted R l -> StronglySorted S l.
Proof.
  intros HRS. induction 1 as [|x l Hs IH Hx]; constructor; auto.
  eapply Forall_impl; [|exact Hx]. intros; auto.
Qed.

(** Sorting by a numeric key, ascending. *)
Lemma sortWith_key_sorted {A : Type} (key : A -> Q) (l : list A) :
  StronglySorted (fun a b => (key a <= key b)%Q)
                 (sortWith (fun a b => (key a - key b)%Q) l).
Proof.
  assert (E : forall a b, before (fun a b => (key a - key b)%Q) a b = true
                          <-> (key a <= key b)%Q).
  { intros a b. unfold before. rewrite Qle_bool_iff.
    split; intros Hle.
    - apply Qplus_le_l with (z := (- key b)%Q). rewrite Qplus_opp_r. exact Hle.
    - apply Qplus_le_l with (z := (- key b)%Q) in Hle.
      rewrite Qplus_opp_r in Hle. exact Hle. }
  eapply StronglySorted_impl; [intros a b; apply E |].
  apply sortWith_sorted.
  - intros a b Hab.
    apply E. destruct (Qlt_le_dec (key a) (key b)) as [Hlt | Hle]; [| exact Hle].
    exfalso. apply Qlt_le_weak in Hlt. apply E in Hlt. congruence.
  - intros a b c Hab Hbc. apply E. apply E in Hab. apply E in Hbc.
    eapply Qle_trans; eassumption.
Qed.

(** ** Facts on the store *)

Lemma deref_alloc_new (h : Heap) (a : list Course) :
  deref (snd (alloc h a)) (fst (alloc h a)) = a.
Proof.
  unfold deref, alloc; simpl. rewrite app_nth2 by lia.
  rewrite Nat.sub_diag. reflexivity.
Qed.

Lemma deref_alloc_old (h : Heap) (a : list Course) (l : loc) :
  l < length h -> deref (snd (alloc h a)) l = deref h l.
Proof. intros Hl. unfold deref, alloc; simpl. apply app_nth1. exact Hl. Qed.

Lemma store_length (h : Heap) (l : loc) (a : list Course) :
  length (store h l a) = length h.
Proof.
  revert l; induction h as [|x h IH]; intros [|l]; simpl; auto.
Qed.

Lemma deref_store_same (h : Heap) (l : loc) (a : list Course) :
  l < length h -> deref (store h l a) l = a.
Proof.
  unfold deref. revert l; induction h as [|x h IH]; intros [|l] Hl; simpl in *;
    try lia; auto.
  apply IH. lia.
Qed.

Lemma deref_store_other (h : Heap) (l l' : loc) (a : list Course) :
  l <> l' -> deref (store h l a) l' = deref h l'.
Proof.
  unfold deref. revert l l'; induction h as [|x h IH]; intros [|l] [|l'] Hne;
    simpl; try congruence; auto.
Qed.

Lemma alloc_length (h : Heap) (a : list Course) :
  length (snd (alloc h a)) = S (length h).
Proof. unfold alloc; simpl. rewrite length_app; simpl. lia. Qed.

(** Sorting a freshly allocated array leaves every older array alone. *)
Lemma sort_fresh_frame (cmp : Course -> Course -> Q) (h : Heap)
    (a : list Course) (l : loc) :
  l < length h ->
  deref (arr_sort cmp (fst (alloc h a)) (snd (alloc h a))) l = deref h l.
Proof.
  intros Hl. unfold arr_sort.
  rewrite deref_store_other by (simpl; lia).
  apply deref_alloc_old, Hl.
Qed.

Lemma sort_fresh_result (cmp : Course -> Course -> Q) (h : Heap) (a : list Course) :
  deref (arr_sort cmp (fst (alloc h a)) (snd (alloc h a))) (fst (alloc h a))
  = sortWith cmp a.
Proof.
  unfold arr_sort. rewrite deref_alloc_new.
  apply deref_store_same. rewrite alloc_length. simpl. lia.
Qed.

(** ** Icons *)

Lemma charCode_loop (pre d : jsstr) (a : N) :
  fold_left (fun sum i => addCode sum (charCodeAt (pre ++ d) i))
            (seq (length pre) (length d)) (Some a)
  = Some (a + codeUnitSum d)%N.
Proof.
  revert pre a; induction d as [|x d IH]; intros pre a; simpl.
  - rewrite N.add_0_r. reflexivity.
  - unfold charCodeAt at 2. rewrite nth_error_app2 by lia.
    rewrite Nat.sub_diag. simpl.
    specialize (IH (pre ++ [x]) (a + x)%N).
    rewrite <- app_assoc in IH. simpl in IH.
    rewrite length_app in IH. simpl in IH.
    rewrite Nat.add_1_r in IH. rewrite IH.
    f_equal. lia.
Qed.

Lemma charCode_sum (d : jsstr) :
  fold_left (fun sum i => addCode sum (charCodeAt d i)) (seq 0 (length d)) (Some 0%N)
  = Some (codeUnitSum d).
Proof. apply (charCode_loop [] d 0%N). Qed.

Lemma nth_error_in_range {A : Type} (l : list A) (n : nat) :
  n < length l -> exists x, nth_error l n = Some x.
Proof.
  intros Hn. destruct (nth_error l n) eqn:E; [eauto |].
  apply nth_error_None in E. lia.
Qed.

(** C10.  The two [getIconForDomain] functions, of index.js and of
    home.js, agree on every domain name: both return the entry of the
    icon list at index (sum of the UTF-16 code units) mod 15, the two
    icon lists are the same list of 15 names, and the entry always
    exists. *)
Theorem getIconForDomain_agree (domain : jsstr) :
  Index.getIconForDomain domain = HomeJs.getIconForDomain domain
  /\ Index.getIconForDomain domain
     = nth_error Index.domainIcons (N.to_nat (codeUnitSum domain mod 15))
  /\ HomeJs.getIconForDomain domain
     = nth_error HomeJs.domainIcons (N.to_nat (codeUnitSum domain mod 15))
  /\ Index.domainIcons = HomeJs.domainIcons
  /\ length Index.domainIcons = 15
  /\ exists icon, Index.getIconForDomain domain = Some icon.
Proof.
  assert (E1 : Index.getIconForDomain domain
               = nth_error Index.domainIcons (N.to_nat (codeUnitSum domain mod 15))).
  { unfold Index.getIconForDomain. rewrite charCode_sum. reflexivity. }
  assert (E2 : HomeJs.getIconForDomain domain
               = nth_error HomeJs.domainIcons (N.to_nat (codeUnitSum domain mod 15))).
  { unfold HomeJs.getIconForDomain. rewrite charCode_sum. reflexivity. }
  split; [rewrite E1, E2; reflexivity |].
  repeat split; try assumption.
  rewrite E1. apply nth_error_in_range.
  change (length Index.domainIcons) with 15.
  pose proof (N.mod_upper_bound (codeUnitSum domain) 15). lia.
Qed.

(** ** Theme *)

Lemma getItem_setItem (k k' v : jsstr) (ls : list (jsstr * jsstr)) :
  Theme.getItem k' (Theme.setItem k v ls)
  = if str_eqb k' k then Some v else Theme.getItem k' ls.
Proof.
  unfold Theme.getItem.
  induction ls as [|[k0 v0] ls IH]; simpl.
  - rewrite (str_eqb_sym k k'). destruct (str_eqb k' k); reflexivity.
  - destruct (str_eqb k0 k) eqn:E0; simpl.
    + apply str_eqb_eq in E0; subst k0.
      rewrite (str_eqb_sym k k'). destruct (str_eqb k' k); reflexivity.
    + destruct (str_eqb k0 k') eqn:E1; simpl.
      * apply str_eqb_eq in E1; subst k0. rewrite E0. reflexivity.
      * exact IH.
Qed.

Lemma contains_remove (t : jsstr) (l : list jsstr) :
  Theme.contains (Theme.remove t l) t = false.
Proof.
  unfold Theme.contains, Theme.remove.
  destruct (arr_includes (filter (fun x => negb (str_eqb x t)) l) t) eqn:E; auto.
  apply arr_includes_In in E. apply filter_In in E. destruct E as [_ E].
  rewrite str_eqb_refl in E. discriminate.
Qed.

Lemma contains_append (t : jsstr) (l : list jsstr) :
  Theme.contains (l ++ [t]) t = true.
Proof.
  apply arr_includes_In. apply in_or_app. right. left. reflexivity.
Qed.

Lemma remove_absent (t : jsstr) (l : list jsstr) :
  Theme.contains l t = false -> Theme.remove t l = l.
Proof.
  unfold Theme.contains, Theme.remove, arr_includes.
  induction l as [|x l IH]; simpl; auto.
  intros Hc. apply orb_false_iff in Hc. destruct Hc as [Hx Hl].
  rewrite Hx. simpl. f_equal. auto.
Qed.

(** C8.  [toggleDarkMode] writes the one key 'theme' of [localStorage]
    and leaves every other key as it was; the value written is 'dark'
    exactly when the root element carries the class [dark] after the
    toggle, 'light' otherwise.  [applySavedTheme] does not write
    [localStorage]; after it the root carries [dark] exactly when the
    stored value is 'dark'.  Applying the saved theme right after a
    toggle changes nothing. *)
Theorem theme_persistence (s : Theme.State) :
  (forall k,
     Theme.getItem k (Theme.localStorage (Theme.toggleDarkMode s))
     = if str_eqb k (lit "theme")
       then Some (if Theme.contains (Theme.classList (Theme.toggleDarkMode s)) (lit "dark")
                  then lit "dark" else lit "light")
       else Theme.getItem k (Theme.localStorage s))
  /\ Theme.localStorage (Theme.applySavedTheme s) = Theme.localStorage s
  /\ (Theme.contains (Theme.classList (Theme.applySavedTheme s)) (lit "dark") = true
      <-> Theme.getItem (lit "theme") (Theme.localStorage s) = Some (lit "dark"))
  /\ Theme.applySavedTheme (Theme.toggleDarkMode s) = Theme.toggleDarkMode s.
Proof.
  split; [| split; [| split]].
  - intros k. unfold Theme.toggleDarkMode, Theme.toggle.
    destruct (Theme.contains (Theme.classList s) (lit "dark")) eqn:E;
      cbn [Theme.localStorage Theme.classList];
      rewrite getItem_setItem.
    + rewrite contains_remove. reflexivity.
    + rewrite contains_append. reflexivity.
  - unfold Theme.applySavedTheme.
    destruct (Theme.getItem (lit "theme") (Theme.localStorage s)) as [v|];
      [destruct (str_eqb v (lit "dark")) |]; reflexivity.
  - unfold Theme.applySavedTheme.
    destruct (Theme.getItem (lit "theme") (Theme.localStorage s)) as [v|].
    + destruct (str_eqb v (lit "dark")) eqn:E; cbn [Theme.classList].
      * apply str_eqb_eq in E; subst v. split; [reflexivity | intros _].
        unfold Theme.add.
        destruct (Theme.contains (Theme.classList s) (lit "dark")) eqn:C;
          [exact C | apply contains_append].
      * rewrite contains_remove. split; [discriminate |].
        intros Hv. inversion Hv; subst v. rewrite str_eqb_refl in E. discriminate.
    + cbn [Theme.classList]. rewrite contains_remove. split; discriminate.
  - unfold Theme.toggleDarkMode, Theme.toggle.
    destruct (Theme.contains (Theme.classList s) (lit "dark")) eqn:E.
    + unfold Theme.applySavedTheme. cbn [Theme.localStorage Theme.classList].
      rewrite getItem_setItem. rewrite str_eqb_refl.
      change (str_eqb (lit "light") (lit "dark")) with false. cbv iota.
      rewrite remove_absent by apply contains_remove. reflexivity.
    + unfold Theme.applySavedTheme. cbn [Theme.localStorage Theme.classList].
      rewrite getItem_setItem. rewrite str_eqb_refl.
      change (str_eqb (lit "dark") (lit "dark")) with true. cbv iota.
      unfold Theme.add. rewrite contains_append. reflexivity.
Qed.

(** ** Boolean guards *)

Lemma if_false_iff (c rest : bool) :
  (if c then false else rest) = true <-> c = false /\ rest = true.
Proof. destruct c, rest; simpl; split; intuition congruence. Qed.

Lemma guard_truthy (x : jsstr) (b : bool) :
  truthy x && negb b = false <-> (x <> [] -> b = true).
Proof.
  destruct x as [|c x]; destruct b; simpl; split; intros Hx;
    try reflexivity; try congruence.
  symmetry. apply Hx. discriminate.
Qed.

Lemma guard_nonempty {A : Type} (l : list A) (b : bool) :
  (0 <? length l)%nat && negb b = false <-> (l <> [] -> b = true).
Proof.
  destruct l as [|c l]; destruct b; simpl; split; intros Hx;
    try reflexivity; try congruence.
  symmetry. apply Hx. discriminate.
Qed.

Lemma overlaps_exists (l selectedL : list jsstr) :
  overlaps l selectedL = true <-> exists d, In d l /\ In d selectedL.
Proof.
  unfold overlaps. rewrite existsb_exists.
  split; intros [d [H1 H2]]; exists d; split; auto; apply arr_includes_In; auto.
Qed.

Lemma Qltb_lt (a b : Q) : Qltb a b = true <-> (a < b)%Q.
Proof.
  unfold Qltb. rewrite negb_true_iff. split.
  - intros Hf. apply Qnot_le_lt. intros Hle.
    apply Qle_bool_iff in Hle. congruence.
  - intros Hlt. destruct (Qle_bool b a) eqn:E; auto.
    apply Qle_bool_iff in E. exfalso. eapply Qlt_not_le; eassumption.
Qed.

Lemma Qltb_ge (a b : Q) : Qltb a b = false <-> (b <= a)%Q.
Proof.
  unfold Qltb. rewrite negb_false_iff. apply Qle_bool_iff.
Qed.

(** ** The home page: what [applyFilters] leaves in the variables *)

Section IndexFacts.
Context `{JsBuiltins}.

Lemma index_renderCourses_vars (s : Index.State) :
  Index.vars (Index.renderCourses s) = Index.vars s.
Proof. reflexivity. Qed.

Lemma index_renderCourses_ctl (s : Index.State) :
  Index.ctl (Index.renderCourses s) = Index.ctl s.
Proof. reflexivity. Qed.

Lemma index_updateFilterCounts_vars (s : Index.State) :
  Index.vars (Index.updateFilterCounts s) = Index.vars s.
Proof.
  unfold Index.updateFilterCounts.
  destruct (Nat.eqb _ 0); reflexivity.
Qed.

Lemma index_updateFilterCounts_doc (s : Index.State) :
  Index.doc (Index.updateFilterCounts s) = Index.doc s.
Proof.
  unfold Index.updateFilterCounts.
  destruct (Nat.eqb _ 0); reflexivity.
Qed.

Lemma index_updateActiveFilters_vars (s : Index.State) :
  Index.vars (Index.updateActiveFilters s) = Index.vars s.
Proof.
  unfold Index.updateActiveFilters.
  destruct (Index.activeFiltersDiv (Index.doc s)); reflexivity.
Qed.

Lemma index_updateActiveFilters_ctl (s : Index.State) :
  Index.ctl (Index.updateActiveFilters s) = Index.ctl s.
Proof.
  unfold Index.updateActiveFilters.
  destruct (Index.activeFiltersDiv (Index.doc s)); reflexivity.
Qed.

Lemma index_applyFilters_vars (s : Index.State) :
  let v := Index.vars s in
  let a := filter (index_keep (Index.ctl s)) (index_courses s) in
  Index.vars (Index.applyFilters s)
  = {| Index.heap :=
         arr_sort (sortComparator (Index.sortBySelect (Index.ctl s)))
                  (fst (alloc (Index.heap v) a)) (snd (alloc (Index.heap v) a));
       Index.courses := Index.courses v;
       Index.filteredCourses := fst (alloc (Index.heap v) a);
       Index.currentView := Index.currentView v;
       Index.currentPage := 1;
       Index.categoriesPage := Index.categoriesPage v |}.
Proof.
  unfold Index.applyFilters, arr_filter, alloc.
  cbv beta iota zeta.
  rewrite index_updateActiveFilters_vars, index_updateFilterCounts_vars.
  reflexivity.
Qed.

Lemma index_applyFilters_filtered (s : Index.State) :
  index_filtered (Index.applyFilters s)
  = sortWith (sortComparator (Index.sortBySelect (Index.ctl s)))
             (filter (index_keep (Index.ctl s)) (index_courses s)).
Proof.
  unfold index_filtered. rewrite index_applyFilters_vars.
  cbv zeta. cbn [Index.heap Index.filteredCourses].
  apply sort_fresh_result.
Qed.

Lemma index_applyFilters_page (s : Index.State) :
  Index.currentPage (Index.vars (Index.applyFilters s)) = 1%Z.
Proof. rewrite index_applyFilters_vars. reflexivity. Qed.

Lemma index_keep_matches (c : Index.Controls) (course : Course) :
  index_keep c course = true <-> index_matches c course.
Proof.
  unfold index_keep, Index.keepCourse, index_matches, searchTermOf,
    titleContains, titleHas.
  cbv zeta.
  repeat rewrite if_false_iff.
  repeat rewrite guard_truthy.
  repeat rewrite arr_includes_In.
  repeat rewrite str_eqb_eq.
  split.
  - intros (H1 & H2 & H3 & H4 & H5 & _). repeat split; auto.
    destruct (toLowerCase (trim (Index.searchInput c))) eqn:E; [left; reflexivity |].
    right. apply H1. discriminate.
  - intros (H1 & H2 & H3 & H4 & H5). repeat split; auto.
    intros Hne. destruct H1 as [H1 | H1]; [contradiction | exact H1].
Qed.
End IndexFacts.

(** ** The catalog page: what [applyFilters] leaves in the variables *)

Section ListingFacts.
Context `{JsBuiltins}.

Lemma listing_renderPagination_vars (s : Listing.State) :
  Listing.vars (Listing.renderPagination s) = Listing.vars s.
Proof.
  unfold Listing.renderPagination.
  destruct (Listing.paginationControls (Listing.doc s)); reflexivity.
Qed.

Lemma listing_renderPagination_ctl (s : Listing.State) :
  Listing.ctl (Listing.renderPagination s) = Listing.ctl s.
Proof.
  unfold Listing.renderPagination.
  destruct (Listing.paginationControls (Listing.doc s)); reflexivity.
Qed.

Lemma listing_renderCourses_vars (s : Listing.State) :
  Listing.vars (Listing.renderCourses s) = Listing.vars s.
Proof.
  unfold Listing.renderCourses. cbv zeta.
  destruct (Nat.eqb _ 0); [reflexivity |].
  rewrite listing_renderPagination_vars. reflexivity.
Qed.

Lemma listing_renderCourses_ctl (s : Listing.State) :
  Listing.ctl (Listing.renderCourses s) = Listing.ctl s.
Proof.
  unfold Listing.renderCourses. cbv zeta.
  destruct (Nat.eqb _ 0); [reflexivity |].
  rewrite listing_renderPagination_ctl. reflexivity.
Qed.

Lemma listing_updateFilterCounts_vars (s : Listing.State) :
  Listing.vars (Listing.updateFilterCounts s) = Listing.vars s.
Proof.
  unfold Listing.updateFilterCounts.
  destruct (Nat.eqb _ 0); reflexivity.
Qed.


Lemma listing_updateActiveFilters_vars (s : Listing.State) :
  Listing.vars (Listing.updateActiveFilters s) = Listing.vars s.
Proof.
  unfold Listing.updateActiveFilters.
  destruct (Listing.activeFiltersDiv (Listing.doc s)); reflexivity.
Qed.

Lemma listing_updateActiveFilters_ctl (s : Listing.State) :
  Listing.ctl (Listing.updateActiveFilters s) = Listing.ctl s.
Proof.
  unfold Listing.updateActiveFilters.
  destruct (Listing.activeFiltersDiv (Listing.doc s)); reflexivity.
Qed.

Lemma listing_applyFilters_vars (s : Listing.State) :
  let v := Listing.vars s in
  let a := filter (listing_keep (Listing.ctl s)) (listing_courses s) in
  Listing.vars (Listing.applyFilters s)
  = {| Listing.heap :=
         arr_sort (sortComparator (Listing.sortBySelect (Listing.ctl s)))
                  (fst (alloc (Listing.heap v) a)) (snd (alloc (Listing.heap v) a));
       Listing.courses := Listing.courses v;
       Listing.filteredCourses := fst (alloc (Listing.heap v) a);
       Listing.currentView := Listing.currentView v;
       Listing.currentPage := 1 |}.
Proof.
  unfold Listing.applyFilters, arr_filter, alloc.
  cbv beta iota zeta.
  rewrite listing_updateActiveFilters_vars, listing_updateFilterCounts_vars,
    listing_renderCourses_vars.
  reflexivity.
Qed.

Lemma listing_applyFilters_filtered (s : Listing.State) :
  listing_filtered (Listing.applyFilters s)
  = sortWith (sortComparator (Listing.sortBySelect (Listing.ctl s)))
             (filter (listing_keep (Listing.ctl s)) (listing_courses s)).
Proof.
  unfold listing_filtered. rewrite listing_applyFilters_vars.
  cbv zeta. cbn [Listing.heap Listing.filteredCourses].
  apply sort_fresh_result.
Qed.

Lemma listing_applyFilters_page (s : Listing.State) :
  Listing.currentPage (Listing.vars (Listing.applyFilters s)) = 1%Z.
Proof. rewrite listing_applyFilters_vars. reflexivity. Qed.
End ListingFacts.

Section FilterSort.
Context `{JsBuiltins}.

Lemma belowThreshold_false (thr : option Q) (course : Course) :
  Listing.belowThreshold thr course = false
  <-> (forall t, thr = Some t -> (0 < t)%Q -> (t <= rating course)%Q).
Proof.
  unfold Listing.belowThreshold. destruct thr as [t|].
  - rewrite andb_false_iff. split.
    + intros Hb t' Ht' Hpos. inversion Ht'; subst t'.
      destruct Hb as [Hb | Hb].
      * apply Qltb_ge in Hb. exfalso. eapply Qlt_not_le; eassumption.
      * apply Qltb_ge in Hb. exact Hb.
    + intros Hall. destruct (Qltb 0 t) eqn:E; [right | left; reflexivity].
      apply Qltb_ge. apply (Hall t eq_refl). apply Qltb_lt. exact E.
  - split; [intros _ t Ht; discriminate | reflexivity].
Qed.

Lemma duration_guard (dc : jsstr) (w : Q) :
  (if truthy dc && negb (str_eqb dc (lit "all")) then
     if str_eqb dc (lit "short") && negb (Qltb w 4%Q) then false
     else if str_eqb dc (lit "medium")
             && negb (Qle_bool 4%Q w && Qle_bool w 8%Q) then false
     else if str_eqb dc (lit "long") && negb (Qltb 8%Q w) then false
     else true
   else true) = true
  <-> inBucket dc w.
Proof.
  unfold inBucket.
  destruct (str_eqb dc (lit "short")) eqn:E1.
  { apply str_eqb_eq in E1; subst dc.
    change (truthy (lit "short") && negb (str_eqb (lit "short") (lit "all"))) with true.
    change (str_eqb (lit "short") (lit "medium")) with false.
    change (str_eqb (lit "short") (lit "long")) with false.
    cbn [andb]. cbv iota.
    destruct (Qltb w 4) eqn:E; cbn [negb]; cbv iota.
    - apply Qltb_lt in E. split; [intros _ | reflexivity].
      repeat split; auto; intros Hd; vm_compute in Hd; discriminate.
    - split; [discriminate | intros (Hs & _)].
      apply Qltb_ge in E. exfalso.
      eapply Qlt_not_le; [apply Hs; reflexivity | exact E]. }
  destruct (str_eqb dc (lit "medium")) eqn:E2.
  { apply str_eqb_eq in E2; subst dc.
    change (truthy (lit "medium") && negb (str_eqb (lit "medium") (lit "all"))) with true.
    change (str_eqb (lit "medium") (lit "long")) with false.
    cbn [andb]. cbv iota.
    destruct (Qle_bool 4 w && Qle_bool w 8) eqn:E; cbn [negb]; cbv iota.
    - apply andb_true_iff in E. destruct E as [Ea Eb].
      apply Qle_bool_iff in Ea. apply Qle_bool_iff in Eb.
      split; [intros _ | reflexivity].
      repeat split; auto; intros Hd; vm_compute in Hd; discriminate.
    - split; [discriminate | intros (_ & Hm & _)].
      destruct (Hm eq_refl) as [Ha Hb].
      apply Qle_bool_iff in Ha. apply Qle_bool_iff in Hb.
      rewrite Ha, Hb in E. discriminate. }
  destruct (str_eqb dc (lit "long")) eqn:E3.
  { apply str_eqb_eq in E3; subst dc.
    change (truthy (lit "long") && negb (str_eqb (lit "long") (lit "all"))) with true.
    cbn [andb]. cbv iota.
    destruct (Qltb 8 w) eqn:E; cbn [negb]; cbv iota.
    - apply Qltb_lt in E. split; [intros _ | reflexivity].
      repeat split; auto; intros Hd; vm_compute in Hd; discriminate.
    - split; [discriminate | intros (_ & _ & Hl)].
      apply Qltb_ge in E. exfalso.
      eapply Qlt_not_le; [apply Hl; reflexivity | exact E]. }
  apply str_eqb_neq in E1. apply str_eqb_neq in E2. apply str_eqb_neq in E3.
  cbn [andb]. cbv iota.
  split.
  - intros _. repeat split; intros Hd; contradiction.
  - intros _. destruct (truthy dc && negb (str_eqb dc (lit "all"))); reflexivity.
Qed.

(** The threshold that the script computes is the number that the
    value of the rating drop-down reads as; without a value it is
    what '0' reads as, which asks nothing. *)
Lemma rating_choice (c : Listing.Controls) (course : Course) :
  (forall t, parseFloat (lit "0") = Some t -> (t <= 0)%Q) ->
  (forall t, Listing.ratingThresholdOf c = Some t -> (0 < t)%Q ->
             (t <= rating course)%Q)
  <-> (forall sel t,
         Listing.ratingFilter c = Some sel -> select_value sel <> [] ->
         parseFloat (select_value sel) = Some t -> (0 < t)%Q ->
         (t <= rating course)%Q).
Proof.
  intros Hzero. unfold Listing.ratingThresholdOf, Listing.orElse.
  destruct (Listing.ratingFilter c) as [sel|].
  - destruct (truthy (select_value sel)) eqn:E.
    + apply truthy_true in E. split.
      * intros Hall sel' t Hs _ Hp Hpos. injection Hs as <-.
        apply Hall; assumption.
      * intros Hall t Hp Hpos. apply (Hall sel t eq_refl E Hp Hpos).
    + apply truthy_false in E. split.
      * intros _ sel' t Hs Hne. injection Hs as <-. contradiction.
      * intros _ t Hp Hpos. exfalso.
        apply (Qlt_not_le _ _ Hpos). apply Hzero. exact Hp.
  - split.
    + intros _ sel t Hs. discriminate.
    + intros _ t Ht Hpos. injection Ht as <-. exfalso.
      apply (Qlt_irrefl 0). exact Hpos.
Qed.

(** The category that the script computes is the value of the
    duration drop-down; without the drop-down it is 'all', no
    bucket. *)
Lemma duration_choice (c : Listing.Controls) (w : Q) :
  inBucket (Listing.durationCategoryOf c) w
  <-> (forall sel, Listing.durationFilter c = Some sel ->
                   inBucket (select_value sel) w).
Proof.
  unfold Listing.durationCategoryOf.
  destruct (Listing.durationFilter c) as [sel|].
  - split.
    + intros Hb sel' Hs. injection Hs as <-. exact Hb.
    + intros Hall. apply Hall. reflexivity.
  - split.
    + intros _ sel Hs. discriminate.
    + intros _. unfold inBucket.
      repeat split; intros Hd; vm_compute in Hd; discriminate.
Qed.

Lemma listing_keep_matches (c : Listing.Controls) (course : Course) :
  (forall t, parseFloat (lit "0") = Some t -> (t <= 0)%Q) ->
  listing_keep c course = true <-> listing_matches c course.
Proof.
  intros Hzero.
  unfold listing_keep, Listing.keepCourse, listing_matches, searchTermOf,
    titleContains, titleHas.
  cbv zeta.
  rewrite <- (rating_choice c course Hzero).
  rewrite <- duration_choice.
  repeat rewrite if_false_iff.
  rewrite duration_guard.
  rewrite belowThreshold_false.
  rewrite guard_truthy.
  repeat rewrite guard_nonempty.
  repeat rewrite overlaps_exists.
  repeat rewrite arr_includes_In.
  split.
  - intros (H1 & H2 & H3 & H4 & H5 & H6 & H7).
    refine (conj _ (conj H2 (conj H3 (conj H4 (conj H5 (conj H6 H7)))))).
    destruct (toLowerCase (trim (Listing.searchInput c))) eqn:E; [left; reflexivity |].
    right. apply H1. discriminate.
  - intros (H1 & H2 & H3 & H4 & H5 & H6 & H7).
    refine (conj _ (conj H2 (conj H3 (conj H4 (conj H5 (conj H6 H7)))))).
    intros Hne. destruct H1 as [H1 | H1]; [contradiction | exact H1].
Qed.

(** C2.  After [applyFilters], a course is in the filtered list
    exactly when it is in the course list and meets every active
    criterion: on the home page the search term, the selected track,
    domain, tool and level; on the catalog page the search term, the
    selected tracks, domains and tools (one in common is enough), the
    selected levels, the rating threshold that the rating drop-down
    shows, when it is positive, and the duration bucket that the
    duration drop-down shows.  [parseFloat] is asked to read '0', the
    threshold of a drop-down without a value, as a number that is
    not positive. *)
Theorem applyFilters_selects (si : Index.State) (sl : Listing.State)
    (course : Course) :
  (forall t, parseFloat (lit "0") = Some t -> (t <= 0)%Q) ->
  (In course (index_filtered (Index.applyFilters si))
   <-> In course (index_courses si) /\ index_matches (Index.ctl si) course)
  /\ (In course (listing_filtered (Listing.applyFilters sl))
      <-> In course (listing_courses sl) /\ listing_matches (Listing.ctl sl) course).
Proof.
  intros Hzero. split.
  - rewrite index_applyFilters_filtered, sortWith_In, filter_In,
      index_keep_matches. reflexivity.
  - rewrite listing_applyFilters_filtered, sortWith_In, filter_In,
      (listing_keep_matches _ _ Hzero). reflexivity.
Qed.

(** [sort] with the comparator of a key puts the list in the order of
    that key, as soon as [localeCompare] is a consistent comparator. *)
Lemma sortComparator_sorted (sortBy : jsstr) (l : list Course) :
  (forall x y, (0 < localeCompare x y)%Z -> (localeCompare y x <= 0)%Z) ->
  (forall x y z, (localeCompare x y <= 0)%Z -> (localeCompare y z <= 0)%Z ->
                 (localeCompare x z <= 0)%Z) ->
  StronglySorted (inOrder sortBy) (sortWith (sortComparator sortBy) l).
Proof.
  intros Htot Htrans.
  assert (E : forall a b,
             before (sortComparator sortBy) a b = true <-> inOrder sortBy a b).
  { intros a b. unfold before, sortComparator, inOrder.
    rewrite Qle_bool_iff.
    destruct (str_eqb sortBy (lit "rating"));
      [| destruct (str_eqb sortBy (lit "students"));
         [| destruct (str_eqb sortBy (lit "duration"))]].
    - split; intros Hle.
      + apply Qplus_le_l with (z := (- rating a)%Q). rewrite Qplus_opp_r. exact Hle.
      + apply Qplus_le_l with (z := (- rating a)%Q) in Hle.
        rewrite Qplus_opp_r in Hle. exact Hle.
    - split; intros Hle.
      + apply Qplus_le_l with (z := (- students a)%Q). rewrite Qplus_opp_r. exact Hle.
      + apply Qplus_le_l with (z := (- students a)%Q) in Hle.
        rewrite Qplus_opp_r in Hle. exact Hle.
    - split; intros Hle.
      + apply Qplus_le_l with (z := (- weeks b)%Q). rewrite Qplus_opp_r. exact Hle.
      + apply Qplus_le_l with (z := (- weeks b)%Q) in Hle.
        rewrite Qplus_opp_r in Hle. exact Hle.
    - change 0%Q with (inject_Z 0). rewrite <- Zle_Qle. reflexivity. }
  eapply StronglySorted_impl; [intros a b; apply E |].
  apply sortWith_sorted.
  - intros a b Hab. apply E.
    assert (Hn : ~ inOrder sortBy a b).
    { intros Hi. apply E in Hi. congruence. }
    unfold inOrder in *.
    destruct (str_eqb sortBy (lit "rating"));
      [| destruct (str_eqb sortBy (lit "students"));
         [| destruct (str_eqb sortBy (lit "duration"))]].
    + apply Qlt_le_weak, Qnot_le_lt, Hn.
    + apply Qlt_le_weak, Qnot_le_lt, Hn.
    + apply Qlt_le_weak, Qnot_le_lt, Hn.
    + apply Htot. lia.
  - intros a b c Hab Hbc. apply E. apply E in Hab. apply E in Hbc.
    unfold inOrder in *.
    destruct (str_eqb sortBy (lit "rating"));
      [| destruct (str_eqb sortBy (lit "students"));
         [| destruct (str_eqb sortBy (lit "duration"))]].
    + eapply Qle_trans; eassumption.
    + eapply Qle_trans; eassumption.
    + eapply Qle_trans; eassumption.
    + eapply Htrans; eassumption.
Qed.

(** C3.  After [applyFilters] the filtered list is sorted by the
    selected key: by rating, highest first, for 'rating'; by
    students, highest first, for 'students'; by weeks, lowest first,
    for 'duration'; by title in the order of [localeCompare] for
    'title' and any other value.  [localeCompare] is asked to be a
    consistent comparator, as [sort] requires of its argument. *)
Theorem applyFilters_sorted (si : Index.State) (sl : Listing.State) :
  (forall x y, (0 < localeCompare x y)%Z -> (localeCompare y x <= 0)%Z) ->
  (forall x y z, (localeCompare x y <= 0)%Z -> (localeCompare y z <= 0)%Z ->
                 (localeCompare x z <= 0)%Z) ->
  StronglySorted (inOrder (Index.sortBySelect (Index.ctl si)))
                 (index_filtered (Index.applyFilters si))
  /\ StronglySorted (inOrder (Listing.sortBySelect (Listing.ctl sl)))
                    (listing_filtered (Listing.applyFilters sl)).
Proof.
  intros Htot Htrans. split.
  - rewrite index_applyFilters_filtered.
    apply sortComparator_sorted; assumption.
  - rewrite listing_applyFilters_filtered.
    apply sortComparator_sorted; assumption.
Qed.

End FilterSort.

(** ** The code-unit comparison is a consistent comparator *)

Lemma codeUnitCompare_total (x y : jsstr) :
  (0 < codeUnitCompare x y)%Z -> (codeUnitCompare y x <= 0)%Z.
Proof.
  revert y; induction x as [|a x IH]; intros [|b y]; simpl; try lia.
  rewrite (N.compare_antisym a b).
  destruct (N.compare a b); simpl; try lia. apply IH.
Qed.

Lemma codeUnitCompare_trans (x y z : jsstr) :
  (codeUnitCompare x y <= 0)%Z -> (codeUnitCompare y z <= 0)%Z ->
  (codeUnitCompare x z <= 0)%Z.
Proof.
  revert y z; induction x as [|a x IH]; intros [|b y] [|c z]; simpl; try lia.
  destruct (N.compare_spec a b), (N.compare_spec b c), (N.compare_spec a c);
    subst; try lia; eauto.
Qed.

Example index_sorted_by_title :
  List.map title
    (index_filtered
       (Index.applyFilters (H := asciiBuiltins)
          (Sample.indexState Sample.catalog "" "AI" "" "title")))
  = [lit "Deep Learning"; lit "Intro to AI"].
Proof. vm_compute. reflexivity. Qed.

Example listing_sorted_by_rating :
  List.map title
    (listing_filtered
       (Listing.applyFilters (H := asciiBuiltins)
          (Sample.listingState Sample.catalog " A" "" "4" "all" "rating")))
  = [lit "Quantum Basics"; lit "Intro to AI"; lit "Deep Learning"].
Proof. vm_compute. reflexivity. Qed.

Lemma applyFilters_sorted_witness :
  StronglySorted
    (inOrder (H := asciiBuiltins) (lit "title"))
    (index_filtered
       (Index.applyFilters (H := asciiBuiltins)
          (Sample.indexState Sample.catalog "" "AI" "" "title")))
  /\ StronglySorted
       (inOrder (H := asciiBuiltins) (lit "rating"))
       (listing_filtered
          (Listing.applyFilters (H := asciiBuiltins)
             (Sample.listingState Sample.catalog "a" "" "4" "all" "rating"))).
Proof.
  apply (@applyFilters_sorted asciiBuiltins
           (Sample.indexState Sample.catalog "" "AI" "" "title")
           (Sample.listingState Sample.catalog "a" "" "4" "all" "rating")).
  - exact codeUnitCompare_total.
  - exact codeUnitCompare_trans.
Defined.

(** ** Counting with [reduce] *)

Lemma fold_count {A : Type} (f : nat -> A -> nat) (p : A -> bool)
    (l : list A) (a : nat) :
  (forall acc x, f acc x = if p x then acc + 1 else acc) ->
  fold_left f l a = a + length (filter p l).
Proof.
  intros Hf. revert a; induction l as [|x l IH]; intros a; simpl.
  - lia.
  - rewrite IH, Hf. destruct (p x); simpl; lia.
Qed.

Lemma filter_twice {A : Type} (p q : A -> bool) (l : list A) :
  filter p (filter q l) = filter (fun x => q x && p x) l.
Proof.
  induction l as [|x l IH]; simpl; auto.
  destruct (q x); simpl; [destruct (p x) |]; rewrite IH; reflexivity.
Qed.

(** ** Options and selections *)

Lemma relabel_value (lbl : jsstr) (cnt : jsstr -> nat) (o : OptionEl) :
  value (relabel lbl cnt o) = value o.
Proof. unfold relabel. destruct (negb (truthy (value o))); reflexivity. Qed.

Lemma relabel_selected (lbl : jsstr) (cnt : jsstr -> nat) (o : OptionEl) :
  selected (relabel lbl cnt o) = selected o.
Proof. unfold relabel. destruct (negb (truthy (value o))); reflexivity. Qed.

Lemma selected_values_map (f : OptionEl -> OptionEl) (sel : SelectEl) :
  (forall o, value (f o) = value o) ->
  (forall o, selected (f o) = selected o) ->
  List.map value (selectedOptions (List.map f sel))
  = List.map value (selectedOptions sel).
Proof.
  intros Hv Hs. unfold selectedOptions.
  induction sel as [|o sel IH]; simpl; auto.
  rewrite Hs. destruct (selected o); simpl; rewrite ?Hv, IH; reflexivity.
Qed.

Lemma select_value_map (f : OptionEl -> OptionEl) (sel : SelectEl) :
  (forall o, value (f o) = value o) ->
  (forall o, selected (f o) = selected o) ->
  select_value (List.map f sel) = select_value sel.
Proof.
  intros Hv Hs. pose proof (selected_values_map f sel Hv Hs) as E.
  unfold select_value.
  destruct (selectedOptions (List.map f sel)), (selectedOptions sel);
    simpl in E; try discriminate; auto.
  inversion E; auto.
Qed.

Lemma selectedValues_map (f : OptionEl -> OptionEl) (sel : SelectEl) :
  (forall o, value (f o) = value o) ->
  (forall o, selected (f o) = selected o) ->
  selectedValues (List.map f sel) = selectedValues sel.
Proof.
  intros Hv Hs. unfold selectedValues.
  rewrite (selected_values_map f sel Hv Hs). reflexivity.
Qed.

Lemma select_value_relabel (lbl : jsstr) (cnt : jsstr -> nat) (sel : SelectEl) :
  select_value (List.map (relabel lbl cnt) sel) = select_value sel.
Proof.
  apply select_value_map; intros; [apply relabel_value | apply relabel_selected].
Qed.

Lemma selectedValues_relabel (lbl : jsstr) (cnt : jsstr -> nat) (sel : SelectEl) :
  selectedValues (List.map (relabel lbl cnt) sel) = selectedValues sel.
Proof.
  apply selectedValues_map; intros; [apply relabel_value | apply relabel_selected].
Qed.

Lemma selectedOptions_deselected (sel : SelectEl) :
  selectedOptions (List.map (set_selected false) sel) = [].
Proof. induction sel as [|o sel IH]; simpl; auto. Qed.

(** Picking a value that some option carries makes it the value of the
    select. *)
Lemma select_value_set (v : jsstr) (sel : SelectEl) :
  (exists o, In o sel /\ value o = v) ->
  select_value (set_select_value v sel) = v.
Proof.
  induction sel as [|a sel IH]; intros [o [Hin Hv]]; simpl in *; [contradiction |].
  destruct (str_eqb (value a) v) eqn:E.
  - apply str_eqb_eq in E. unfold select_value. simpl. exact E.
  - destruct Hin as [-> | Hin].
    + rewrite Hv, str_eqb_refl in E. discriminate.
    + unfold select_value in *. simpl. apply IH. eauto.
Qed.

(** Setting a value that no option carries deselects everything. *)
Lemma select_value_set_none (v : jsstr) (sel : SelectEl) :
  (forall o, In o sel -> value o <> v) ->
  select_value (set_select_value v sel) = [].
Proof.
  induction sel as [|a sel IH]; intros Hno; simpl; [reflexivity |].
  destruct (str_eqb (value a) v) eqn:E.
  - apply str_eqb_eq in E. exfalso. apply (Hno a); simpl; auto.
  - unfold select_value in *. simpl. apply IH. intros o Ho. apply Hno. simpl; auto.
Qed.

Lemma labelled_relabel (lbl : jsstr) (cnt cnt' : jsstr -> nat) (sel : SelectEl) :
  (forall o, In o sel -> value o <> [] -> cnt (value o) = cnt' (value o)) ->
  labelled (List.map (relabel lbl cnt) sel) cnt'.
Proof.
  intros Hc o' Ho'. apply in_map_iff in Ho'. destruct Ho' as [o [<- Ho]].
  unfold relabel. destruct (truthy (value o)) eqn:T; simpl.
  - apply truthy_true in T. split; [intros _ | contradiction].
    rewrite (Hc o Ho T). split; reflexivity.
  - apply truthy_false in T. split; [contradiction | reflexivity].
Qed.

Lemma relabel_has_value (lbl : jsstr) (cnt : jsstr -> nat) (sel : SelectEl)
    (o : OptionEl) :
  In o sel ->
  exists o', In o' (List.map (relabel lbl cnt) sel) /\ value o' = value o.
Proof.
  intros Ho. exists (relabel lbl cnt o). split.
  - apply in_map. exact Ho.
  - apply relabel_value.
Qed.

(** ** The home page: the counts of [updateFilterCounts] *)

Section IndexCounts.
Context `{JsBuiltins}.

Lemma index_pick_courses (facet : FilterType) (v : jsstr) (s : Index.State) :
  index_courses (index_pick facet v s) = index_courses s.
Proof. reflexivity. Qed.

Lemma index_wouldMatch_eq (facet : FilterType) (s : Index.State) (v : jsstr) :
  index_wouldMatch facet s v
  = length (filter (index_keep (Index.ctl (index_pick facet v s)))
                   (index_courses s)).
Proof.
  unfold index_wouldMatch.
  rewrite index_applyFilters_filtered, sortWith_length. reflexivity.
Qed.

Lemma orNull_differs (field x : jsstr) :
  Index.differs field (Index.orNull x) = truthy x && negb (str_eqb field x).
Proof. unfold Index.orNull. destruct (truthy x) eqn:E; simpl; rewrite ?E; reflexivity. Qed.

Lemma orNull_lacks (arr : list jsstr) (x : jsstr) :
  Index.lacks arr (Index.orNull x) = truthy x && negb (arr_includes arr x).
Proof. unfold Index.orNull. destruct (truthy x) eqn:E; simpl; rewrite ?E; reflexivity. Qed.

(** With at least one course, [updateFilterCounts] relabels the
    options of the four selects and nothing else. *)
Lemma index_updateFilterCounts_ctl (s : Index.State) :
  index_courses s <> [] ->
  let cs := index_courses s in
  let c := Index.ctl s in
  let term := toLowerCase (trim (Index.searchInput c)) in
  let t := select_value (Index.trackFilter c) in
  let d := select_value (Index.domainFilter c) in
  let tl := select_value (Index.toolFilter c) in
  let lv := select_value (Index.levelFilter c) in
  exists ct cd ctl cl,
    Index.ctl (Index.updateFilterCounts s)
    = {| Index.searchInput := Index.searchInput c;
         Index.trackFilter := List.map (relabel (lit "All Tracks") ct) (Index.trackFilter c);
         Index.domainFilter := List.map (relabel (lit "All Domains") cd) (Index.domainFilter c);
         Index.toolFilter := List.map (relabel (lit "All Tools") ctl) (Index.toolFilter c);
         Index.levelFilter := List.map (relabel (lit "All Levels") cl) (Index.levelFilter c);
         Index.sortBySelect := Index.sortBySelect c |}
    /\ (forall v, v <> [] ->
          ct v = length (filter (Index.keepCourse term v d tl lv) cs))
    /\ (forall v, v <> [] ->
          cd v = length (filter (Index.keepCourse term t v tl lv) cs))
    /\ (forall v, v <> [] ->
          ctl v = length (filter (Index.keepCourse term t d v lv) cs))
    /\ (forall v, v <> [] ->
          cl v = length (filter (Index.keepCourse term t d tl v) cs)).
Proof.
  intros Hne. cbv zeta. unfold Index.updateFilterCounts.
  fold (index_courses s).
  destruct (index_courses s) as [|c0 cs0] eqn:Ecs; [contradiction |].
  cbn [length Nat.eqb]. cbv zeta.
  set (term := toLowerCase (trim (Index.searchInput (Index.ctl s)))).
  set (t := select_value (Index.trackFilter (Index.ctl s))).
  set (d := select_value (Index.domainFilter (Index.ctl s))).
  set (tl := select_value (Index.toolFilter (Index.ctl s))).
  set (lv := select_value (Index.levelFilter (Index.ctl s))).
  eexists _, _, _, _. split; [reflexivity |].
  repeat split; intros v Hv; apply truthy_true in Hv.
  - unfold Index.countFor.
    rewrite fold_count with (p := Index.keepCourse term v d tl lv); [reflexivity |].
    intros acc x. unfold Index.keepCourse.
    rewrite !orNull_differs, !orNull_lacks. simpl Index.differs.
    destruct (truthy _ && negb (titleHas x _)); [reflexivity |].
    destruct (truthy v && negb (str_eqb (track x) v)); [reflexivity |].
    destruct (truthy _ && negb (arr_includes (domains x) _)); [reflexivity |].
    destruct (truthy _ && negb (arr_includes (tools x) _)); [reflexivity |].
    destruct (truthy _ && negb (str_eqb (level x) _)); reflexivity.
  - rewrite fold_count with (p := Index.keepCourse term t v tl lv); [reflexivity |].
    intros acc x. unfold Index.keepCourse. rewrite Hv. cbn [andb].
    destruct (truthy _ && negb (titleHas x _)); [reflexivity |].
    destruct (truthy _ && negb (str_eqb (track x) _)); [reflexivity |].
    destruct (negb (arr_includes (domains x) v)); [reflexivity |].
    destruct (truthy _ && negb (arr_includes (tools x) _)); [reflexivity |].
    destruct (truthy _ && negb (str_eqb (level x) _)); reflexivity.
  - rewrite fold_count with (p := Index.keepCourse term t d v lv); [reflexivity |].
    intros acc x. unfold Index.keepCourse. rewrite Hv. cbn [andb].
    destruct (truthy _ && negb (titleHas x _)); [reflexivity |].
    destruct (truthy _ && negb (str_eqb (track x) _)); [reflexivity |].
    destruct (truthy _ && negb (arr_includes (domains x) _)); [reflexivity |].
    destruct (negb (arr_includes (tools x) v)); [reflexivity |].
    destruct (truthy _ && negb (str_eqb (level x) _)); reflexivity.
  - rewrite fold_count with (p := Index.keepCourse term t d tl v); [reflexivity |].
    intros acc x. unfold Index.keepCourse. rewrite Hv. cbn [andb].
    destruct (truthy _ && negb (titleHas x _)); [reflexivity |].
    destruct (truthy _ && negb (str_eqb (track x) _)); [reflexivity |].
    destruct (truthy _ && negb (arr_includes (domains x) _)); [reflexivity |].
    destruct (truthy _ && negb (arr_includes (tools x) _)); [reflexivity |].
    destruct (negb (str_eqb (level x) v)); reflexivity.
Qed.

(** The amended statement of C1 on the home page. *)
Lemma index_counts (s : Index.State) :
  index_courses s <> [] ->
  index_counts_correct (Index.updateFilterCounts s).
Proof.
  intros Hne.
  destruct (index_updateFilterCounts_ctl s Hne)
    as (ct & cd & ctl & cl & Ectl & Ht & Hd & Htl & Hl).
  unfold index_counts_correct.
  assert (Ecs : index_courses (Index.updateFilterCounts s) = index_courses s).
  { unfold index_courses. rewrite index_updateFilterCounts_vars. reflexivity. }
  split; [| split; [| split]].
  - rewrite Ectl at 1. cbn [Index.trackFilter].
    apply labelled_relabel. intros o Ho Hv.
    rewrite index_wouldMatch_eq, Ecs, (Ht _ Hv).
    unfold index_keep, index_pick. cbn -[select_value set_select_value].
    rewrite Ectl. cbn -[select_value set_select_value relabel].
    rewrite select_value_set by (apply relabel_has_value; exact Ho).
    rewrite !select_value_relabel. reflexivity.
  - rewrite Ectl at 1. cbn [Index.domainFilter].
    apply labelled_relabel. intros o Ho Hv.
    rewrite index_wouldMatch_eq, Ecs, (Hd _ Hv).
    unfold index_keep, index_pick. cbn -[select_value set_select_value].
    rewrite Ectl. cbn -[select_value set_select_value relabel].
    rewrite select_value_set by (apply relabel_has_value; exact Ho).
    rewrite !select_value_relabel. reflexivity.
  - rewrite Ectl at 1. cbn [Index.toolFilter].
    apply labelled_relabel. intros o Ho Hv.
    rewrite index_wouldMatch_eq, Ecs, (Htl _ Hv).
    unfold index_keep, index_pick. cbn -[select_value set_select_value].
    rewrite Ectl. cbn -[select_value set_select_value relabel].
    rewrite select_value_set by (apply relabel_has_value; exact Ho).
    rewrite !select_value_relabel. reflexivity.
  - rewrite Ectl at 1. cbn [Index.levelFilter].
    apply labelled_relabel. intros o Ho Hv.
    rewrite index_wouldMatch_eq, Ecs, (Hl _ Hv).
    unfold index_keep, index_pick. cbn -[select_value set_select_value].
    rewrite Ectl. cbn -[select_value set_select_value relabel].
    rewrite select_value_set by (apply relabel_has_value; exact Ho).
    rewrite !select_value_relabel. reflexivity.
Qed.
End IndexCounts.

(** ** Selections of a multiple select *)

Lemma bool_eq_iff (a b : bool) : (a = true <-> b = true) -> a = b.
Proof.
  destruct a, b; intros [H1 H2]; try reflexivity.
  - symmetry. apply H1. reflexivity.
  - apply H2. reflexivity.
Qed.

Lemma selectedValues_In (sel : SelectEl) (x : jsstr) :
  In x (selectedValues sel)
  <-> x <> [] /\ exists o, In o sel /\ selected o = true /\ value o = x.
Proof.
  unfold selectedValues, selectedOptions.
  rewrite filter_In, in_map_iff, truthy_true. split.
  - intros [[o [Hv Ho]] Hx]. apply filter_In in Ho. destruct Ho as [Ho Hs].
    split; [exact Hx | exists o; auto].
  - intros [Hx [o [Ho [Hs Hv]]]]. split; [| exact Hx].
    exists o. split; [exact Hv |]. apply filter_In. auto.
Qed.

Lemma alsoSelect_In (v : jsstr) (sel : SelectEl) (x : jsstr) :
  v <> [] -> (exists o, In o sel /\ value o = v) ->
  (In x (selectedValues (alsoSelect v sel))
   <-> x = v \/ In x (selectedValues sel)).
Proof.
  intros Hv [o0 [Ho0 Hv0]]. rewrite !selectedValues_In. unfold alsoSelect. split.
  - intros [Hx [o' [Ho' [Hs Hval]]]].
    apply in_map_iff in Ho'. destruct Ho' as [o [<- Ho]].
    destruct (str_eqb (value o) v) eqn:E.
    + apply str_eqb_eq in E. left. simpl in Hval. congruence.
    + right. split; [exact Hx | exists o; auto].
  - intros [-> | [Hx [o [Ho [Hs Hval]]]]].
    + split; [exact Hv |]. exists (set_selected true o0). repeat split; auto.
      apply in_map_iff. exists o0. split; [| exact Ho0].
      rewrite Hv0, str_eqb_refl. reflexivity.
    + split; [exact Hx |].
      exists (if str_eqb (value o) v then set_selected true o else o).
      split; [apply in_map_iff; exists o; auto |].
      destruct (str_eqb (value o) v); simpl; auto.
Qed.

Section Membership.
Variables (v : jsstr) (T T' : list jsstr).
Hypothesis mem : forall x, In x T' <-> x = v \/ In x T.

Lemma mem_nonempty : (0 <? length T')%nat = true.
Proof.
  destruct T' as [|y l]; [| reflexivity].
  exfalso. apply (proj2 (mem v)). left; reflexivity.
Qed.

Lemma mem_includes (y : jsstr) :
  arr_includes T' y = str_eqb y v || arr_includes T y.
Proof.
  apply bool_eq_iff.
  rewrite orb_true_iff, !arr_includes_In, str_eqb_eq. apply mem.
Qed.

Lemma mem_overlaps (l : list jsstr) :
  overlaps l T' = arr_includes l v || overlaps l T.
Proof.
  apply bool_eq_iff.
  rewrite orb_true_iff, !overlaps_exists, arr_includes_In. split.
  - intros [d [Hd Hd']]. apply mem in Hd'. destruct Hd' as [-> | Hd'].
    + left; exact Hd.
    + right; eauto.
  - intros [Hv | [d [Hd Hd']]].
    + exists v. split; [exact Hv |]. apply mem. left; reflexivity.
    + exists d. split; [exact Hd |]. apply mem. right; exact Hd'.
Qed.
End Membership.

(** ** The catalog page: the counts of [updateFilterCounts] *)

Section ListingCounts.
Context `{JsBuiltins}.

Variables (term : jsstr) (T D L V : list jsstr) (thr : option Q) (dur : jsstr).
Variable cs : list Course.


Ltac split_ifs :=
  repeat match goal with
         | |- context [if ?b then _ else _] => destruct b
         end; try reflexivity.

Lemma countByTrack_eq (v : jsstr) (T' : list jsstr) :
  (forall x, In x T' <-> x = v \/ In x T) ->
  Listing.countByTrack (Listing.baseFilteredOf term thr dur cs) T D L V v
  = length (filter (Listing.keepCourse term T' D L V thr dur) cs).
Proof.
  intros Hm. unfold Listing.countByTrack.
  rewrite fold_count with
    (p := fun course =>
       if (0 <? length D)%nat && negb (overlaps (domains course) D) then false
       else if (0 <? length L)%nat && negb (overlaps (tools course) L) then false
       else if (0 <? length V)%nat && negb (arr_includes V (level course)) then false
       else str_eqb (track course) v || arr_includes T (track course))
    by (intros acc x; split_ifs).
  unfold Listing.baseFilteredOf. rewrite filter_twice. simpl. f_equal. apply filter_ext.
  intros x. unfold Listing.keepCourse, Listing.passesRatingDuration.
  rewrite (mem_nonempty v T T' Hm), (mem_includes v T T' Hm). cbn [andb].
  destruct (truthy term && negb (titleHas x term)); [reflexivity |].
  destruct (str_eqb (track x) v || arr_includes T (track x));
    cbn [negb andb orb]; split_ifs.
Qed.

Lemma countByDomain_eq (v : jsstr) (D' : list jsstr) :
  (forall x, In x D' <-> x = v \/ In x D) ->
  Listing.countByDomain (Listing.baseFilteredOf term thr dur cs) T D L V v
  = length (filter (Listing.keepCourse term T D' L V thr dur) cs).
Proof.
  intros Hm. unfold Listing.countByDomain.
  rewrite fold_count with
    (p := fun course =>
       if (0 <? length T)%nat && negb (arr_includes T (track course)) then false
       else if (0 <? length L)%nat && negb (overlaps (tools course) L) then false
       else if (0 <? length V)%nat && negb (arr_includes V (level course)) then false
       else arr_includes (domains course) v || overlaps (domains course) D)
    by (intros acc x; split_ifs).
  unfold Listing.baseFilteredOf. rewrite filter_twice. simpl. f_equal. apply filter_ext.
  intros x. unfold Listing.keepCourse, Listing.passesRatingDuration.
  rewrite (mem_nonempty v D D' Hm), (mem_overlaps v D D' Hm). cbn [andb].
  destruct (truthy term && negb (titleHas x term)); [reflexivity |].
  destruct (arr_includes (domains x) v || overlaps (domains x) D);
    cbn [negb andb orb]; split_ifs.
Qed.

Lemma countByTool_eq (v : jsstr) (L' : list jsstr) :
  (forall x, In x L' <-> x = v \/ In x L) ->
  Listing.countByTool (Listing.baseFilteredOf term thr dur cs) T D L V v
  = length (filter (Listing.keepCourse term T D L' V thr dur) cs).
Proof.
  intros Hm. unfold Listing.countByTool.
  rewrite fold_count with
    (p := fun course =>
       if (0 <? length T)%nat && negb (arr_includes T (track course)) then false
       else if (0 <? length D)%nat && negb (overlaps (domains course) D) then false
       else if (0 <? length V)%nat && negb (arr_includes V (level course)) then false
       else arr_includes (tools course) v || overlaps (tools course) L)
    by (intros acc x; split_ifs).
  unfold Listing.baseFilteredOf. rewrite filter_twice. simpl. f_equal. apply filter_ext.
  intros x. unfold Listing.keepCourse, Listing.passesRatingDuration.
  rewrite (mem_nonempty v L L' Hm), (mem_overlaps v L L' Hm). cbn [andb].
  destruct (truthy term && negb (titleHas x term)); [reflexivity |].
  destruct (arr_includes (tools x) v || overlaps (tools x) L);
    cbn [negb andb orb]; split_ifs.
Qed.

Lemma countByLevel_eq (v : jsstr) (V' : list jsstr) :
  (forall x, In x V' <-> x = v \/ In x V) ->
  Listing.countByLevel (Listing.baseFilteredOf term thr dur cs) T D L V v
  = length (filter (Listing.keepCourse term T D L V' thr dur) cs).
Proof.
  intros Hm. unfold Listing.countByLevel.
  rewrite fold_count with
    (p := fun course =>
       if (0 <? length T)%nat && negb (arr_includes T (track course)) then false
       else if (0 <? length D)%nat && negb (overlaps (domains course) D) then false
       else if (0 <? length L)%nat && negb (overlaps (tools course) L) then false
       else str_eqb (level course) v || arr_includes V (level course))
    by (intros acc x; split_ifs).
  unfold Listing.baseFilteredOf. rewrite filter_twice. simpl. f_equal. apply filter_ext.
  intros x. unfold Listing.keepCourse, Listing.passesRatingDuration.
  rewrite (mem_nonempty v V V' Hm), (mem_includes v V V' Hm). cbn [andb].
  destruct (truthy term && negb (titleHas x term)); [reflexivity |].
  destruct (str_eqb (level x) v || arr_includes V (level x));
    cbn [negb andb orb]; split_ifs.
Qed.
End ListingCounts.

Section ListingCountsCorrect.
Context `{JsBuiltins}.

Lemma listing_wouldMatch_eq (facet : FilterType) (s : Listing.State) (v : jsstr) :
  listing_wouldMatch facet s v
  = length (filter (listing_keep (Listing.ctl (listing_pick facet v s)))
                   (listing_courses s)).
Proof.
  unfold listing_wouldMatch.
  rewrite listing_applyFilters_filtered, sortWith_length. reflexivity.
Qed.

Lemma listing_updateFilterCounts_ctl (s : Listing.State) :
  listing_courses s <> [] ->
  let c := Listing.ctl s in
  let base :=
    Listing.baseFilteredOf (toLowerCase (trim (Listing.searchInput c)))
      (Listing.ratingThresholdOf c) (Listing.durationCategoryOf c)
      (listing_courses s) in
  let T := selectedValues (Listing.trackFilter c) in
  let D := selectedValues (Listing.domainFilter c) in
  let L := selectedValues (Listing.toolFilter c) in
  let V := selectedValues (Listing.levelFilter c) in
  Listing.ctl (Listing.updateFilterCounts s)
  = {| Listing.searchInput := Listing.searchInput c;
       Listing.trackFilter :=
         List.map (relabel (lit "All Tracks") (Listing.countByTrack base T D L V))
                  (Listing.trackFilter c);
       Listing.domainFilter :=
         List.map (relabel (lit "All Domains") (Listing.countByDomain base T D L V))
                  (Listing.domainFilter c);
       Listing.toolFilter :=
         List.map (relabel (lit "All Tools") (Listing.countByTool base T D L V))
                  (Listing.toolFilter c);
       Listing.levelFilter :=
         List.map (relabel (lit "All Levels") (Listing.countByLevel base T D L V))
                  (Listing.levelFilter c);
       Listing.ratingFilter := Listing.ratingFilter c;
       Listing.durationFilter := Listing.durationFilter c;
       Listing.sortBySelect := Listing.sortBySelect c |}.
Proof.
  intros Hne. cbv zeta. unfold Listing.updateFilterCounts.
  fold (listing_courses s).
  destruct (listing_courses s) as [|c0 cs0] eqn:Ecs; [contradiction |].
  reflexivity.
Qed.

Lemma alsoSelect_relabel_In (lbl : jsstr) (cnt : jsstr -> nat) (sel : SelectEl)
    (o : OptionEl) (x : jsstr) :
  In o sel -> value o <> [] ->
  (In x (selectedValues (alsoSelect (value o) (List.map (relabel lbl cnt) sel)))
   <-> x = value o \/ In x (selectedValues sel)).
Proof.
  intros Ho Hv. rewrite alsoSelect_In.
  - rewrite selectedValues_relabel. reflexivity.
  - exact Hv.
  - apply relabel_has_value. exact Ho.
Qed.

(** The amended statement of C1 on the catalog page. *)
Lemma listing_counts (s : Listing.State) :
  listing_courses s <> [] ->
  listing_counts_correct (Listing.updateFilterCounts s).
Proof.
  intros Hne.
  pose proof (listing_updateFilterCounts_ctl s Hne) as Ectl. cbv zeta in Ectl.
  unfold listing_counts_correct.
  assert (Ecs : listing_courses (Listing.updateFilterCounts s) = listing_courses s).
  { unfold listing_courses. rewrite listing_updateFilterCounts_vars. reflexivity. }
  split; [| split; [| split]].
  - rewrite Ectl at 1. cbn [Listing.trackFilter].
    apply labelled_relabel. intros o Ho Hv.
    rewrite listing_wouldMatch_eq, Ecs.
    unfold listing_keep, listing_pick, Listing.ratingThresholdOf,
      Listing.durationCategoryOf.
    cbn -[selectedValues alsoSelect].
    rewrite Ectl. cbn -[selectedValues alsoSelect relabel].
    rewrite !selectedValues_relabel.
    apply countByTrack_eq. intros x. apply alsoSelect_relabel_In; assumption.
  - rewrite Ectl at 1. cbn [Listing.domainFilter].
    apply labelled_relabel. intros o Ho Hv.
    rewrite listing_wouldMatch_eq, Ecs.
    unfold listing_keep, listing_pick, Listing.ratingThresholdOf,
      Listing.durationCategoryOf.
    cbn -[selectedValues alsoSelect].
    rewrite Ectl. cbn -[selectedValues alsoSelect relabel].
    rewrite !selectedValues_relabel.
    apply countByDomain_eq. intros x. apply alsoSelect_relabel_In; assumption.
  - rewrite Ectl at 1. cbn [Listing.toolFilter].
    apply labelled_relabel. intros o Ho Hv.
    rewrite listing_wouldMatch_eq, Ecs.
    unfold listing_keep, listing_pick, Listing.ratingThresholdOf,
      Listing.durationCategoryOf.
    cbn -[selectedValues alsoSelect].
    rewrite Ectl. cbn -[selectedValues alsoSelect relabel].
    rewrite !selectedValues_relabel.
    apply countByTool_eq. intros x. apply alsoSelect_relabel_In; assumption.
  - rewrite Ectl at 1. cbn [Listing.levelFilter].
    apply labelled_relabel. intros o Ho Hv.
    rewrite listing_wouldMatch_eq, Ecs.
    unfold listing_keep, listing_pick, Listing.ratingThresholdOf,
      Listing.durationCategoryOf.
    cbn -[selectedValues alsoSelect].
    rewrite Ectl. cbn -[selectedValues alsoSelect relabel].
    rewrite !selectedValues_relabel.
    apply countByLevel_eq. intros x. apply alsoSelect_relabel_In; assumption.
Qed.
End ListingCountsCorrect.

Example index_labels_after_update :
  List.map (fun o => (textContent o, disabled o))
    (Index.domainFilter
       (Index.ctl
          (Index.updateFilterCounts (H := asciiBuiltins)
             (Sample.indexState Sample.catalog "" "AI" "" "title"))))
  = [(lit "All Domains", false); (lit "ML (2)", false);
     (lit "Physics (0)", true); (lit "Vision (1)", false)].
Proof. vm_compute. reflexivity. Qed.

Example listing_labels_after_update :
  List.map (fun o => (textContent o, disabled o))
    (Listing.trackFilter
       (Listing.ctl
          (Listing.updateFilterCounts (H := asciiBuiltins)
             (Sample.listingState Sample.catalog "" "AI" "4.5" "all" "title"))))
  = [(lit "All Tracks", false); (lit "AI (1)", false); (lit "Quantum (2)", false)].
Proof. vm_compute. reflexivity. Qed.

(** C1 as stated fails on an empty catalog: [updateFilterCounts]
    returns at once, so the level option 'Beginner' keeps its bare
    label and stays enabled although no course would match it. *)
Lemma filter_counts_counterexample :
  ~ index_counts_correct (H := asciiBuiltins)
      (Index.updateFilterCounts (H := asciiBuiltins)
         (Sample.indexState [] "" "" "" "title")).
Proof.
  intros (_ & _ & _ & Hl).
  destruct (Hl (Sample.opt "Beginner" false)) as [Hv _].
  - vm_compute. right. left. reflexivity.
  - destruct Hv as [_ Hd]; [vm_compute; discriminate |].
    vm_compute in Hd. discriminate.
Qed.

Section FilterCounts.
Context `{JsBuiltins}.

(** C1, amended.  When the course list is not empty, after
    [updateFilterCounts] every option with a value, of each of the
    four facets, is labelled [`${value} (${count})`] where the count
    is the number of courses that [applyFilters] would keep if that
    option were selected as well, and the option is disabled exactly
    when the count is zero; the option with the empty value is never
    disabled.  This holds on the home page (single selects) and on
    the catalog page (multiple selects, rating and duration
    included). *)
Theorem filter_counts (si : Index.State) (sl : Listing.State) :
  index_courses si <> [] ->
  listing_courses sl <> [] ->
  index_counts_correct (Index.updateFilterCounts si)
  /\ listing_counts_correct (Listing.updateFilterCounts sl).
Proof.
  intros Hi Hl. split; [apply index_counts | apply listing_counts]; assumption.
Qed.
End FilterCounts.

Lemma filter_counts_witness :
  index_counts_correct (H := asciiBuiltins)
    (Index.updateFilterCounts (H := asciiBuiltins)
       (Sample.indexState Sample.catalog "" "AI" "" "title"))
  /\ listing_counts_correct (H := asciiBuiltins)
       (Listing.updateFilterCounts (H := asciiBuiltins)
          (Sample.listingState Sample.catalog "" "AI" "4.5" "all" "title")).
Proof.
  apply (@filter_counts asciiBuiltins
           (Sample.indexState Sample.catalog "" "AI" "" "title")
           (Sample.listingState Sample.catalog "" "AI" "4.5" "all" "title"));
    vm_compute; discriminate.
Defined.

(** ** The course list is never written *)

(** Sorting an array in place does change it: the frame property below
    is about which array the scripts sort. *)
Example sort_in_place_changes :
  deref (arr_sort (sortComparator (H := asciiBuiltins) (lit "title")) 0
                  [Sample.catalog]) 0
  <> deref [Sample.catalog] 0.
Proof. vm_compute. discriminate. Qed.

Section Frame.
Context `{JsBuiltins}.

Lemma index_keeps_vars (f : Index.State -> Index.State) :
  (forall s, Index.vars (f s) = Index.vars s) -> index_keeps f.
Proof.
  intros Hv s Ha. unfold index_allocated, index_courses. rewrite Hv. auto.
Qed.

Lemma index_keeps_heap (f : Index.State -> Index.State) :
  (forall s, Index.heap (Index.vars (f s)) = Index.heap (Index.vars s)
             /\ Index.courses (Index.vars (f s)) = Index.courses (Index.vars s)) ->
  index_keeps f.
Proof.
  intros Hv s Ha. destruct (Hv s) as [Hh Hc].
  unfold index_allocated, index_courses. rewrite Hh, Hc. auto.
Qed.

Lemma index_keeps_compose (f g : Index.State -> Index.State) :
  index_keeps f -> index_keeps g -> index_keeps (fun s => g (f s)).
Proof.
  intros Hf Hg s Ha. destruct (Hf s Ha) as (Ha1 & Hc1 & Hl1).
  destruct (Hg (f s) Ha1) as (Ha2 & Hc2 & Hl2).
  repeat split; [assumption | congruence | congruence].
Qed.

Lemma index_applyFilters_keeps : index_keeps Index.applyFilters.
Proof.
  intros s Ha. unfold index_allocated, index_courses in *.
  rewrite index_applyFilters_vars. cbv zeta.
  cbn [Index.heap Index.courses].
  repeat split.
  - unfold arr_sort. rewrite store_length, alloc_length. lia.
  - apply sort_fresh_frame. exact Ha.
Qed.

Lemma index_renderFeaturedCourses_keeps : index_keeps Index.renderFeaturedCourses.
Proof.
  intros s Ha. unfold index_allocated, index_courses in *.
  unfold Index.renderFeaturedCourses.
  destruct (Index.featuredCoursesContainer (Index.doc s)); [| auto].
  unfold arr_spread, alloc. cbv beta iota zeta.
  cbn [Index.vars Index.heap Index.courses].
  repeat split.
  - unfold arr_sort. rewrite store_length, length_app. simpl. lia.
  - apply (sort_fresh_frame _ (Index.heap (Index.vars s))). exact Ha.
Qed.

Lemma index_setControls_keeps (g : Index.State -> Index.Controls) :
  index_keeps (fun s => Index.setControls (g s) s).
Proof. apply index_keeps_vars. reflexivity. Qed.

Lemma index_run_keeps (op : IndexOp) : index_keeps (index_run op).
Proof.
  destruct op; simpl.
  - apply index_applyFilters_keeps.
  - apply index_keeps_vars, index_updateFilterCounts_vars.
  - apply index_keeps_vars, index_updateActiveFilters_vars.
  - apply index_keeps_vars, index_renderCourses_vars.
  - apply index_keeps_vars. intros s. unfold Index.renderCategories.
    destruct (Index.categoriesContainer (Index.doc s)); reflexivity.
  - apply index_renderFeaturedCourses_keeps.
  - unfold Index.removeFilter.
    apply (index_keeps_compose
             (fun s => Index.setControls _ s) Index.applyFilters);
      [apply index_keeps_vars; reflexivity | apply index_applyFilters_keeps].
  - unfold Index.clearAllFilters.
    apply (index_keeps_compose
             (fun s => Index.setControls _ s) Index.applyFilters);
      [apply index_keeps_vars; reflexivity | apply index_applyFilters_keeps].
  - apply index_keeps_heap. intros s. split; reflexivity.
Qed.

Lemma listing_keeps_heap (f : Listing.State -> Listing.State) :
  (forall s, Listing.heap (Listing.vars (f s)) = Listing.heap (Listing.vars s)
             /\ Listing.courses (Listing.vars (f s)) = Listing.courses (Listing.vars s)) ->
  listing_keeps f.
Proof.
  intros Hv s Ha. destruct (Hv s) as [Hh Hc].
  unfold listing_allocated, listing_courses. rewrite Hh, Hc. auto.
Qed.

Lemma listing_keeps_vars (f : Listing.State -> Listing.State) :
  (forall s, Listing.vars (f s) = Listing.vars s) -> listing_keeps f.
Proof.
  intros Hv. apply listing_keeps_heap. intros s. rewrite Hv. auto.
Qed.

Lemma listing_keeps_compose (f g : Listing.State -> Listing.State) :
  listing_keeps f -> listing_keeps g -> listing_keeps (fun s => g (f s)).
Proof.
  intros Hf Hg s Ha. destruct (Hf s Ha) as (Ha1 & Hc1 & Hl1).
  destruct (Hg (f s) Ha1) as (Ha2 & Hc2 & Hl2).
  repeat split; [assumption | congruence | congruence].
Qed.

Lemma listing_applyFilters_keeps : listing_keeps Listing.applyFilters.
Proof.
  intros s Ha. unfold listing_allocated, listing_courses in *.
  rewrite listing_applyFilters_vars. cbv zeta.
  cbn [Listing.heap Listing.courses].
  repeat split.
  - unfold arr_sort. rewrite store_length, alloc_length. lia.
  - apply sort_fresh_frame. exact Ha.
Qed.

Lemma listing_setPage_render_keeps (p : Listing.State -> Z) :
  listing_keeps (fun s => Listing.renderCourses (Listing.setPage (p s) s)).
Proof.
  apply listing_keeps_heap. intros s.
  rewrite listing_renderCourses_vars. split; reflexivity.
Qed.

Lemma listing_run_keeps (op : ListingOp) : listing_keeps (listing_run op).
Proof.
  destruct op; simpl.
  - apply listing_applyFilters_keeps.
  - apply listing_keeps_vars, listing_updateFilterCounts_vars.
  - apply listing_keeps_vars, listing_updateActiveFilters_vars.
  - apply listing_keeps_vars, listing_renderCourses_vars.
  - unfold Listing.removeFilter.
    apply (listing_keeps_compose
             (fun s => Listing.setControls _ s) Listing.applyFilters);
      [apply listing_keeps_vars; reflexivity | apply listing_applyFilters_keeps].
  - unfold Listing.clearAllFilters.
    apply (listing_keeps_compose
             (fun s => Listing.setControls _ s) Listing.applyFilters);
      [apply listing_keeps_vars; reflexivity | apply listing_applyFilters_keeps].
  - intros s Ha. unfold Listing.clickPrev.
    destruct (1 <? Listing.currentPage (Listing.vars s))%Z; [| auto].
    apply (listing_setPage_render_keeps
             (fun s => (Listing.currentPage (Listing.vars s) - 1)%Z) s Ha).
  - intros s Ha. apply (listing_setPage_render_keeps (fun _ => i) s Ha).
  - intros s Ha. unfold Listing.clickNext.
    destruct (Listing.currentPage (Listing.vars s) <? totalPages)%Z; [| auto].
    apply (listing_setPage_render_keeps
             (fun s => (Listing.currentPage (Listing.vars s) + 1)%Z) s Ha).
Qed.

Lemma index_runs_keeps (ops : list IndexOp) : index_keeps (index_runs ops).
Proof.
  unfold index_runs. induction ops as [|op ops IH]; simpl.
  - intros s Ha. auto.
  - apply (index_keeps_compose (index_run op)
             (fun s => fold_left (fun st o => index_run o st) ops s));
      [apply index_run_keeps | exact IH].
Qed.

Lemma listing_runs_keeps (ops : list ListingOp) : listing_keeps (listing_runs ops).
Proof.
  unfold listing_runs. induction ops as [|op ops IH]; simpl.
  - intros s Ha. auto.
  - apply (listing_keeps_compose (listing_run op)
             (fun s => fold_left (fun st o => listing_run o st) ops s));
      [apply listing_run_keeps | exact IH].
Qed.

(** C5.  No operation of the home page or of the catalog page
    changes the course list: after any run of filtering, sorting,
    recounting and rendering operations the variable [courses] still
    points to the same array, and the array holds the same records
    in the same order.  [applyFilters] sorts the array that [filter]
    has just allocated, and [renderFeaturedCourses] sorts the copy
    made by the spread. *)
Theorem courses_unchanged (iops : list IndexOp) (lops : list ListingOp)
    (si : Index.State) (sl : Listing.State) :
  index_allocated si ->
  listing_allocated sl ->
  (Index.courses (Index.vars (index_runs iops si)) = Index.courses (Index.vars si)
   /\ index_courses (index_runs iops si) = index_courses si)
  /\ (Listing.courses (Listing.vars (listing_runs lops sl))
      = Listing.courses (Listing.vars sl)
      /\ listing_courses (listing_runs lops sl) = listing_courses sl).
Proof.
  intros Hi Hl. split.
  - apply (index_runs_keeps iops si Hi).
  - apply (listing_runs_keeps lops sl Hl).
Qed.
End Frame.

Lemma courses_unchanged_witness :
  let si := Sample.indexState Sample.catalog "a" "AI" "" "rating" in
  let sl := Sample.listingState Sample.catalog "" "AI" "4" "long" "students" in
  let iops := [IApplyFilters; IRenderFeaturedCourses; IRenderCategories;
               IRemoveFilter FTrack (lit "AI"); IClickLoadMore] in
  let lops := [LApplyFilters; LUpdateFilterCounts; LClickNext 2;
               LRemoveFilter FRating (lit "4")] in
  (Index.courses (Index.vars (index_runs (H := asciiBuiltins) iops si)) = 0
   /\ index_courses (index_runs (H := asciiBuiltins) iops si) = Sample.catalog)
  /\ (Listing.courses (Listing.vars (listing_runs (H := asciiBuiltins) lops sl)) = 0
      /\ listing_courses (listing_runs (H := asciiBuiltins) lops sl) = Sample.catalog).
Proof.
  intros si sl iops lops.
  apply (@courses_unchanged asciiBuiltins iops lops si sl); vm_compute; lia.
Defined.

(** ** Pages of results *)

Lemma jsslice_nonneg {A : Type} (a b : Z) (l : list A) :
  (0 <= a)%Z -> (a <= b)%Z ->
  jsslice a b l = firstn (Z.to_nat (b - a)) (skipn (Z.to_nat a) l).
Proof.
  intros Ha Hab. unfold jsslice.
  destruct (Z.ltb_spec a 0); [lia |]. destruct (Z.ltb_spec b 0); [lia |].
  destruct (Z.le_gt_cases (Z.of_nat (length l)) a) as [Hge | Hlt].
  - rewrite Z.min_r by lia.
    rewrite !skipn_all2 by lia. rewrite !firstn_nil. reflexivity.
  - rewrite (Z.min_l a) by lia.
    destruct (Z.le_gt_cases b (Z.of_nat (length l))) as [Hb | Hb].
    + rewrite Z.min_l by lia. reflexivity.
    + rewrite Z.min_r by lia.
      rewrite !firstn_all2; [reflexivity | |]; rewrite length_skipn; lia.
Qed.

Lemma jsslice_prefix {A : Type} (e : Z) (l : list A) :
  (0 <= e)%Z ->
  jsslice 0 e l = firstn (Nat.min (Z.to_nat e) (length l)) l.
Proof.
  intros He. rewrite jsslice_nonneg by lia. simpl skipn.
  rewrite Z.sub_0_r.
  destruct (Nat.le_gt_cases (Z.to_nat e) (length l)) as [Hle | Hgt].
  - rewrite Nat.min_l by lia. reflexivity.
  - rewrite Nat.min_r by lia. rewrite !firstn_all2 by lia. reflexivity.
Qed.

Lemma coursesShown_cards (l : list Course) :
  coursesShown (List.map createCourseCard l) = l.
Proof. induction l as [|c l IH]; simpl; [| rewrite IH]; reflexivity. Qed.


Section Pagination.
Context `{JsBuiltins}.

Lemma index_renderCourses_shown (s : Index.State) :
  (1 <= Index.currentPage (Index.vars s))%Z ->
  coursesShown (Index.coursesContainer (Index.doc (Index.renderCourses s)))
  = firstn (Nat.min (Z.to_nat (Index.currentPage (Index.vars s) * 12))
                    (length (index_filtered s)))
           (index_filtered s).
Proof.
  intros Hp. unfold Index.renderCourses. cbv zeta.
  cbn [Index.doc Index.coursesContainer]. fold (index_filtered s).
  destruct (index_filtered s) as [|c l] eqn:E.
  - simpl. rewrite firstn_nil. reflexivity.
  - cbn [length Nat.eqb]. rewrite coursesShown_cards.
    unfold Index.itemsPerPage. rewrite jsslice_prefix by lia. reflexivity.
Qed.




Lemma listing_renderCourses_controls_some (s : Listing.State) (old : list Listing.PageEl) :
  Listing.paginationControls (Listing.doc s) = Some old ->
  exists kids,
    Listing.paginationControls (Listing.doc (Listing.renderCourses s)) = Some kids.
Proof.
  intros Hold. unfold Listing.renderCourses. cbv zeta.
  destruct (Nat.eqb _ 0).
  - cbn [Listing.doc Listing.paginationControls]. rewrite Hold. eauto.
  - unfold Listing.renderPagination.
    cbn [Listing.doc Listing.paginationControls]. rewrite Hold.
    cbn [Listing.doc Listing.paginationControls]. eauto.
Qed.


End Pagination.

Section PageInvariant.
Context `{JsBuiltins}.

(** [currentPage] starts at 1 and no operation brings it below. *)
Lemma index_page_positive (ops : list IndexOp) (s : Index.State) :
  (1 <= Index.currentPage (Index.vars s))%Z ->
  (1 <= Index.currentPage (Index.vars (index_runs ops s)))%Z.
Proof.
  unfold index_runs. revert s; induction ops as [|op ops IH]; intros s Hs; simpl.
  - exact Hs.
  - apply IH. destruct op; simpl.
    + rewrite index_applyFilters_page. lia.
    + rewrite index_updateFilterCounts_vars. exact Hs.
    + rewrite index_updateActiveFilters_vars. exact Hs.
    + exact Hs.
    + unfold Index.renderCategories.
      destruct (Index.categoriesContainer (Index.doc s)); exact Hs.
    + unfold Index.renderFeaturedCourses.
      destruct (Index.featuredCoursesContainer (Index.doc s)); exact Hs.
    + unfold Index.removeFilter. rewrite index_applyFilters_page. lia.
    + unfold Index.clearAllFilters. rewrite index_applyFilters_page. lia.
    + cbn. lia.
Qed.

Lemma listing_page_positive (ops : list ListingOp) (s : Listing.State) :
  Forall listing_op_ok ops ->
  (1 <= Listing.currentPage (Listing.vars s))%Z ->
  (1 <= Listing.currentPage (Listing.vars (listing_runs ops s)))%Z.
Proof.
  unfold listing_runs. intros Hok. revert s.
  induction Hok as [|op ops Hop Hok IH]; intros s Hs; simpl.
  - exact Hs.
  - apply IH. destruct op; simpl in *.
    + rewrite listing_applyFilters_page. lia.
    + rewrite listing_updateFilterCounts_vars. exact Hs.
    + rewrite listing_updateActiveFilters_vars. exact Hs.
    + rewrite listing_renderCourses_vars. exact Hs.
    + unfold Listing.removeFilter. rewrite listing_applyFilters_page. lia.
    + unfold Listing.clearAllFilters. rewrite listing_applyFilters_page. lia.
    + unfold Listing.clickPrev.
      destruct (Z.ltb_spec 1 (Listing.currentPage (Listing.vars s))); [| exact Hs].
      rewrite listing_renderCourses_vars. cbn. lia.
    + unfold Listing.clickPage. rewrite listing_renderCourses_vars. cbn. exact Hop.
    + unfold Listing.clickNext.
      destruct (Z.ltb_spec (Listing.currentPage (Listing.vars s)) totalPages);
        [| exact Hs].
      rewrite listing_renderCourses_vars. cbn. lia.
Qed.
End PageInvariant.

Example index_second_page :
  let s := Index.clickLoadMore
             (Index.applyFilters (H := asciiBuiltins)
                (Sample.indexState
                   (Sample.catalog ++ Sample.catalog ++ Sample.catalog
                      ++ Sample.catalog ++ Sample.catalog)
                   "" "" "" "title")) in
  (Index.currentPage (Index.vars s),
   length (Index.coursesContainer (Index.doc s)),
   Index.loadMoreContainer (Index.doc s))
  = (2%Z, 15, Some []).
Proof. vm_compute. reflexivity. Qed.

Example listing_second_page :
  let s := Listing.clickNext 3
             (Listing.applyFilters (H := asciiBuiltins)
                (Sample.listingState
                   (Sample.catalog ++ Sample.catalog ++ Sample.catalog
                      ++ Sample.catalog ++ Sample.catalog)
                   "" "" "0" "all" "title")) in
  (Listing.currentPage (Listing.vars s),
   length (Listing.coursesContainer (Listing.doc s)),
   Listing.paginationControls (Listing.doc s))
  = (2%Z, 6,
     Some [Listing.PrevBtn false; Listing.PageBtn 1 false; Listing.PageBtn 2 true;
           Listing.PageBtn 3 false; Listing.NextBtn false 3]).
Proof. vm_compute. reflexivity. Qed.


(** ** Active-filter chips *)




Lemma select_value_set_empty (sel : SelectEl) :
  select_value (set_select_value [] sel) = [].
Proof.
  induction sel as [|a sel IH]; simpl; [reflexivity |].
  destruct (str_eqb (value a) []) eqn:E.
  - apply str_eqb_eq in E. unfold select_value. simpl. exact E.
  - unfold select_value in *. simpl. exact IH.
Qed.


Lemma filter_truthy_single (v : jsstr) :
  filter truthy [v] = if truthy v then [v] else [].
Proof. reflexivity. Qed.




Section IndexChips.
Context `{JsBuiltins}.

Lemma index_updateFilterCounts_raw (s : Index.State) (t : FilterType) :
  index_raw (Index.ctl (Index.updateFilterCounts s)) t = index_raw (Index.ctl s) t.
Proof.
  unfold Index.updateFilterCounts.
  destruct (Nat.eqb _ 0); [reflexivity |].
  destruct t; cbn -[select_value relabel];
    rewrite ?select_value_relabel; reflexivity.
Qed.

Lemma index_applyFilters_raw (s : Index.State) (t : FilterType) :
  index_raw (Index.ctl (Index.applyFilters s)) t = index_raw (Index.ctl s) t.
Proof.
  unfold Index.applyFilters, arr_filter, alloc. cbv beta iota zeta.
  rewrite index_updateActiveFilters_ctl, index_updateFilterCounts_raw.
  reflexivity.
Qed.



End IndexChips.





Section ListingChips.
Context `{JsBuiltins}.

Lemma listing_updateFilterCounts_raw (s : Listing.State) (t : FilterType) :
  listing_raw (Listing.ctl (Listing.updateFilterCounts s)) t
  = listing_raw (Listing.ctl s) t.
Proof.
  unfold Listing.updateFilterCounts.
  destruct (Nat.eqb _ 0); [reflexivity |].
  destruct t; cbn -[selectedOptions relabel]; try reflexivity;
    (apply selected_values_map;
       [intros; apply relabel_value | intros; apply relabel_selected]).
Qed.

Lemma listing_applyFilters_raw (s : Listing.State) (t : FilterType) :
  listing_raw (Listing.ctl (Listing.applyFilters s)) t
  = listing_raw (Listing.ctl s) t.
Proof.
  unfold Listing.applyFilters, arr_filter, alloc. cbv beta iota zeta.
  rewrite listing_updateActiveFilters_ctl, listing_updateFilterCounts_raw,
    listing_renderCourses_ctl.
  reflexivity.
Qed.




End ListingChips.

Example listing_chips_sample :
  Listing.activeFiltersDiv
    (Listing.doc (Listing.updateActiveFilters
                    (Sample.listingState Sample.catalog " ai " "AI" "4.5" "long" "title")))
  = Some [Chip (lit "ai") FSearch (lit "ai");
          Chip (lit "AI") FTrack (lit "AI");
          Chip (lit "Rating " ++ [8805%N] ++ lit " 4.5") FRating (lit "4.5");
          Chip (lit "> 8 weeks") FDuration (lit "long");
          ClearAll].
Proof. vm_compute. reflexivity. Qed.

(** The drop-downs have to report a value: a duration drop-down
    without a selected option reports the empty string, which is not
    'all', and [updateActiveFilters] renders no duration chip for
    it. *)
Example chips_without_value :
  ~ listing_chips_as_stated
      (Sample.listingState Sample.catalog "" "" "0" "" "title").
Proof.
  intros Hs. specialize (Hs [] eq_refl). vm_compute in Hs. discriminate.
Qed.


(** ** Lists of names *)

Lemma includes_nil_l (x : jsstr) : includes [] x = true -> x = [].
Proof.
  intros Hi. apply includes_app in Hi. destruct Hi as [pre [post E]].
  destruct pre; [destruct x; [reflexivity | discriminate] | discriminate].
Qed.

(** Dropping repeated names does not change which name is found first. *)
Lemma find_uniq (p : jsstr -> bool) (l seen : list jsstr) :
  (forall x, In x seen -> p x = false) ->
  find p (uniq seen l) = find p l.
Proof.
  revert seen; induction l as [|x l IH]; intros seen Hseen; simpl; auto.
  destruct (arr_includes seen x) eqn:E.
  - apply arr_includes_In in E. rewrite (Hseen x E). apply IH. exact Hseen.
  - simpl. destruct (p x) eqn:Px; [reflexivity |].
    apply IH. intros y [<- | Hy]; auto.
Qed.



(** ** Untyped records: when [updateFilterCounts] throws *)

Lemma reduceM_ok {A B : Type} (f : B -> A -> Result B) (l : list A) (a : B) :
  (forall acc x, In x l -> exists b, f acc x = Ok b) ->
  exists b, Raw.reduceM f l a = Ok b.
Proof.
  revert a; induction l as [|x l IH]; intros a Hf; simpl.
  - eauto.
  - destruct (Hf a x (or_introl eq_refl)) as [b ->]. simpl.
    apply IH. intros acc y Hy. apply Hf. right; exact Hy.
Qed.

Lemma mapM_ok {A B : Type} (f : A -> Result B) (l : list A) :
  (forall x, In x l -> exists y, f x = Ok y) ->
  exists ys, Raw.mapM f l = Ok ys.
Proof.
  induction l as [|x l IH]; intros Hf; simpl.
  - eauto.
  - destruct (Hf x (or_introl eq_refl)) as [y ->]. simpl.
    destruct IH as [ys ->]; [intros z Hz; apply Hf; right; exact Hz |].
    simpl. eauto.
Qed.

Lemma filterM_ok {A : Type} (f : A -> Result bool) (l : list A) :
  (forall x, In x l -> exists b, f x = Ok b) ->
  exists ys, Raw.filterM f l = Ok ys /\ forall x, In x ys -> In x l.
Proof.
  induction l as [|x l IH]; intros Hf; simpl.
  - exists []. split; [reflexivity | auto].
  - destruct (Hf x (or_introl eq_refl)) as [b ->]. simpl.
    destruct IH as [ys [-> Hsub]]; [intros z Hz; apply Hf; right; exact Hz |].
    simpl. eexists. split; [reflexivity |].
    intros z Hz. destruct b; simpl in Hz; intuition.
Qed.

Lemma relabelM_ok (lbl : jsstr) (count : jsstr -> Result nat) (o : OptionEl) :
  (forall v, exists n, count v = Ok n) ->
  exists o', Raw.relabelM lbl count o = Ok o'.
Proof.
  intros Hc. unfold Raw.relabelM.
  destruct (negb (truthy (value o))); [eauto |].
  destruct (Hc (value o)) as [n ->]. simpl. eauto.
Qed.

Section RawFacts.
Context `{JsBuiltins}.

Lemma missesTerm_ok (term : jsstr) (x : Raw.RawCourse) :
  Raw.wellFormed x -> exists b, Raw.missesTerm term x = Ok b.
Proof.
  intros ([s Hs] & _). unfold Raw.missesTerm.
  destruct (truthy term); [| eauto]. rewrite Hs. simpl. eauto.
Qed.

Lemma includesOf_domains_ok (v : jsstr) (x : Raw.RawCourse) :
  Raw.wellFormed x -> exists b, Raw.includesOf (Raw.r_domains x) v = Ok b.
Proof. intros (_ & _ & _ & [l Hl] & _). rewrite Hl. simpl. eauto. Qed.

Lemma includesOf_tools_ok (v : jsstr) (x : Raw.RawCourse) :
  Raw.wellFormed x -> exists b, Raw.includesOf (Raw.r_tools x) v = Ok b.
Proof. intros (_ & _ & _ & _ & [l Hl] & _). rewrite Hl. simpl. eauto. Qed.

Lemma overlapsOf_domains_ok (sel : list jsstr) (x : Raw.RawCourse) :
  Raw.wellFormed x -> exists b, Raw.overlapsOf (Raw.r_domains x) sel = Ok b.
Proof. intros (_ & _ & _ & [l Hl] & _). rewrite Hl. simpl. eauto. Qed.

Lemma overlapsOf_tools_ok (sel : list jsstr) (x : Raw.RawCourse) :
  Raw.wellFormed x -> exists b, Raw.overlapsOf (Raw.r_tools x) sel = Ok b.
Proof. intros (_ & _ & _ & _ & [l Hl] & _). rewrite Hl. simpl. eauto. Qed.

Lemma lacks_domains_ok (arg : option jsstr) (x : Raw.RawCourse) :
  Raw.wellFormed x -> exists b, Raw.lacks (Raw.r_domains x) arg = Ok b.
Proof.
  intros Hwf. unfold Raw.lacks. destruct arg as [a|]; [| eauto].
  destruct (truthy a); [| eauto].
  destruct (includesOf_domains_ok a x Hwf) as [b ->]. simpl. eauto.
Qed.

Lemma lacks_tools_ok (arg : option jsstr) (x : Raw.RawCourse) :
  Raw.wellFormed x -> exists b, Raw.lacks (Raw.r_tools x) arg = Ok b.
Proof.
  intros Hwf. unfold Raw.lacks. destruct arg as [a|]; [| eauto].
  destruct (truthy a); [| eauto].
  destruct (includesOf_tools_ok a x Hwf) as [b ->]. simpl. eauto.
Qed.

Lemma missesAll_domains_ok (sel : list jsstr) (x : Raw.RawCourse) :
  Raw.wellFormed x -> exists b, Raw.missesAll (Raw.r_domains x) sel = Ok b.
Proof.
  intros Hwf. unfold Raw.missesAll. destruct (0 <? length sel)%nat; [| eauto].
  destruct (overlapsOf_domains_ok sel x Hwf) as [b ->]. simpl. eauto.
Qed.

Lemma missesAll_tools_ok (sel : list jsstr) (x : Raw.RawCourse) :
  Raw.wellFormed x -> exists b, Raw.missesAll (Raw.r_tools x) sel = Ok b.
Proof.
  intros Hwf. unfold Raw.missesAll. destruct (0 <? length sel)%nat; [| eauto].
  destruct (overlapsOf_tools_ok sel x Hwf) as [b ->]. simpl. eauto.
Qed.

(** One step of a callback on a well-formed record: every call that
    could throw returns, and the tests are decided. *)
Ltac returns Hwf :=
  repeat first
    [ match goal with
      | |- context [Raw.missesTerm ?t ?x] =>
          destruct (missesTerm_ok t x Hwf) as [? ->]; cbn [bind]
      | |- context [Raw.lacks (Raw.r_domains ?x) ?a] =>
          destruct (lacks_domains_ok a x Hwf) as [? ->]; cbn [bind]
      | |- context [Raw.lacks (Raw.r_tools ?x) ?a] =>
          destruct (lacks_tools_ok a x Hwf) as [? ->]; cbn [bind]
      | |- context [Raw.missesAll (Raw.r_domains ?x) ?a] =>
          destruct (missesAll_domains_ok a x Hwf) as [? ->]; cbn [bind]
      | |- context [Raw.missesAll (Raw.r_tools ?x) ?a] =>
          destruct (missesAll_tools_ok a x Hwf) as [? ->]; cbn [bind]
      | |- context [Raw.includesOf (Raw.r_domains ?x) ?a] =>
          destruct (includesOf_domains_ok a x Hwf) as [? ->]; cbn [bind]
      | |- context [Raw.includesOf (Raw.r_tools ?x) ?a] =>
          destruct (includesOf_tools_ok a x Hwf) as [? ->]; cbn [bind]
      | |- context [Raw.overlapsOf (Raw.r_domains ?x) ?a] =>
          destruct (overlapsOf_domains_ok a x Hwf) as [? ->]; cbn [bind]
      | |- context [Raw.overlapsOf (Raw.r_tools ?x) ?a] =>
          destruct (overlapsOf_tools_ok a x Hwf) as [? ->]; cbn [bind]
      end
    | match goal with
      | |- context [if ?b then _ else _] => destruct b; cbn [bind]
      end ];
  eauto.

Lemma index_updateFilterCounts_returns (cs : list Raw.RawCourse)
    (c : Index.Controls) :
  Forall Raw.wellFormed cs ->
  exists c', Raw.index_updateFilterCounts (Some cs) c = Ok c'.
Proof.
  intros Hwf. rewrite Forall_forall in Hwf.
  unfold Raw.index_updateFilterCounts.
  destruct (Nat.eqb (length cs) 0); [eauto |]. cbv zeta.
  match goal with
  | |- context [Raw.mapM ?f (Index.trackFilter c)] =>
      destruct (mapM_ok f (Index.trackFilter c)) as [tr ->]
  end.
  { intros o _. apply relabelM_ok. intros v. unfold Raw.index_countFor.
    apply reduceM_ok. intros acc x Hx. specialize (Hwf x Hx). returns Hwf. }
  cbn [bind].
  match goal with
  | |- context [Raw.mapM ?f (Index.domainFilter c)] =>
      destruct (mapM_ok f (Index.domainFilter c)) as [dm ->]
  end.
  { intros o _. apply relabelM_ok. intros v.
    apply reduceM_ok. intros acc x Hx. specialize (Hwf x Hx). returns Hwf. }
  cbn [bind].
  match goal with
  | |- context [Raw.mapM ?f (Index.toolFilter c)] =>
      destruct (mapM_ok f (Index.toolFilter c)) as [tl ->]
  end.
  { intros o _. apply relabelM_ok. intros v.
    apply reduceM_ok. intros acc x Hx. specialize (Hwf x Hx). returns Hwf. }
  cbn [bind].
  match goal with
  | |- context [Raw.mapM ?f (Index.levelFilter c)] =>
      destruct (mapM_ok f (Index.levelFilter c)) as [lv ->]
  end.
  { intros o _. apply relabelM_ok. intros v.
    apply reduceM_ok. intros acc x Hx. specialize (Hwf x Hx). returns Hwf. }
  cbn [bind]. eauto.
Qed.

Lemma listing_updateFilterCounts_returns (toNumberOfText : Raw.JsVal -> option Q)
    (cs : list Raw.RawCourse) (c : Listing.Controls) :
  Forall Raw.wellFormed cs ->
  exists c', Raw.listing_updateFilterCounts toNumberOfText (Some cs) c = Ok c'.
Proof.
  intros Hwf. rewrite Forall_forall in Hwf.
  unfold Raw.listing_updateFilterCounts.
  destruct (Nat.eqb (length cs) 0); [eauto |]. cbv zeta.
  match goal with
  | |- context [Raw.filterM ?f cs] =>
      destruct (filterM_ok f cs) as [base [-> Hsub]]
  end.
  { intros x Hx. specialize (Hwf x Hx). returns Hwf. }
  cbn [bind].
  assert (Hb : forall x, In x base -> Raw.wellFormed x) by auto.
  match goal with
  | |- context [Raw.mapM ?f (Listing.trackFilter c)] =>
      destruct (mapM_ok f (Listing.trackFilter c)) as [tr ->]
  end.
  { intros o _. apply relabelM_ok. intros v. unfold Raw.countByTrack.
    apply reduceM_ok. intros acc x Hx. specialize (Hb x Hx). returns Hb. }
  cbn [bind].
  match goal with
  | |- context [Raw.mapM ?f (Listing.domainFilter c)] =>
      destruct (mapM_ok f (Listing.domainFilter c)) as [dm ->]
  end.
  { intros o _. apply relabelM_ok. intros v. unfold Raw.countByDomain.
    apply reduceM_ok. intros acc x Hx. specialize (Hb x Hx). returns Hb. }
  cbn [bind].
  match goal with
  | |- context [Raw.mapM ?f (Listing.toolFilter c)] =>
      destruct (mapM_ok f (Listing.toolFilter c)) as [tl ->]
  end.
  { intros o _. apply relabelM_ok. intros v. unfold Raw.countByTool.
    apply reduceM_ok. intros acc x Hx. specialize (Hb x Hx). returns Hb. }
  cbn [bind].
  match goal with
  | |- context [Raw.mapM ?f (Listing.levelFilter c)] =>
      destruct (mapM_ok f (Listing.levelFilter c)) as [lv ->]
  end.
  { intros o _. apply relabelM_ok. intros v. unfold Raw.countByLevel.
    apply reduceM_ok. intros acc x Hx. specialize (Hb x Hx). returns Hb. }
  cbn [bind]. eauto.
Qed.
End RawFacts.

(** ** On typed records the two embeddings agree *)

Lemma reduceM_typed {A B C : Type} (emb : A -> B) (fr : C -> B -> Result C)
    (ft : C -> A -> C) (l : list A) (a : C) :
  (forall acc x, fr acc (emb x) = Ok (ft acc x)) ->
  Raw.reduceM fr (List.map emb l) a = Ok (fold_left ft l a).
Proof.
  intros Hf. revert a; induction l as [|x l IH]; intros a; simpl; auto.
  rewrite Hf. simpl. apply IH.
Qed.

Lemma filterM_typed {A B : Type} (emb : A -> B) (fr : B -> Result bool)
    (ft : A -> bool) (l : list A) :
  (forall x, fr (emb x) = Ok (ft x)) ->
  Raw.filterM fr (List.map emb l) = Ok (List.map emb (filter ft l)).
Proof.
  intros Hf. induction l as [|x l IH]; simpl; auto.
  rewrite Hf. simpl. rewrite IH. simpl. destruct (ft x); reflexivity.
Qed.

Lemma mapM_relabel (lbl : jsstr) (cr : jsstr -> Result nat) (ct : jsstr -> nat)
    (sel : SelectEl) :
  (forall v, cr v = Ok (ct v)) ->
  Raw.mapM (Raw.relabelM lbl cr) sel = Ok (List.map (relabel lbl ct) sel).
Proof.
  intros Hc. induction sel as [|o sel IH]; simpl; auto.
  rewrite IH. unfold Raw.relabelM, relabel.
  destruct (negb (truthy (value o))); simpl; [reflexivity |].
  rewrite Hc. reflexivity.
Qed.

Lemma strictEq_typed (l : list jsstr) (x : jsstr) :
  existsb (fun e => Raw.strictEq e x) (List.map Raw.VStr l) = arr_includes l x.
Proof. unfold arr_includes. induction l as [|y l IH]; simpl; [| rewrite IH]; reflexivity. Qed.

Lemma listHas_typed (sel : list jsstr) (v : jsstr) :
  Raw.listHas sel (Raw.VStr v) = arr_includes sel v.
Proof.
  unfold Raw.listHas, arr_includes.
  change (fun s => Raw.strictEq (Raw.VStr v) s) with (fun s => str_eqb v s).
  induction sel as [|s sel IH]; [reflexivity |].
  cbn [existsb]. rewrite IH, (str_eqb_sym v s). reflexivity.
Qed.

Lemma overlaps_typed (l sel : list jsstr) :
  existsb (Raw.listHas sel) (List.map Raw.VStr l) = overlaps l sel.
Proof.
  unfold overlaps. induction l as [|y l IH]; simpl; auto.
  rewrite IH, listHas_typed. reflexivity.
Qed.

Section RawAgrees.
Context `{JsBuiltins}.

Lemma missesTerm_typed (term : jsstr) (x : Course) :
  Raw.missesTerm term (Raw.raw_of x) = Ok (truthy term && negb (titleHas x term)).
Proof. unfold Raw.missesTerm. destruct (truthy term); reflexivity. Qed.

Lemma differs_typed (field : jsstr) (arg : option jsstr) :
  Raw.differs (Raw.VStr field) arg = Index.differs field arg.
Proof. destruct arg; reflexivity. Qed.

Lemma lacks_typed (l : list jsstr) (arg : option jsstr) :
  Raw.lacks (Raw.VArr (List.map Raw.VStr l)) arg = Ok (Index.lacks l arg).
Proof.
  unfold Raw.lacks, Index.lacks. destruct arg as [a|]; [| reflexivity].
  destruct (truthy a); [| reflexivity]. simpl. rewrite strictEq_typed. reflexivity.
Qed.

Lemma lacks_some_typed (l : list jsstr) (a : jsstr) :
  Raw.lacks (Raw.VArr (List.map Raw.VStr l)) (Some a)
  = Ok (truthy a && negb (arr_includes l a)).
Proof. rewrite lacks_typed. reflexivity. Qed.

Lemma missesAll_typed (l sel : list jsstr) :
  Raw.missesAll (Raw.VArr (List.map Raw.VStr l)) sel
  = Ok ((0 <? length sel)%nat && negb (overlaps l sel)).
Proof.
  unfold Raw.missesAll. destruct (0 <? length sel)%nat; [| reflexivity].
  simpl. rewrite overlaps_typed. reflexivity.
Qed.

Ltac abstract_atoms :=
  repeat match goal with
    | |- context [str_eqb ?a ?b] => generalize (str_eqb a b); intro
    | |- context [arr_includes ?a ?b] => generalize (arr_includes a b); intro
    | |- context [overlaps ?a ?b] => generalize (overlaps a b); intro
    | |- context [Nat.ltb ?a ?b] => generalize (Nat.ltb a b); intro
    | |- context [titleHas ?a ?b] => generalize (titleHas a b); intro
    | |- context [truthy ?a] => generalize (truthy a); intro
    | |- context [Index.lacks ?a ?b] => generalize (Index.lacks a b); intro
    | |- context [Index.differs ?a ?b] => generalize (Index.differs a b); intro
    end.

(** Both callbacks are brought to the same tests, then compared case
    by case. *)
Ltac typed_step :=
  cbn [Raw.raw_of Raw.r_title Raw.r_track Raw.r_level Raw.r_domains
       Raw.r_tools Raw.r_rating Raw.r_weeks];
  repeat first
    [ rewrite missesTerm_typed
    | rewrite differs_typed
    | rewrite lacks_some_typed
    | rewrite lacks_typed
    | rewrite missesAll_typed
    | rewrite listHas_typed
    | progress unfold Raw.notAmong
    | progress cbn [bind Raw.includesOf Raw.overlapsOf Raw.strictEq]
    | rewrite strictEq_typed
    | rewrite overlaps_typed ];
  abstract_atoms;
  repeat match goal with
         | b : bool |- _ => destruct b
         end;
  reflexivity.

Ltac relabel_step lbl :=
  match goal with
  | |- context [List.map (relabel lbl ?ct) _] =>
      rewrite (mapM_relabel lbl _ ct);
      [ cbn [bind]
      | intros v; cbv beta;
        try unfold Raw.index_countFor, Index.countFor;
        try unfold Raw.countByTrack, Listing.countByTrack;
        try unfold Raw.countByDomain, Listing.countByDomain;
        try unfold Raw.countByTool, Listing.countByTool;
        try unfold Raw.countByLevel, Listing.countByLevel;
        apply reduceM_typed; intros acc x; typed_step ]
  end.

(** On a catalog of typed records the untyped [updateFilterCounts] of
    the home page returns, with the controls that the typed one
    computes. *)
Lemma index_updateFilterCounts_typed (s : Index.State) :
  Raw.index_updateFilterCounts (Some (List.map Raw.raw_of (index_courses s)))
                               (Index.ctl s)
  = Ok (Index.ctl (Index.updateFilterCounts s)).
Proof.
  unfold Raw.index_updateFilterCounts, Index.updateFilterCounts.
  fold (index_courses s). rewrite length_map.
  destruct (Nat.eqb (length (index_courses s)) 0); [reflexivity |].
  cbv zeta. cbn [Index.ctl].
  relabel_step (lit "All Tracks").
  relabel_step (lit "All Domains").
  relabel_step (lit "All Tools").
  relabel_step (lit "All Levels").
  reflexivity.
Qed.

Lemma passesRatingDuration_typed (toNumberOfText : Raw.JsVal -> option Q)
    (thr : option Q) (dur : jsstr) (x : Course) :
  Raw.passesRatingDuration toNumberOfText thr dur (Raw.raw_of x)
  = Listing.passesRatingDuration thr dur x.
Proof. reflexivity. Qed.

(** The same on the catalog page. *)
Lemma listing_updateFilterCounts_typed (toNumberOfText : Raw.JsVal -> option Q)
    (s : Listing.State) :
  Raw.listing_updateFilterCounts toNumberOfText
    (Some (List.map Raw.raw_of (listing_courses s))) (Listing.ctl s)
  = Ok (Listing.ctl (Listing.updateFilterCounts s)).
Proof.
  unfold Raw.listing_updateFilterCounts, Listing.updateFilterCounts.
  fold (listing_courses s). rewrite length_map.
  destruct (Nat.eqb (length (listing_courses s)) 0); [reflexivity |].
  cbv zeta. cbn [Listing.ctl]. unfold Listing.baseFilteredOf.
  rewrite filterM_typed with
    (ft := fun course =>
       if truthy (toLowerCase (trim (Listing.searchInput (Listing.ctl s))))
          && negb (titleHas course
                     (toLowerCase (trim (Listing.searchInput (Listing.ctl s)))))
       then false
       else Listing.passesRatingDuration
              (Listing.ratingThresholdOf (Listing.ctl s))
              (Listing.durationCategoryOf (Listing.ctl s)) course).
  2:{ intros x. rewrite missesTerm_typed. cbn [bind].
      rewrite passesRatingDuration_typed.
      destruct (truthy _ && negb (titleHas x _)); reflexivity. }
  cbn [bind].
  relabel_step (lit "All Tracks").
  relabel_step (lit "All Domains").
  relabel_step (lit "All Tools").
  relabel_step (lit "All Levels").
  reflexivity.
Qed.
End RawAgrees.

Lemma raw_of_wellFormed (c : Course) : Raw.wellFormed (Raw.raw_of c).
Proof. repeat split; eexists; reflexivity. Qed.

(** A record without a title makes the count throw as soon as a search
    term is typed. *)
Example missing_title_throws :
  Raw.index_updateFilterCounts (H := asciiBuiltins)
    (Some [{| Raw.r_title := Raw.VUndefined; Raw.r_track := Raw.VStr (lit "AI");
              Raw.r_level := Raw.VStr (lit "Beginner");
              Raw.r_domains := Raw.VArr []; Raw.r_tools := Raw.VArr [];
              Raw.r_rating := Raw.VNum 4%Q; Raw.r_weeks := Raw.VNum 6%Q |}])
    (Index.ctl (Sample.indexState [] "ai" "" "" "title"))
  = Throw TypeError.
Proof. vm_compute. reflexivity. Qed.

Section Safety.
Context `{JsBuiltins}.

(** C4.  On a list of well-formed course records (string title,
    track and level, array-valued domains and tools, numeric rating
    and weeks) [updateFilterCounts] returns without throwing, on the
    home page and on the catalog page; the functions are total, so
    they terminate.  When the course list is missing or empty it
    returns the controls as they are: no label and no disabled flag
    is touched. *)
Theorem updateFilterCounts_safe (toNumberOfText : Raw.JsVal -> option Q)
    (cs : list Raw.RawCourse) (ci : Index.Controls) (cl : Listing.Controls) :
  Forall Raw.wellFormed cs ->
  (exists ci', Raw.index_updateFilterCounts (Some cs) ci = Ok ci')
  /\ (exists cl', Raw.listing_updateFilterCounts toNumberOfText (Some cs) cl = Ok cl')
  /\ Raw.index_updateFilterCounts None ci = Ok ci
  /\ Raw.index_updateFilterCounts (Some []) ci = Ok ci
  /\ Raw.listing_updateFilterCounts toNumberOfText None cl = Ok cl
  /\ Raw.listing_updateFilterCounts toNumberOfText (Some []) cl = Ok cl.
Proof.
  intros Hwf. repeat split.
  - apply index_updateFilterCounts_returns. exact Hwf.
  - apply listing_updateFilterCounts_returns. exact Hwf.
Qed.

(** The typed embedding does the same on an empty course list. *)
Lemma updateFilterCounts_empty (si : Index.State) (sl : Listing.State) :
  index_courses si = [] -> listing_courses sl = [] ->
  Index.updateFilterCounts si = si /\ Listing.updateFilterCounts sl = sl.
Proof.
  intros Hi Hl. unfold Index.updateFilterCounts, Listing.updateFilterCounts.
  fold (index_courses si). fold (listing_courses sl). rewrite Hi, Hl.
  split; reflexivity.
Qed.
End Safety.

Lemma updateFilterCounts_safe_witness :
  let cs := List.map Raw.raw_of Sample.catalog in
  let ci := Index.ctl (Sample.indexState Sample.catalog "ai" "AI" "" "title") in
  let cl := Listing.ctl (Sample.listingState Sample.catalog "ai" "AI" "4" "long" "title") in
  (exists ci', Raw.index_updateFilterCounts (H := asciiBuiltins) (Some cs) ci = Ok ci')
  /\ (exists cl', Raw.listing_updateFilterCounts (H := asciiBuiltins) (fun _ => None)
                    (Some cs) cl = Ok cl').
Proof.
  intros cs ci cl.
  destruct (@updateFilterCounts_safe asciiBuiltins (fun _ => None) cs ci cl)
    as (Hi & Hl & _).
  - repeat constructor; apply raw_of_wellFormed.
  - split; assumption.
Defined.

(** ** Rounding to a double *)

Lemma pow2_pos (e : Z) : (0 < pow2 e)%Q.
Proof. apply Qpower_0_lt. reflexivity. Qed.

Lemma roundHalfEven_le (q : Q) (n : Z) :
  (q <= inject_Z n)%Q -> (roundHalfEven q <= n)%Z.
Proof.
  intros Hq. unfold roundHalfEven. cbv zeta.
  pose proof (Qfloor_le q) as Hf.
  assert (Hfn : (Qfloor q <= n)%Z).
  { rewrite Zle_Qle. eapply Qle_trans; eassumption. }
  assert (Hup : (inject_Z (Qfloor q) < q)%Q -> (Qfloor q + 1 <= n)%Z).
  { intros Hlt. assert (Hs : (Qfloor q < n)%Z).
    { rewrite Zlt_Qlt. eapply Qlt_le_trans; eassumption. }
    lia. }
  destruct (Qcompare (q - inject_Z (Qfloor q)) (1 # 2)) eqn:E.
  - apply Qeq_alt in E. destruct (Z.even (Qfloor q)); [exact Hfn |].
    apply Hup. lra.
  - exact Hfn.
  - apply Qgt_alt in E. apply Hup. lra.
Qed.

Lemma roundHalfEven_nonneg (q : Q) : (0 <= q)%Q -> (0 <= roundHalfEven q)%Z.
Proof.
  intros Hq. unfold roundHalfEven. cbv zeta.
  assert (Hf : (0 <= Qfloor q)%Z).
  { change 0%Z with (Qfloor 0). apply Qfloor_resp_le. exact Hq. }
  destruct (Qcompare _ _); [destruct (Z.even _) | |]; lia.
Qed.

Lemma binade_le (q : Q) : (0 < q)%Q -> (pow2 (binade q) <= q)%Q.
Proof.
  intros Hq. unfold binade. cbv zeta.
  destruct (Qltb q (pow2 (Z.log2 (Qnum q) - Z.log2 (Zpos (Qden q))))) eqn:E.
  - destruct q as [n d]. unfold Qlt in Hq. cbn [Qnum Qden] in *.
    assert (Hn : (0 < n)%Z) by lia.
    destruct (Z.log2_spec n Hn) as [Ha _].
    destruct (Z.log2_spec (Zpos d) eq_refl) as [_ Hb].
    assert (Ha0 : (0 <= Z.log2 n)%Z) by apply Z.log2_nonneg.
    assert (Hb0 : (0 <= Z.log2 (Zpos d))%Z) by apply Z.log2_nonneg.
    generalize dependent (Z.log2 n). generalize dependent (Z.log2 (Zpos d)).
    intros b Hb Hb0 a _ Ha Ha0.
    unfold pow2.
    replace (a - b - 1)%Z with (a - Z.succ b)%Z by lia.
    rewrite Qpower_minus by (intros Hz; discriminate).
    change 2%Q with (inject_Z 2).
    rewrite <- !Zpower_Qpower by lia.
    assert (Hp : (0 < 2 ^ Z.succ b)%Z) by (apply Z.pow_pos_nonneg; lia).
    assert (Hpa : (0 < 2 ^ a)%Z) by (apply Z.pow_pos_nonneg; lia).
    apply Qle_shift_div_r;
      [change 0%Q with (inject_Z 0); rewrite <- Zlt_Qlt; exact Hp |].
    generalize dependent (2 ^ Z.succ b)%Z. generalize dependent (2 ^ a)%Z.
    intros A HA HA0 Bp HB HB0.
    unfold Qle, Qmult, inject_Z. cbn [Qnum Qden].
    nia.
  - unfold Qltb in E. apply negb_false_iff, Qle_bool_iff in E. exact E.
Qed.

Lemma binade_small (q : Q) (B : Z) :
  (0 < q)%Q -> (q <= inject_Z B)%Q -> (Z.log2 B <= 52)%Z -> (binade q <= 52)%Z.
Proof.
  intros Hq HB Hl.
  assert (HBpos : (0 < B)%Z).
  { rewrite Zlt_Qlt. eapply Qlt_le_trans; eassumption. }
  destruct (Z.log2_spec B HBpos) as [_ Hu].
  assert (H53 : (B < 2 ^ 53)%Z).
  { eapply Z.lt_le_trans; [exact Hu |]. apply Z.pow_le_mono_r; lia. }
  assert (Hlt : (pow2 (binade q) < pow2 53)%Q).
  { eapply Qle_lt_trans; [apply binade_le; exact Hq |].
    eapply Qle_lt_trans; [exact HB |].
    unfold pow2. change 2%Q with (inject_Z 2).
    rewrite <- Zpower_Qpower by lia. rewrite <- Zlt_Qlt. exact H53. }
  apply Qpower_lt_compat_l_inv in Hlt; [lia | reflexivity].
Qed.

Lemma roundPositive_bounds (q : Q) (B : Z) :
  (0 < q)%Q -> (q <= inject_Z B)%Q -> (Z.log2 B <= 52)%Z ->
  (0 <= roundPositive q)%Q /\ (roundPositive q <= inject_Z B)%Q.
Proof.
  intros Hq HB Hl. unfold roundPositive. cbv zeta.
  set (u := Z.max (binade q - 52) (-1074)).
  assert (Hu : (u <= 0)%Z) by (pose proof (binade_small q B Hq HB Hl); lia).
  pose proof (pow2_pos u) as Hp.
  set (m := roundHalfEven (q / pow2 u)).
  assert (Hm0 : (0 <= m)%Z).
  { apply roundHalfEven_nonneg. apply Qle_shift_div_l; [exact Hp | lra]. }
  assert (Einv : (pow2 u * inject_Z (2 ^ (- u)) == 1)%Q).
  { unfold pow2. rewrite Zpower_Qpower by lia. change (inject_Z 2) with 2%Q.
    rewrite <- Qpower_plus by (intros Hz; discriminate).
    replace (u + - u)%Z with 0%Z by lia. reflexivity. }
  assert (HmB : (m <= B * 2 ^ (- u))%Z).
  { apply roundHalfEven_le. rewrite inject_Z_mult.
    apply Qle_shift_div_r; [exact Hp |].
    rewrite <- Qmult_assoc, (Qmult_comm (inject_Z (2 ^ (- u)))), Einv. lra. }
  assert (Hv : (inject_Z m * pow2 u <= inject_Z B)%Q).
  { rewrite Zle_Qle, inject_Z_mult in HmB.
    assert (H1 : (inject_Z m * pow2 u <= inject_Z B * inject_Z (2 ^ (- u)) * pow2 u)%Q)
      by (apply Qmult_le_compat_r; [exact HmB | lra]).
    rewrite <- Qmult_assoc, (Qmult_comm (inject_Z (2 ^ (- u)))), Einv, Qmult_1_r in H1.
    exact H1. }
  assert (Hv0 : (0 <= inject_Z m * pow2 u)%Q).
  { apply Qmult_le_0_compat; [rewrite Zle_Qle in Hm0; exact Hm0 | lra]. }
  destruct (Qle_bool (pow2 1024) (inject_Z m * pow2 u)) eqn:E.
  - apply Qle_bool_iff in E. split; [pose proof (pow2_pos 1024); lra | lra].
  - split; assumption.
Qed.

Lemma roundDouble_bounds (q : Q) (B : Z) :
  (0 <= q)%Q -> (q <= inject_Z B)%Q -> (0 <= B)%Z -> (Z.log2 B <= 52)%Z ->
  (0 <= roundDouble q)%Q /\ (roundDouble q <= inject_Z B)%Q.
Proof.
  intros Hq HB HB0 Hl. unfold roundDouble.
  destruct (Qcompare q 0) eqn:E.
  - split; [lra | rewrite Zle_Qle in HB0; exact HB0].
  - apply Qlt_alt in E. lra.
  - apply Qgt_alt in E. apply roundPositive_bounds; assumption.
Qed.

Lemma roundDouble_5 : (roundDouble 5 == 5)%Q.
Proof. vm_compute. reflexivity. Qed.

Lemma roundDouble_100 : (roundDouble 100 == 100)%Q.
Proof. vm_compute. reflexivity. Qed.

Lemma divNumber_5_bounds (m : Q) :
  (0 <= m)%Q -> (m <= 5)%Q ->
  (0 <= divNumber m 5)%Q /\ (divNumber m 5 <= 1)%Q.
Proof.
  intros H0 H5. unfold divNumber.
  destruct (roundDouble_bounds m 5 H0 H5) as [Ha0 Ha5]; [lia | vm_compute; discriminate |].
  change (inject_Z 5) with 5%Q in Ha5.
  apply (roundDouble_bounds _ 1); [| | lia | vm_compute; discriminate].
  - rewrite roundDouble_5. apply Qle_shift_div_l; lra.
  - rewrite roundDouble_5. change (inject_Z 1) with 1%Q.
    apply Qle_shift_div_r; lra.
Qed.

Lemma mulNumber_100_bounds (x : Q) :
  (0 <= x)%Q -> (x <= 1)%Q ->
  (0 <= mulNumber x 100)%Q /\ (mulNumber x 100 <= 100)%Q.
Proof.
  intros H0 H1. unfold mulNumber.
  destruct (roundDouble_bounds x 1 H0 H1) as [Ha0 Ha1]; [lia | vm_compute; discriminate |].
  change (inject_Z 1) with 1%Q in Ha1.
  apply (roundDouble_bounds _ 100); [| | lia | vm_compute; discriminate].
  - rewrite roundDouble_100. nra.
  - rewrite roundDouble_100. change (inject_Z 100) with 100%Q. nra.
Qed.

(** * Properties of the rest of the scripts *)

(** ** Links and sanitised names *)

Lemma unreserved_ascii (c : N) : isUnreserved c = true -> (c < 128)%N.
Proof.
  unfold isUnreserved. cbn [existsb].
  repeat rewrite orb_true_iff. repeat rewrite andb_true_iff.
  repeat rewrite N.leb_le. repeat rewrite N.eqb_eq. lia.
Qed.

Lemma unreserved_not_surrogate (c : N) :
  isUnreserved c = true -> isTrailSurrogate c = false /\ isLeadSurrogate c = false.
Proof.
  intros Hu. apply unreserved_ascii in Hu.
  unfold isTrailSurrogate, isLeadSurrogate.
  split; apply andb_false_iff; left; apply N.leb_gt; lia.
Qed.

(** [encodeURIComponent] throws exactly on the strings that are not
    well formed. *)
Lemma encode_wellFormed_bounded (n : nat) (s : jsstr) :
  length s <= n ->
  (isWellFormed s = true <-> exists e, encodeURIComponent s = Some e).
Proof.
  revert s. induction n as [|n IH]; intros s Hlen.
  - destruct s; [| simpl in Hlen; lia]. simpl. split; eauto.
  - destruct s as [|c s]; [simpl; split; eauto |].
    simpl in Hlen.
    cbn [encodeURIComponent isWellFormed].
    destruct (isUnreserved c) eqn:Eu.
    + destruct (unreserved_not_surrogate c Eu) as [-> ->].
      rewrite (IH s) by lia.
      split; intros [e He].
      * rewrite He. simpl. eauto.
      * destruct (encodeURIComponent s); [eauto | discriminate].
    + destruct (isTrailSurrogate c); [split; [discriminate | intros [e He]; discriminate] |].
      destruct (isLeadSurrogate c).
      * destruct s as [|d s]; [split; [discriminate | intros [e He]; discriminate] |].
        simpl in Hlen.
        destruct (isTrailSurrogate d); simpl;
          [| split; [discriminate | intros [e He]; discriminate]].
        rewrite (IH s) by lia.
        split; intros [e He].
        -- rewrite He. simpl. eauto.
        -- destruct (encodeURIComponent s); [eauto | discriminate].
      * rewrite (IH s) by lia.
        split; intros [e He].
        -- rewrite He. simpl. eauto.
        -- destruct (encodeURIComponent s); [eauto | discriminate].
Qed.

Lemma encode_wellFormed (s : jsstr) :
  isWellFormed s = true <-> exists e, encodeURIComponent s = Some e.
Proof. apply (encode_wellFormed_bounded (length s)). lia. Qed.

Lemma encode_throws (s : jsstr) :
  encodeURIComponent s = None <-> isWellFormed s = false.
Proof.
  pose proof (encode_wellFormed s) as E.
  destruct (encodeURIComponent s) as [e|].
  - split; [discriminate |]. intros Hf.
    assert (Ht : isWellFormed s = true) by (apply E; eauto). congruence.
  - split; [intros _ | reflexivity].
    destruct (isWellFormed s); [| reflexivity].
    destruct (proj1 E eq_refl) as [e He]. discriminate.
Qed.

Lemma hexDigit_unreserved (n : N) : (n < 16)%N -> isUnreserved (hexDigit n) = true.
Proof.
  intros Hn. destruct n as [|p]; [reflexivity |].
  do 4 (try destruct p as [p|p|]); try reflexivity; lia.
Qed.

Lemma percentByte_uri (b : N) : Forall (fun c => isUriChar c = true) (percentByte b).
Proof.
  unfold percentByte. repeat constructor; unfold isUriChar.
  - rewrite hexDigit_unreserved; [reflexivity | apply N.mod_lt; lia].
  - rewrite hexDigit_unreserved; [reflexivity | apply N.mod_lt; lia].
Qed.

Lemma percentEncode_uri (cp : N) : Forall (fun c => isUriChar c = true) (percentEncode cp).
Proof.
  unfold percentEncode. generalize (utf8 cp) as bytes.
  induction bytes as [|b bytes IH]; cbn [flat_map]; [constructor |].
  apply Forall_app. split; [apply percentByte_uri | exact IH].
Qed.

Lemma encode_uri_bounded (n : nat) (s e : jsstr) :
  length s <= n ->
  encodeURIComponent s = Some e -> Forall (fun c => isUriChar c = true) e.
Proof.
  revert s e. induction n as [|n IH]; intros s e Hlen.
  - destruct s; [| simpl in Hlen; lia]. simpl. intros [= <-]. constructor.
  - destruct s as [|c s]; [simpl; intros [= <-]; constructor |].
    simpl in Hlen. cbn [encodeURIComponent].
    destruct (isUnreserved c) eqn:Eu.
    + destruct (encodeURIComponent s) as [e'|] eqn:Ee; [| discriminate].
      simpl. intros [= <-]. constructor.
      * unfold isUriChar. rewrite Eu. reflexivity.
      * apply (IH s); [lia | exact Ee].
    + destruct (isTrailSurrogate c); [discriminate |].
      destruct (isLeadSurrogate c).
      * destruct s as [|d s]; [discriminate |]. simpl in Hlen.
        destruct (isTrailSurrogate d); [| discriminate].
        destruct (encodeURIComponent s) as [e'|] eqn:Ee; [| discriminate].
        simpl. intros [= <-]. apply Forall_app. split.
        -- apply percentEncode_uri.
        -- apply (IH s); [lia | exact Ee].
      * destruct (encodeURIComponent s) as [e'|] eqn:Ee; [| discriminate].
        simpl. intros [= <-]. apply Forall_app. split.
        -- apply percentEncode_uri.
        -- apply (IH s); [lia | exact Ee].
Qed.

Lemma encode_uri (s e : jsstr) :
  encodeURIComponent s = Some e -> Forall (fun c => isUriChar c = true) e.
Proof. apply (encode_uri_bounded (length s)). lia. Qed.

(** A name made of unreserved characters is its own encoding. *)
Lemma encode_unreserved (s : jsstr) :
  Forall (fun c => isUnreserved c = true) s -> encodeURIComponent s = Some s.
Proof.
  induction 1 as [|c s Hc Hs IH]; [reflexivity |].
  cbn [encodeURIComponent]. rewrite Hc, IH. reflexivity.
Qed.

(** No double quote, angle bracket, ampersand or blank is among them. *)
Lemma uriChar_safe (c : N) :
  isUriChar c = true -> c <> 34%N /\ c <> 60%N /\ c <> 62%N /\ c <> 38%N /\ c <> 32%N.
Proof.
  unfold isUriChar. rewrite orb_true_iff, N.eqb_eq.
  intros [Hu | ->]; [| repeat split; discriminate].
  unfold isUnreserved in Hu. cbn [existsb] in Hu.
  repeat rewrite orb_true_iff in Hu. repeat rewrite andb_true_iff in Hu.
  repeat rewrite N.leb_le in Hu. repeat rewrite N.eqb_eq in Hu.
  lia.
Qed.

(** ** Sanitised names *)

Lemma In_trimStart (s : jsstr) (c : N) : In c (trimStart s) -> In c s.
Proof.
  induction s as [|x s IH]; simpl; [tauto |].
  destruct (isWhiteSpace x); simpl; tauto.
Qed.

Lemma In_trim (s : jsstr) (c : N) : In c (trim s) -> In c s.
Proof.
  unfold trim, trimEnd. intros Hin.
  apply in_rev in Hin. apply In_trimStart in Hin.
  apply in_rev in Hin. apply In_trimStart in Hin. exact Hin.
Qed.

Lemma trimStart_head (s : jsstr) (c : N) (rest : jsstr) :
  trimStart s = c :: rest -> isWhiteSpace c = false.
Proof.
  induction s as [|x s IH]; simpl; [discriminate |].
  destruct (isWhiteSpace x) eqn:E; [exact IH |].
  intros [= <- _]. exact E.
Qed.

(** [trimStart] leaves the end of a string that does not end with a
    blank where it is. *)
Lemma trimStart_keeps_last (s : jsstr) (c : N) :
  isWhiteSpace c = false ->
  exists front, trimStart (s ++ [c]) = front ++ [c].
Proof.
  intros Hc. induction s as [|x s IH]; simpl.
  - rewrite Hc. exists []. reflexivity.
  - destruct (isWhiteSpace x); [exact IH |].
    exists (x :: s). reflexivity.
Qed.

Lemma trim_last (s : jsstr) (c : N) (front : jsstr) :
  trim s = front ++ [c] -> isWhiteSpace c = false.
Proof.
  unfold trim, trimEnd. intros E.
  apply (f_equal (@rev N)) in E. rewrite rev_involutive, rev_app_distr in E.
  simpl in E. eapply trimStart_head. exact E.
Qed.

Lemma trim_head (s : jsstr) (c : N) (rest : jsstr) :
  trim s = c :: rest -> isWhiteSpace c = false.
Proof.
  unfold trim, trimEnd. intros E.
  destruct (trimStart s) as [|x t] eqn:Et; [discriminate |].
  pose proof (trimStart_head _ _ _ Et) as Hx.
  simpl in E.
  destruct (trimStart_keeps_last (rev t) x Hx) as [front Hf].
  rewrite Hf, rev_app_distr in E. simpl in E.
  injection E as <- _. exact Hx.
Qed.

Lemma trimStart_id (s : jsstr) :
  (forall c rest, s = c :: rest -> isWhiteSpace c = false) -> trimStart s = s.
Proof.
  destruct s as [|c s]; [reflexivity |]. intros Hs. simpl.
  rewrite (Hs c s eq_refl). reflexivity.
Qed.

Lemma In_dropGroups (s : jsstr) (c : N) (skip : nat) :
  In c (dropGroups skip s) -> In c s.
Proof.
  revert skip. induction s as [|x s IH]; intros skip; simpl; [tauto |].
  destruct skip as [|k].
  - destruct (N.eqb x 40).
    + destruct (groupLength s); simpl; intros Hin.
      * right. eapply IH. exact Hin.
      * destruct Hin as [-> | Hin]; [left; reflexivity | right; eapply IH; exact Hin].
    + simpl. intros [-> | Hin]; [left; reflexivity | right; eapply IH; exact Hin].
  - intros Hin. right. eapply IH. exact Hin.
Qed.

Lemma dropGroups_id (s : jsstr) :
  (forall c, In c s -> c <> 40%N) -> dropGroups 0 s = s.
Proof.
  induction s as [|x s IH]; intros Hs; [reflexivity |].
  cbn [dropGroups].
  assert (Hx : N.eqb x 40 = false).
  { apply N.eqb_neq. apply Hs. left; reflexivity. }
  rewrite Hx. f_equal. apply IH. intros c Hc. apply Hs. right; exact Hc.
Qed.

Lemma In_stripQuotes (s : jsstr) (c : N) :
  In c (stripQuotes s) <-> In c s /\ isMarkupChar c = false.
Proof.
  unfold stripQuotes. rewrite filter_In, negb_true_iff. reflexivity.
Qed.

Lemma stripQuotes_id (s : jsstr) :
  (forall c, In c s -> isMarkupChar c = false) -> stripQuotes s = s.
Proof.
  unfold stripQuotes. induction s as [|x s IH]; intros Hs; [reflexivity |].
  simpl. rewrite (Hs x (or_introl eq_refl)). simpl. f_equal.
  apply IH. intros c Hc. apply Hs. right; exact Hc.
Qed.

Lemma cleanName_no_markup (name : jsstr) (c : N) :
  In c (cleanName name) -> isMarkupChar c = false.
Proof.
  unfold cleanName. intros Hin. apply In_trim, In_stripQuotes in Hin. apply Hin.
Qed.

Lemma occurrences_app (c : N) (a b : jsstr) :
  occurrences c (a ++ b) = occurrences c a + occurrences c b.
Proof. unfold occurrences. rewrite filter_app, length_app. reflexivity. Qed.

Lemma occurrences_none (c : N) (s : jsstr) :
  (forall x, In x s -> x <> c) -> occurrences c s = 0.
Proof.
  unfold occurrences. induction s as [|x s IH]; intros Hs; [reflexivity |].
  simpl. assert (Hx : N.eqb c x = false).
  { apply N.eqb_neq. intros ->. apply (Hs x); [left |]; reflexivity. }
  rewrite Hx. apply IH. intros y Hy. apply Hs. right; exact Hy.
Qed.

Lemma cleanName_occurrences (name : jsstr) (c : N) :
  isMarkupChar c = true -> occurrences c (cleanName name) = 0.
Proof.
  intros Hc. apply occurrences_none. intros x Hx ->.
  apply cleanName_no_markup in Hx. congruence.
Qed.

Lemma encoded_occurrences (s e : jsstr) (c : N) :
  encodeURIComponent s = Some e ->
  c = 34%N \/ c = 60%N \/ c = 62%N ->
  occurrences c e = 0.
Proof.
  intros He Hc. apply occurrences_none. intros x Hx ->.
  pose proof (encode_uri s e He) as Hall.
  rewrite Forall_forall in Hall. apply Hall, uriChar_safe in Hx.
  intuition congruence.
Qed.

(** X1.  The sanitised form of a name, which [generateDomainDescription],
    [generateTrackDescription] and the [updateMetaTags] functions put
    into markup and meta tags, never holds a double quote, an
    apostrophe or an angle bracket, and neither starts nor ends with a
    blank; it holds no character that the name does not hold; and a
    name that has no parenthesis, quote or angle bracket and no blank
    around it is its own sanitised form. *)
Theorem cleanName_sanitised (name : jsstr) :
  (forall c, In c (cleanName name) -> isMarkupChar c = false /\ In c name)
  /\ (forall c rest, cleanName name = c :: rest -> isWhiteSpace c = false)
  /\ (forall c front, cleanName name = front ++ [c] -> isWhiteSpace c = false)
  /\ ((forall c, In c name -> isMarkupChar c = false /\ c <> 40%N) ->
      trim name = name -> cleanName name = name).
Proof.
  split; [| split; [| split]].
  - intros c Hin. split; [eapply cleanName_no_markup; exact Hin |].
    unfold cleanName in Hin.
    apply In_trim, In_stripQuotes in Hin. destruct Hin as [Hin _].
    eapply In_dropGroups. exact Hin.
  - intros c rest. apply trim_head.
  - intros c front. apply trim_last.
  - intros Hplain Htrim. unfold cleanName, stripParens.
    rewrite dropGroups_id by (intros c Hc; apply Hplain, Hc).
    rewrite stripQuotes_id by (intros c Hc; apply Hplain, Hc).
    exact Htrim.
Qed.

Example cleanName_sample :
  cleanName (lit "  AI (Artificial (x) Intelligence) & <b>'ML'</b> (open  ")
  = lit "AI  Intelligence) & bML/b (open".
Proof. vm_compute. reflexivity. Qed.

(** X2.  [generateDomainDescription] and [generateTrackDescription]
    throw (a URIError of [encodeURIComponent]) exactly for a name in
    which a surrogate stands alone.  Otherwise the markup they return
    holds the two angle-bracket pairs and the six double quotes of its
    one anchor element and no other: nothing of the name can open a
    tag or close an attribute. *)
Theorem description_markup (name : jsstr) :
  (Seo.generateDomainDescription name = None <-> isWellFormed name = false)
  /\ (Seo.generateTrackDescription name = None <-> isWellFormed name = false)
  /\ forall html,
       Seo.generateDomainDescription name = Some html
       \/ Seo.generateTrackDescription name = Some html ->
       occurrences 60 html = 2 /\ occurrences 62 html = 2
       /\ occurrences 34 html = 6.
Proof.
  split; [| split].
  - unfold Seo.generateDomainDescription.
    rewrite <- encode_throws.
    destruct (encodeURIComponent name); split; congruence.
  - unfold Seo.generateTrackDescription.
    rewrite <- encode_throws.
    destruct (encodeURIComponent name); split; congruence.
  - intros html Hhtml.
    unfold Seo.generateDomainDescription, Seo.generateTrackDescription in Hhtml.
    cbv zeta in Hhtml.
    destruct (encodeURIComponent name) as [enc|] eqn:Ee;
      [| destruct Hhtml; discriminate].
    pose proof (cleanName_occurrences name 60 eq_refl) as C60.
    pose proof (cleanName_occurrences name 62 eq_refl) as C62.
    pose proof (cleanName_occurrences name 34 eq_refl) as C34.
    pose proof (encoded_occurrences name enc 60 Ee (or_intror (or_introl eq_refl))) as E60.
    pose proof (encoded_occurrences name enc 62 Ee (or_intror (or_intror eq_refl))) as E62.
    pose proof (encoded_occurrences name enc 34 Ee (or_introl eq_refl)) as E34.
    destruct Hhtml as [Hh | Hh];
      apply (f_equal (fun o => match o with Some x => x | None => html end)) in Hh;
      cbv beta iota in Hh; rewrite <- Hh;
      repeat rewrite occurrences_app;
      repeat rewrite C60; repeat rewrite C62; repeat rewrite C34;
      repeat rewrite E60; repeat rewrite E62; repeat rewrite E34;
      repeat split; vm_compute; reflexivity.
Qed.

Example domain_description_sample :
  Seo.generateDomainDescription (lit "AI <Lab>")
  = Some (lit "Courses in the AI Lab domain teach you key skills and concepts. Explore tools and courses below to find your perfect match. <a href="
            ++ Seo.dq ++ lit "listing.html?domain=AI%20%3CLab%3E" ++ Seo.dq
            ++ lit " class=" ++ Seo.dq ++ lit "text-blue-600 underline" ++ Seo.dq
            ++ lit " rel=" ++ Seo.dq ++ lit "noopener noreferrer" ++ Seo.dq
            ++ lit ">View all AI Lab courses</a>.").
Proof. vm_compute. reflexivity. Qed.

Example track_description_throws :
  Seo.generateTrackDescription (lit "AI" ++ [55357%N]) = None.
Proof. vm_compute. reflexivity. Qed.

(** ** Featured courses and course cards *)


Lemma In_firstn_In {A : Type} (k : nat) (l : list A) (x : A) :
  In x (firstn k l) -> In x l.
Proof.
  intros Hin. rewrite <- (firstn_skipn k l). apply in_or_app. left; exact Hin.
Qed.

Lemma In_skipn_In {A : Type} (k : nat) (l : list A) (x : A) :
  In x (skipn k l) -> In x l.
Proof.
  intros Hin. rewrite <- (firstn_skipn k l). apply in_or_app. right; exact Hin.
Qed.



Lemma jsslice_firstn {A : Type} (k : nat) (l : list A) :
  jsslice 0 (Z.of_nat k) l = firstn k l.
Proof.
  unfold jsslice. cbn [Z.ltb Z.compare].
  destruct (Z.ltb_spec (Z.of_nat k) 0); [lia |].
  replace (Z.min 0 (Z.of_nat (length l))) with 0%Z by lia.
  rewrite Z.sub_0_r. cbn [Z.to_nat skipn].
  destruct (Z.min_spec (Z.of_nat k) (Z.of_nat (length l))) as [[Hlt ->] | [Hle ->]].
  - rewrite Nat2Z.id. reflexivity.
  - rewrite Nat2Z.id. rewrite firstn_all. symmetry. apply firstn_all2. lia.
Qed.

Section Featured.
Context `{JsBuiltins}.

(** What the page features: the first six of the courses sorted by
  score, the highest first. *)
Lemma index_featured_shown (s : Index.State) (old : list Node) :
Index.featuredCoursesContainer (Index.doc s) = Some old ->
Index.featuredCoursesContainer (Index.doc (Index.renderFeaturedCourses s))
= Some (List.map createCourseCard
          (firstn 6 (sortWith (fun a b => (score b - score a)%Q) (index_courses s)))).
Proof.
intros Hold. unfold Index.renderFeaturedCourses, arr_spread, alloc.
rewrite Hold. cbv beta iota zeta.
cbn [Index.doc Index.featuredCoursesContainer].
pose proof (sort_fresh_result (fun a b => (score b - score a)%Q)
              (Index.heap (Index.vars s)) (index_courses s)) as E.
unfold alloc in E. cbn [fst snd] in E. unfold score in E at 1 2.
unfold index_courses in E at 1. rewrite E.
rewrite (jsslice_firstn 6). reflexivity.
Qed.


(** The product is the rounded one: 4.1 * 200 is a double just below
  820, so that a course rated 4 with 205 students, whose product is
  820, has the higher score. *)
Example score_rounded :
(score (Demo.rated (41 # 10) 200) < score (Demo.rated 4 205))%Q.
Proof. vm_compute. reflexivity. Qed.

End Featured.

(** Of the five indices of the stars, those below [f] are the first
    min (5, max (0, f)). *)
Lemma star_index (f : Z) (i : nat) :
  (Z.of_nat i <? f)%Z = (i <? Z.to_nat (Z.max 0 (Z.min 5 f)))%nat \/ 5 <= i.
Proof.
  destruct (Nat.le_gt_cases 5 i) as [Hi | Hi]; [right; exact Hi | left].
  destruct (Z.ltb_spec (Z.of_nat i) f), (Nat.ltb_spec i (Z.to_nat (Z.max 0 (Z.min 5 f))));
    try reflexivity; lia.
Qed.

Lemma map_seq_5 {A : Type} (g h : nat -> A) :
  (forall i, g i = h i \/ 5 <= i) -> List.map g (seq 0 5) = List.map h (seq 0 5).
Proof.
  intros E. cbn [seq List.map].
  destruct (E 0) as [E0 |]; [| lia]. destruct (E 1) as [E1 |]; [| lia].
  destruct (E 2) as [E2 |]; [| lia]. destruct (E 3) as [E3 |]; [| lia].
  destruct (E 4) as [E4 |]; [| lia].
  rewrite E0, E1, E2, E3, E4. reflexivity.
Qed.


(** The rating clamped to the scale of the stars. *)
Lemma clamp_bounds (x : Q) :
  (0 <= mathMax 0 (mathMin 5 x))%Q /\ (mathMax 0 (mathMin 5 x) <= 5)%Q.
Proof.
  unfold mathMax, mathMin.
  destruct (Qle_bool 5 x) eqn:E5.
  - split; vm_compute; discriminate.
  - assert (H5 : (x <= 5)%Q).
    { apply Qlt_le_weak, Qnot_le_lt. intros Hle.
      apply Qle_bool_iff in Hle. congruence. }
    destruct (Qle_bool 0 x) eqn:E0.
    + apply Qle_bool_iff in E0. split; assumption.
    + split; vm_compute; discriminate.
Qed.

(** The double arithmetic at work: a rating of 4.2 gives a bar a
    little wider than 84 percent, a rating of 3.3 one a little
    narrower than 66 percent, and a rating of 4.5 one of 90 percent. *)
Example ratingPercent_above :
  (Card.ratingPercent (Demo.rated (42 # 10) 100) == 84 + pow2 (-46))%Q.
Proof. vm_compute. reflexivity. Qed.

Example ratingPercent_below :
  (Card.ratingPercent (Demo.rated (33 # 10) 100) == 66 - pow2 (-46))%Q.
Proof. vm_compute. reflexivity. Qed.

Example ratingPercent_exact :
  (Card.ratingPercent (Demo.rated (45 # 10) 100) == 90)%Q.
Proof. vm_compute. reflexivity. Qed.

(** X4.  A course card always has five star icons: the first
    min (5, max (0, floor (rating))) are full, the others empty.  The
    width of its rating bar, computed in double arithmetic, lies
    between 0 and 100 percent whatever the rating is. *)
Theorem card_rating (course : Course) :
  let k := Z.to_nat (Z.max 0 (Z.min 5 (Qfloor (rating course)))) in
  Card.stars course = repeat Card.FullStar k ++ repeat Card.EmptyStar (5 - k)
  /\ (0 <= Card.ratingPercent course)%Q
  /\ (Card.ratingPercent course <= 100)%Q.
Proof.
  intros k. split.
  - unfold Card.stars, Card.fullStars.
    rewrite (map_seq_5 _ (fun i => if (i <? k)%nat then Card.FullStar else Card.EmptyStar)).
    + assert (Hk : k <= 5) by (unfold k; lia).
      do 6 (destruct k as [|k]; [reflexivity |]). lia.
    + intros i. destruct (star_index (Qfloor (rating course)) i) as [E | E];
        [left; fold k in E; rewrite E; reflexivity | right; exact E].
  - unfold Card.ratingPercent.
    destruct (clamp_bounds (roundDouble (rating course))) as [H0 H5].
    destruct (divNumber_5_bounds _ H0 H5) as [D0 D1].
    apply mulNumber_100_bounds; assumption.
Qed.


(** ** Sets and counter tables *)

Lemma arr_includes_false (l : list jsstr) (v : jsstr) :
  arr_includes l v = false <-> ~ In v l.
Proof.
  rewrite <- arr_includes_In. destruct (arr_includes l v); split; congruence.
Qed.

(** Only the members of [seen] matter to [uniq]. *)
Lemma uniq_ext (l seen seen' : list jsstr) :
  (forall x, In x seen <-> In x seen') -> uniq seen l = uniq seen' l.
Proof.
  revert seen seen'. induction l as [|x l IH]; intros seen seen' E; [reflexivity |].
  cbn [uniq].
  assert (Ex : arr_includes seen x = arr_includes seen' x).
  { apply bool_eq_iff. rewrite !arr_includes_In. apply E. }
  rewrite Ex. destruct (arr_includes seen' x).
  - apply IH, E.
  - f_equal. apply IH. intros y. simpl. rewrite E. reflexivity.
Qed.

Lemma In_uniq (l seen : list jsstr) (x : jsstr) :
  In x (uniq seen l) <-> In x l /\ ~ In x seen.
Proof.
  revert seen. induction l as [|y l IH]; intros seen; cbn [uniq].
  - simpl. tauto.
  - destruct (arr_includes seen y) eqn:E.
    + apply arr_includes_In in E. rewrite IH. simpl.
      split; [tauto |]. intros [[<- | Hin] Hn]; [contradiction | tauto].
    + apply arr_includes_false in E. simpl. rewrite IH. simpl.
      split.
      * intros [<- | [Hin Hn]]; [tauto |]. split; [tauto |]. tauto.
      * intros [[<- | Hin] Hn]; [tauto |].
        destruct (list_eq_dec N.eq_dec y x) as [-> | Hne]; [tauto |].
        right. split; [exact Hin |]. intros [? | ?]; [congruence | contradiction].
Qed.

Lemma NoDup_uniq (l seen : list jsstr) : NoDup (uniq seen l).
Proof.
  revert seen. induction l as [|y l IH]; intros seen; cbn [uniq]; [constructor |].
  destruct (arr_includes seen y); [apply IH |].
  constructor; [| apply IH].
  rewrite In_uniq. simpl. tauto.
Qed.

(** The keys of a counter table: those it had, then the new ones in
    the order they first come. *)
Lemma tally_keys_one (counts : list (jsstr * nat)) (k : jsstr) :
  List.map fst (tally counts k)
  = if arr_includes (List.map fst counts) k then List.map fst counts
    else List.map fst counts ++ [k].
Proof.
  induction counts as [|[k' n] counts IH]; [reflexivity |].
  cbn [tally List.map fst arr_includes existsb].
  unfold arr_includes in IH.
  destruct (str_eqb k' k); [reflexivity |].
  cbn [orb List.map fst]. rewrite IH.
  destruct (existsb (fun x => str_eqb x k) (List.map fst counts)); reflexivity.
Qed.

Lemma tally_keys (l : list jsstr) (counts : list (jsstr * nat)) :
  List.map fst (fold_left tally l counts)
  = List.map fst counts ++ uniq (List.map fst counts) l.
Proof.
  revert counts. induction l as [|x l IH]; intros counts.
  - simpl. rewrite app_nil_r. reflexivity.
  - cbn [fold_left uniq]. rewrite IH, tally_keys_one.
    destruct (arr_includes (List.map fst counts) x); [reflexivity |].
    rewrite <- app_assoc. cbn [app]. f_equal. f_equal.
    apply uniq_ext. intros y. rewrite in_app_iff. simpl. tauto.
Qed.

Lemma fold_left_flat_map {A B C : Type} (f : C -> B -> C) (g : A -> list B)
    (l : list A) (c : C) :
  fold_left (fun acc a => fold_left f (g a) acc) l c = fold_left f (flat_map g l) c.
Proof.
  revert c. induction l as [|a l IH]; intros c; [reflexivity |].
  cbn [fold_left flat_map]. rewrite fold_left_app. apply IH.
Qed.

Lemma fold_tallyOwn (l : list jsstr) (counts : list (jsstr * nat)) :
  fold_left tallyOwn l counts
  = fold_left tally (filter (fun k => negb (inheritedAccessor k)) l) counts.
Proof.
  revert counts. induction l as [|k l IH]; intros counts; [reflexivity |].
  cbn [fold_left filter]. unfold tallyOwn at 2.
  destruct (inheritedAccessor k); cbn [negb fold_left]; apply IH.
Qed.

(** The keys of the table of domain counts are the domains that get a
    card. *)
Lemma domainCounts_keys (courses : list Course) :
  List.map fst
    (fold_left (fun counts course => fold_left tallyOwn (domains course) counts)
               courses [])
  = cardDomains courses.
Proof.
  rewrite (fold_left_flat_map tallyOwn domains). rewrite fold_tallyOwn, tally_keys.
  reflexivity.
Qed.

Lemma filter_partition_perm {A : Type} (p : A -> bool) (l : list A) :
  Permutation (filter p l ++ filter (fun x => negb (p x)) l) l.
Proof.
  induction l as [|x l IH]; [constructor |].
  simpl. destruct (p x); simpl.
  - constructor. exact IH.
  - eapply perm_trans; [apply Permutation_sym, Permutation_middle |].
    constructor. exact IH.
Qed.

Lemma objectKeys_perm (counts : list (jsstr * nat)) :
  Permutation (objectKeys counts) (List.map fst counts).
Proof.
  unfold objectKeys. cbv zeta.
  eapply perm_trans; [| apply (filter_partition_perm isArrayIndex)].
  apply Permutation_app_tail. apply Permutation_sym, sortWith_perm.
Qed.

Example objectKeys_sample :
  objectKeys [(lit "b", 1); (lit "10", 1); (lit "a", 2); (lit "9", 1); (lit "01", 1)]
  = [lit "9"; lit "10"; lit "b"; lit "a"; lit "01"].
Proof. vm_compute. reflexivity. Qed.

Lemma NoDup_firstn {A : Type} (k : nat) (l : list A) : NoDup l -> NoDup (firstn k l).
Proof.
  intros Hn. revert k. induction Hn as [|x l Hx Hn IH]; intros [|k]; simpl;
    try constructor; auto.
  intros Hin. apply Hx. eapply In_firstn_In. exact Hin.
Qed.

Lemma In_domainSet (courses : list Course) (d : jsstr) :
  In d (domainSet courses) <-> exists c, In c courses /\ In d (domains c).
Proof.
  unfold domainSet. rewrite In_uniq, in_flat_map. simpl. tauto.
Qed.

Lemma In_cardDomains (courses : list Course) (d : jsstr) :
  In d (cardDomains courses)
  <-> d <> lit "__proto__" /\ exists c, In c courses /\ In d (domains c).
Proof.
  unfold cardDomains, inheritedAccessor.
  rewrite In_uniq, filter_In, in_flat_map, negb_true_iff, str_eqb_neq.
  simpl. tauto.
Qed.

Lemma In_toolSet (courses : list Course) (t : jsstr) :
  In t (toolSet courses) <-> exists c, In c courses /\ In t (tools c).
Proof.
  unfold toolSet. rewrite In_uniq, in_flat_map. simpl. tauto.
Qed.

Lemma In_trackSet (courses : list Course) (t : jsstr) :
  In t (trackSet courses) <-> t <> [] /\ exists c, In c courses /\ track c = t.
Proof.
  unfold trackSet. rewrite In_uniq, filter_In, in_map_iff, truthy_true.
  simpl. split.
  - intros [[[c [E Hc]] Ht] _]. split; [exact Ht | exists c; tauto].
  - intros [Ht [c [Hc E]]]. split; [| tauto]. split; [exists c; tauto | exact Ht].
Qed.

(** ** The categories of the landing page *)

Lemma categoryCards_ok (l : list jsstr) :
  (forall d, In d l -> isWellFormed d = true) ->
  exists cards,
    HomePage.categoryCards l = Some cards
    /\ List.map HomePage.heading cards = l
    /\ forall card, In card cards ->
         exists enc icon,
           encodeURIComponent (HomePage.heading card) = Some enc
           /\ HomePage.href card = lit "listing.html?domain=" ++ enc
           /\ HomeJs.getIconForDomain (HomePage.heading card) = Some icon
           /\ HomePage.iconClassName card = lit "fas " ++ icon
           /\ HomePage.description card
              = lit "Explore " ++ HomePage.heading card ++ lit " courses".
Proof.
  induction l as [|d l IH]; intros Hwf.
  - exists []. repeat split. intros card [].
  - destruct IH as [cards [Hc [Hh Hcards]]].
    { intros x Hx. apply Hwf. right; exact Hx. }
    destruct (proj1 (encode_wellFormed d) (Hwf d (or_introl eq_refl))) as [enc He].
    cbn [HomePage.categoryCards]. unfold HomePage.categoryCard. rewrite He, Hc.
    eexists. split; [reflexivity |]. split.
    + cbn [List.map HomePage.heading]. rewrite Hh. reflexivity.
    + intros card [<- | Hin]; [| apply Hcards, Hin].
      cbn [HomePage.heading HomePage.href HomePage.iconClassName HomePage.description].
      assert (Hicon : exists icon, HomeJs.getIconForDomain d = Some icon).
      { unfold HomeJs.getIconForDomain. rewrite charCode_sum.
        apply nth_error_in_range.
        change (length HomeJs.domainIcons) with 15.
        pose proof (N.mod_upper_bound (codeUnitSum d) 15). lia. }
      destruct Hicon as [icon Hicon].
      exists enc, icon. rewrite Hicon. repeat split; try assumption.
Qed.

Lemma categoryCards_None (l : list jsstr) :
  HomePage.categoryCards l = None -> exists d, In d l /\ isWellFormed d = false.
Proof.
  induction l as [|d l IH]; [discriminate |].
  cbn [HomePage.categoryCards]. unfold HomePage.categoryCard.
  destruct (encodeURIComponent d) eqn:He.
  - destruct (HomePage.categoryCards l); [discriminate |].
    intros _. destruct (IH eq_refl) as [x [Hx Hw]]. exists x. split; [right |]; assumption.
  - intros _. exists d. split; [left; reflexivity | apply encode_throws, He].
Qed.

Section Categories.
Context `{JsBuiltins}.

Lemma sortedDomains_perm (courses : list Course) :
Permutation (HomePage.sortedDomains courses) (cardDomains courses).
Proof.
unfold HomePage.sortedDomains. cbv zeta.
eapply perm_trans; [apply Permutation_sym, sortWith_perm |].
eapply perm_trans; [apply objectKeys_perm |].
rewrite domainCounts_keys. apply Permutation_refl.
Qed.

Lemma sortedDomains_length (courses : list Course) :
length (HomePage.sortedDomains courses) = length (cardDomains courses).
Proof. apply Permutation_length, sortedDomains_perm. Qed.

(** What [renderCategoriesHome] leaves on the page. *)
Lemma renderCategoriesHome_spec (courses : list Course) (s : HomePage.State)
  (old : list HomePage.CategoryCard) :
HomePage.categoriesContainer s = Some old ->
(1 <= HomePage.categoriesPageHome s)%Z ->
(forall c d, In c courses -> In d (domains c) -> isWellFormed d = true) ->
let n := length (cardDomains courses) in
let p := HomePage.categoriesPageHome s in
let visible := firstn (Z.to_nat (8 * p)) (HomePage.sortedDomains courses) in
exists cards,
  HomePage.categoryCards visible = Some cards
  /\ HomePage.renderCategoriesHome courses s
     = Some {| HomePage.categoriesPageHome := p;
               HomePage.categoriesContainer := Some cards;
               HomePage.categoriesLoadMoreContainerHome :=
                 match HomePage.categoriesLoadMoreContainerHome s with
                 | None => None
                 | Some _ =>
                     if (8 <? Z.of_nat n)%Z then
                       if (Z.of_nat n <=? 8 * p)%Z
                       then Some [ShowLessBtn] else Some [ShowMoreBtn]
                     else Some []
                 end;
               HomePage.featuredCoursesContainer :=
                 HomePage.featuredCoursesContainer s |}.
Proof.
intros Hold Hp Hwf n p visible.
destruct (categoryCards_ok visible) as [cards [Hc _]].
{ intros d Hd. apply In_firstn_In in Hd.
  apply (Permutation_in _ (sortedDomains_perm courses)) in Hd.
  apply In_cardDomains in Hd. destruct Hd as [_ [c [Hc Hd]]]. eapply Hwf; eassumption. }
exists cards. split; [exact Hc |].
unfold HomePage.renderCategoriesHome. rewrite Hold. cbv zeta.
rewrite sortedDomains_length. fold n. fold p.
unfold HomePage.categoriesPerPageHome.
assert (Ev : jsslice 0 (Z.min (8 * p) (Z.of_nat n)) (HomePage.sortedDomains courses)
             = visible).
{ replace (Z.min (8 * p) (Z.of_nat n))
    with (Z.of_nat (Z.to_nat (Z.min (8 * p) (Z.of_nat n)))) by lia.
  rewrite jsslice_firstn. unfold visible.
  destruct (Z.min_spec (8 * p) (Z.of_nat n)) as [[Hlt ->] | [Hle ->]];
    [reflexivity |].
  rewrite Nat2Z.id.
  rewrite firstn_all2 by (rewrite sortedDomains_length; fold n; lia).
  rewrite firstn_all2 by (rewrite sortedDomains_length; fold n; lia).
  reflexivity. }
rewrite Ev, Hc. reflexivity.
Qed.

(** X6.  On the landing page, when the container exists, the page
  number is at least 1 and no domain name holds a lone surrogate,
  [renderCategoriesHome] shows min (8 * page, n) cards for the n
  distinct domains of the catalog, a domain named [__proto__] not
  counted: no domain twice, each card with the name of a domain of
  some course, its link to the catalog page and its icon; every
  domain but [__proto__] has its card once 8 * page reaches n.
  With at most 8 domains there is no button; otherwise the button is
  'Show Less' exactly when all n cards are shown, 'Show More'
  otherwise.  Without the hypothesis on names the function may throw,
  and then some domain name is not well formed. *)
Theorem category_cards (courses : list Course) (s : HomePage.State)
  (old : list HomePage.CategoryCard) :
HomePage.categoriesContainer s = Some old ->
(1 <= HomePage.categoriesPageHome s)%Z ->
let n := length (cardDomains courses) in
let p := HomePage.categoriesPageHome s in
((forall c d, In c courses -> In d (domains c) -> isWellFormed d = true) ->
 exists s' cards,
   HomePage.renderCategoriesHome courses s = Some s'
   /\ HomePage.categoriesContainer s' = Some cards
   /\ length cards = Nat.min (Z.to_nat (8 * p)) n
   /\ NoDup (List.map HomePage.heading cards)
   /\ (forall card, In card cards ->
         (HomePage.heading card <> lit "__proto__"
          /\ exists c, In c courses /\ In (HomePage.heading card) (domains c))
         /\ exists enc icon,
              encodeURIComponent (HomePage.heading card) = Some enc
              /\ HomePage.href card = lit "listing.html?domain=" ++ enc
              /\ HomeJs.getIconForDomain (HomePage.heading card) = Some icon
              /\ HomePage.iconClassName card = lit "fas " ++ icon)
   /\ ((Z.of_nat n <= 8 * p)%Z ->
       forall c d, In c courses -> In d (domains c) -> d <> lit "__proto__" ->
                   In d (List.map HomePage.heading cards))
   /\ (forall kids, HomePage.categoriesLoadMoreContainerHome s' = Some kids ->
         kids = if (Z.of_nat n <=? 8)%Z then []
                else if (Z.of_nat n <=? 8 * p)%Z then [ShowLessBtn]
                     else [ShowMoreBtn]))
/\ (HomePage.renderCategoriesHome courses s = None ->
    exists c d, In c courses /\ In d (domains c) /\ isWellFormed d = false).
Proof.
intros Hold Hp n p. split.
- intros Hwf.
  destruct (renderCategoriesHome_spec courses s old Hold Hp Hwf)
    as [cards [Hc Hr]].
  fold n in Hr. fold p in Hr.
  destruct (categoryCards_ok
              (firstn (Z.to_nat (8 * p)) (HomePage.sortedDomains courses)))
    as [cards' [Hc' [Hh Hcards]]].
  { intros d Hd. apply In_firstn_In in Hd.
    apply (Permutation_in _ (sortedDomains_perm courses)) in Hd.
    apply In_cardDomains in Hd. destruct Hd as [_ [c [Hcc Hd]]]. eapply Hwf; eassumption. }
  fold p in Hc. rewrite Hc in Hc'. injection Hc' as <-.
  eexists. exists cards. split; [exact Hr |].
  cbn [HomePage.categoriesContainer HomePage.categoriesLoadMoreContainerHome].
  split; [reflexivity |].
  split.
  { rewrite <- (length_map HomePage.heading), Hh, length_firstn,
      sortedDomains_length. reflexivity. }
  split.
  { rewrite Hh. apply NoDup_firstn.
    apply (Permutation_NoDup (Permutation_sym (sortedDomains_perm courses))).
    apply NoDup_uniq. }
  split.
  { intros card Hin. split; [| destruct (Hcards card Hin) as (enc & icon & H1 & H2 & H3 & H4 & _);
                               exists enc, icon; repeat split; assumption].
    apply (In_cardDomains courses).
    apply (Permutation_in _ (sortedDomains_perm courses)).
    apply (In_firstn_In (Z.to_nat (8 * p))). rewrite <- Hh.
    apply in_map. exact Hin. }
  split.
  { intros Hall c d Hcc Hd Hown. rewrite Hh.
    rewrite firstn_all2 by (rewrite sortedDomains_length; fold n; lia).
    apply (Permutation_in _ (Permutation_sym (sortedDomains_perm courses))).
    apply In_cardDomains. split; [exact Hown |]. exists c. split; assumption. }
  intros kids.
  destruct (HomePage.categoriesLoadMoreContainerHome s); [| discriminate].
  destruct (Z.ltb_spec 8 (Z.of_nat n)), (Z.leb_spec (Z.of_nat n) 8); try lia;
    [destruct (Z.of_nat n <=? 8 * p)%Z |]; intros [= <-]; reflexivity.
- unfold HomePage.renderCategoriesHome. rewrite Hold. cbv zeta.
  destruct (HomePage.categoryCards _) eqn:Hc; [discriminate |]. intros _.
  apply categoryCards_None in Hc. destruct Hc as [d [Hd Hw]].
  unfold jsslice in Hd. apply In_firstn_In, In_skipn_In in Hd.
  apply (Permutation_in _ (sortedDomains_perm courses)) in Hd.
  apply In_cardDomains in Hd. destruct Hd as [_ [c [Hcc Hd]]].
  exists c, d. repeat split; assumption.
Qed.
End Categories.

Lemma firstn_le_app {A : Type} (k k' : nat) (l : list A) :
  k <= k' -> exists r, firstn k' l = firstn k l ++ r.
Proof.
  revert k k'. induction l as [|x l IH]; intros k k' Hle.
  - exists []. rewrite !firstn_nil. reflexivity.
  - destruct k as [|k].
    + exists (firstn k' (x :: l)). reflexivity.
    + destruct k' as [|k']; [lia |].
      destruct (IH k k') as [r Hr]; [lia |].
      exists r. simpl. rewrite Hr. reflexivity.
Qed.

Lemma categoryCards_app (a b : list jsstr) (cards : list HomePage.CategoryCard) :
  HomePage.categoryCards (a ++ b) = Some cards ->
  exists ca cb, HomePage.categoryCards a = Some ca /\ cards = ca ++ cb.
Proof.
  revert cards. induction a as [|d a IH]; intros cards.
  - intros _. exists [], cards. split; reflexivity.
  - cbn [app HomePage.categoryCards].
    destruct (HomePage.categoryCard d) as [card|]; [| discriminate].
    destruct (HomePage.categoryCards (a ++ b)) as [rest|] eqn:E; [| discriminate].
    intros [= <-]. destruct (IH rest eq_refl) as [ca [cb [Ha ->]]].
    rewrite Ha. exists (card :: ca), cb. split; reflexivity.
Qed.

Section CategoryPaging.
Context `{JsBuiltins}.

(** X7.  The two buttons of the categories of the landing page.  When
  'Show More' is shown, a click on it moves to the next page: the
  cards already shown stay where they are and between one and eight
  cards are added.  When 'Show Less' is shown, every domain that
  gets a card has it, and a click brings the page back to its first
  eight cards and to 'Show More'. *)
Theorem category_paging (courses : list Course) (s : HomePage.State)
  (old : list HomePage.CategoryCard) (oldb : list Button) :
HomePage.categoriesContainer s = Some old ->
HomePage.categoriesLoadMoreContainerHome s = Some oldb ->
(1 <= HomePage.categoriesPageHome s)%Z ->
(forall c d, In c courses -> In d (domains c) -> isWellFormed d = true) ->
exists s1 cards1,
  HomePage.renderCategoriesHome courses s = Some s1
  /\ HomePage.categoriesContainer s1 = Some cards1
  /\ (HomePage.categoriesLoadMoreContainerHome s1 = Some [ShowMoreBtn] ->
      exists s2 cards2,
        HomePage.clickShowMore courses s1 = Some s2
        /\ HomePage.categoriesContainer s2 = Some cards2
        /\ HomePage.categoriesPageHome s2 = (HomePage.categoriesPageHome s + 1)%Z
        /\ length cards1 < length cards2 <= length cards1 + 8
        /\ firstn (length cards1) cards2 = cards1)
  /\ (HomePage.categoriesLoadMoreContainerHome s1 = Some [ShowLessBtn] ->
      length cards1 = length (cardDomains courses)
      /\ exists s2 cards2,
           HomePage.clickShowLess courses s1 = Some s2
           /\ HomePage.categoriesContainer s2 = Some cards2
           /\ HomePage.categoriesPageHome s2 = 1%Z
           /\ length cards2 = 8
           /\ HomePage.categoriesLoadMoreContainerHome s2 = Some [ShowMoreBtn]).
Proof.
intros Hold Holdb Hp Hwf.
set (n := length (cardDomains courses)).
set (p := HomePage.categoriesPageHome s).
destruct (renderCategoriesHome_spec courses s old Hold Hp Hwf) as [cards1 [Hc1 Hr1]].
fold n in Hr1. fold p in Hr1, Hc1. rewrite Holdb in Hr1.
assert (Hlen : forall k cards,
           HomePage.categoryCards (firstn k (HomePage.sortedDomains courses))
           = Some cards -> length cards = Nat.min k n).
{ intros k cards Hc.
  destruct (categoryCards_ok (firstn k (HomePage.sortedDomains courses)))
    as [cards' [Hc' [Hh _]]].
  { intros d Hd. apply In_firstn_In in Hd.
    apply (Permutation_in _ (sortedDomains_perm courses)) in Hd.
    apply In_cardDomains in Hd. destruct Hd as [_ [c [Hcc Hd]]]. eapply Hwf; eassumption. }
  rewrite Hc in Hc'. injection Hc' as <-.
  rewrite <- (length_map HomePage.heading), Hh, length_firstn, sortedDomains_length.
  reflexivity. }
pose proof (Hlen _ _ Hc1) as Hl1.
eexists. exists cards1. split; [exact Hr1 |].
cbn [HomePage.categoriesContainer HomePage.categoriesLoadMoreContainerHome].
split; [reflexivity |]. split.
- (* Show More *)
  intros Hbtn.
  assert (Hmore : (8 < Z.of_nat n)%Z /\ (8 * p < Z.of_nat n)%Z).
  { destruct (Z.ltb_spec 8 (Z.of_nat n)); [| discriminate].
    destruct (Z.leb_spec (Z.of_nat n) (8 * p)); [discriminate |]. lia. }
  set (s1 := {| HomePage.categoriesPageHome := p;
                HomePage.categoriesContainer := Some cards1;
                HomePage.categoriesLoadMoreContainerHome := Some [ShowMoreBtn];
                HomePage.featuredCoursesContainer := HomePage.featuredCoursesContainer s |}).
  destruct (renderCategoriesHome_spec courses
              (HomePage.setCategoriesPage (p + 1) s1) cards1 eq_refl)
    as [cards2 [Hc2 Hr2]];
    [cbn [HomePage.setCategoriesPage HomePage.categoriesPageHome]; lia | exact Hwf |].
  cbn [HomePage.setCategoriesPage HomePage.categoriesPageHome
       HomePage.categoriesLoadMoreContainerHome] in Hc2, Hr2.
  pose proof (Hlen _ _ Hc2) as Hl2.
  destruct (Z.ltb_spec 8 (Z.of_nat n)); [| lia].
  destruct (Z.leb_spec (Z.of_nat n) (8 * p)); [lia |].
  eexists. exists cards2. unfold HomePage.clickShowMore.
  split; [exact Hr2 |].
  cbn [HomePage.categoriesContainer HomePage.categoriesPageHome].
  split; [reflexivity |]. split; [reflexivity |]. split; [lia |].
  destruct (firstn_le_app (Z.to_nat (8 * p)) (Z.to_nat (8 * (p + 1)))
              (HomePage.sortedDomains courses)) as [r Hr]; [lia |].
  rewrite Hr in Hc2. apply categoryCards_app in Hc2.
  destruct Hc2 as [ca [cb [Ha ->]]]. rewrite Hc1 in Ha. injection Ha as <-.
  rewrite firstn_app, Nat.sub_diag, firstn_all. cbn [firstn].
  apply app_nil_r.
- (* Show Less *)
  intros Hbtn.
  assert (Hless : (8 < Z.of_nat n)%Z /\ (Z.of_nat n <= 8 * p)%Z).
  { destruct (Z.ltb_spec 8 (Z.of_nat n)); [| discriminate].
    destruct (Z.leb_spec (Z.of_nat n) (8 * p)); [lia | discriminate]. }
  split; [fold n; lia |].
  set (s1 := {| HomePage.categoriesPageHome := p;
                HomePage.categoriesContainer := Some cards1;
                HomePage.categoriesLoadMoreContainerHome := Some [ShowLessBtn];
                HomePage.featuredCoursesContainer := HomePage.featuredCoursesContainer s |}).
  destruct (renderCategoriesHome_spec courses
              (HomePage.setCategoriesPage 1 s1) cards1 eq_refl)
    as [cards2 [Hc2 Hr2]];
    [cbn [HomePage.setCategoriesPage HomePage.categoriesPageHome]; lia | exact Hwf |].
  cbn [HomePage.setCategoriesPage HomePage.categoriesPageHome
       HomePage.categoriesLoadMoreContainerHome] in Hc2, Hr2.
  pose proof (Hlen _ _ Hc2) as Hl2.
  destruct (Z.ltb_spec 8 (Z.of_nat n)); [| lia].
  destruct (Z.leb_spec (Z.of_nat n) (8 * p)); [| lia].
  eexists. exists cards2. unfold HomePage.clickShowLess.
  fold n in Hr2.
  destruct (Z.ltb_spec 8 (Z.of_nat n)); [| lia].
  destruct (Z.leb_spec (Z.of_nat n) (8 * 1)); [lia |].
  split; [exact Hr2 |].
  cbn [HomePage.categoriesContainer HomePage.categoriesPageHome
       HomePage.categoriesLoadMoreContainerHome].
  split; [reflexivity |]. split; [reflexivity |]. split; [| reflexivity].
  rewrite Hl2. change (Z.to_nat (8 * 1)) with 8. lia.
Qed.
End CategoryPaging.

(** ** The options of the filters *)

Lemma codeUnitCompare_eq (a b : jsstr) : codeUnitCompare a b = 0%Z -> a = b.
Proof.
  revert b; induction a as [|x a IH]; intros [|y b]; simpl; try discriminate;
    [reflexivity |].
  destruct (N.compare_spec x y); try discriminate.
  intros E. subst. f_equal. apply IH, E.
Qed.

Lemma sortDefault_sorted (l : list jsstr) :
  StronglySorted (fun a b => (codeUnitCompare a b <= 0)%Z) (sortDefault l).
Proof.
  unfold sortDefault.
  assert (E : forall a b,
             before (fun a b => inject_Z (codeUnitCompare a b)) a b = true
             <-> (codeUnitCompare a b <= 0)%Z).
  { intros a b. unfold before. rewrite Qle_bool_iff.
    change 0%Q with (inject_Z 0). rewrite <- Zle_Qle. reflexivity. }
  eapply StronglySorted_impl; [intros a b; apply E |].
  apply sortWith_sorted.
  - intros a b Hab. apply E.
    destruct (Z_le_gt_dec (codeUnitCompare a b) 0) as [Hle | Hgt].
    + apply E in Hle. congruence.
    + apply codeUnitCompare_total. lia.
  - intros a b c Hab Hbc. apply E. apply E in Hab. apply E in Hbc.
    eapply codeUnitCompare_trans; eassumption.
Qed.

Lemma sortDefault_In (l : list jsstr) (x : jsstr) : In x (sortDefault l) <-> In x l.
Proof. apply sortWith_In. Qed.

Lemma sortDefault_ascending (l : list jsstr) : NoDup l -> ascending (sortDefault l).
Proof.
  intros Hn.
  assert (Hn' : NoDup (sortDefault l)).
  { apply (Permutation_NoDup (sortWith_perm _ l)). exact Hn. }
  pose proof (sortDefault_sorted l) as Hs. unfold ascending.
  induction Hs as [|x r Hs IH Hx]; constructor.
  - apply IH. inversion Hn'; assumption.
  - inversion Hn' as [|? ? Hnx Hnr]; subst.
    rewrite Forall_forall in *. intros y Hy.
    pose proof (Hx y Hy) as Hle.
    destruct (Z.eq_dec (codeUnitCompare x y) 0) as [E | E]; [| lia].
    apply codeUnitCompare_eq in E. subst. contradiction.
Qed.

Lemma populated_sets (courses : list Course) :
  populated courses (trackSet courses) (sortDefault (domainSet courses))
            (sortDefault (toolSet courses)).
Proof.
  unfold populated. split; [| split; [| split; [| split; [| split]]]].
  - apply NoDup_uniq.
  - intros x. apply In_trackSet.
  - apply sortDefault_ascending, NoDup_uniq.
  - intros x. rewrite sortDefault_In. apply In_domainSet.
  - apply sortDefault_ascending, NoDup_uniq.
  - intros x. rewrite sortDefault_In. apply In_toolSet.
Qed.

Lemma value_set_selected (b : bool) (o : OptionEl) : value (set_selected b o) = value o.
Proof. reflexivity. Qed.

Lemma values_selectFirstEnabled (sel : SelectEl) :
  List.map value (selectFirstEnabled sel) = List.map value sel.
Proof.
  induction sel as [|o sel IH]; [reflexivity |].
  cbn [selectFirstEnabled]. destruct (disabled o); cbn [List.map]; [| reflexivity].
  rewrite IH. reflexivity.
Qed.

Lemma values_deselectButLast (sel : SelectEl) :
  List.map value (deselectButLast sel) = List.map value sel.
Proof.
  induction sel as [|o sel IH]; [reflexivity |].
  cbn [deselectButLast List.map]. rewrite IH.
  destruct (selected o && existsb selected sel); reflexivity.
Qed.

Lemma values_selectednessSetting (sel : SelectEl) :
  List.map value (selectednessSetting sel) = List.map value sel.
Proof.
  unfold selectednessSetting. destruct (existsb selected sel);
    [apply values_deselectButLast | apply values_selectFirstEnabled].
Qed.

Lemma values_appendOption (opts : list OptionEl) (sel : SelectEl) :
  List.map value (fold_left appendOption opts sel)
  = List.map value sel ++ List.map value opts.
Proof.
  revert sel. induction opts as [|o opts IH]; intros sel.
  - simpl. rewrite app_nil_r. reflexivity.
  - cbn [fold_left]. rewrite IH. unfold appendOption.
    rewrite values_selectednessSetting, map_app, <- app_assoc. reflexivity.
Qed.

Lemma fold_appendOptionMultiple (opts : list OptionEl) (sel : SelectEl) :
  fold_left appendOptionMultiple opts sel = sel ++ opts.
Proof.
  revert sel. induction opts as [|o opts IH]; intros sel.
  - simpl. rewrite app_nil_r. reflexivity.
  - cbn [fold_left]. rewrite IH. unfold appendOptionMultiple.
    rewrite <- app_assoc. reflexivity.
Qed.

Lemma values_newOption (l : list jsstr) : List.map value (List.map newOption l) = l.
Proof. rewrite map_map. apply map_id. Qed.

Lemma values_deselect_all (sel : SelectEl) :
  List.map value (List.map (set_selected false) sel) = List.map value sel.
Proof. rewrite map_map. reflexivity. Qed.

Lemma selectedOptions_deselect_all (sel : SelectEl) :
  selectedOptions (List.map (set_selected false) sel) = [].
Proof.
  unfold selectedOptions. induction sel as [|o sel IH]; [reflexivity |].
  simpl. exact IH.
Qed.

Section Populate.
Context `{JsBuiltins}.

(** X8.  [populateFilters] keeps the options that the page has and
  adds, after them, one option per value of the catalog: to the track
  filter the non-empty tracks, each once; to the domain filter and to
  the tool filter the domains and the tools of the courses, each once
  and in the order of the default [sort].  The level filter is not
  touched on the home page.  On the catalog page every option of the
  four filters ends up deselected. *)
Theorem populateFilters_options (si : Index.State) (sl : Listing.State) :
(exists ts ds tls,
    List.map value (Index.trackFilter (Index.ctl (IndexUi.populateFilters si)))
    = List.map value (Index.trackFilter (Index.ctl si)) ++ ts
    /\ List.map value (Index.domainFilter (Index.ctl (IndexUi.populateFilters si)))
       = List.map value (Index.domainFilter (Index.ctl si)) ++ ds
    /\ List.map value (Index.toolFilter (Index.ctl (IndexUi.populateFilters si)))
       = List.map value (Index.toolFilter (Index.ctl si)) ++ tls
    /\ Index.levelFilter (Index.ctl (IndexUi.populateFilters si))
       = Index.levelFilter (Index.ctl si)
    /\ populated (index_courses si) ts ds tls)
/\ (exists ts ds tls,
      let c' := Listing.ctl (ListingUi.populateFilters sl) in
      List.map value (Listing.trackFilter c')
      = List.map value (Listing.trackFilter (Listing.ctl sl)) ++ ts
      /\ List.map value (Listing.domainFilter c')
         = List.map value (Listing.domainFilter (Listing.ctl sl)) ++ ds
      /\ List.map value (Listing.toolFilter c')
         = List.map value (Listing.toolFilter (Listing.ctl sl)) ++ tls
      /\ List.map value (Listing.levelFilter c')
         = List.map value (Listing.levelFilter (Listing.ctl sl))
      /\ populated (listing_courses sl) ts ds tls
      /\ selectedOptions (Listing.trackFilter c') = []
      /\ selectedOptions (Listing.domainFilter c') = []
      /\ selectedOptions (Listing.toolFilter c') = []
      /\ selectedOptions (Listing.levelFilter c') = []).
Proof.
split.
- exists (trackSet (index_courses si)), (sortDefault (domainSet (index_courses si))),
         (sortDefault (toolSet (index_courses si))).
  unfold IndexUi.populateFilters, Index.setControls.
  cbn [Index.ctl Index.trackFilter Index.domainFilter Index.toolFilter
       Index.levelFilter].
  rewrite !values_appendOption, !values_newOption.
  split; [reflexivity |]. split; [reflexivity |]. split; [reflexivity |].
  split; [reflexivity |]. apply populated_sets.
- exists (trackSet (listing_courses sl)),
         (sortDefault (domainSet (listing_courses sl))),
         (sortDefault (toolSet (listing_courses sl))).
  cbv zeta. unfold ListingUi.populateFilters, Listing.setControls.
  cbn [Listing.ctl Listing.trackFilter Listing.domainFilter Listing.toolFilter
       Listing.levelFilter].
  rewrite !selectedOptions_deselect_all.
  rewrite !values_deselect_all, !fold_appendOptionMultiple, !map_app,
    !values_newOption.
  split; [reflexivity |]. split; [reflexivity |]. split; [reflexivity |].
  split; [reflexivity |]. split; [apply populated_sets |].
  repeat split; reflexivity.
Qed.
End Populate.

(** ** The home page after [init] *)

Lemma selectedOptions_app (a b : SelectEl) :
  selectedOptions (a ++ b) = selectedOptions a ++ selectedOptions b.
Proof. unfold selectedOptions. apply filter_app. Qed.

Lemma existsb_selected (sel : SelectEl) :
  existsb selected sel = true <-> selectedOptions sel <> [].
Proof.
  unfold selectedOptions. induction sel as [|o sel IH]; simpl.
  - split; [discriminate | congruence].
  - destruct (selected o); simpl; [split; [discriminate | reflexivity] | exact IH].
Qed.

Lemma deselectButLast_selected (sel : SelectEl) (o : OptionEl) :
  In o (selectedOptions (deselectButLast sel)) -> In o (selectedOptions sel).
Proof.
  unfold selectedOptions. induction sel as [|a sel IH]; [simpl; tauto |].
  cbn [deselectButLast filter].
  destruct (selected a) eqn:Ea; cbn [andb].
  - destruct (existsb selected sel); cbn [set_selected selected].
    + intros Hin. right. apply IH, Hin.
    + rewrite Ea. intros [<- | Hin]; [left; reflexivity | right; apply IH, Hin].
  - rewrite Ea. exact IH.
Qed.

Lemma deselectButLast_some (sel : SelectEl) :
  existsb selected sel = true -> existsb selected (deselectButLast sel) = true.
Proof.
  induction sel as [|a sel IH]; [discriminate |].
  cbn [deselectButLast existsb].
  destruct (selected a) eqn:Ea; cbn [andb orb].
  - destruct (existsb selected sel) eqn:Es; cbn [set_selected selected orb].
    + intros _. apply IH. reflexivity.
    + rewrite Ea. reflexivity.
  - rewrite Ea. cbn [orb]. exact IH.
Qed.

(** Adding an option that is not selected leaves an unset drop-down
    unset. *)
Lemma unset_appendOption (sel : SelectEl) (o : OptionEl) :
  selected o = false -> unset sel -> unset (appendOption sel o).
Proof.
  intros Ho [Hne Hall]. unfold appendOption, selectednessSetting.
  assert (Es : selectedOptions (sel ++ [o]) = selectedOptions sel).
  { rewrite selectedOptions_app. unfold selectedOptions at 2. simpl.
    rewrite Ho. apply app_nil_r. }
  assert (Ee : existsb selected (sel ++ [o]) = true).
  { apply existsb_selected. rewrite Es. exact Hne. }
  rewrite Ee. split.
  - apply existsb_selected, deselectButLast_some, Ee.
  - intros x Hx. apply deselectButLast_selected in Hx. rewrite Es in Hx.
    apply Hall, Hx.
Qed.

Lemma unset_populated (l : list jsstr) (sel : SelectEl) :
  unset sel -> unset (fold_left appendOption (List.map newOption l) sel).
Proof.
  revert sel. induction l as [|x l IH]; intros sel Hu; [exact Hu |].
  cbn [List.map fold_left]. apply IH. apply unset_appendOption; [reflexivity | exact Hu].
Qed.

Lemma unset_value (sel : SelectEl) : unset sel -> select_value sel = [].
Proof.
  intros [Hne Hall]. unfold select_value.
  destruct (selectedOptions sel) as [|o r]; [contradiction |].
  apply Hall. left; reflexivity.
Qed.

Lemma relabel_relabel (lbl lbl' : jsstr) (cnt cnt' : jsstr -> nat) (o : OptionEl) :
  relabel lbl cnt (relabel lbl' cnt' o) = relabel lbl cnt o.
Proof.
  unfold relabel. destruct (negb (truthy (value o))) eqn:E; cbn [value selected];
    rewrite E; reflexivity.
Qed.

Lemma map_relabel_relabel (lbl lbl' : jsstr) (cnt cnt' : jsstr -> nat) (sel : SelectEl) :
  List.map (relabel lbl cnt) (List.map (relabel lbl' cnt') sel)
  = List.map (relabel lbl cnt) sel.
Proof.
  rewrite map_map. apply map_ext. intros o. apply relabel_relabel.
Qed.

Lemma filter_nonempty {A : Type} (p : A -> bool) (l : list A) (x : A) :
  In x l -> p x = true -> length (filter p l) <> 0.
Proof.
  intros Hin Hp. assert (Hf : In x (filter p l)) by (apply filter_In; auto).
  destruct (filter p l); [contradiction | discriminate].
Qed.

Section IndexInit.
Context `{JsBuiltins}.

(** With no search term and no facet chosen, a course is kept when it
  has the examined value. *)
Lemma keepCourse_track_only (v : jsstr) (c : Course) :
v <> [] -> Index.keepCourse [] v [] [] [] c = str_eqb (track c) v.
Proof.
intros Hv. apply truthy_true in Hv. unfold Index.keepCourse. rewrite Hv.
cbn [truthy andb]. destruct (str_eqb (track c) v); reflexivity.
Qed.

Lemma keepCourse_domain_only (v : jsstr) (c : Course) :
v <> [] -> Index.keepCourse [] [] v [] [] c = arr_includes (domains c) v.
Proof.
intros Hv. apply truthy_true in Hv. unfold Index.keepCourse. rewrite Hv.
cbn [truthy andb]. destruct (arr_includes (domains c) v); reflexivity.
Qed.

Lemma keepCourse_tool_only (v : jsstr) (c : Course) :
v <> [] -> Index.keepCourse [] [] [] v [] c = arr_includes (tools c) v.
Proof.
intros Hv. apply truthy_true in Hv. unfold Index.keepCourse. rewrite Hv.
cbn [truthy andb]. destruct (arr_includes (tools c) v); reflexivity.
Qed.

Lemma keepCourse_level_only (v : jsstr) (c : Course) :
v <> [] -> Index.keepCourse [] [] [] [] v c = str_eqb (level c) v.
Proof.
intros Hv. apply truthy_true in Hv. unfold Index.keepCourse. rewrite Hv.
cbn [truthy andb]. destruct (str_eqb (level c) v); reflexivity.
Qed.

Lemma keepCourse_none (c : Course) : Index.keepCourse [] [] [] [] [] c = true.
Proof. reflexivity. Qed.

(** The controls that [applyFilters] leaves: those it found, with the
  options relabelled by [updateFilterCounts]. *)
Lemma index_applyFilters_ctl (s : Index.State) :
index_allocated s ->
index_courses s <> [] ->
let cs := index_courses s in
let c := Index.ctl s in
let term := toLowerCase (trim (Index.searchInput c)) in
let t := select_value (Index.trackFilter c) in
let d := select_value (Index.domainFilter c) in
let tl := select_value (Index.toolFilter c) in
let lv := select_value (Index.levelFilter c) in
exists ct cd ctl cl,
  Index.ctl (Index.applyFilters s)
  = {| Index.searchInput := Index.searchInput c;
       Index.trackFilter := List.map (relabel (lit "All Tracks") ct) (Index.trackFilter c);
       Index.domainFilter := List.map (relabel (lit "All Domains") cd) (Index.domainFilter c);
       Index.toolFilter := List.map (relabel (lit "All Tools") ctl) (Index.toolFilter c);
       Index.levelFilter := List.map (relabel (lit "All Levels") cl) (Index.levelFilter c);
       Index.sortBySelect := Index.sortBySelect c |}
  /\ (forall v, v <> [] -> ct v = length (filter (Index.keepCourse term v d tl lv) cs))
  /\ (forall v, v <> [] -> cd v = length (filter (Index.keepCourse term t v tl lv) cs))
  /\ (forall v, v <> [] -> ctl v = length (filter (Index.keepCourse term t d v lv) cs))
  /\ (forall v, v <> [] -> cl v = length (filter (Index.keepCourse term t d tl v) cs)).
Proof.
intros Ha Hne. cbv zeta.
pose proof (index_applyFilters_keeps s Ha) as (_ & _ & Hcs).
unfold index_courses in Hcs at 1. rewrite index_applyFilters_vars in Hcs.
cbv zeta in Hcs. cbn [Index.heap Index.courses] in Hcs.
unfold Index.applyFilters, arr_filter, alloc. cbv beta iota zeta.
rewrite index_updateActiveFilters_ctl.
match goal with
| |- context [Index.updateFilterCounts ?m] => set (mid := m)
end.
assert (Emid : index_courses mid = index_courses s).
{ unfold index_courses, mid. rewrite index_renderCourses_vars.
  cbn [Index.vars Index.heap Index.courses].
  unfold alloc in Hcs. cbn [fst snd] in Hcs. exact Hcs. }
assert (Ectl : Index.ctl mid = Index.ctl s) by reflexivity.
destruct (index_updateFilterCounts_ctl mid) as (ct & cd & ctl & cl & E & Hc);
  [rewrite Emid; exact Hne |].
rewrite Emid, Ectl in *.
exists ct, cd, ctl, cl. split; [exact E | exact Hc].
Qed.
End IndexInit.

Section IndexInitTheorem.
Context `{JsBuiltins}.

Lemma index_renderCategories_ctl (s : Index.State) :
Index.ctl (Index.renderCategories s) = Index.ctl s.
Proof.
unfold Index.renderCategories.
destruct (Index.categoriesContainer (Index.doc s)); reflexivity.
Qed.

Lemma index_renderFeaturedCourses_ctl (s : Index.State) :
Index.ctl (Index.renderFeaturedCourses s) = Index.ctl s.
Proof.
unfold Index.renderFeaturedCourses.
destruct (Index.featuredCoursesContainer (Index.doc s)); reflexivity.
Qed.

(** The state in which [init] calls [applyFilters]. *)
Lemma index_before_applyFilters (s : Index.State) :
index_allocated s ->
let s4 := Index.renderFeaturedCourses
            (Index.renderCategories
               (Index.updateFilterCounts (IndexUi.populateFilters s))) in
index_allocated s4
/\ index_courses s4 = index_courses s
/\ Index.ctl s4 = Index.ctl (Index.updateFilterCounts (IndexUi.populateFilters s)).
Proof.
intros Ha. cbv zeta.
assert (H1 : index_allocated (IndexUi.populateFilters s)
             /\ index_courses (IndexUi.populateFilters s) = index_courses s)
  by (split; [exact Ha | reflexivity]).
destruct H1 as [Ha1 Hc1].
destruct (index_run_keeps IUpdateFilterCounts _ Ha1) as (Ha2 & _ & Hc2).
destruct (index_run_keeps IRenderCategories _ Ha2) as (Ha3 & _ & Hc3).
destruct (index_run_keeps IRenderFeaturedCourses _ Ha3) as (Ha4 & _ & Hc4).
cbn [index_run] in *.
split; [exact Ha4 |]. split; [congruence |].
rewrite index_renderFeaturedCourses_ctl, index_renderCategories_ctl. reflexivity.
Qed.

(** The page that the steps of [init] leave, for a catalog that is
  not empty, an empty search box and drop-downs on their empty
  option. *)
Lemma initSteps_home (s : Index.State) :
index_allocated s ->
index_courses s <> [] ->
searchTermOf (Index.searchInput (Index.ctl s)) = [] ->
unset (Index.trackFilter (Index.ctl s)) ->
unset (Index.domainFilter (Index.ctl s)) ->
unset (Index.toolFilter (Index.ctl s)) ->
unset (Index.levelFilter (Index.ctl s)) ->
counted (index_courses s) (Index.ctl (IndexUi.initSteps s))
/\ Permutation (index_filtered (IndexUi.initSteps s)) (index_courses s)
/\ index_courses (IndexUi.initSteps s) = index_courses s.
Proof.
intros Ha Hne Hterm Ht Hd Htl Hl.
set (cs := index_courses s).
set (s1 := IndexUi.populateFilters s).
destruct (index_before_applyFilters s Ha) as (Ha4 & Hc4 & Ectl4).
fold s1 in Ha4, Hc4, Ectl4. fold cs in Hc4.
set (s4 := Index.renderFeaturedCourses
             (Index.renderCategories (Index.updateFilterCounts s1))) in *.
change (IndexUi.initSteps s) with (Index.applyFilters s4).
(* the controls after [populateFilters] *)
assert (Vt : select_value (Index.trackFilter (Index.ctl s1)) = [])
  by (apply unset_value, unset_populated, Ht).
assert (Vd : select_value (Index.domainFilter (Index.ctl s1)) = [])
  by (apply unset_value, unset_populated, Hd).
assert (Vtl : select_value (Index.toolFilter (Index.ctl s1)) = [])
  by (apply unset_value, unset_populated, Htl).
assert (Vl : select_value (Index.levelFilter (Index.ctl s1)) = [])
  by (apply unset_value, Hl).
assert (Vs : toLowerCase (trim (Index.searchInput (Index.ctl s1))) = [])
  by exact Hterm.
destruct (index_updateFilterCounts_ctl s1) as (a1 & a2 & a3 & a4 & E2 & _);
  [exact Hne |].
rewrite E2 in Ectl4.
destruct (index_applyFilters_ctl s4 Ha4) as (ct & cd & ctl & cl & E & Hct & Hcd & Hctl & Hcl);
  [rewrite Hc4; exact Hne |].
rewrite Hc4 in Hct, Hcd, Hctl, Hcl.
rewrite Ectl4 in E, Hct, Hcd, Hctl, Hcl.
cbn [Index.searchInput Index.trackFilter Index.domainFilter Index.toolFilter
     Index.levelFilter Index.sortBySelect] in E, Hct, Hcd, Hctl, Hcl.
rewrite !select_value_relabel in Hct, Hcd, Hctl, Hcl.
rewrite Vd, Vtl, Vl, Vs in Hct. rewrite Vt, Vtl, Vl, Vs in Hcd.
rewrite Vt, Vd, Vl, Vs in Hctl. rewrite Vt, Vd, Vtl, Vs in Hcl.
rewrite !map_relabel_relabel in E.
assert (Lt : labelled (Index.trackFilter (Index.ctl (Index.applyFilters s4)))
               (fun v => length (filter (fun c => str_eqb (track c) v) cs))).
{ rewrite E. cbn [Index.trackFilter]. apply labelled_relabel.
  intros o Ho Hv. rewrite (Hct _ Hv). f_equal. apply filter_ext.
  intros c. apply keepCourse_track_only, Hv. }
assert (Ld : labelled (Index.domainFilter (Index.ctl (Index.applyFilters s4)))
               (fun v => length (filter (fun c => arr_includes (domains c) v) cs))).
{ rewrite E. cbn [Index.domainFilter]. apply labelled_relabel.
  intros o Ho Hv. rewrite (Hcd _ Hv). f_equal. apply filter_ext.
  intros c. apply keepCourse_domain_only, Hv. }
assert (Ltl : labelled (Index.toolFilter (Index.ctl (Index.applyFilters s4)))
                (fun v => length (filter (fun c => arr_includes (tools c) v) cs))).
{ rewrite E. cbn [Index.toolFilter]. apply labelled_relabel.
  intros o Ho Hv. rewrite (Hctl _ Hv). f_equal. apply filter_ext.
  intros c. apply keepCourse_tool_only, Hv. }
assert (Ll : labelled (Index.levelFilter (Index.ctl (Index.applyFilters s4)))
               (fun v => length (filter (fun c => str_eqb (level c) v) cs))).
{ rewrite E. cbn [Index.levelFilter]. apply labelled_relabel.
  intros o Ho Hv. rewrite (Hcl _ Hv). f_equal. apply filter_ext.
  intros c. apply keepCourse_level_only, Hv. }
(* an option for every value *)
assert (Hopt : forall (sel : SelectEl) (l : list jsstr) lbl cnt x,
           In x l ->
           exists o, In o (List.map (relabel lbl cnt)
                             (fold_left appendOption (List.map newOption l) sel))
                     /\ value o = x).
{ intros sel l lbl cnt x Hx.
  assert (Hv : In x (List.map value
                       (fold_left appendOption (List.map newOption l) sel))).
  { rewrite values_appendOption, values_newOption. apply in_or_app. right; exact Hx. }
  apply in_map_iff in Hv. destruct Hv as [o [Ho Hin]].
  exists (relabel lbl cnt o). split; [apply in_map, Hin |].
  rewrite relabel_value. exact Ho. }
split;
  [unfold counted; split; [exact Lt |]; split; [exact Ld |];
   split; [exact Ltl |]; split; [exact Ll |] |].
- intros c Hc. split; [| split].
  + intros Hv.
    destruct (Hopt (Index.trackFilter (Index.ctl s)) (trackSet cs)
                   (lit "All Tracks") ct (track c)) as [o [Ho Hvo]].
    { apply In_trackSet. split; [exact Hv | exists c; split; [exact Hc | reflexivity]]. }
    exists o. split; [rewrite E; exact Ho |]. split; [exact Hvo |].
    assert (Ho' : In o (Index.trackFilter (Index.ctl (Index.applyFilters s4))))
      by (rewrite E; exact Ho).
    destruct (Lt o Ho') as [Hlab _]. rewrite Hvo in Hlab.
    destruct (Hlab Hv) as [_ ->]. apply Nat.eqb_neq.
    apply (filter_nonempty _ cs c Hc). apply str_eqb_refl.
  + intros d Hdin Hv.
    destruct (Hopt (Index.domainFilter (Index.ctl s)) (sortDefault (domainSet cs))
                   (lit "All Domains") cd d) as [o [Ho Hvo]].
    { apply sortDefault_In, In_domainSet. exists c; split; assumption. }
    exists o. split; [rewrite E; exact Ho |]. split; [exact Hvo |].
    assert (Ho' : In o (Index.domainFilter (Index.ctl (Index.applyFilters s4))))
      by (rewrite E; exact Ho).
    destruct (Ld o Ho') as [Hlab _]. rewrite Hvo in Hlab.
    destruct (Hlab Hv) as [_ ->]. apply Nat.eqb_neq.
    apply (filter_nonempty _ cs c Hc). apply arr_includes_In, Hdin.
  + intros t Htin Hv.
    destruct (Hopt (Index.toolFilter (Index.ctl s)) (sortDefault (toolSet cs))
                   (lit "All Tools") ctl t) as [o [Ho Hvo]].
    { apply sortDefault_In, In_toolSet. exists c; split; assumption. }
    exists o. split; [rewrite E; exact Ho |]. split; [exact Hvo |].
    assert (Ho' : In o (Index.toolFilter (Index.ctl (Index.applyFilters s4))))
      by (rewrite E; exact Ho).
    destruct (Ltl o Ho') as [Hlab _]. rewrite Hvo in Hlab.
    destruct (Hlab Hv) as [_ ->]. apply Nat.eqb_neq.
    apply (filter_nonempty _ cs c Hc). apply arr_includes_In, Htin.
- split.
  + rewrite index_applyFilters_filtered.
    eapply perm_trans; [apply Permutation_sym, sortWith_perm |].
    rewrite Hc4.
    replace (filter (index_keep (Index.ctl s4)) cs) with cs; [apply Permutation_refl |].
    symmetry. rewrite <- (filter_ext (fun _ => true)).
    * clear. induction cs as [|x l IH]; simpl; [| rewrite IH]; reflexivity.
    * intros c. unfold index_keep. rewrite Ectl4.
      cbn [Index.searchInput Index.trackFilter Index.domainFilter Index.toolFilter
           Index.levelFilter].
      rewrite !select_value_relabel, Vt, Vd, Vtl, Vl, Vs. reflexivity.
  + destruct (index_applyFilters_keeps s4 Ha4) as (_ & _ & Hk).
    rewrite Hk. exact Hc4.
Qed.

Lemma encodeAll_ok (l : list jsstr) :
(forall d, In d l -> isWellFormed d = true) -> exists e, encodeAll l = Some e.
Proof.
induction l as [|d l IH]; intros Hwf; [exists []; reflexivity |].
destruct IH as [e He]; [intros x Hx; apply Hwf; right; exact Hx |].
destruct (proj1 (encode_wellFormed d) (Hwf d (or_introl eq_refl))) as [enc Hd].
cbn [encodeAll]. rewrite Hd, He. eexists. reflexivity.
Qed.

Lemma encodeAll_None (l : list jsstr) :
encodeAll l = None -> exists d, In d l /\ isWellFormed d = false.
Proof.
induction l as [|d l IH]; [discriminate |].
cbn [encodeAll]. destruct (encodeURIComponent d) eqn:He.
- destruct (encodeAll l); [discriminate |].
  intros _. destruct (IH eq_refl) as [x [Hx Hw]]. exists x. split; [right |]; assumption.
- intros _. exists d. split; [left; reflexivity | apply encode_throws, He].
Qed.

(** [renderCategories] throws only on a domain name that is not well
  formed. *)
Lemma categoryLinks_spec (s : Index.State) :
((forall c d, In c (index_courses s) -> In d (domains c) -> isWellFormed d = true) ->
 exists l, IndexUi.categoryLinks s = Some l)
/\ (IndexUi.categoryLinks s = None ->
    exists c d, In c (index_courses s) /\ In d (domains c) /\ isWellFormed d = false).
Proof.
unfold IndexUi.categoryLinks.
destruct (Index.categoriesContainer (Index.doc s));
  [| split; [intros _; eexists; reflexivity | discriminate]].
cbv zeta. fold (index_courses s).
assert (Hin : forall d,
           In d (jsslice 0 (Z.min (Index.categoriesPerPage
                                   * Index.categoriesPage (Index.vars s))
                                  (Z.of_nat (length (HomePage.sortedDomains
                                                       (index_courses s)))))
                         (HomePage.sortedDomains (index_courses s))) ->
           exists c, In c (index_courses s) /\ In d (domains c)).
{ intros d Hd. unfold jsslice in Hd. apply In_firstn_In, In_skipn_In in Hd.
  apply (Permutation_in _ (sortedDomains_perm (index_courses s))) in Hd.
  apply In_cardDomains in Hd. tauto. }
split.
- intros Hwf. apply encodeAll_ok. intros d Hd.
  destruct (Hin d Hd) as [c [Hc Hdc]]. exact (Hwf c d Hc Hdc).
- intros Hn. apply encodeAll_None in Hn. destruct Hn as [d [Hd Hw]].
  destruct (Hin d Hd) as [c [Hc Hdc]]. exists c, d. auto.
Qed.

(** The cards that [init] builds are cards of courses of the
  catalog. *)
Lemma index_updateActiveFilters_cards (s : Index.State) :
Index.coursesContainer (Index.doc (Index.updateActiveFilters s))
= Index.coursesContainer (Index.doc s).
Proof.
unfold Index.updateActiveFilters.
destruct (Index.activeFiltersDiv (Index.doc s)); reflexivity.
Qed.

Lemma index_applyFilters_cards (s : Index.State) (c : Course) :
In c (coursesShown (Index.coursesContainer (Index.doc (Index.applyFilters s)))) ->
In c (index_courses s).
Proof.
unfold Index.applyFilters, arr_filter, alloc. cbv beta iota zeta.
rewrite index_updateActiveFilters_cards, index_updateFilterCounts_doc.
rewrite index_renderCourses_shown by (cbn [Index.vars Index.currentPage]; lia).
intros Hin. apply In_firstn_In in Hin.
unfold index_filtered in Hin. cbn [Index.vars Index.heap Index.filteredCourses] in Hin.
match type of Hin with
| In c ?shown =>
    assert (E : shown
                = sortWith (sortComparator (Index.sortBySelect (Index.ctl s)))
                           (filter (index_keep (Index.ctl s)) (index_courses s)))
      by apply sort_fresh_result
end.
rewrite E in Hin. apply sortWith_In, filter_In in Hin. apply Hin.
Qed.

Lemma index_featured_cards (s : Index.State) (nodes : list Node) (c : Course) :
Index.featuredCoursesContainer (Index.doc (Index.renderFeaturedCourses s)) = Some nodes ->
In c (coursesShown nodes) -> In c (index_courses s).
Proof.
destruct (Index.featuredCoursesContainer (Index.doc s)) as [old|] eqn:Eo.
- rewrite (index_featured_shown s old Eo). intros E. injection E as <-.
  rewrite coursesShown_cards. intros Hin.
  apply (In_firstn_In 6) in Hin. apply sortWith_In in Hin. exact Hin.
- unfold Index.renderFeaturedCourses. rewrite Eo. rewrite Eo. discriminate.
Qed.

Lemma cardsBuilt_false (nodes : list Node) :
IndexUi.cardsBuilt nodes = false ->
exists c, In c (coursesShown nodes) /\ priced c = false.
Proof.
unfold IndexUi.cardsBuilt. generalize (coursesShown nodes). intros l.
induction l as [|c l IH]; [discriminate |].
cbn [forallb]. destruct (priced c) eqn:Ep; cbn [andb].
- intros E. destruct (IH E) as [x [Hx Hp]].
  exists x. split; [right |]; assumption.
- intros _. exists c. split; [left; reflexivity | exact Ep].
Qed.

Lemma cardsBuilt_true (nodes : list Node) :
(forall c, In c (coursesShown nodes) -> priced c = true) ->
IndexUi.cardsBuilt nodes = true.
Proof. intros Hp. unfold IndexUi.cardsBuilt. apply forallb_forall. exact Hp. Qed.

(** How [init] ends, from the links of the categories and the state
  in which it calls [applyFilters]. *)
Lemma init_outcome (links : option (list jsstr)) (s4 : Index.State)
  (cs : list Course) :
(forall nodes c,
   Index.featuredCoursesContainer (Index.doc s4) = Some nodes ->
   In c (coursesShown nodes) -> In c cs) ->
(forall c,
   In c (coursesShown (Index.coursesContainer (Index.doc (Index.applyFilters s4)))) ->
   In c cs) ->
let outcome :=
  match links with
  | None => None
  | Some _ =>
      if match Index.featuredCoursesContainer (Index.doc s4) with
         | Some nodes => IndexUi.cardsBuilt nodes
         | None => true
         end
      then
        if IndexUi.cardsBuilt (Index.coursesContainer (Index.doc (Index.applyFilters s4)))
        then Some (Index.applyFilters s4) else None
      else None
  end in
((exists l, links = Some l) -> (forall c, In c cs -> priced c = true) ->
 outcome = Some (Index.applyFilters s4))
/\ (outcome = None ->
    links = None \/ exists c, In c cs /\ priced c = false).
Proof.
intros Hfeat Happ outcome. subst outcome. split.
- intros [l ->] Hpr.
  assert (E1 : match Index.featuredCoursesContainer (Index.doc s4) with
               | Some nodes => IndexUi.cardsBuilt nodes
               | None => true
               end = true).
  { destruct (Index.featuredCoursesContainer (Index.doc s4)) as [nodes|];
      [| reflexivity].
    apply cardsBuilt_true. intros c Hc. apply Hpr. apply (Hfeat nodes c eq_refl Hc). }
  rewrite E1. rewrite cardsBuilt_true; [reflexivity |].
  intros c Hc. apply Hpr, Happ, Hc.
- destruct links as [l|]; [| intros _; left; reflexivity].
  intros E. right.
  destruct (IndexUi.cardsBuilt
              (Index.coursesContainer (Index.doc (Index.applyFilters s4)))) eqn:Eb2.
  + destruct (Index.featuredCoursesContainer (Index.doc s4)) as [nodes|];
      [| discriminate].
    destruct (IndexUi.cardsBuilt nodes) eqn:Eb; [discriminate |].
    apply cardsBuilt_false in Eb. destruct Eb as [c [Hc Hp]].
    exists c. split; [apply (Hfeat nodes c eq_refl Hc) | exact Hp].
  + apply cardsBuilt_false in Eb2. destruct Eb2 as [c [Hc Hp]].
    exists c. split; [apply Happ, Hc | exact Hp].
Qed.

Lemma initSteps_steps (s : Index.State) :
IndexUi.initSteps s
= Index.applyFilters
    (Index.renderFeaturedCourses
       (Index.renderCategories
          (Index.updateFilterCounts (IndexUi.populateFilters s)))).
Proof. unfold IndexUi.initSteps. reflexivity. Qed.

Lemma init_steps (s : Index.State) :
IndexUi.init s
= match IndexUi.categoryLinks (Index.updateFilterCounts (IndexUi.populateFilters s)) with
  | None => None
  | Some _ =>
      if match Index.featuredCoursesContainer
                 (Index.doc (Index.renderFeaturedCourses
                               (Index.renderCategories
                                  (Index.updateFilterCounts
                                     (IndexUi.populateFilters s))))) with
         | Some nodes => IndexUi.cardsBuilt nodes
         | None => true
         end
      then
        if IndexUi.cardsBuilt
             (Index.coursesContainer
                (Index.doc
                   (Index.applyFilters
                      (Index.renderFeaturedCourses
                         (Index.renderCategories
                            (Index.updateFilterCounts
                               (IndexUi.populateFilters s)))))))
        then Some (Index.applyFilters
                     (Index.renderFeaturedCourses
                        (Index.renderCategories
                           (Index.updateFilterCounts
                              (IndexUi.populateFilters s)))))
        else None
      else None
  end.
Proof. unfold IndexUi.init. cbv zeta. reflexivity. Qed.

(** X9.  [init] of the home page runs to its end when no domain name
  holds a lone surrogate and every record has its prices; when an
  exception stops it, one of the domain names holds a lone surrogate
  or one of the records lacks a price.  When it ends, for a catalog
  that is not empty and a page that starts with an empty search box
  and drop-downs on their empty option: every option with a value is
  labelled with the number of courses that have this track (domain,
  tool, level) and is disabled exactly when there is none; every
  non-empty track, domain and tool of a course has its option, and
  that option is enabled; the filtered list is the whole catalog. *)
Theorem init_home (s : Index.State) :
index_allocated s ->
index_courses s <> [] ->
searchTermOf (Index.searchInput (Index.ctl s)) = [] ->
unset (Index.trackFilter (Index.ctl s)) ->
unset (Index.domainFilter (Index.ctl s)) ->
unset (Index.toolFilter (Index.ctl s)) ->
unset (Index.levelFilter (Index.ctl s)) ->
let cs := index_courses s in
((forall c d, In c cs -> In d (domains c) -> isWellFormed d = true) ->
 (forall c, In c cs -> priced c = true) ->
 exists s',
   IndexUi.init s = Some s'
   /\ counted cs (Index.ctl s')
   /\ Permutation (index_filtered s') cs
   /\ index_courses s' = cs)
/\ (IndexUi.init s = None ->
    (exists c d, In c cs /\ In d (domains c) /\ isWellFormed d = false)
    \/ (exists c, In c cs /\ priced c = false)).
Proof.
intros Ha Hne Hterm Ht Hd Htl Hl. cbv zeta.
assert (Ec : index_courses (Index.updateFilterCounts (IndexUi.populateFilters s))
             = index_courses s).
{ unfold index_courses. rewrite index_updateFilterCounts_vars. reflexivity. }
destruct (categoryLinks_spec (Index.updateFilterCounts (IndexUi.populateFilters s)))
  as [Hok Hthrow].
rewrite Ec in Hok, Hthrow.
destruct (index_before_applyFilters s Ha) as (_ & Hc4 & _).
pose proof (initSteps_home s Ha Hne Hterm Ht Hd Htl Hl) as Hsteps.
rewrite initSteps_steps in Hsteps.
assert (Ec3 : index_courses
                (Index.renderCategories
                   (Index.updateFilterCounts (IndexUi.populateFilters s)))
              = index_courses s).
{ rewrite <- Ec. unfold index_courses, Index.renderCategories.
  destruct (Index.categoriesContainer _); reflexivity. }
destruct (init_outcome
            (IndexUi.categoryLinks (Index.updateFilterCounts (IndexUi.populateFilters s)))
            (Index.renderFeaturedCourses
               (Index.renderCategories
                  (Index.updateFilterCounts (IndexUi.populateFilters s))))
            (index_courses s)) as [Hgood Hbad].
{ intros nodes c En Hc. rewrite <- Ec3.
  apply (index_featured_cards _ nodes c En Hc). }
{ intros c Hc. rewrite <- Hc4. apply index_applyFilters_cards. exact Hc. }
rewrite init_steps. split.
- intros Hwf Hpr. eexists.
  split; [exact (Hgood (Hok Hwf) Hpr) | exact Hsteps].
- intros E. destruct (Hbad E) as [Hn | Hp]; [left; apply Hthrow, Hn | right; exact Hp].
Qed.
End IndexInitTheorem.

(** A record without a price ends [init] with the TypeError of its
    card. *)
Example init_unpriced :
  IndexUi.init (H := asciiBuiltins)
    (Sample.indexState (Sample.catalog ++ [Demo.unpriced]) "" "" "" "title")
  = None.
Proof. vm_compute. reflexivity. Qed.

(** ** The pages of the catalog *)



Lemma In_fromTo (a b k : Z) : In k (Listing.fromTo a b) <-> (a <= k <= b)%Z.
Proof.
  unfold Listing.fromTo. rewrite in_map_iff. split.
  - intros [i [<- Hi]]. apply in_seq in Hi. lia.
  - intros Hk. exists (Z.to_nat (k - a)). split; [lia |]. apply in_seq. lia.
Qed.

Lemma fromTo_sorted (a b : Z) : StronglySorted Z.lt (Listing.fromTo a b).
Proof.
  unfold Listing.fromTo. generalize (Z.to_nat (b - a + 1)) as n.
  generalize 0 as start.
  intros start n. revert start. induction n as [|n IH]; intros start; simpl.
  - constructor.
  - constructor; [apply IH |].
    rewrite Forall_forall. intros x Hx. apply in_map_iff in Hx.
    destruct Hx as [i [<- Hi]]. apply in_seq in Hi. lia.
Qed.

Lemma fromTo_length (a b : Z) : length (Listing.fromTo a b) = Z.to_nat (b - a + 1).
Proof. unfold Listing.fromTo. rewrite length_map, length_seq. reflexivity. Qed.

Lemma pageNumbers_numbers (l : list Z) :
  pageNumbers (List.map Listing.PageNumber l) = l.
Proof. induction l as [|x l IH]; simpl; [| rewrite IH]; reflexivity. Qed.

Lemma pageNumbers_app (a b : list Listing.PageItem) :
  pageNumbers (a ++ b) = pageNumbers a ++ pageNumbers b.
Proof. unfold pageNumbers. apply flat_map_app. Qed.

Lemma In_pageNumbers (items : list Listing.PageItem) (k : Z) :
  In k (pageNumbers items) <-> In (Listing.PageNumber k) items.
Proof.
  unfold pageNumbers. rewrite in_flat_map. split.
  - intros [item [Hin Hk]]. destruct item; simpl in Hk; try contradiction.
    destruct Hk as [<- | []]. exact Hin.
  - intros Hin. exists (Listing.PageNumber k). split; [exact Hin | left; reflexivity].
Qed.

Section Pages.
Context `{JsBuiltins}.

(** The items of a short and of a long pagination. *)
Lemma pagesToShow_short (T c : Z) :
(T <= 7)%Z ->
Listing.pagesToShow T c = List.map Listing.PageNumber (Listing.fromTo 1 T).
Proof.
intros HT. unfold Listing.pagesToShow.
destruct (Z.leb_spec T 7); [reflexivity | lia].
Qed.

Lemma pagesToShow_long (T c : Z) :
(7 < T)%Z ->
Listing.pagesToShow T c
= [Listing.PageNumber 1]
    ++ (if (3 <? c)%Z then [Listing.EllipsisStart] else [])
    ++ List.map Listing.PageNumber
         (Listing.fromTo (Z.max 2 (c - 1)) (Z.min (T - 1) (c + 1)))
    ++ (if (c <? T - 2)%Z then [Listing.EllipsisEnd] else [])
    ++ [Listing.PageNumber T].
Proof.
intros HT. unfold Listing.pagesToShow.
destruct (Z.leb_spec T 7); [lia | reflexivity].
Qed.

Lemma pagesToShow_numbers (T c : Z) :
pageNumbers (Listing.pagesToShow T c)
= if (T <=? 7)%Z then Listing.fromTo 1 T
  else 1%Z :: Listing.fromTo (Z.max 2 (c - 1)) (Z.min (T - 1) (c + 1)) ++ [T].
Proof.
destruct (Z.leb_spec T 7) as [HT | HT].
- rewrite pagesToShow_short by exact HT. apply pageNumbers_numbers.
- rewrite pagesToShow_long by exact HT.
  rewrite !pageNumbers_app, pageNumbers_numbers.
  destruct (3 <? c)%Z, (c <? T - 2)%Z; reflexivity.
Qed.

Lemma pagesToShow_ellipsis (T c : Z) :
(In Listing.EllipsisStart (Listing.pagesToShow T c) <-> (7 < T /\ 3 < c)%Z)
/\ (In Listing.EllipsisEnd (Listing.pagesToShow T c) <-> (7 < T /\ c < T - 2)%Z).
Proof.
destruct (Z.leb_spec T 7) as [HT | HT].
- rewrite pagesToShow_short by exact HT.
  split; (split; [| lia]); intros Hin; apply in_map_iff in Hin;
    destruct Hin as [x [Hx _]]; discriminate.
- rewrite pagesToShow_long by exact HT.
  assert (Hn : forall x l, In x (List.map Listing.PageNumber l) ->
                           x <> Listing.EllipsisStart /\ x <> Listing.EllipsisEnd).
  { intros x l Hx. apply in_map_iff in Hx. destruct Hx as [k [<- _]].
    split; discriminate. }
  split.
  + rewrite !in_app_iff. destruct (Z.ltb_spec 3 c) as [H3 | H3]; cbn [In].
    * split; [intros _; split; assumption |].
      intros _. right. left. left. reflexivity.
    * split; [| lia]. intros Hin.
      destruct Hin as [[Hin | []] | [[] | [Hin | [Hin | [Hin | []]]]]];
        try discriminate.
      -- apply Hn in Hin. tauto.
      -- destruct (c <? T - 2)%Z; cbn [In] in Hin;
           [destruct Hin as [Hin | []]; discriminate | contradiction].
  + rewrite !in_app_iff. destruct (Z.ltb_spec c (T - 2)) as [H3 | H3]; cbn [In].
    * split; [intros _; split; assumption |].
      intros _. right. right. right. left. left. reflexivity.
    * split; [| lia]. intros Hin.
      destruct Hin as [[Hin | []] | [Hin | [Hin | [[] | [Hin | []]]]]];
        try discriminate.
      -- destruct (3 <? c)%Z; cbn [In] in Hin;
           [destruct Hin as [Hin | []]; discriminate | contradiction].
      -- apply Hn in Hin. tauto.
Qed.

Lemma pagesToShow_shown (T c k : Z) :
In (Listing.PageNumber k) (Listing.pagesToShow T c)
<-> ((T <= 7 /\ 1 <= k <= T)
     \/ (7 < T /\ (k = 1 \/ (Z.max 2 (c - 1) <= k <= Z.min (T - 1) (c + 1)) \/ k = T)))%Z.
Proof.
rewrite <- In_pageNumbers, pagesToShow_numbers.
destruct (Z.leb_spec T 7) as [HT | HT].
- rewrite In_fromTo. lia.
- simpl. rewrite in_app_iff, In_fromTo. simpl. lia.
Qed.

(** X10.  The page buttons of the catalog, for a current page c among
  T pages.  The first page, the last page and the current page have
  a button; the buttons come in increasing order, at most seven of
  them, each for a page between 1 and T.  An ellipsis stands before
  (after) the current page exactly when some page before (after) it
  has no button. *)
Theorem page_buttons (T c : Z) :
(1 <= c <= T)%Z ->
let items := Listing.pagesToShow T c in
let shown k := In (Listing.PageNumber k) items in
shown 1%Z /\ shown c /\ shown T
/\ (forall k, shown k -> (1 <= k <= T)%Z)
/\ StronglySorted Z.lt (pageNumbers items)
/\ length (pageNumbers items) <= 7
/\ (In Listing.EllipsisStart items <-> exists k, (1 <= k < c)%Z /\ ~ shown k)
/\ (In Listing.EllipsisEnd items <-> exists k, (c < k <= T)%Z /\ ~ shown k).
Proof.
intros Hc items shown.
assert (Hs : forall k, shown k
               <-> ((T <= 7 /\ 1 <= k <= T)
                    \/ (7 < T /\ (k = 1 \/ (Z.max 2 (c - 1) <= k <= Z.min (T - 1) (c + 1))
                                  \/ k = T)))%Z)
  by (intros k; apply pagesToShow_shown).
destruct (pagesToShow_ellipsis T c) as [Hes Hee]. fold items in Hes, Hee.
split; [apply Hs; lia |]. split; [apply Hs; lia |]. split; [apply Hs; lia |].
split; [intros k Hk; apply Hs in Hk; lia |].
split; [| split; [| split]].
- unfold items. rewrite pagesToShow_numbers.
  destruct (Z.leb_spec T 7) as [HT | HT]; [apply fromTo_sorted |].
  constructor.
  + assert (Hsorted : forall l, StronglySorted Z.lt l ->
                        (forall x, In x l -> (x < T)%Z) ->
                        StronglySorted Z.lt (l ++ [T])).
    { intros l Hl. induction Hl as [|x l Hl IH Hx]; intros Hlt; simpl.
      - constructor; constructor.
      - constructor; [apply IH; intros y Hy; apply Hlt; right; exact Hy |].
        apply Forall_app. split; [exact Hx |].
        constructor; [apply Hlt; left; reflexivity | constructor]. }
    apply Hsorted; [apply fromTo_sorted |].
    intros x Hx. apply In_fromTo in Hx. lia.
  + apply Forall_app. split.
    * rewrite Forall_forall. intros x Hx. apply In_fromTo in Hx. lia.
    * constructor; [lia | constructor].
- unfold items. rewrite pagesToShow_numbers.
  destruct (Z.leb_spec T 7) as [HT | HT].
  + rewrite fromTo_length. lia.
  + simpl. rewrite length_app, fromTo_length. simpl. lia.
- rewrite Hes. split.
  + intros [HT H3]. exists 2%Z. split; [lia |]. rewrite Hs. lia.
  + intros [k [Hk Hn]]. rewrite Hs in Hn.
    destruct (Z.leb_spec T 7) as [HT | HT]; [exfalso; apply Hn; lia |].
    split; [exact HT |].
    destruct (Z.ltb_spec 3 c) as [H3 | H3]; [exact H3 |].
    exfalso. apply Hn. lia.
- rewrite Hee. split.
  + intros [HT H3]. exists (T - 1)%Z. split; [lia |]. rewrite Hs. lia.
  + intros [k [Hk Hn]]. rewrite Hs in Hn.
    destruct (Z.leb_spec T 7) as [HT | HT]; [exfalso; apply Hn; lia |].
    split; [exact HT |].
    destruct (Z.ltb_spec c (T - 2)) as [H3 | H3]; [exact H3 |].
    exfalso. apply Hn. lia.
Qed.
End Pages.


Section Navigation.
Context `{JsBuiltins}.



End Navigation.

(** ** Clearing the filters *)

Lemma filter_all_true {A : Type} (p : A -> bool) (l : list A) :
  (forall x, In x l -> p x = true) -> filter p l = l.
Proof.
  induction l as [|x l IH]; intros Hp; [reflexivity |].
  simpl. rewrite (Hp x (or_introl eq_refl)). f_equal.
  apply IH. intros y Hy. apply Hp. right; exact Hy.
Qed.

Section ClearAll.
Context `{JsBuiltins}.





End ClearAll.

(** ** The query parameters of the catalog page *)

Lemma selectedValues_set (v : jsstr) (sel : SelectEl) :
  v <> [] -> In v (List.map value sel) ->
  selectedValues (set_select_value v sel) = [v].
Proof.
  intros Hv. induction sel as [|o sel IH]; intros Hin; [destruct Hin |].
  cbn [set_select_value]. destruct (str_eqb (value o) v) eqn:E.
  - apply str_eqb_eq in E. unfold selectedValues.
    cbn [selectedOptions filter set_selected selected].
    fold (selectedOptions (List.map (set_selected false) sel)).
    rewrite selectedOptions_deselected. cbn [List.map value filter].
    change (value (set_selected true o)) with (value o).
    rewrite E. apply truthy_true in Hv. rewrite Hv. reflexivity.
  - apply str_eqb_neq in E. destruct Hin as [Hin | Hin]; [contradiction |].
    unfold selectedValues in *. cbn [selectedOptions filter set_selected selected].
    apply IH. exact Hin.
Qed.

Lemma selectedValues_set_none (v : jsstr) (sel : SelectEl) :
  ~ In v (List.map value sel) -> selectedValues (set_select_value v sel) = [].
Proof.
  induction sel as [|o sel IH]; intros Hno; [reflexivity |].
  cbn [set_select_value]. destruct (str_eqb (value o) v) eqn:E.
  - apply str_eqb_eq in E. exfalso. apply Hno. left. exact E.
  - unfold selectedValues in *. cbn [selectedOptions filter set_selected selected].
    apply IH. intros Hin. apply Hno. right. exact Hin.
Qed.

Lemma selectedValues_deselected (sel : SelectEl) :
  selectedValues (List.map (set_selected false) sel) = [].
Proof. unfold selectedValues. rewrite selectedOptions_deselected. reflexivity. Qed.

Lemma overlaps_one (l : list jsstr) (d : jsstr) : overlaps l [d] = arr_includes l d.
Proof.
  induction l as [|x l IH]; [reflexivity |].
  change (overlaps (x :: l) [d]) with (arr_includes [d] x || overlaps l [d]).
  change (arr_includes (x :: l) d) with (str_eqb x d || arr_includes l d).
  rewrite IH. unfold arr_includes at 1. cbn [existsb].
  rewrite orb_false_r, str_eqb_sym. reflexivity.
Qed.

Lemma filter_andb {A : Type} (p q : A -> bool) (l : list A) :
  filter (fun x => p x && q x) l = filter q (filter p l).
Proof.
  induction l as [|x l IH]; [reflexivity |].
  cbn [filter]. destruct (p x); cbn [andb filter]; rewrite IH; reflexivity.
Qed.

Section Query.
Context `{JsBuiltins}.

(** With no track, tool or level selected, [applyFilters] keeps the
  courses that pass the search box, the rating and the duration and,
  when a domain is selected, have it. *)
Lemma keepCourse_domain (term : jsstr) (r : option Q) (dur : jsstr)
  (ds : list jsstr) (course : Course) :
Listing.keepCourse term [] ds [] [] r dur course
= (if truthy term && negb (titleHas course term) then false
   else Listing.passesRatingDuration r dur course)
  && ((length ds =? 0)%nat || overlaps (domains course) ds).
Proof.
unfold Listing.keepCourse, Listing.passesRatingDuration.
destruct (truthy term && negb (titleHas course term)); [reflexivity |].
cbn [length Nat.ltb Nat.leb andb].
destruct ds as [|d ds].
- cbn [length Nat.ltb Nat.leb Nat.eqb andb orb]. rewrite andb_true_r. reflexivity.
- cbn [length Nat.ltb Nat.leb Nat.eqb andb orb].
  destruct (overlaps (domains course) (d :: ds)); cbn [negb].
  + rewrite andb_true_r. reflexivity.
  + rewrite andb_false_r. reflexivity.
Qed.

(** The state that [init] hands to [applyFilters]. *)
Lemma query_vars (q : ListingUi.Query) (s : Listing.State) :
Listing.vars (ListingUi.applyQueryParams q (ListingUi.populateFilters s))
= Listing.vars s.
Proof. reflexivity. Qed.

Lemma query_sortBy (q : ListingUi.Query) (s : Listing.State) :
Listing.sortBySelect
  (Listing.ctl (ListingUi.applyQueryParams q (ListingUi.populateFilters s)))
= Listing.sortBySelect (Listing.ctl s).
Proof. reflexivity. Qed.

Lemma query_rating (q : ListingUi.Query) (s : Listing.State) :
Listing.ratingThresholdOf
  (Listing.ctl (ListingUi.applyQueryParams q (ListingUi.populateFilters s)))
= Listing.ratingThresholdOf (Listing.ctl s).
Proof. reflexivity. Qed.

Lemma query_duration (q : ListingUi.Query) (s : Listing.State) :
Listing.durationCategoryOf
  (Listing.ctl (ListingUi.applyQueryParams q (ListingUi.populateFilters s)))
= Listing.durationCategoryOf (Listing.ctl s).
Proof. reflexivity. Qed.

Lemma query_tracks (q : ListingUi.Query) (s : Listing.State) :
ListingUi.qTrack q = None ->
selectedValues
  (Listing.trackFilter
     (Listing.ctl (ListingUi.applyQueryParams q (ListingUi.populateFilters s)))) = [].
Proof.
intros E. unfold ListingUi.applyQueryParams, ListingUi.populateFilters.
cbn [Listing.setControls Listing.ctl Listing.trackFilter]. rewrite E.
cbn [ListingUi.setIfGiven]. apply selectedValues_deselected.
Qed.

Lemma query_tools (q : ListingUi.Query) (s : Listing.State) :
ListingUi.qTool q = None ->
selectedValues
  (Listing.toolFilter
     (Listing.ctl (ListingUi.applyQueryParams q (ListingUi.populateFilters s)))) = [].
Proof.
intros E. unfold ListingUi.applyQueryParams, ListingUi.populateFilters.
cbn [Listing.setControls Listing.ctl Listing.toolFilter]. rewrite E.
cbn [ListingUi.setIfGiven]. apply selectedValues_deselected.
Qed.

Lemma query_levels (q : ListingUi.Query) (s : Listing.State) :
ListingUi.qLevel q = None ->
selectedValues
  (Listing.levelFilter
     (Listing.ctl (ListingUi.applyQueryParams q (ListingUi.populateFilters s)))) = [].
Proof.
intros E. unfold ListingUi.applyQueryParams, ListingUi.populateFilters.
cbn [Listing.setControls Listing.ctl Listing.levelFilter]. rewrite E.
cbn [ListingUi.setIfGiven]. apply selectedValues_deselected.
Qed.

Lemma query_search (q : ListingUi.Query) (s : Listing.State) :
ListingUi.qQuery q = None ->
Listing.searchInput
  (Listing.ctl (ListingUi.applyQueryParams q (ListingUi.populateFilters s)))
= Listing.searchInput (Listing.ctl s).
Proof.
intros E. unfold ListingUi.applyQueryParams, ListingUi.populateFilters.
cbn [Listing.setControls Listing.ctl Listing.searchInput]. rewrite E. reflexivity.
Qed.

(** The domain select after [populateFilters] and a [domain]
  parameter: the options it had and those of the catalog, with the
  first that carries the value selected. *)
Lemma query_domains (q : ListingUi.Query) (s : Listing.State) (d : jsstr) :
ListingUi.qDomain q = Some d -> d <> [] ->
Listing.domainFilter
  (Listing.ctl (ListingUi.applyQueryParams q (ListingUi.populateFilters s)))
= set_select_value d
    (List.map (set_selected false)
       (Listing.domainFilter (Listing.ctl s)
          ++ List.map newOption (sortDefault (domainSet (listing_courses s))))).
Proof.
intros E Hd. unfold ListingUi.applyQueryParams, ListingUi.populateFilters.
cbn [Listing.setControls Listing.ctl Listing.domainFilter Listing.vars]. rewrite E.
cbn [ListingUi.setIfGiven]. apply truthy_true in Hd. rewrite Hd.
rewrite fold_appendOptionMultiple. reflexivity.
Qed.

Lemma init_selected (q : ListingUi.Query) (s : Listing.State) (t : FilterType) :
listing_raw (Listing.ctl (ListingUi.init q s)) t
= listing_raw
    (Listing.ctl (ListingUi.applyQueryParams q (ListingUi.populateFilters s))) t.
Proof.
unfold ListingUi.init.
rewrite listing_updateFilterCounts_raw, listing_applyFilters_raw. reflexivity.
Qed.

Lemma init_filtered (q : ListingUi.Query) (s : Listing.State) :
listing_filtered (ListingUi.init q s)
= sortWith (sortComparator (Listing.sortBySelect (Listing.ctl s)))
           (filter (listing_keep
                      (Listing.ctl (ListingUi.applyQueryParams q
                                      (ListingUi.populateFilters s))))
                   (listing_courses s)).
Proof.
unfold ListingUi.init.
generalize (query_vars q s), (query_sortBy q s).
generalize (ListingUi.applyQueryParams q (ListingUi.populateFilters s)).
intros s2 Ev Es.
unfold listing_filtered at 1. rewrite listing_updateFilterCounts_vars.
fold (listing_filtered (Listing.applyFilters s2)).
rewrite listing_applyFilters_filtered, Es.
unfold listing_courses. rewrite Ev. reflexivity.
Qed.

Lemma init_page (q : ListingUi.Query) (s : Listing.State) :
Listing.currentPage (Listing.vars (ListingUi.init q s)) = 1%Z.
Proof.
unfold ListingUi.init. rewrite listing_updateFilterCounts_vars.
apply listing_applyFilters_page.
Qed.

Lemma selectedValues_raw (sel sel' : SelectEl) :
List.map value (selectedOptions sel) = List.map value (selectedOptions sel') ->
selectedValues sel = selectedValues sel'.
Proof. unfold selectedValues. intros ->. reflexivity. Qed.

(** X13.  The catalog page opened with a [domain] parameter and no
  other: no track, tool or level is selected and the page is the
  first.  When the value is a domain of some course, it is the one
  selected domain, and the filtered list is made of the courses that
  have this domain among those that pass the search box and the
  rating and duration selects, in the chosen order.  When the value
  is no domain of the catalog and no option carried it, no domain
  is selected and the parameter filters nothing. *)
Theorem query_domain (s : Listing.State) (d : jsstr) :
d <> [] ->
let q := {| ListingUi.qTrack := None; ListingUi.qDomain := Some d;
            ListingUi.qTool := None; ListingUi.qLevel := None;
            ListingUi.qQuery := None |} in
let s' := ListingUi.init q s in
let c := Listing.ctl s in
let base :=
  Listing.baseFilteredOf (toLowerCase (trim (Listing.searchInput c)))
                         (Listing.ratingThresholdOf c)
                         (Listing.durationCategoryOf c) (listing_courses s) in
let order := sortWith (sortComparator (Listing.sortBySelect c)) in
(selectedValues (Listing.trackFilter (Listing.ctl s')) = []
 /\ selectedValues (Listing.toolFilter (Listing.ctl s')) = []
 /\ selectedValues (Listing.levelFilter (Listing.ctl s')) = []
 /\ Listing.currentPage (Listing.vars s') = 1%Z)
/\ ((exists course, In course (listing_courses s) /\ In d (domains course)) ->
    selectedValues (Listing.domainFilter (Listing.ctl s')) = [d]
    /\ listing_filtered s'
       = order (filter (fun course => arr_includes (domains course) d) base))
/\ ((forall course, In course (listing_courses s) -> ~ In d (domains course)) ->
    ~ In d (List.map value (Listing.domainFilter c)) ->
    selectedValues (Listing.domainFilter (Listing.ctl s')) = []
    /\ listing_filtered s' = order base).
Proof.
intros Hd q. cbv zeta.
assert (Qt : ListingUi.qTrack q = None) by reflexivity.
assert (Qd : ListingUi.qDomain q = Some d) by reflexivity.
assert (Qtl : ListingUi.qTool q = None) by reflexivity.
assert (Ql : ListingUi.qLevel q = None) by reflexivity.
assert (Qq : ListingUi.qQuery q = None) by reflexivity.
clearbody q.
pose proof (query_tracks q s Qt) as Tt.
pose proof (query_tools q s Qtl) as Tl.
pose proof (query_levels q s Ql) as Lv.
pose proof (query_domains q s d Qd Hd) as Dm.
pose proof (query_search q s Qq) as Sr.
pose proof (query_rating q s) as Rt.
pose proof (query_duration q s) as Du.
pose proof (init_filtered q s) as Ef.
pose proof (init_page q s) as Ep.
pose proof (init_selected q s) as Eraw.
revert Tt Tl Lv Dm Sr Rt Du Ef Ep Eraw.
generalize (ListingUi.applyQueryParams q (ListingUi.populateFilters s)).
generalize (ListingUi.init q s).
intros s' s2 Tt Tl Lv Dm Sr Rt Du Ef Ep Eraw.
assert (St : selectedValues (Listing.trackFilter (Listing.ctl s'))
             = selectedValues (Listing.trackFilter (Listing.ctl s2)))
  by (apply selectedValues_raw; exact (Eraw FTrack)).
assert (Sd : selectedValues (Listing.domainFilter (Listing.ctl s'))
             = selectedValues (Listing.domainFilter (Listing.ctl s2)))
  by (apply selectedValues_raw; exact (Eraw FDomain)).
assert (Stl : selectedValues (Listing.toolFilter (Listing.ctl s'))
             = selectedValues (Listing.toolFilter (Listing.ctl s2)))
  by (apply selectedValues_raw; exact (Eraw FTool)).
assert (Sl : selectedValues (Listing.levelFilter (Listing.ctl s'))
             = selectedValues (Listing.levelFilter (Listing.ctl s2)))
  by (apply selectedValues_raw; exact (Eraw FLevel)).
assert (Vd : List.map value
               (List.map (set_selected false)
                  (Listing.domainFilter (Listing.ctl s)
                     ++ List.map newOption (sortDefault (domainSet (listing_courses s)))))
             = List.map value (Listing.domainFilter (Listing.ctl s))
               ++ sortDefault (domainSet (listing_courses s))).
{ rewrite values_deselect_all, map_app, values_newOption. reflexivity. }
assert (Ek : forall ds,
           selectedValues (Listing.domainFilter (Listing.ctl s2)) = ds ->
           filter (listing_keep (Listing.ctl s2)) (listing_courses s)
           = filter (fun course => (length ds =? 0)%nat || overlaps (domains course) ds)
                    (Listing.baseFilteredOf
                       (toLowerCase (trim (Listing.searchInput (Listing.ctl s))))
                       (Listing.ratingThresholdOf (Listing.ctl s))
                       (Listing.durationCategoryOf (Listing.ctl s))
                       (listing_courses s))).
{ intros ds Eds. unfold Listing.baseFilteredOf. rewrite <- filter_andb.
  apply filter_ext. intros course. unfold listing_keep.
  rewrite Tt, Tl, Lv, Eds, Sr, Rt, Du. apply keepCourse_domain. }
split; [| split].
- rewrite St, Stl, Sl.
  split; [exact Tt | split; [exact Tl | split; [exact Lv | exact Ep]]].
- intros [course [Hc Hdc]].
  assert (Ed : selectedValues (Listing.domainFilter (Listing.ctl s2)) = [d]).
  { rewrite Dm. apply selectedValues_set; [exact Hd |].
    rewrite Vd. apply in_or_app. right.
    apply sortDefault_In, In_domainSet. exists course. auto. }
  split.
  + rewrite Sd. exact Ed.
  + rewrite Ef, (Ek [d] Ed). f_equal. apply filter_ext. intros x.
    cbn [length Nat.eqb orb]. apply overlaps_one.
- intros Hnone Hno.
  assert (Ed : selectedValues (Listing.domainFilter (Listing.ctl s2)) = []).
  { rewrite Dm. apply selectedValues_set_none.
    rewrite Vd. intros Hin.
    apply in_app_or in Hin. destruct Hin as [Hin | Hin]; [exact (Hno Hin) |].
    apply sortDefault_In, In_domainSet in Hin. destruct Hin as [course [Hc Hdc]].
    exact (Hnone course Hc Hdc). }
  split.
  + rewrite Sd. exact Ed.
  + rewrite Ef, (Ek [] Ed). f_equal.
    apply filter_all_true. intros x _. reflexivity.
Qed.

End Query.

(** ** Search suggestions *)

Lemma contains_add (t : jsstr) (l : list jsstr) :
  Theme.contains (Theme.add t l) t = true.
Proof.
  unfold Theme.add. destruct (Theme.contains l t) eqn:E;
    [exact E | apply contains_append].
Qed.


Section Suggestions.
Context `{JsBuiltins}.




End Suggestions.

(** ** The sidebar and the showcase of the home page *)

Lemma contains_add_other (t x : jsstr) (l : list jsstr) :
  x <> t -> Theme.contains (Theme.add t l) x = Theme.contains l x.
Proof.
  intros Hx. unfold Theme.add. destruct (Theme.contains l t); [reflexivity |].
  unfold Theme.contains, arr_includes. rewrite existsb_app. cbn [existsb].
  assert (E : str_eqb t x = false) by (apply str_eqb_neq; congruence).
  rewrite E. rewrite !orb_false_r. reflexivity.
Qed.

Lemma contains_remove_other (t x : jsstr) (l : list jsstr) :
  x <> t -> Theme.contains (Theme.remove t l) x = Theme.contains l x.
Proof.
  intros Hx. unfold Theme.contains, Theme.remove, arr_includes.
  induction l as [|y l IH]; [reflexivity |].
  cbn [filter existsb]. destruct (str_eqb y t) eqn:E; cbn [negb existsb].
  - apply str_eqb_eq in E. subst y.
    assert (E : str_eqb t x = false) by (apply str_eqb_neq; congruence).
    rewrite E, IH. reflexivity.
  - rewrite IH. reflexivity.
Qed.

(** X15.  [toggleSidebar] does nothing when the sidebar or its overlay
    is missing.  Otherwise it flips the class [-translate-x-full] of
    the sidebar and leaves the overlay hidden exactly when the sidebar
    is closed, whatever the overlay was before; no other class of
    either element changes. *)
Theorem sidebar_toggle (d : IndexUi.Sidebar) :
  let closedClass := lit "-translate-x-full" in
  let hiddenClass := lit "hidden" in
  match IndexUi.sidebar d, IndexUi.sidebarOverlay d with
  | Some sb, Some ov =>
      exists sb' ov',
        IndexUi.toggleSidebar d
        = {| IndexUi.sidebar := Some sb'; IndexUi.sidebarOverlay := Some ov' |}
        /\ Theme.contains sb' closedClass = negb (Theme.contains sb closedClass)
        /\ Theme.contains ov' hiddenClass = Theme.contains sb' closedClass
        /\ (forall x, x <> closedClass -> Theme.contains sb' x = Theme.contains sb x)
        /\ (forall x, x <> hiddenClass -> Theme.contains ov' x = Theme.contains ov x)
  | _, _ => IndexUi.toggleSidebar d = d
  end.
Proof.
  cbv zeta. unfold IndexUi.toggleSidebar.
  destruct (IndexUi.sidebar d) as [sb|]; [| reflexivity].
  destruct (IndexUi.sidebarOverlay d) as [ov|]; [| reflexivity].
  destruct (Theme.contains sb (lit "-translate-x-full")) eqn:E; cbn [negb].
  - eexists. eexists. split; [reflexivity |].
    rewrite !contains_remove.
    split; [reflexivity | split; [reflexivity | split]];
      intros x Hx; apply contains_remove_other; exact Hx.
  - eexists. eexists. split; [reflexivity |].
    rewrite !contains_add.
    split; [reflexivity | split; [reflexivity | split]];
      intros x Hx; apply contains_add_other; exact Hx.
Qed.

Lemma values_set_select_value (v : jsstr) (sel : SelectEl) :
  List.map value (set_select_value v sel) = List.map value sel.
Proof.
  induction sel as [|o sel IH]; [reflexivity |].
  cbn [set_select_value]. destruct (str_eqb (value o) v); cbn [List.map].
  - rewrite values_deselect_all. reflexivity.
  - rewrite IH. reflexivity.
Qed.

Lemma select_value_setIfPresent (field : option jsstr) (sel : SelectEl) :
  select_value (IndexUi.setIfPresent field (set_select_value [] sel)) = chosen field sel.
Proof.
  unfold IndexUi.setIfPresent, chosen. destruct field as [v|].
  - destruct (truthy v) eqn:T.
    + destruct (arr_includes (List.map value sel) v) eqn:E.
      * apply select_value_set. apply arr_includes_In in E.
        rewrite <- (values_set_select_value [] sel) in E.
        apply in_map_iff in E. destruct E as [o [Hv Ho]]. exists o. auto.
      * apply select_value_set_none. intros o Ho Hv.
        apply arr_includes_false in E. apply E.
        rewrite <- (values_set_select_value [] sel).
        apply in_map_iff. exists o. auto.
    + apply truthy_false in T. subst v.
      rewrite select_value_set_empty.
      destruct (arr_includes (List.map value sel) []); reflexivity.
  - apply select_value_set_empty.
Qed.

Section Showcase.
Context `{JsBuiltins}.

(** X16.  A click on a showcase button empties the search box, gives
  each of the four selects the value of the example when the example
  has one and the select has an option for it, and no value
  otherwise, and goes to page 1.  The filtered list is then made of
  the courses that match every select that got a value: a value of
  the example that is no option of its select filters nothing.
  [toLowerCase] is asked to map the empty string to itself. *)
Theorem showcase_click (example : IndexUi.Example) (s : Index.State) :
toLowerCase [] = [] ->
let s' := IndexUi.clickShowcase example s in
let c := Index.ctl s in
let t := chosen (IndexUi.exTrack example) (Index.trackFilter c) in
let d := chosen (IndexUi.exDomain example) (Index.domainFilter c) in
let tl := chosen (IndexUi.exTool example) (Index.toolFilter c) in
let lv := chosen (IndexUi.exLevel example) (Index.levelFilter c) in
Index.searchInput (Index.ctl s') = []
/\ select_value (Index.trackFilter (Index.ctl s')) = t
/\ select_value (Index.domainFilter (Index.ctl s')) = d
/\ select_value (Index.toolFilter (Index.ctl s')) = tl
/\ select_value (Index.levelFilter (Index.ctl s')) = lv
/\ Index.currentPage (Index.vars s') = 1%Z
/\ forall course,
     In course (index_filtered s')
     <-> In course (index_courses s)
         /\ (t <> [] -> track course = t)
         /\ (d <> [] -> In d (domains course))
         /\ (tl <> [] -> In tl (tools course))
         /\ (lv <> [] -> level course = lv).
Proof.
intros Hlow. cbv zeta. unfold IndexUi.clickShowcase. cbv zeta.
match goal with
| |- context [Index.applyFilters ?m] => set (s0 := m)
end.
assert (Vt : select_value (Index.trackFilter (Index.ctl s0))
             = chosen (IndexUi.exTrack example) (Index.trackFilter (Index.ctl s)))
  by apply select_value_setIfPresent.
assert (Vd : select_value (Index.domainFilter (Index.ctl s0))
             = chosen (IndexUi.exDomain example) (Index.domainFilter (Index.ctl s)))
  by apply select_value_setIfPresent.
assert (Vtl : select_value (Index.toolFilter (Index.ctl s0))
             = chosen (IndexUi.exTool example) (Index.toolFilter (Index.ctl s)))
  by apply select_value_setIfPresent.
assert (Vl : select_value (Index.levelFilter (Index.ctl s0))
             = chosen (IndexUi.exLevel example) (Index.levelFilter (Index.ctl s)))
  by apply select_value_setIfPresent.
assert (R : forall ft, index_raw (Index.ctl (Index.applyFilters s0)) ft
                       = index_raw (Index.ctl s0) ft)
  by (intros ft; apply index_applyFilters_raw).
split; [| split; [| split; [| split; [| split; [| split]]]]].
- pose proof (R FSearch) as E. cbn [index_raw] in E. injection E as E.
  rewrite E. reflexivity.
- pose proof (R FTrack) as E. cbn [index_raw] in E. injection E as E.
  rewrite E. exact Vt.
- pose proof (R FDomain) as E. cbn [index_raw] in E. injection E as E.
  rewrite E. exact Vd.
- pose proof (R FTool) as E. cbn [index_raw] in E. injection E as E.
  rewrite E. exact Vtl.
- pose proof (R FLevel) as E. cbn [index_raw] in E. injection E as E.
  rewrite E. exact Vl.
- apply index_applyFilters_page.
- intros course. rewrite index_applyFilters_filtered, sortWith_In, filter_In.
  change (index_courses s0) with (index_courses s).
  rewrite index_keep_matches. unfold index_matches. cbv zeta.
  rewrite Vt, Vd, Vtl, Vl.
  assert (Et : searchTermOf (Index.searchInput (Index.ctl s0)) = []).
  { unfold searchTermOf, s0. cbn [Index.setControls Index.ctl Index.searchInput].
    change (trim []) with (@nil N). exact Hlow. }
  rewrite Et. tauto.
Qed.

End Showcase.

(** ** The browsing pages *)

(** *** Counter tables *)

Lemma counts_get_tally (counts : list (jsstr * nat)) (k x : jsstr) :
  counts_get (tally counts x) k
  = (if str_eqb x k then 1 else 0) + counts_get counts k.
Proof.
  unfold counts_get.
  induction counts as [|[k' n] counts IH]; cbn [tally find fst snd].
  - destruct (str_eqb x k); reflexivity.
  - destruct (str_eqb k' x) eqn:Ex; cbn [find fst snd].
    + apply str_eqb_eq in Ex. subst k'.
      destruct (str_eqb x k); reflexivity.
    + destruct (str_eqb k' k) eqn:Ek; [| exact IH].
      apply str_eqb_eq in Ek. subst k'.
      rewrite str_eqb_sym, Ex. reflexivity.
Qed.

Lemma timesListed_cons (k x : jsstr) (l : list jsstr) :
  timesListed k (x :: l) = (if str_eqb x k then 1 else 0) + timesListed k l.
Proof.
  unfold timesListed. cbn [count_occ].
  destruct (list_eq_dec N.eq_dec x k) as [E | E].
  - subst. rewrite str_eqb_refl. reflexivity.
  - apply str_eqb_neq in E. rewrite E. reflexivity.
Qed.

Lemma counts_get_fold (l : list jsstr) (counts : list (jsstr * nat)) (k : jsstr) :
  counts_get (fold_left tally l counts) k = timesListed k l + counts_get counts k.
Proof.
  revert counts. induction l as [|x l IH]; intros counts; [reflexivity |].
  cbn [fold_left]. rewrite IH, counts_get_tally, timesListed_cons. lia.
Qed.

Lemma timesListed_own (k : jsstr) (l : list jsstr) :
  k <> lit "__proto__" ->
  timesListed k (filter (fun x => negb (inheritedAccessor x)) l) = timesListed k l.
Proof.
  intros Hk. induction l as [|x l IH]; [reflexivity |].
  cbn [filter]. unfold inheritedAccessor at 1.
  destruct (str_eqb x (lit "__proto__")) eqn:E; cbn [negb].
  - apply str_eqb_eq in E. subst x. rewrite timesListed_cons.
    assert (En : str_eqb (lit "__proto__") k = false)
      by (apply str_eqb_neq; congruence).
    rewrite En. exact IH.
  - rewrite !timesListed_cons, IH. reflexivity.
Qed.

(** The names of a counter object, sorted: every name that was
    counted but [__proto__], each once, in ascending order; and the
    number the object holds for it. *)
Lemma In_ownKeys (l : list jsstr) (k : jsstr) :
  In k (sortDefault (objectKeys (fold_left tallyOwn l [])))
  <-> In k l /\ k <> lit "__proto__".
Proof.
  rewrite sortDefault_In.
  assert (E : In k (objectKeys (fold_left tallyOwn l []))
              <-> In k (List.map fst (fold_left tallyOwn l []))).
  { split; apply Permutation_in;
      [| apply Permutation_sym]; apply objectKeys_perm. }
  rewrite E, fold_tallyOwn, tally_keys. cbn [List.map app].
  rewrite In_uniq, filter_In. unfold inheritedAccessor.
  rewrite negb_true_iff, str_eqb_neq. simpl. tauto.
Qed.

Lemma ownKeys_ascending (l : list jsstr) :
  ascending (sortDefault (objectKeys (fold_left tallyOwn l []))).
Proof.
  apply sortDefault_ascending.
  apply (Permutation_NoDup (Permutation_sym (objectKeys_perm _))).
  rewrite fold_tallyOwn, tally_keys. cbn [List.map app]. apply NoDup_uniq.
Qed.

Lemma ownKeys_count (l : list jsstr) (k : jsstr) :
  k <> lit "__proto__" ->
  counts_get (fold_left tallyOwn l []) k = timesListed k l.
Proof.
  intros Hk. rewrite fold_tallyOwn, counts_get_fold.
  rewrite (timesListed_own k l Hk). unfold counts_get. cbn [find]. lia.
Qed.

Lemma counts_value_number (counts : list (jsstr * nat)) (k : jsstr) :
  ~ In k inheritedMethods -> counts_value counts k = Num (counts_get counts k).
Proof.
  intros Hn. unfold counts_value, counterValue.
  apply arr_includes_false in Hn. rewrite Hn. reflexivity.
Qed.

(** The tracks that the track page counts. *)
Lemma fold_tracks (cs : list Course) (counts : list (jsstr * nat)) :
  fold_left (fun counts course =>
               if truthy (track course) then tallyOwn counts (track course)
               else counts) cs counts
  = fold_left tallyOwn (namedTracks cs) counts.
Proof.
  revert counts. induction cs as [|c cs IH]; intros counts; [reflexivity |].
  unfold namedTracks. cbn [fold_left List.map filter].
  destruct (truthy (track c)); cbn [fold_left]; apply IH.
Qed.

(** *** Card lists *)

Lemma cardsOf_ok (card : jsstr -> Result ListCard) (names : list jsstr) :
  (forall n, In n names -> exists c, card n = Ok c) ->
  exists cards,
    cardsOf card names = Ok cards
    /\ Forall2 (fun n c => card n = Ok c) names cards.
Proof.
  induction names as [|n names IH]; intros Hok.
  - exists []. split; [reflexivity | constructor].
  - destruct (Hok n (or_introl eq_refl)) as [c Hc].
    destruct IH as [cards [Hcs Hf]].
    { intros m Hm. apply Hok. right; exact Hm. }
    exists (c :: cards). split.
    + cbn [cardsOf]. rewrite Hc. cbn [bind]. rewrite Hcs. reflexivity.
    + constructor; assumption.
Qed.

Lemma cards_titles (card : jsstr -> Result ListCard) (names : list jsstr)
    (cards : list ListCard) :
  (forall n c, card n = Ok c -> cardTitle c = n) ->
  Forall2 (fun n c => card n = Ok c) names cards ->
  List.map cardTitle cards = names.
Proof.
  intros Ht Hf. induction Hf as [|n c names cards Hc Hf IH]; [reflexivity |].
  cbn [List.map]. rewrite (Ht n c Hc), IH. reflexivity.
Qed.

Lemma cards_In (card : jsstr -> Result ListCard) (names : list jsstr)
    (cards : list ListCard) (c : ListCard) :
  Forall2 (fun n c => card n = Ok c) names cards ->
  In c cards -> exists n, In n names /\ card n = Ok c.
Proof.
  intros Hf. induction Hf as [|n c' names cards Hc Hf IH]; [intros [] |].
  intros [<- | Hin].
  - exists n. split; [left; reflexivity | exact Hc].
  - destruct (IH Hin) as [m [Hm Hcm]]. exists m. split; [right; exact Hm | exact Hcm].
Qed.

Lemma encoded_ok (s : jsstr) :
  isWellFormed s = true -> exists enc, encodeURIComponent s = Some enc /\ encoded s = Ok enc.
Proof.
  intros Hw. apply encode_wellFormed in Hw. destruct Hw as [enc He].
  exists enc. split; [exact He |]. unfold encoded. rewrite He. reflexivity.
Qed.

(** The list of all names of an overview. *)
Lemma overview_cards (target : jsstr) (l : list jsstr) :
  (forall n, In n l -> isWellFormed n = true) ->
  let counts := fold_left tallyOwn l [] in
  let card := fun n =>
    enc <- encoded n ;;
    Ok {| cardTitle := n; cardCount := counts_value counts n;
          cardHref := target ++ enc |} in
  exists cards,
    cardsOf card (sortDefault (objectKeys counts)) = Ok cards
    /\ overviewCards target l cards.
Proof.
  intros Hw counts card.
  assert (Hcard : forall n, In n (sortDefault (objectKeys counts)) ->
                    exists c, card n = Ok c).
  { intros n Hn. apply In_ownKeys in Hn. destruct Hn as [Hn _].
    destruct (encoded_ok n (Hw n Hn)) as [enc [_ He]].
    eexists. unfold card. rewrite He. reflexivity. }
  destruct (cardsOf_ok card _ Hcard) as [cards [Hcs Hf]].
  exists cards. split; [exact Hcs |].
  assert (Ht : forall n c, card n = Ok c -> cardTitle c = n).
  { intros n c. unfold card, encoded.
    destruct (encodeURIComponent n); cbn [bind]; [| discriminate].
    intros E. injection E as <-. reflexivity. }
  pose proof (cards_titles card _ cards Ht Hf) as Etitles.
  unfold overviewCards. rewrite Etitles.
  split; [apply ownKeys_ascending | split; [intros n; apply In_ownKeys |]].
  intros c Hc. destruct (cards_In card _ cards c Hf Hc) as [n [Hn Hcn]].
  apply In_ownKeys in Hn. destruct Hn as [Hn Hproto].
  unfold card, encoded in Hcn.
  destruct (encodeURIComponent n) as [enc|] eqn:He; cbn [bind] in Hcn; [| discriminate].
  injection Hcn as <-. cbn [cardTitle cardCount cardHref]. split.
  - intros Hm. rewrite (counts_value_number counts n Hm). f_equal.
    apply ownKeys_count. exact Hproto.
  - exists enc. split; [exact He | reflexivity].
Qed.

(** *** The courses of a name *)

Lemma Selected_filter (P : Course -> Prop) (p : Course -> bool) (cs : list Course) :
  (forall c, p c = true <-> P c) -> Selected P cs (filter p cs).
Proof.
  intros Hp. induction cs as [|c cs IH]; [constructor |].
  cbn [filter]. destruct (p c) eqn:E.
  - apply selected_keep; [apply Hp; exact E | exact IH].
  - apply selected_drop; [| exact IH].
    intros HP. apply Hp in HP. congruence.
Qed.

Lemma Selected_unique (P : Course -> Prop) (cs sel sel' : list Course) :
  Selected P cs sel -> Selected P cs sel' -> sel = sel'.
Proof.
  intros Hs. revert sel'.
  induction Hs as [|c cs sel HP Hs IH|c cs sel HP Hs IH]; intros sel' Hs';
    inversion Hs'; subst; try contradiction.
  - reflexivity.
  - f_equal. apply IH. assumption.
  - apply IH. assumption.
Qed.

Lemma hasDomain_dec (name : jsstr) (c : Course) :
  arr_includes (domains c) name = true <-> hasDomain name c.
Proof. apply arr_includes_In. Qed.

Lemma hasTrack_dec (name : jsstr) (c : Course) :
  str_eqb (track c) name = true <-> hasTrack name c.
Proof. apply str_eqb_eq. Qed.

Lemma filter_nil_none (P : Course -> Prop) (p : Course -> bool) (cs : list Course) :
  (forall c, p c = true <-> P c) ->
  (filter p cs = [] <-> noneOf P cs).
Proof.
  intros Hp. unfold noneOf. split.
  - intros E c Hc HP. apply Hp in HP.
    assert (Hin : In c (filter p cs)) by (apply filter_In; split; assumption).
    rewrite E in Hin. contradiction.
  - intros Hn. induction cs as [|c cs IH]; [reflexivity |].
    cbn [filter]. destruct (p c) eqn:E.
    + exfalso. apply (Hn c (or_introl eq_refl)). apply Hp. exact E.
    + apply IH. intros c' Hc'. apply Hn. right; exact Hc'.
Qed.

Lemma none_not_some (P : Course -> Prop) (cs : list Course) :
  noneOf P cs -> ~ someOf P cs.
Proof. intros Hn [c [Hc HP]]. exact (Hn c Hc HP). Qed.

(** How many courses have a track, and how many have a domain. *)
Lemma timesListed_tracks (name : jsstr) (cs : list Course) :
  name <> [] ->
  timesListed name (namedTracks cs)
  = length (filter (fun c => str_eqb (track c) name) cs).
Proof.
  intros Hne. unfold namedTracks.
  induction cs as [|c cs IH]; [reflexivity |].
  cbn [List.map filter]. destruct (truthy (track c)) eqn:Et.
  - rewrite timesListed_cons, IH.
    destruct (str_eqb (track c) name); reflexivity.
  - apply truthy_false in Et. rewrite Et.
    assert (En : str_eqb [] name = false) by (apply str_eqb_neq; congruence).
    rewrite En. exact IH.
Qed.

Lemma timesListed_app (k : jsstr) (l l' : list jsstr) :
  timesListed k (l ++ l') = timesListed k l + timesListed k l'.
Proof. unfold timesListed. apply count_occ_app. Qed.

Lemma timesListed_NoDup (k : jsstr) (l : list jsstr) :
  NoDup l -> timesListed k l = if arr_includes l k then 1 else 0.
Proof.
  intros Hn. unfold timesListed.
  destruct (arr_includes l k) eqn:E.
  - apply arr_includes_In in E.
    apply (proj1 (NoDup_count_occ' (list_eq_dec N.eq_dec) l) Hn). exact E.
  - apply arr_includes_false in E. apply count_occ_not_In. exact E.
Qed.

Lemma timesListed_domains (name : jsstr) (cs : list Course) :
  (forall c, In c cs -> NoDup (domains c)) ->
  timesListed name (flat_map domains cs)
  = length (filter (fun c => arr_includes (domains c) name) cs).
Proof.
  intros Hn. induction cs as [|c cs IH]; [reflexivity |].
  cbn [flat_map filter]. rewrite timesListed_app.
  rewrite (timesListed_NoDup name (domains c)) by (apply Hn; left; reflexivity).
  rewrite IH by (intros c' Hc'; apply Hn; right; exact Hc').
  destruct (arr_includes (domains c) name); reflexivity.
Qed.

(** *** The cards of the courses *)

Lemma courseCards_ok (l : list Course) :
  (forall c, In c l -> priced c = true) ->
  courseCards l = Ok (List.map createCourseCard l).
Proof.
  intros Hp. unfold courseCards.
  assert (E : forallb priced l = true) by (apply forallb_forall; exact Hp).
  rewrite E. reflexivity.
Qed.

Lemma courseCards_throws (l : list Course) (c : Course) :
  In c l -> priced c = false -> courseCards l = Throw TypeError.
Proof.
  intros Hin Hp. unfold courseCards.
  destruct (forallb priced l) eqn:E; [| reflexivity].
  rewrite forallb_forall in E. rewrite (E c Hin) in Hp. discriminate.
Qed.

Section Browsing.
Context `{JsBuiltins}.

Hypothesis lower_nil : toLowerCase [] = [].
Hypothesis lower_nonempty : forall s, s <> [] -> toLowerCase s <> [].

(** A name found for a non-empty parameter is not empty. *)
Lemma firstKnown_truthy (names : list jsstr) (param m : jsstr) :
  param <> [] -> firstKnown names param = Some m -> truthy m = true.
Proof.
  intros Hp Hf. apply find_some in Hf. destruct Hf as [_ Hi].
  apply truthy_true. intros ->. rewrite lower_nil in Hi.
  apply includes_nil_l in Hi. exact (lower_nonempty param Hp Hi).
Qed.

Lemma domain_coursesOf_known (cs : list Course) (m : jsstr) :
  In m (flat_map domains cs) -> DomainPage.coursesOf cs m <> [].
Proof.
  intros Hin. apply in_flat_map in Hin. destruct Hin as [c [Hc Hm]].
  assert (Hk : In c (DomainPage.coursesOf cs m)).
  { apply filter_In. split; [exact Hc | apply arr_includes_In; exact Hm]. }
  intros E. rewrite E in Hk. contradiction.
Qed.

Lemma track_coursesOf_known (cs : list Course) (m : jsstr) :
  In m (List.map track cs) -> TrackPage.coursesOf cs m <> [].
Proof.
  intros Hin. apply in_map_iff in Hin. destruct Hin as [c [Hm Hc]].
  assert (Hk : In c (TrackPage.coursesOf cs m)).
  { apply filter_In. split; [exact Hc | apply str_eqb_eq; exact Hm]. }
  intros E. rewrite E in Hk. contradiction.
Qed.

(** The two attempts of the domain page. *)
Lemma domain_resolve_spec (cs : list Course) (param : jsstr) :
  param <> [] ->
  DomainPage.resolve cs param
  = match DomainPage.coursesOf cs param with
    | [] =>
        match firstKnown (flat_map domains cs) param with
        | Some m => (m, DomainPage.coursesOf cs m)
        | None => (param, [])
        end
    | _ :: _ => (param, DomainPage.coursesOf cs param)
    end.
Proof.
  intros Hp. unfold DomainPage.resolve. cbv zeta.
  destruct (DomainPage.coursesOf cs param) as [|c l] eqn:E; [| reflexivity].
  cbn [length Nat.eqb].
  rewrite find_uniq by (intros x []).
  fold (firstKnown (flat_map domains cs) param).
  destruct (firstKnown (flat_map domains cs) param) as [m|] eqn:F; [| reflexivity].
  rewrite (firstKnown_truthy _ _ _ Hp F). reflexivity.
Qed.

Lemma track_resolve_spec (cs : list Course) (param : jsstr) :
  param <> [] ->
  TrackPage.resolve cs param
  = match TrackPage.coursesOf cs param with
    | [] =>
        match firstKnown (List.map track cs) param with
        | Some m => (m, TrackPage.coursesOf cs m)
        | None => (param, [])
        end
    | _ :: _ => (param, TrackPage.coursesOf cs param)
    end.
Proof.
  intros Hp. unfold TrackPage.resolve. cbv zeta.
  destruct (TrackPage.coursesOf cs param) as [|c l] eqn:E; [| reflexivity].
  cbn [length Nat.eqb].
  rewrite find_uniq by (intros x []).
  fold (firstKnown (List.map track cs) param).
  destruct (firstKnown (List.map track cs) param) as [m|] eqn:F; [| reflexivity].
  rewrite (firstKnown_truthy _ _ _ Hp F). reflexivity.
Qed.

(** The page of a name with courses: no step throws when the names
    are well formed and the courses have their prices. *)
Lemma renderDomain_ok (name : jsstr) (cs filtered : list Course)
    (d : DomainPage.Document) (desc : Description) :
  DomainPage.domainDescription d = Some desc ->
  namesWellFormed cs ->
  (forall c, In c cs -> priced c = true) ->
  (forall c, In c filtered -> In c cs) ->
  isWellFormed name = true ->
  exists d',
    DomainPage.renderDomain name filtered d = Ok d'
    /\ DomainPage.domainName d' = name
    /\ ~ domain_message_shown d'
    /\ Permutation (coursesShown (DomainPage.courseList d')) filtered.
Proof.
  intros Hd Hw Hp Hsub Hname. unfold DomainPage.renderDomain.
  destruct (Seo.generateDomainDescription name) as [html|] eqn:Eh.
  2:{ unfold Seo.generateDomainDescription in Eh.
      destruct (encoded_ok name Hname) as [enc [He _]].
      rewrite He in Eh. discriminate. }
  rewrite Hd. cbv zeta.
  destruct (cardsOf_ok
              (DomainPage.toolCard name
                 (fold_left (fun counts course =>
                               fold_left tallyOwn (tools course) counts) filtered []))
              (sortDefault (objectKeys
                 (fold_left (fun counts course =>
                               fold_left tallyOwn (tools course) counts) filtered []))))
    as [cards [Hcs _]].
  { intros t Ht. rewrite (fold_left_flat_map tallyOwn tools) in Ht.
    apply In_ownKeys in Ht. destruct Ht as [Ht _].
    apply in_flat_map in Ht. destruct Ht as [c [Hc Htc]].
    destruct (Hw c (Hsub c Hc)) as (_ & _ & Htools).
    destruct (encoded_ok name Hname) as [e1 [_ E1]].
    destruct (encoded_ok t (Htools t Htc)) as [e2 [_ E2]].
    eexists. unfold DomainPage.toolCard. rewrite E1. cbn [bind].
    rewrite E2. reflexivity. }
  rewrite Hcs. cbn [bind].
  rewrite courseCards_ok.
  2:{ intros c Hc. apply sortWith_In in Hc. apply Hp, Hsub, Hc. }
  cbn [bind]. eexists. split; [reflexivity |].
  cbn [DomainPage.domainName DomainPage.courseList].
  split; [reflexivity | split].
  - unfold domain_message_shown. cbn [DomainPage.domainDescription]. discriminate.
  - rewrite coursesShown_cards. apply Permutation_sym, sortWith_perm.
Qed.

Lemma renderTrack_ok (name : jsstr) (cs filtered : list Course)
    (d : TrackPage.Document) (desc : Description) :
  TrackPage.trackDescription d = Some desc ->
  namesWellFormed cs ->
  (forall c, In c cs -> priced c = true) ->
  (forall c, In c filtered -> In c cs) ->
  isWellFormed name = true ->
  exists d',
    TrackPage.renderTrack name filtered d = Ok d'
    /\ TrackPage.trackName d' = name
    /\ ~ track_message_shown d'
    /\ Permutation (coursesShown (TrackPage.courseList d')) filtered.
Proof.
  intros Hd Hw Hp Hsub Hname. unfold TrackPage.renderTrack.
  destruct (Seo.generateTrackDescription name) as [html|] eqn:Eh.
  2:{ unfold Seo.generateTrackDescription in Eh.
      destruct (encoded_ok name Hname) as [enc [He _]].
      rewrite He in Eh. discriminate. }
  rewrite Hd. cbv zeta.
  destruct (cardsOf_ok
              (TrackPage.domainCard name
                 (fold_left (fun counts course =>
                               fold_left tallyOwn (domains course) counts) filtered []))
              (sortDefault (objectKeys
                 (fold_left (fun counts course =>
                               fold_left tallyOwn (domains course) counts) filtered []))))
    as [cards [Hcs _]].
  { intros t Ht. rewrite (fold_left_flat_map tallyOwn domains) in Ht.
    apply In_ownKeys in Ht. destruct Ht as [Ht _].
    apply in_flat_map in Ht. destruct Ht as [c [Hc Htc]].
    destruct (Hw c (Hsub c Hc)) as (_ & Hdoms & _).
    destruct (encoded_ok name Hname) as [e1 [_ E1]].
    destruct (encoded_ok t (Hdoms t Htc)) as [e2 [_ E2]].
    eexists. unfold TrackPage.domainCard. rewrite E1. cbn [bind].
    rewrite E2. reflexivity. }
  rewrite Hcs. cbn [bind].
  rewrite courseCards_ok.
  2:{ intros c Hc. apply sortWith_In in Hc. apply Hp, Hsub, Hc. }
  cbn [bind]. eexists. split; [reflexivity |].
  cbn [TrackPage.trackName TrackPage.courseList].
  split; [reflexivity | split].
  - unfold track_message_shown. cbn [TrackPage.trackDescription]. discriminate.
  - rewrite coursesShown_cards. apply Permutation_sym, sortWith_perm.
Qed.

Lemma domain_init_correct (param : jsstr) (cs : list Course)
    (d : DomainPage.Document) (desc : Description) :
  param <> [] ->
  DomainPage.domainDescription d = Some desc ->
  namesWellFormed cs ->
  (forall c, In c cs -> priced c = true) ->
  exists d',
    DomainPage.init (Some param) cs d = Ok d'
    /\ domain_page_correct param cs d d'.
Proof.
  intros Hp Hd Hw Hpr. unfold DomainPage.init.
  apply truthy_true in Hp as Ht. rewrite Ht. cbn [negb].
  rewrite (domain_resolve_spec cs param Hp).
  pose proof (fun n => filter_nil_none (hasDomain n)
                (fun c => arr_includes (domains c) n) cs (hasDomain_dec n)) as Hnone.
  pose proof (fun n => Selected_filter (hasDomain n)
                (fun c => arr_includes (domains c) n) cs (hasDomain_dec n)) as Hsel.
  assert (Hsub : forall n c, In c (DomainPage.coursesOf cs n) -> In c cs).
  { intros n c Hc. apply filter_In in Hc. apply Hc. }
  assert (Hwf : forall n, In n (flat_map domains cs) -> isWellFormed n = true).
  { intros n Hn. apply in_flat_map in Hn. destruct Hn as [c [Hc Hn]].
    destruct (Hw c Hc) as (_ & Hdoms & _). apply Hdoms, Hn. }
  unfold domain_page_correct. cbv zeta.
  fold (DomainPage.coursesOf cs) in Hnone, Hsel.
  destruct (DomainPage.coursesOf cs param) as [|c l] eqn:E.
  - apply Hnone in E as Hfirst.
    destruct (firstKnown (flat_map domains cs) param) as [m|] eqn:F.
    + assert (Hin : In m (flat_map domains cs))
        by (apply find_some in F; apply F).
      assert (Hm : DomainPage.coursesOf cs m <> [])
        by (apply domain_coursesOf_known; exact Hin).
      destruct (DomainPage.coursesOf cs m) as [|c' l'] eqn:Em; [contradiction |].
      cbn [length Nat.eqb].
      destruct (renderDomain_ok m cs (c' :: l') d desc Hd Hw Hpr)
        as [d' (Hr & Hname & Hmsg & Hperm)].
      { rewrite <- Em. apply Hsub. }
      { apply Hwf, Hin. }
      exists d'. split; [exact Hr |].
      split; [| split; [| split]].
      * split; [intros Hs; contradiction |].
        intros [_ Hs]. exfalso. apply Hm.
        rewrite <- Em. apply Hnone. apply Hs. reflexivity.
      * intros Hs; contradiction.
      * intros Hsome. exfalso. exact (none_not_some _ _ Hfirst Hsome).
      * intros _ m' Hm'. injection Hm' as <-.
        split; [exact Hname |].
        exists (c' :: l'). split; [rewrite <- Em; apply Hsel | exact Hperm].
    + cbn [length Nat.eqb]. eexists. split; [reflexivity |].
      unfold domain_message_shown.
      cbn [DomainPage.domainDescription DomainPage.toolList
           DomainPage.courseList DomainPage.domainName].
      rewrite Hd. cbn [option_map].
      split; [| split; [| split]].
      * split; [| reflexivity].
        intros _. split; [exact Hfirst | intros m Hm; discriminate].
      * intros _. split; reflexivity.
      * intros Hsome. exfalso. exact (none_not_some _ _ Hfirst Hsome).
      * intros _ m' Hm'. discriminate.
  - cbn [length Nat.eqb].
    assert (Hc : In c (DomainPage.coursesOf cs param))
      by (rewrite E; left; reflexivity).
    apply filter_In in Hc. destruct Hc as [Hc Hhas].
    apply arr_includes_In in Hhas.
    destruct (renderDomain_ok param cs (c :: l) d desc Hd Hw Hpr)
      as [d' (Hr & Hname & Hmsg & Hperm)].
    { rewrite <- E. apply Hsub. }
    { apply Hwf. apply in_flat_map. exists c. split; assumption. }
    exists d'. split; [exact Hr |].
    split; [| split; [| split]].
    + split; [intros Hs; contradiction |].
      intros [Hs _]. exfalso. exact (Hs c Hc Hhas).
    + intros Hs; contradiction.
    + intros _. split; [exact Hname |].
      exists (c :: l). split; [rewrite <- E; apply Hsel | exact Hperm].
    + intros Hs. exfalso. exact (Hs c Hc Hhas).
Qed.

Lemma track_init_correct (param : jsstr) (cs : list Course)
    (d : TrackPage.Document) (desc : Description) :
  param <> [] ->
  TrackPage.trackDescription d = Some desc ->
  namesWellFormed cs ->
  (forall c, In c cs -> priced c = true) ->
  exists d',
    TrackPage.init (Some param) cs d = Ok d'
    /\ track_page_correct param cs d d'.
Proof.
  intros Hp Hd Hw Hpr. unfold TrackPage.init.
  apply truthy_true in Hp as Ht. rewrite Ht. cbn [negb].
  rewrite (track_resolve_spec cs param Hp).
  pose proof (fun n => filter_nil_none (hasTrack n)
                (fun c => str_eqb (track c) n) cs (hasTrack_dec n)) as Hnone.
  pose proof (fun n => Selected_filter (hasTrack n)
                (fun c => str_eqb (track c) n) cs (hasTrack_dec n)) as Hsel.
  assert (Hsub : forall n c, In c (TrackPage.coursesOf cs n) -> In c cs).
  { intros n c Hc. apply filter_In in Hc. apply Hc. }
  assert (Hwf : forall n, In n (List.map track cs) -> isWellFormed n = true).
  { intros n Hn. apply in_map_iff in Hn. destruct Hn as [c [<- Hc]].
    destruct (Hw c Hc) as (Hwt & _ & _). exact Hwt. }
  unfold track_page_correct. cbv zeta.
  fold (TrackPage.coursesOf cs) in Hnone, Hsel.
  destruct (TrackPage.coursesOf cs param) as [|c l] eqn:E.
  - apply Hnone in E as Hfirst.
    destruct (firstKnown (List.map track cs) param) as [m|] eqn:F.
    + assert (Hin : In m (List.map track cs))
        by (apply find_some in F; apply F).
      assert (Hm : TrackPage.coursesOf cs m <> [])
        by (apply track_coursesOf_known; exact Hin).
      destruct (TrackPage.coursesOf cs m) as [|c' l'] eqn:Em; [contradiction |].
      cbn [length Nat.eqb].
      destruct (renderTrack_ok m cs (c' :: l') d desc Hd Hw Hpr)
        as [d' (Hr & Hname & Hmsg & Hperm)].
      { rewrite <- Em. apply Hsub. }
      { apply Hwf, Hin. }
      exists d'. split; [exact Hr |].
      split; [| split; [| split]].
      * split; [intros Hs; contradiction |].
        intros [_ Hs]. exfalso. apply Hm.
        rewrite <- Em. apply Hnone. apply Hs. reflexivity.
      * intros Hs; contradiction.
      * intros Hsome. exfalso. exact (none_not_some _ _ Hfirst Hsome).
      * intros _ m' Hm'. injection Hm' as <-.
        split; [exact Hname |].
        exists (c' :: l'). split; [rewrite <- Em; apply Hsel | exact Hperm].
    + cbn [length Nat.eqb]. eexists. split; [reflexivity |].
      unfold track_message_shown.
      cbn [TrackPage.trackDescription TrackPage.domainList
           TrackPage.courseList TrackPage.trackName].
      rewrite Hd. cbn [option_map].
      split; [| split; [| split]].
      * split; [| reflexivity].
        intros _. split; [exact Hfirst | intros m Hm; discriminate].
      * intros _. split; reflexivity.
      * intros Hsome. exfalso. exact (none_not_some _ _ Hfirst Hsome).
      * intros _ m' Hm'. discriminate.
  - cbn [length Nat.eqb].
    assert (Hc : In c (TrackPage.coursesOf cs param))
      by (rewrite E; left; reflexivity).
    apply filter_In in Hc. destruct Hc as [Hc Hhas].
    apply str_eqb_eq in Hhas.
    destruct (renderTrack_ok param cs (c :: l) d desc Hd Hw Hpr)
      as [d' (Hr & Hname & Hmsg & Hperm)].
    { rewrite <- E. apply Hsub. }
    { apply Hwf. apply in_map_iff. exists c. split; assumption. }
    exists d'. split; [exact Hr |].
    split; [| split; [| split]].
    + split; [intros Hs; contradiction |].
      intros [Hs _]. exfalso. exact (Hs c Hc Hhas).
    + intros Hs; contradiction.
    + intros _. split; [exact Hname |].
      exists (c :: l). split; [rewrite <- E; apply Hsel | exact Hperm].
    + intros Hs. exfalso. exact (Hs c Hc Hhas).
Qed.

(** The page without a parameter. *)
Lemma renderAllDomains_overview (cs : list Course) (d : DomainPage.Document) :
  namesWellFormed cs ->
  exists d',
    DomainPage.renderAllDomains cs d = Ok d' /\ domain_overview cs d d'.
Proof.
  intros Hw. unfold DomainPage.renderAllDomains. cbv zeta.
  rewrite (fold_left_flat_map tallyOwn domains).
  destruct (overview_cards (lit "domain.html?domain=") (flat_map domains cs))
    as [cards [Hcs Hov]].
  { intros n Hn. apply in_flat_map in Hn. destruct Hn as [c [Hc Hn]].
    destruct (Hw c Hc) as (_ & Hdoms & _). apply Hdoms, Hn. }
  cbv zeta in Hcs. unfold DomainPage.domainCard. rewrite Hcs. cbn [bind].
  eexists. split; [reflexivity |].
  unfold domain_overview.
  cbn [DomainPage.domainName DomainPage.domainDescription DomainPage.hidden
       DomainPage.courseList DomainPage.toolsHeading DomainPage.toolList].
  split; [reflexivity | split; [| split; [| split; [| split; [| split]]]]].
  - destruct (DomainPage.domainDescription d); cbn [option_map]; [| discriminate].
    intros E. injection E as E. vm_compute in E. discriminate.
  - right. left. reflexivity.
  - reflexivity.
  - reflexivity.
  - exact Hov.
  - intros Hnd card sel Hcard Hm Hsel.
    destruct Hov as (_ & Hin & Hcount).
    destruct (Hcount card Hcard) as [Hnum _].
    rewrite (Hnum Hm). f_equal.
    rewrite (timesListed_domains _ cs Hnd).
    rewrite (Selected_unique _ cs sel _ Hsel
               (Selected_filter _ _ cs (hasDomain_dec (cardTitle card)))).
    reflexivity.
Qed.

Lemma renderAllTracks_overview (cs : list Course) (d : TrackPage.Document) :
  namesWellFormed cs ->
  exists d',
    TrackPage.renderAllTracks cs d = Ok d' /\ track_overview cs d d'.
Proof.
  intros Hw. unfold TrackPage.renderAllTracks. cbv zeta.
  rewrite fold_tracks.
  destruct (overview_cards (lit "track.html?track=") (namedTracks cs))
    as [cards [Hcs Hov]].
  { intros n Hn. unfold namedTracks in Hn. apply filter_In in Hn.
    destruct Hn as [Hn _]. apply in_map_iff in Hn. destruct Hn as [c [<- Hc]].
    destruct (Hw c Hc) as (Hwt & _ & _). exact Hwt. }
  cbv zeta in Hcs. unfold TrackPage.trackCard. rewrite Hcs. cbn [bind].
  eexists. split; [reflexivity |].
  unfold track_overview.
  cbn [TrackPage.trackName TrackPage.trackDescription TrackPage.hidden
       TrackPage.courseList TrackPage.domainHeading TrackPage.domainList].
  split; [reflexivity | split; [| split; [| split; [| split; [| split]]]]].
  - destruct (TrackPage.trackDescription d); cbn [option_map]; [| discriminate].
    intros E. injection E as E. vm_compute in E. discriminate.
  - right. right. left. reflexivity.
  - reflexivity.
  - reflexivity.
  - exact Hov.
  - intros card sel Hcard Hm Hsel.
    destruct Hov as (_ & Hin & Hcount).
    destruct (Hcount card Hcard) as [Hnum _].
    rewrite (Hnum Hm). f_equal.
    assert (Hne : cardTitle card <> []).
    { assert (Ht : In (cardTitle card) (namedTracks cs)).
      { apply Hin. apply in_map. exact Hcard. }
      unfold namedTracks in Ht. apply filter_In in Ht.
      apply truthy_true. apply Ht. }
    rewrite (timesListed_tracks _ cs Hne).
    rewrite (Selected_unique _ cs sel _ Hsel
               (Selected_filter _ _ cs (hasTrack_dec (cardTitle card)))).
    reflexivity.
Qed.

(** C6, amended.  On a page that has its description element, for a
    catalog whose names are well formed and whose records have their
    prices, and for every non-empty value of the [domain]
    (respectively [track]) parameter: the page first selects the
    courses whose domains contain (whose track equals) the
    parameter; when there is none it takes the first known domain
    (track) name that contains the parameter, case ignored, and
    selects the courses of that name; the message 'No courses found
    for this domain.' ('... this track.') is shown exactly when both
    attempts find no course, and then the card lists are left as
    they were; otherwise the cards shown are those of the selected
    courses, under the resolved name.  With a missing or empty
    parameter the page shows, under the heading 'All Domains' ('All
    Tracks'), one card for each domain (each non-empty track) of the
    catalog with the number of its courses, and neither the message
    nor a card of a course: the section of the courses is hidden and
    its list is left as it was.  [toLowerCase] is asked to map the
    empty string, and no other, to the empty string. *)
Theorem browsing_pages (pd pt : jsstr) (cs : list Course)
    (dd : DomainPage.Document) (dt : TrackPage.Document)
    (descd desct : Description) :
  pd <> [] -> pt <> [] ->
  DomainPage.domainDescription dd = Some descd ->
  TrackPage.trackDescription dt = Some desct ->
  namesWellFormed cs ->
  (forall c, In c cs -> priced c = true) ->
  (exists d', DomainPage.init (Some pd) cs dd = Ok d'
              /\ domain_page_correct pd cs dd d')
  /\ (exists d', TrackPage.init (Some pt) cs dt = Ok d'
                 /\ track_page_correct pt cs dt d')
  /\ (forall p, p = None \/ p = Some [] ->
        exists d', DomainPage.init p cs dd = Ok d' /\ domain_overview cs dd d')
  /\ (forall p, p = None \/ p = Some [] ->
        exists d', TrackPage.init p cs dt = Ok d' /\ track_overview cs dt d').
Proof.
  intros Hpd Hpt Hd Ht Hw Hpr. split; [| split; [| split]].
  - apply (domain_init_correct pd cs dd descd Hpd Hd Hw Hpr).
  - apply (track_init_correct pt cs dt desct Hpt Ht Hw Hpr).
  - intros p [-> | ->]; apply (renderAllDomains_overview cs dd Hw).
  - intros p [-> | ->]; apply (renderAllTracks_overview cs dt Hw).
Qed.
End Browsing.

Lemma asciiLower_nonempty (s : jsstr) : s <> [] -> List.map asciiLower s <> [].
Proof. destruct s; [congruence | discriminate]. Qed.

Example domain_page_partial_match :
  match DomainPage.init (H := asciiBuiltins) (Some (lit "vis")) Sample.catalog
                        Sample.domainDoc with
  | Ok d' =>
      (DomainPage.domainName d', DomainPage.toolList d',
       coursesShown (DomainPage.courseList d'))
      = (lit "Vision",
         [{| cardTitle := lit "Python"; cardCount := Num 1;
             cardHref := lit "listing.html?domain=Vision&tool=Python" |}],
         [Sample.introAI])
  | Throw _ => False
  end.
Proof. vm_compute. reflexivity. Qed.

Example track_page_not_found :
  match TrackPage.init (H := asciiBuiltins) (Some (lit "robotics")) Sample.catalog
                       Sample.trackDoc with
  | Ok d' =>
      (TrackPage.trackName d', TrackPage.trackDescription d', TrackPage.courseList d')
      = (lit "robotics", Some (PlainText TrackPage.notFoundMessage), [])
  | Throw _ => False
  end.
Proof. vm_compute. reflexivity. Qed.

Example domain_page_overview :
  match DomainPage.init (H := asciiBuiltins) None Sample.catalog Sample.domainDoc with
  | Ok d' =>
      (DomainPage.domainName d', DomainPage.toolList d')
      = (lit "All Domains",
         [{| cardTitle := lit "ML"; cardCount := Num 2;
             cardHref := lit "domain.html?domain=ML" |};
          {| cardTitle := lit "Physics"; cardCount := Num 1;
             cardHref := lit "domain.html?domain=Physics" |};
          {| cardTitle := lit "Vision"; cardCount := Num 1;
             cardHref := lit "domain.html?domain=Vision" |}])
  | Throw _ => False
  end.
Proof. vm_compute. reflexivity. Qed.

(** A domain named as a function that every object inherits is
    counted in text, and the name [__proto__] gets no card. *)
Example domain_page_inherited_names :
  match DomainPage.init (H := asciiBuiltins) None
          [Demo.named [lit "constructor"; lit "__proto__"];
           Demo.named [lit "constructor"]]
          Sample.domainDoc with
  | Ok d' =>
      List.map (fun c => (cardTitle c, cardCount c)) (DomainPage.toolList d')
      = [(lit "constructor", NativeText (lit "constructor") 2)]
  | Throw _ => False
  end.
Proof. vm_compute. reflexivity. Qed.

(** A lone surrogate in the name ends the page with a URIError, a
    record without a price with a TypeError. *)
Example domain_page_lone_surrogate :
  DomainPage.init (H := asciiBuiltins) (Some [55357%N])
                  [Demo.named [[55357%N]]] Sample.domainDoc
  = Throw URIError.
Proof. vm_compute. reflexivity. Qed.

Example domain_page_unpriced :
  DomainPage.init (H := asciiBuiltins) (Some (lit "ML")) [Demo.unpriced]
                  Sample.domainDoc
  = Throw TypeError.
Proof. vm_compute. reflexivity. Qed.

(** C6 as stated fails for the empty value of the parameter
    ([domain.html?domain=]): no course has the empty name among its
    domains, the first known domain that contains the empty string is
    'ML', whose courses the page should then show under that name, but
    the page lists all domains instead. *)
Lemma browsing_pages_counterexample :
  ~ domain_page_as_stated (H := asciiBuiltins) [] Sample.catalog Sample.domainDoc.
Proof.
  intros [d' [Hi (_ & _ & _ & Hsel)]].
  vm_compute in Hi. inversion Hi; subst d'. clear Hi.
  destruct (Hsel) with (m := lit "ML") as [Hname _].
  - intros c Hc Hd. unfold hasDomain in Hd.
    destruct Hc as [<- | [<- | [<- | []]]]; vm_compute in Hd;
      repeat (destruct Hd as [Hd | Hd]; [discriminate |]); exact Hd.
  - reflexivity.
  - vm_compute in Hname. discriminate.
Qed.

Lemma sample_namesWellFormed : namesWellFormed Sample.catalog.
Proof.
  intros c [<- | [<- | [<- | []]]]; (split; [reflexivity |]); split;
    intros n Hn; simpl in Hn;
    repeat (destruct Hn as [<- | Hn]; [reflexivity |]); contradiction.
Qed.

Lemma sample_priced (c : Course) : In c Sample.catalog -> priced c = true.
Proof. intros [<- | [<- | [<- | []]]]; reflexivity. Qed.

Lemma browsing_pages_witness :
  (exists d', DomainPage.init (H := asciiBuiltins) (Some (lit "vis")) Sample.catalog
                              Sample.domainDoc = Ok d'
              /\ domain_page_correct (H := asciiBuiltins) (lit "vis") Sample.catalog
                                     Sample.domainDoc d')
  /\ (exists d', TrackPage.init (H := asciiBuiltins) (Some (lit "robotics"))
                                Sample.catalog Sample.trackDoc = Ok d'
                 /\ track_page_correct (H := asciiBuiltins) (lit "robotics")
                                       Sample.catalog Sample.trackDoc d')
  /\ (forall p, p = None \/ p = Some [] ->
        exists d', DomainPage.init (H := asciiBuiltins) p Sample.catalog
                                   Sample.domainDoc = Ok d'
                   /\ domain_overview Sample.catalog Sample.domainDoc d')
  /\ (forall p, p = None \/ p = Some [] ->
        exists d', TrackPage.init (H := asciiBuiltins) p Sample.catalog
                                  Sample.trackDoc = Ok d'
                   /\ track_overview Sample.catalog Sample.trackDoc d').
Proof.
  apply (@browsing_pages asciiBuiltins eq_refl asciiLower_nonempty
           (lit "vis") (lit "robotics") Sample.catalog
           Sample.domainDoc Sample.trackDoc (PlainText []) (PlainText [])).
  - vm_compute. discriminate.
  - vm_compute. discriminate.
  - reflexivity.
  - reflexivity.
  - exact sample_namesWellFormed.
  - exact sample_priced.
Defined.

(** ** The properties at work on the sample catalog *)



Lemma sample_domains_wellFormed (c : Course) (d : jsstr) :
  In c (Sample.catalog ++ [Demo.survey]) -> In d (domains c) -> isWellFormed d = true.
Proof.
  intros Hc Hd.
  assert (Hall : forallb (fun x => forallb isWellFormed (domains x))
                         (Sample.catalog ++ [Demo.survey]) = true)
    by (vm_compute; reflexivity).
  rewrite forallb_forall in Hall. specialize (Hall c Hc).
  rewrite forallb_forall in Hall. exact (Hall d Hd).
Qed.

Lemma category_cards_witness :
  exists s' cards,
    HomePage.renderCategoriesHome (H := asciiBuiltins) Sample.catalog Demo.home = Some s'
    /\ HomePage.categoriesContainer s' = Some cards
    /\ List.map HomePage.heading cards = [lit "ML"; lit "Physics"; lit "Vision"].
Proof.
  destruct (@category_cards asciiBuiltins Sample.catalog Demo.home []) as [Hok _].
  - reflexivity.
  - vm_compute. discriminate.
  - destruct Hok as (s' & cards & E & Ec & _).
    + intros c d Hc. apply sample_domains_wellFormed. apply in_or_app. left. exact Hc.
    + exists s', cards. split; [exact E |]. split; [exact Ec |].
      vm_compute in E. injection E as <-. cbn in Ec. injection Ec as <-.
      vm_compute. reflexivity.
Defined.

Lemma category_paging_witness :
  exists s1 s2,
    HomePage.renderCategoriesHome (H := asciiBuiltins) [Demo.survey] Demo.home = Some s1
    /\ HomePage.clickShowMore (H := asciiBuiltins) [Demo.survey] s1 = Some s2
    /\ HomePage.categoriesPageHome s2 = 2%Z.
Proof.
  destruct (@category_paging asciiBuiltins [Demo.survey] Demo.home [] [])
    as (s1 & cards1 & E1 & _ & Hmore & _).
  - reflexivity.
  - reflexivity.
  - vm_compute. discriminate.
  - intros c d Hc. apply sample_domains_wellFormed. apply in_or_app. right. exact Hc.
  - destruct Hmore as (s2 & cards2 & E2 & _ & Hp & _).
    + vm_compute in E1. injection E1 as <-. reflexivity.
    + exists s1, s2. split; [exact E1 |]. split; [exact E2 | exact Hp].
Defined.

Lemma sample_unset (sel : SelectEl) (o : OptionEl) :
  selectedOptions sel = [o] -> value o = [] -> unset sel.
Proof.
  intros E Hv. unfold unset. rewrite E. split; [discriminate |].
  intros x [<- | []]. exact Hv.
Qed.

Lemma init_home_witness :
  exists s',
    IndexUi.init (H := asciiBuiltins) (Sample.indexState Sample.catalog "" "" "" "title")
    = Some s'
    /\ Permutation (index_filtered s') Sample.catalog.
Proof.
  destruct (@init_home asciiBuiltins (Sample.indexState Sample.catalog "" "" "" "title"))
    as [Hok _].
  - vm_compute. lia.
  - vm_compute. discriminate.
  - reflexivity.
  - apply (sample_unset _ (Sample.allOpt "All Tracks" true)); reflexivity.
  - apply (sample_unset _ (Sample.allOpt "All Domains" true)); reflexivity.
  - apply (sample_unset _ (Sample.allOpt "All Tools" true)); reflexivity.
  - apply (sample_unset _ (Sample.allOpt "All Levels" true)); reflexivity.
  - destruct Hok as (s' & E & _ & Hp & _).
    + intros c d Hc. apply sample_domains_wellFormed. apply in_or_app. left. exact Hc.
    + intros c Hc. exact (sample_priced c Hc).
    + exists s'. split; [exact E | exact Hp].
Defined.

Lemma page_buttons_witness :
  In (Listing.PageNumber 5) (Listing.pagesToShow 10 5)
  /\ In Listing.EllipsisStart (Listing.pagesToShow 10 5)
  /\ length (pageNumbers (Listing.pagesToShow 10 5)) <= 7.
Proof.
  destruct (page_buttons 10 5) as (_ & Hc & _ & _ & _ & Hlen & Hs & _).
  - lia.
  - split; [exact Hc |]. split; [| exact Hlen].
    apply Hs. exists 2%Z. split; [lia |]. vm_compute. intuition discriminate.
Defined.



Lemma query_domain_witness :
  List.map title
    (listing_filtered
       (ListingUi.init (H := asciiBuiltins)
          {| ListingUi.qTrack := None; ListingUi.qDomain := Some (lit "ML");
             ListingUi.qTool := None; ListingUi.qLevel := None;
             ListingUi.qQuery := None |}
          (Sample.listingState Sample.catalog "" "" "0" "all" "title")))
  = [lit "Deep Learning"; lit "Intro to AI"].
Proof.
  destruct (@query_domain asciiBuiltins
              (Sample.listingState Sample.catalog "" "" "0" "all" "title") (lit "ML"))
    as (_ & Hknown & _).
  - discriminate.
  - destruct Hknown as [_ E].
    + exists Sample.introAI. split; [left; reflexivity | left; reflexivity].
    + rewrite E. vm_compute. reflexivity.
Defined.


Lemma showcase_click_witness :
  let s' := IndexUi.clickShowcase (H := asciiBuiltins) Demo.firstExample
              (Sample.indexState Sample.catalog "deep" "Quantum" "Advanced" "title") in
  Index.searchInput (Index.ctl s') = []
  /\ select_value (Index.levelFilter (Index.ctl s')) = lit "Beginner"
  /\ In Sample.introAI (index_filtered s').
Proof.
  destruct (@showcase_click asciiBuiltins Demo.firstExample
              (Sample.indexState Sample.catalog "deep" "Quantum" "Advanced" "title"))
    as (Hs & _ & _ & _ & Hl & _ & Hf).
  - reflexivity.
  - split; [exact Hs |]. split; [rewrite Hl; vm_compute; reflexivity |].
    apply Hf. split; [left; reflexivity |].
    repeat split; intros Hn;
      first [exfalso; apply Hn; reflexivity | vm_compute; auto].
Defined.

(** On the sample catalog with a rating of at least 4.5 and a short
    duration asked for, a course of 4.2 points and three weeks is left
    out although it is short. *)
Lemma applyFilters_selects_witness :
  (In Sample.deepLearning
      (index_filtered
         (Index.applyFilters (H := asciiBuiltins)
            (Sample.indexState Sample.catalog "deep" "AI" "Advanced" "title")))
   <-> In Sample.deepLearning Sample.catalog
       /\ index_matches (H := asciiBuiltins)
            (Index.ctl (Sample.indexState Sample.catalog "deep" "AI" "Advanced" "title"))
            Sample.deepLearning)
  /\ (In Sample.deepLearning
         (listing_filtered
            (Listing.applyFilters (H := asciiBuiltins)
               (Sample.listingState Sample.catalog "" "" "4.5" "short" "title")))
      <-> In Sample.deepLearning Sample.catalog
          /\ listing_matches (H := asciiBuiltins)
               (Listing.ctl (Sample.listingState Sample.catalog "" "" "4.5" "short" "title"))
               Sample.deepLearning).
Proof.
  apply (@applyFilters_selects asciiBuiltins
           (Sample.indexState Sample.catalog "deep" "AI" "Advanced" "title")
           (Sample.listingState Sample.catalog "" "" "4.5" "short" "title")
           Sample.deepLearning).
  intros t E. vm_compute in E. injection E as <-. vm_compute. discriminate.
Defined.
